(** * PokeFarm-3D: the simulation core, embedded and checked

    The development follows [src/services/game.ts] (the simulation passes,
    the save/load bridge and the command handlers of the application) and the
    classes of the type module ([Player], [FarmWorld], [Resource], [Building],
    [CropPlot], [Pokemon]).

    Conventions of the embedding:
    - a JavaScript [number] is a rational [Q]; array lengths and indices are
      [nat].  There is no NaN and no infinity in the model;
    - a JavaScript object used as a dictionary is a [gmap string _];
    - an optional field ([f?: T]) or a nullable one ([T | null]) is an
      [option];
    - objects that the source mutates in place through an alias (creatures in
      [gs.pokemons], plots in [gs.cropPlots]) are addressed by their index in
      the owning array;
    - [Math.random], [Date], number formatting and the transcendental functions
      of [Math] belong to the platform and are taken from a [Platform] record;
      the tables of the constants module, which the source imports, are taken
      from a [Constants] record. *)

From stdpp Require Import gmap strings list.
From Stdlib Require Import QArith Qminmax Qround Qabs Ascii String Lqa.

Open Scope string_scope.
Open Scope Q_scope.

Abbreviation length := List.length (only parsing).

(** ** JavaScript primitives used by the source *)

Module JS.

Definition ltb (a b : Q) : bool := negb (Qle_bool b a).
Definition leb (a b : Q) : bool := Qle_bool a b.
Definition gtb (a b : Q) : bool := ltb b a.
Definition geb (a b : Q) : bool := leb b a.
Definition eqb (a b : Q) : bool := Qeq_bool a b.

(** Truthiness of a number, of a string and of an optional value. *)
Definition truthy (v : Q) : bool := negb (Qeq_bool v 0).
Definition truthyS (s : string) : bool := negb (String.eqb s "").

(** [a || d] on numbers and on optional numbers. *)
Definition orElse (v : Q) (d : Q) : Q := if truthy v then v else d.
Definition orElseO (v : option Q) (d : Q) : Q :=
  match v with Some q => orElse q d | None => d end.

Definition floor (v : Q) : Q := inject_Z (Qfloor v).
Definition trunc (v : Q) : Q :=
  if Qle_bool 0 v then inject_Z (Qfloor v) else inject_Z (Qceiling v).

(** The remainder operator [%]: the sign follows the dividend. *)
Definition rem (a b : Q) : Q := a - b * trunc (a / b).

Definition max (a b : Q) : Q := Qmax a b.
Definition min (a b : Q) : Q := Qmin a b.

(** [String.prototype.endsWith], [replace] with a string pattern (first
    occurrence only) and [toLowerCase] (on the ASCII letters; the item names
    of the game are ASCII). *)
Definition endsWith (s suffix : string) : bool :=
  let n := String.length s in
  let k := String.length suffix in
  if (k <=? n)%nat then String.eqb (String.substring (n - k) k s) suffix else false.

Definition replace (s pat rep : string) : string :=
  match String.index 0 pat s with
  | Some n =>
      String.substring 0 n s ++ rep ++
      String.substring (n + String.length pat)
        (String.length s - (n + String.length pat)) s
  | None => s
  end.

Definition lowerAscii (c : ascii) : ascii :=
  let n := nat_of_ascii c in
  if ((65 <=? n) && (n <=? 90))%nat then ascii_of_nat (n + 32) else c.

Fixpoint toLowerCase (s : string) : string :=
  match s with
  | EmptyString => EmptyString
  | String c r => String (lowerAscii c) (toLowerCase r)
  end.

(** [String.prototype.startsWith]. *)
Definition startsWith (s pre : string) : bool := String.prefix pre s.

(** [Array.prototype.includes] on an array of strings. *)
Definition includes (l : list string) (s : string) : bool :=
  existsb (String.eqb s) l.

(** [Array.prototype.findIndex] and [find]. *)
Fixpoint findIndex {A} (f : A -> bool) (l : list A) : option nat :=
  match l with
  | [] => None
  | a :: r => if f a then Some 0%nat else option_map S (findIndex f r)
  end.

Definition find {A} (f : A -> bool) (l : list A) : option A :=
  List.find f l.

(** [Array.prototype.splice(i, 1)]. *)
Definition splice1 {A} (i : nat) (l : list A) : list A :=
  firstn i l ++ skipn (S i) l.

End JS.

(** [clamp] of the source: [Math.max(a, Math.min(b, v))]. *)
Definition clamp (v a b : Q) : Q := JS.max a (JS.min b v).

(** ** Data model *)

Inductive PlantState : Type := bush | flower.
Inductive PlotState : Type := empty | growing | mature.
Inductive Gender : Type := male | female.
Inductive AiState : Type := idle | moving | working.
Inductive TeleportState : Type := home | away.
Inductive WeatherType : Type := clear | rain | storm | harsh_sunlight.

#[global] Instance PlantState_eq_dec : EqDecision PlantState.
Proof. solve_decision. Defined.
#[global] Instance PlotState_eq_dec : EqDecision PlotState.
Proof. solve_decision. Defined.
#[global] Instance AiState_eq_dec : EqDecision AiState.
Proof. solve_decision. Defined.
#[global] Instance TeleportState_eq_dec : EqDecision TeleportState.
Proof. solve_decision. Defined.
#[global] Instance WeatherType_eq_dec : EqDecision WeatherType.
Proof. solve_decision. Defined.

(** A point [{x, y}]. *)
Record Point : Type := mkPoint { px : Q; py : Q }.

(** The movement target of a creature, [{x, y, id?}]. *)
Record Target : Type := mkTarget { tx : Q; ty : Q; tid : option string }.

(** [HappinessModifier = number | {value, daysLeft}]. *)
Inductive HappinessModifier : Type :=
| Flat (value : Q)
| Decaying (value : Q) (daysLeft : Q).

(** An entry of [FarmWorld.specials]: a named polygon (river or quarry). *)
Record Special : Type := mkSpecial { sp_type : string; sp_points : list Point }.

Inductive FertileZone : Type :=
| circle (x y r : Q)
| poly (points : list Point) (center : Point) (radius : Q).

Record Cosmetic : Type := mkCosmetic {
  cos_type : string; cos_x : Q; cos_y : Q; cos_size : Q;
  cos_shapeVariant : Q; cos_sizeVariant : Q
}.

(** A respawn ticket, an entry of [GameState.respawnQueue]. *)
Record Ticket : Type := mkTicket { tk_type : string; timer : Q }.

Inductive GameEventType : Type :=
| new_pokemon | shiny_pokemon | evolution | death_age
| ability_find | pest_attack | pokemon_escape | fossil_revived.

Record GameEvent : Type := mkEvent {
  ev_id : string; ev_type : GameEventType; message : string
}.

(** [PlayerSkills]: the four skill levels. *)
Module PlayerSkills.

Record t : Type := mk {
  gerente : Q;
  sortudo : Q;
  tratador : Q;
  treinador : Q
}.


End PlayerSkills.

(** [class Player].  The inventory is a sparse dictionary from item names to counts. *)
Module Player.

Record t : Type := mk {
  name : string;
  profilePictureUrl : option string;
  energy : Q;
  maxEnergy : Q;
  money : Q;
  inventory : gmap string Q;
  level : Q;
  experience : Q;
  experienceToNextLevel : Q;
  skills : PlayerSkills.t;
  skillPoints : Q;
  team : list string
}.

Definition set_energy (v : Q) (p : t) : t :=
  mk (name p) (profilePictureUrl p) v (maxEnergy p) (money p) (inventory p)
  (level p) (experience p) (experienceToNextLevel p) (skills p)
  (skillPoints p) (team p).
Definition set_money (v : Q) (p : t) : t :=
  mk (name p) (profilePictureUrl p) (energy p) (maxEnergy p) v (inventory p)
  (level p) (experience p) (experienceToNextLevel p) (skills p)
  (skillPoints p) (team p).
Definition set_inventory (v : gmap string Q) (p : t) : t :=
  mk (name p) (profilePictureUrl p) (energy p) (maxEnergy p) (money p) v
  (level p) (experience p) (experienceToNextLevel p) (skills p)
  (skillPoints p) (team p).
Definition set_level (v : Q) (p : t) : t :=
  mk (name p) (profilePictureUrl p) (energy p) (maxEnergy p) (money p)
  (inventory p) v (experience p) (experienceToNextLevel p) (skills p)
  (skillPoints p) (team p).
Definition set_experience (v : Q) (p : t) : t :=
  mk (name p) (profilePictureUrl p) (energy p) (maxEnergy p) (money p)
  (inventory p) (level p) v (experienceToNextLevel p) (skills p)
  (skillPoints p) (team p).
Definition set_experienceToNextLevel (v : Q) (p : t) : t :=
  mk (name p) (profilePictureUrl p) (energy p) (maxEnergy p) (money p)
  (inventory p) (level p) (experience p) v (skills p) (skillPoints p)
  (team p).
Definition set_skills (v : PlayerSkills.t) (p : t) : t :=
  mk (name p) (profilePictureUrl p) (energy p) (maxEnergy p) (money p)
  (inventory p) (level p) (experience p) (experienceToNextLevel p) v
  (skillPoints p) (team p).
Definition set_skillPoints (v : Q) (p : t) : t :=
  mk (name p) (profilePictureUrl p) (energy p) (maxEnergy p) (money p)
  (inventory p) (level p) (experience p) (experienceToNextLevel p)
  (skills p) v (team p).
Definition set_team (v : list string) (p : t) : t :=
  mk (name p) (profilePictureUrl p) (energy p) (maxEnergy p) (money p)
  (inventory p) (level p) (experience p) (experienceToNextLevel p)
  (skills p) (skillPoints p) v.

End Player.

(** [class Camera]. *)
Module Camera.

Record t : Type := mk {
  x : Q;
  y : Q;
  scale : Q;
  minZoom : Q;
  maxZoom : Q;
  canvasWidth : Q;
  canvasHeight : Q
}.

Definition set_x (v : Q) (p : t) : t :=
  mk v (y p) (scale p) (minZoom p) (maxZoom p) (canvasWidth p) (canvasHeight p).
Definition set_y (v : Q) (p : t) : t :=
  mk (x p) v (scale p) (minZoom p) (maxZoom p) (canvasWidth p) (canvasHeight p).

End Camera.

(** [class Building]; [storage] is flattened into its three optional entries. *)
Module Building.

Record t : Type := mk {
  id : string;
  type : string;
  x : Q;
  y : Q;
  w : Q;
  h : Q;
  pokemonKind : option string;
  revivingFossil : option string;
  revivalProgress : option Q;
  rotation : Q
}.

Definition set_revivingFossil (v : option string) (p : t) : t :=
  mk (id p) (type p) (x p) (y p) (w p) (h p) (pokemonKind p) v
  (revivalProgress p) (rotation p).
Definition set_revivalProgress (v : option Q) (p : t) : t :=
  mk (id p) (type p) (x p) (y p) (w p) (h p) (pokemonKind p)
  (revivingFossil p) v (rotation p).
Definition set_pokemonKind (v : option string) (p : t) : t :=
  mk (id p) (type p) (x p) (y p) (w p) (h p) v (revivingFossil p)
  (revivalProgress p) (rotation p).
Definition set_rotation (v : Q) (p : t) : t :=
  mk (id p) (type p) (x p) (y p) (w p) (h p) (pokemonKind p)
  (revivingFossil p) (revivalProgress p) v.

End Building.

(** [class Resource]. *)
Module Resource.

Record t : Type := mk {
  id : string;
  type : string;
  x : Q;
  y : Q;
  size : Q;
  shapeVariant : Q;
  sizeVariant : Q;
  spawnDay : option Q;
  state : option PlantState
}.

Definition set_state (v : option PlantState) (p : t) : t :=
  mk (id p) (type p) (x p) (y p) (size p) (shapeVariant p) (sizeVariant p)
  (spawnDay p) v.

End Resource.

(** [class CropPlot]. *)
Module CropPlot.

Record t : Type := mk {
  id : string;
  x : Q;
  y : Q;
  state : PlotState;
  type : option string;
  growthDays : Q;
  matureTimeInDays : Q;
  fertilized : bool;
  isWatered : bool;
  rotation : Q
}.

Definition set_state (v : PlotState) (p : t) : t :=
  mk (id p) (x p) (y p) v (type p) (growthDays p) (matureTimeInDays p)
  (fertilized p) (isWatered p) (rotation p).
Definition set_type (v : option string) (p : t) : t :=
  mk (id p) (x p) (y p) (state p) v (growthDays p) (matureTimeInDays p)
  (fertilized p) (isWatered p) (rotation p).
Definition set_growthDays (v : Q) (p : t) : t :=
  mk (id p) (x p) (y p) (state p) (type p) v (matureTimeInDays p)
  (fertilized p) (isWatered p) (rotation p).
Definition set_matureTimeInDays (v : Q) (p : t) : t :=
  mk (id p) (x p) (y p) (state p) (type p) (growthDays p) v (fertilized p)
  (isWatered p) (rotation p).
Definition set_fertilized (v : bool) (p : t) : t :=
  mk (id p) (x p) (y p) (state p) (type p) (growthDays p)
  (matureTimeInDays p) v (isWatered p) (rotation p).
Definition set_isWatered (v : bool) (p : t) : t :=
  mk (id p) (x p) (y p) (state p) (type p) (growthDays p)
  (matureTimeInDays p) (fertilized p) v (rotation p).
Definition set_rotation (v : Q) (p : t) : t :=
  mk (id p) (x p) (y p) (state p) (type p) (growthDays p)
  (matureTimeInDays p) (fertilized p) (isWatered p) v.

End CropPlot.

(** [class Pokemon]. *)
Module Pokemon.

Record t : Type := mk {
  id : string;
  name : string;
  kind : string;
  x : Q;
  y : Q;
  isShiny : bool;
  gender : Gender;
  age : Q;
  maxAge : Q;
  homeBuildingId : option string;
  cooldown : Q;
  target : option Target;
  aiState : AiState;
  moveSpeed : Q;
  isSleeping : bool;
  Poder : option Q;
  teleportState : option TeleportState;
  teleportTimer : option Q;
  actionTimer : option Q;
  isImmortal : bool;
  scheduledDeathHour : option Q;
  torchicsCured : option Q;
  applesHarvested : option Q;
  happiness : Q;
  happinessModifiers : gmap string HappinessModifier;
  isNew : bool
}.

Definition set_name (v : string) (p : t) : t :=
  mk (id p) v (kind p) (x p) (y p) (isShiny p) (gender p) (age p) (maxAge p)
  (homeBuildingId p) (cooldown p) (target p) (aiState p) (moveSpeed p)
  (isSleeping p) (Poder p) (teleportState p) (teleportTimer p)
  (actionTimer p) (isImmortal p) (scheduledDeathHour p) (torchicsCured p)
  (applesHarvested p) (happiness p) (happinessModifiers p) (isNew p).
Definition set_kind (v : string) (p : t) : t :=
  mk (id p) (name p) v (x p) (y p) (isShiny p) (gender p) (age p) (maxAge p)
  (homeBuildingId p) (cooldown p) (target p) (aiState p) (moveSpeed p)
  (isSleeping p) (Poder p) (teleportState p) (teleportTimer p)
  (actionTimer p) (isImmortal p) (scheduledDeathHour p) (torchicsCured p)
  (applesHarvested p) (happiness p) (happinessModifiers p) (isNew p).
Definition set_x (v : Q) (p : t) : t :=
  mk (id p) (name p) (kind p) v (y p) (isShiny p) (gender p) (age p)
  (maxAge p) (homeBuildingId p) (cooldown p) (target p) (aiState p)
  (moveSpeed p) (isSleeping p) (Poder p) (teleportState p) (teleportTimer p)
  (actionTimer p) (isImmortal p) (scheduledDeathHour p) (torchicsCured p)
  (applesHarvested p) (happiness p) (happinessModifiers p) (isNew p).
Definition set_y (v : Q) (p : t) : t :=
  mk (id p) (name p) (kind p) (x p) v (isShiny p) (gender p) (age p)
  (maxAge p) (homeBuildingId p) (cooldown p) (target p) (aiState p)
  (moveSpeed p) (isSleeping p) (Poder p) (teleportState p) (teleportTimer p)
  (actionTimer p) (isImmortal p) (scheduledDeathHour p) (torchicsCured p)
  (applesHarvested p) (happiness p) (happinessModifiers p) (isNew p).
Definition set_age (v : Q) (p : t) : t :=
  mk (id p) (name p) (kind p) (x p) (y p) (isShiny p) (gender p) v
  (maxAge p) (homeBuildingId p) (cooldown p) (target p) (aiState p)
  (moveSpeed p) (isSleeping p) (Poder p) (teleportState p) (teleportTimer p)
  (actionTimer p) (isImmortal p) (scheduledDeathHour p) (torchicsCured p)
  (applesHarvested p) (happiness p) (happinessModifiers p) (isNew p).
Definition set_maxAge (v : Q) (p : t) : t :=
  mk (id p) (name p) (kind p) (x p) (y p) (isShiny p) (gender p) (age p) v
  (homeBuildingId p) (cooldown p) (target p) (aiState p) (moveSpeed p)
  (isSleeping p) (Poder p) (teleportState p) (teleportTimer p)
  (actionTimer p) (isImmortal p) (scheduledDeathHour p) (torchicsCured p)
  (applesHarvested p) (happiness p) (happinessModifiers p) (isNew p).
Definition set_homeBuildingId (v : option string) (p : t) : t :=
  mk (id p) (name p) (kind p) (x p) (y p) (isShiny p) (gender p) (age p)
  (maxAge p) v (cooldown p) (target p) (aiState p) (moveSpeed p)
  (isSleeping p) (Poder p) (teleportState p) (teleportTimer p)
  (actionTimer p) (isImmortal p) (scheduledDeathHour p) (torchicsCured p)
  (applesHarvested p) (happiness p) (happinessModifiers p) (isNew p).
Definition set_cooldown (v : Q) (p : t) : t :=
  mk (id p) (name p) (kind p) (x p) (y p) (isShiny p) (gender p) (age p)
  (maxAge p) (homeBuildingId p) v (target p) (aiState p) (moveSpeed p)
  (isSleeping p) (Poder p) (teleportState p) (teleportTimer p)
  (actionTimer p) (isImmortal p) (scheduledDeathHour p) (torchicsCured p)
  (applesHarvested p) (happiness p) (happinessModifiers p) (isNew p).
Definition set_target (v : option Target) (p : t) : t :=
  mk (id p) (name p) (kind p) (x p) (y p) (isShiny p) (gender p) (age p)
  (maxAge p) (homeBuildingId p) (cooldown p) v (aiState p) (moveSpeed p)
  (isSleeping p) (Poder p) (teleportState p) (teleportTimer p)
  (actionTimer p) (isImmortal p) (scheduledDeathHour p) (torchicsCured p)
  (applesHarvested p) (happiness p) (happinessModifiers p) (isNew p).
Definition set_aiState (v : AiState) (p : t) : t :=
  mk (id p) (name p) (kind p) (x p) (y p) (isShiny p) (gender p) (age p)
  (maxAge p) (homeBuildingId p) (cooldown p) (target p) v (moveSpeed p)
  (isSleeping p) (Poder p) (teleportState p) (teleportTimer p)
  (actionTimer p) (isImmortal p) (scheduledDeathHour p) (torchicsCured p)
  (applesHarvested p) (happiness p) (happinessModifiers p) (isNew p).
Definition set_isSleeping (v : bool) (p : t) : t :=
  mk (id p) (name p) (kind p) (x p) (y p) (isShiny p) (gender p) (age p)
  (maxAge p) (homeBuildingId p) (cooldown p) (target p) (aiState p)
  (moveSpeed p) v (Poder p) (teleportState p) (teleportTimer p)
  (actionTimer p) (isImmortal p) (scheduledDeathHour p) (torchicsCured p)
  (applesHarvested p) (happiness p) (happinessModifiers p) (isNew p).
Definition set_teleportState (v : option TeleportState) (p : t) : t :=
  mk (id p) (name p) (kind p) (x p) (y p) (isShiny p) (gender p) (age p)
  (maxAge p) (homeBuildingId p) (cooldown p) (target p) (aiState p)
  (moveSpeed p) (isSleeping p) (Poder p) v (teleportTimer p) (actionTimer p)
  (isImmortal p) (scheduledDeathHour p) (torchicsCured p)
  (applesHarvested p) (happiness p) (happinessModifiers p) (isNew p).
Definition set_teleportTimer (v : option Q) (p : t) : t :=
  mk (id p) (name p) (kind p) (x p) (y p) (isShiny p) (gender p) (age p)
  (maxAge p) (homeBuildingId p) (cooldown p) (target p) (aiState p)
  (moveSpeed p) (isSleeping p) (Poder p) (teleportState p) v (actionTimer p)
  (isImmortal p) (scheduledDeathHour p) (torchicsCured p)
  (applesHarvested p) (happiness p) (happinessModifiers p) (isNew p).
Definition set_actionTimer (v : option Q) (p : t) : t :=
  mk (id p) (name p) (kind p) (x p) (y p) (isShiny p) (gender p) (age p)
  (maxAge p) (homeBuildingId p) (cooldown p) (target p) (aiState p)
  (moveSpeed p) (isSleeping p) (Poder p) (teleportState p) (teleportTimer p)
  v (isImmortal p) (scheduledDeathHour p) (torchicsCured p)
  (applesHarvested p) (happiness p) (happinessModifiers p) (isNew p).
Definition set_Poder (v : option Q) (p : t) : t :=
  mk (id p) (name p) (kind p) (x p) (y p) (isShiny p) (gender p) (age p)
  (maxAge p) (homeBuildingId p) (cooldown p) (target p) (aiState p)
  (moveSpeed p) (isSleeping p) v (teleportState p) (teleportTimer p)
  (actionTimer p) (isImmortal p) (scheduledDeathHour p) (torchicsCured p)
  (applesHarvested p) (happiness p) (happinessModifiers p) (isNew p).
Definition set_isImmortal (v : bool) (p : t) : t :=
  mk (id p) (name p) (kind p) (x p) (y p) (isShiny p) (gender p) (age p)
  (maxAge p) (homeBuildingId p) (cooldown p) (target p) (aiState p)
  (moveSpeed p) (isSleeping p) (Poder p) (teleportState p) (teleportTimer p)
  (actionTimer p) v (scheduledDeathHour p) (torchicsCured p)
  (applesHarvested p) (happiness p) (happinessModifiers p) (isNew p).
Definition set_scheduledDeathHour (v : option Q) (p : t) : t :=
  mk (id p) (name p) (kind p) (x p) (y p) (isShiny p) (gender p) (age p)
  (maxAge p) (homeBuildingId p) (cooldown p) (target p) (aiState p)
  (moveSpeed p) (isSleeping p) (Poder p) (teleportState p) (teleportTimer p)
  (actionTimer p) (isImmortal p) v (torchicsCured p) (applesHarvested p)
  (happiness p) (happinessModifiers p) (isNew p).
Definition set_applesHarvested (v : option Q) (p : t) : t :=
  mk (id p) (name p) (kind p) (x p) (y p) (isShiny p) (gender p) (age p)
  (maxAge p) (homeBuildingId p) (cooldown p) (target p) (aiState p)
  (moveSpeed p) (isSleeping p) (Poder p) (teleportState p) (teleportTimer p)
  (actionTimer p) (isImmortal p) (scheduledDeathHour p) (torchicsCured p) v
  (happiness p) (happinessModifiers p) (isNew p).
Definition set_happiness (v : Q) (p : t) : t :=
  mk (id p) (name p) (kind p) (x p) (y p) (isShiny p) (gender p) (age p)
  (maxAge p) (homeBuildingId p) (cooldown p) (target p) (aiState p)
  (moveSpeed p) (isSleeping p) (Poder p) (teleportState p) (teleportTimer p)
  (actionTimer p) (isImmortal p) (scheduledDeathHour p) (torchicsCured p)
  (applesHarvested p) v (happinessModifiers p) (isNew p).
Definition set_happinessModifiers (v : gmap string HappinessModifier) (p : t) : t :=
  mk (id p) (name p) (kind p) (x p) (y p) (isShiny p) (gender p) (age p)
  (maxAge p) (homeBuildingId p) (cooldown p) (target p) (aiState p)
  (moveSpeed p) (isSleeping p) (Poder p) (teleportState p) (teleportTimer p)
  (actionTimer p) (isImmortal p) (scheduledDeathHour p) (torchicsCured p)
  (applesHarvested p) (happiness p) v (isNew p).
Definition set_isNew (v : bool) (p : t) : t :=
  mk (id p) (name p) (kind p) (x p) (y p) (isShiny p) (gender p) (age p)
  (maxAge p) (homeBuildingId p) (cooldown p) (target p) (aiState p)
  (moveSpeed p) (isSleeping p) (Poder p) (teleportState p) (teleportTimer p)
  (actionTimer p) (isImmortal p) (scheduledDeathHour p) (torchicsCured p)
  (applesHarvested p) (happiness p) (happinessModifiers p) v.

End Pokemon.

(** [class FarmWorld]. *)
Module FarmWorld.

Record t : Type := mk {
  w : Q;
  h : Q;
  structs : list Building.t;
  resources : list Resource.t;
  specials : list Special;
  fertileZones : list FertileZone;
  cosmeticElements : list Cosmetic
}.

Definition set_structs (v : list Building.t) (p : t) : t :=
  mk (w p) (h p) v (resources p) (specials p) (fertileZones p)
  (cosmeticElements p).
Definition set_resources (v : list Resource.t) (p : t) : t :=
  mk (w p) (h p) (structs p) v (specials p) (fertileZones p)
  (cosmeticElements p).

End FarmWorld.

(** [interface GameState].  The fields that only the alarms, the timer and
    the world clock of the user interface use are left out: no function
    embedded here reads or writes them.  The task list, which only the
    commands of the task manager use, is passed beside the record. *)
Module GameState.

Record t : Type := mk {
  player : Player.t;
  world : FarmWorld.t;
  pokemons : list Pokemon.t;
  cropPlots : list CropPlot.t;
  camera : Camera.t;
  gameTime : Q;
  day : Q;
  lastProductionDate : string;
  lastSave : Q;
  lastUpdateTimestamp : Q;
  pokemonSpriteCache : gmap string string;
  dailyIncome : gmap string Q;
  dailySpawns : gmap string Q;
  dailyResourceSpawns : gmap string bool;
  respawnQueue : list Ticket;
  dailyPidgeyBonusCount : Q;
  hasChosenStarter : bool;
  rainStreak : Q;
  weatherToday : WeatherType;
  weatherYesterday : WeatherType;
  rainPeriods : list (Q * Q);
  hasEncounteredEkans : option bool;
  hasEncounteredSpearow : option bool;
  dayChangeHour : Q;
  lastKilledByStorm : option string;
  eventQueue : list GameEvent
}.

Definition set_player (v : Player.t) (p : t) : t :=
  mk v (world p) (pokemons p) (cropPlots p) (camera p) (gameTime p) (day p)
  (lastProductionDate p) (lastSave p) (lastUpdateTimestamp p)
  (pokemonSpriteCache p) (dailyIncome p) (dailySpawns p)
  (dailyResourceSpawns p) (respawnQueue p) (dailyPidgeyBonusCount p)
  (hasChosenStarter p) (rainStreak p) (weatherToday p) (weatherYesterday p)
  (rainPeriods p) (hasEncounteredEkans p) (hasEncounteredSpearow p)
  (dayChangeHour p) (lastKilledByStorm p) (eventQueue p).
Definition set_world (v : FarmWorld.t) (p : t) : t :=
  mk (player p) v (pokemons p) (cropPlots p) (camera p) (gameTime p) (day p)
  (lastProductionDate p) (lastSave p) (lastUpdateTimestamp p)
  (pokemonSpriteCache p) (dailyIncome p) (dailySpawns p)
  (dailyResourceSpawns p) (respawnQueue p) (dailyPidgeyBonusCount p)
  (hasChosenStarter p) (rainStreak p) (weatherToday p) (weatherYesterday p)
  (rainPeriods p) (hasEncounteredEkans p) (hasEncounteredSpearow p)
  (dayChangeHour p) (lastKilledByStorm p) (eventQueue p).
Definition set_pokemons (v : list Pokemon.t) (p : t) : t :=
  mk (player p) (world p) v (cropPlots p) (camera p) (gameTime p) (day p)
  (lastProductionDate p) (lastSave p) (lastUpdateTimestamp p)
  (pokemonSpriteCache p) (dailyIncome p) (dailySpawns p)
  (dailyResourceSpawns p) (respawnQueue p) (dailyPidgeyBonusCount p)
  (hasChosenStarter p) (rainStreak p) (weatherToday p) (weatherYesterday p)
  (rainPeriods p) (hasEncounteredEkans p) (hasEncounteredSpearow p)
  (dayChangeHour p) (lastKilledByStorm p) (eventQueue p).
Definition set_cropPlots (v : list CropPlot.t) (p : t) : t :=
  mk (player p) (world p) (pokemons p) v (camera p) (gameTime p) (day p)
  (lastProductionDate p) (lastSave p) (lastUpdateTimestamp p)
  (pokemonSpriteCache p) (dailyIncome p) (dailySpawns p)
  (dailyResourceSpawns p) (respawnQueue p) (dailyPidgeyBonusCount p)
  (hasChosenStarter p) (rainStreak p) (weatherToday p) (weatherYesterday p)
  (rainPeriods p) (hasEncounteredEkans p) (hasEncounteredSpearow p)
  (dayChangeHour p) (lastKilledByStorm p) (eventQueue p).
Definition set_camera (v : Camera.t) (p : t) : t :=
  mk (player p) (world p) (pokemons p) (cropPlots p) v (gameTime p) (day p)
  (lastProductionDate p) (lastSave p) (lastUpdateTimestamp p)
  (pokemonSpriteCache p) (dailyIncome p) (dailySpawns p)
  (dailyResourceSpawns p) (respawnQueue p) (dailyPidgeyBonusCount p)
  (hasChosenStarter p) (rainStreak p) (weatherToday p) (weatherYesterday p)
  (rainPeriods p) (hasEncounteredEkans p) (hasEncounteredSpearow p)
  (dayChangeHour p) (lastKilledByStorm p) (eventQueue p).
Definition set_gameTime (v : Q) (p : t) : t :=
  mk (player p) (world p) (pokemons p) (cropPlots p) (camera p) v (day p)
  (lastProductionDate p) (lastSave p) (lastUpdateTimestamp p)
  (pokemonSpriteCache p) (dailyIncome p) (dailySpawns p)
  (dailyResourceSpawns p) (respawnQueue p) (dailyPidgeyBonusCount p)
  (hasChosenStarter p) (rainStreak p) (weatherToday p) (weatherYesterday p)
  (rainPeriods p) (hasEncounteredEkans p) (hasEncounteredSpearow p)
  (dayChangeHour p) (lastKilledByStorm p) (eventQueue p).
Definition set_day (v : Q) (p : t) : t :=
  mk (player p) (world p) (pokemons p) (cropPlots p) (camera p) (gameTime p)
  v (lastProductionDate p) (lastSave p) (lastUpdateTimestamp p)
  (pokemonSpriteCache p) (dailyIncome p) (dailySpawns p)
  (dailyResourceSpawns p) (respawnQueue p) (dailyPidgeyBonusCount p)
  (hasChosenStarter p) (rainStreak p) (weatherToday p) (weatherYesterday p)
  (rainPeriods p) (hasEncounteredEkans p) (hasEncounteredSpearow p)
  (dayChangeHour p) (lastKilledByStorm p) (eventQueue p).
Definition set_lastProductionDate (v : string) (p : t) : t :=
  mk (player p) (world p) (pokemons p) (cropPlots p) (camera p) (gameTime p)
  (day p) v (lastSave p) (lastUpdateTimestamp p) (pokemonSpriteCache p)
  (dailyIncome p) (dailySpawns p) (dailyResourceSpawns p) (respawnQueue p)
  (dailyPidgeyBonusCount p) (hasChosenStarter p) (rainStreak p)
  (weatherToday p) (weatherYesterday p) (rainPeriods p)
  (hasEncounteredEkans p) (hasEncounteredSpearow p) (dayChangeHour p)
  (lastKilledByStorm p) (eventQueue p).
Definition set_lastUpdateTimestamp (v : Q) (p : t) : t :=
  mk (player p) (world p) (pokemons p) (cropPlots p) (camera p) (gameTime p)
  (day p) (lastProductionDate p) (lastSave p) v (pokemonSpriteCache p)
  (dailyIncome p) (dailySpawns p) (dailyResourceSpawns p) (respawnQueue p)
  (dailyPidgeyBonusCount p) (hasChosenStarter p) (rainStreak p)
  (weatherToday p) (weatherYesterday p) (rainPeriods p)
  (hasEncounteredEkans p) (hasEncounteredSpearow p) (dayChangeHour p)
  (lastKilledByStorm p) (eventQueue p).
Definition set_pokemonSpriteCache (v : gmap string string) (p : t) : t :=
  mk (player p) (world p) (pokemons p) (cropPlots p) (camera p) (gameTime p)
  (day p) (lastProductionDate p) (lastSave p) (lastUpdateTimestamp p) v
  (dailyIncome p) (dailySpawns p) (dailyResourceSpawns p) (respawnQueue p)
  (dailyPidgeyBonusCount p) (hasChosenStarter p) (rainStreak p)
  (weatherToday p) (weatherYesterday p) (rainPeriods p)
  (hasEncounteredEkans p) (hasEncounteredSpearow p) (dayChangeHour p)
  (lastKilledByStorm p) (eventQueue p).
Definition set_dailyIncome (v : gmap string Q) (p : t) : t :=
  mk (player p) (world p) (pokemons p) (cropPlots p) (camera p) (gameTime p)
  (day p) (lastProductionDate p) (lastSave p) (lastUpdateTimestamp p)
  (pokemonSpriteCache p) v (dailySpawns p) (dailyResourceSpawns p)
  (respawnQueue p) (dailyPidgeyBonusCount p) (hasChosenStarter p)
  (rainStreak p) (weatherToday p) (weatherYesterday p) (rainPeriods p)
  (hasEncounteredEkans p) (hasEncounteredSpearow p) (dayChangeHour p)
  (lastKilledByStorm p) (eventQueue p).
Definition set_dailySpawns (v : gmap string Q) (p : t) : t :=
  mk (player p) (world p) (pokemons p) (cropPlots p) (camera p) (gameTime p)
  (day p) (lastProductionDate p) (lastSave p) (lastUpdateTimestamp p)
  (pokemonSpriteCache p) (dailyIncome p) v (dailyResourceSpawns p)
  (respawnQueue p) (dailyPidgeyBonusCount p) (hasChosenStarter p)
  (rainStreak p) (weatherToday p) (weatherYesterday p) (rainPeriods p)
  (hasEncounteredEkans p) (hasEncounteredSpearow p) (dayChangeHour p)
  (lastKilledByStorm p) (eventQueue p).
Definition set_dailyResourceSpawns (v : gmap string bool) (p : t) : t :=
  mk (player p) (world p) (pokemons p) (cropPlots p) (camera p) (gameTime p)
  (day p) (lastProductionDate p) (lastSave p) (lastUpdateTimestamp p)
  (pokemonSpriteCache p) (dailyIncome p) (dailySpawns p) v (respawnQueue p)
  (dailyPidgeyBonusCount p) (hasChosenStarter p) (rainStreak p)
  (weatherToday p) (weatherYesterday p) (rainPeriods p)
  (hasEncounteredEkans p) (hasEncounteredSpearow p) (dayChangeHour p)
  (lastKilledByStorm p) (eventQueue p).
Definition set_respawnQueue (v : list Ticket) (p : t) : t :=
  mk (player p) (world p) (pokemons p) (cropPlots p) (camera p) (gameTime p)
  (day p) (lastProductionDate p) (lastSave p) (lastUpdateTimestamp p)
  (pokemonSpriteCache p) (dailyIncome p) (dailySpawns p)
  (dailyResourceSpawns p) v (dailyPidgeyBonusCount p) (hasChosenStarter p)
  (rainStreak p) (weatherToday p) (weatherYesterday p) (rainPeriods p)
  (hasEncounteredEkans p) (hasEncounteredSpearow p) (dayChangeHour p)
  (lastKilledByStorm p) (eventQueue p).
Definition set_dailyPidgeyBonusCount (v : Q) (p : t) : t :=
  mk (player p) (world p) (pokemons p) (cropPlots p) (camera p) (gameTime p)
  (day p) (lastProductionDate p) (lastSave p) (lastUpdateTimestamp p)
  (pokemonSpriteCache p) (dailyIncome p) (dailySpawns p)
  (dailyResourceSpawns p) (respawnQueue p) v (hasChosenStarter p)
  (rainStreak p) (weatherToday p) (weatherYesterday p) (rainPeriods p)
  (hasEncounteredEkans p) (hasEncounteredSpearow p) (dayChangeHour p)
  (lastKilledByStorm p) (eventQueue p).
Definition set_hasChosenStarter (v : bool) (p : t) : t :=
  mk (player p) (world p) (pokemons p) (cropPlots p) (camera p) (gameTime p)
  (day p) (lastProductionDate p) (lastSave p) (lastUpdateTimestamp p)
  (pokemonSpriteCache p) (dailyIncome p) (dailySpawns p)
  (dailyResourceSpawns p) (respawnQueue p) (dailyPidgeyBonusCount p) v
  (rainStreak p) (weatherToday p) (weatherYesterday p) (rainPeriods p)
  (hasEncounteredEkans p) (hasEncounteredSpearow p) (dayChangeHour p)
  (lastKilledByStorm p) (eventQueue p).
Definition set_dayChangeHour (v : Q) (p : t) : t :=
  mk (player p) (world p) (pokemons p) (cropPlots p) (camera p) (gameTime p)
  (day p) (lastProductionDate p) (lastSave p) (lastUpdateTimestamp p)
  (pokemonSpriteCache p) (dailyIncome p) (dailySpawns p)
  (dailyResourceSpawns p) (respawnQueue p) (dailyPidgeyBonusCount p)
  (hasChosenStarter p) (rainStreak p) (weatherToday p) (weatherYesterday p)
  (rainPeriods p) (hasEncounteredEkans p) (hasEncounteredSpearow p) v
  (lastKilledByStorm p) (eventQueue p).
Definition set_hasEncounteredEkans (v : option bool) (p : t) : t :=
  mk (player p) (world p) (pokemons p) (cropPlots p) (camera p) (gameTime p)
  (day p) (lastProductionDate p) (lastSave p) (lastUpdateTimestamp p)
  (pokemonSpriteCache p) (dailyIncome p) (dailySpawns p)
  (dailyResourceSpawns p) (respawnQueue p) (dailyPidgeyBonusCount p)
  (hasChosenStarter p) (rainStreak p) (weatherToday p) (weatherYesterday p)
  (rainPeriods p) v (hasEncounteredSpearow p) (dayChangeHour p)
  (lastKilledByStorm p) (eventQueue p).
Definition set_hasEncounteredSpearow (v : option bool) (p : t) : t :=
  mk (player p) (world p) (pokemons p) (cropPlots p) (camera p) (gameTime p)
  (day p) (lastProductionDate p) (lastSave p) (lastUpdateTimestamp p)
  (pokemonSpriteCache p) (dailyIncome p) (dailySpawns p)
  (dailyResourceSpawns p) (respawnQueue p) (dailyPidgeyBonusCount p)
  (hasChosenStarter p) (rainStreak p) (weatherToday p) (weatherYesterday p)
  (rainPeriods p) (hasEncounteredEkans p) v (dayChangeHour p)
  (lastKilledByStorm p) (eventQueue p).
Definition set_eventQueue (v : list GameEvent) (p : t) : t :=
  mk (player p) (world p) (pokemons p) (cropPlots p) (camera p) (gameTime p)
  (day p) (lastProductionDate p) (lastSave p) (lastUpdateTimestamp p)
  (pokemonSpriteCache p) (dailyIncome p) (dailySpawns p)
  (dailyResourceSpawns p) (respawnQueue p) (dailyPidgeyBonusCount p)
  (hasChosenStarter p) (rainStreak p) (weatherToday p) (weatherYesterday p)
  (rainPeriods p) (hasEncounteredEkans p) (hasEncounteredSpearow p)
  (dayChangeHour p) (lastKilledByStorm p) v.

End GameState.

(** ** Methods of [Player] *)

Definition invCount (inv : gmap string Q) (key : string) : Q :=
  JS.orElseO (inv !! key) 0.

(** [hasItems]: every requested entry is covered by the inventory; a missing
    entry counts as zero. *)
Definition hasItems (items : gmap string Q) (p : Player.t) : bool :=
  forallb (fun kv => JS.geb (default 0 (Player.inventory p !! kv.1)) kv.2)
          (map_to_list items).

Definition addItem (item : string) (count : Q) (p : Player.t) : Player.t :=
  Player.set_inventory
    (<[item := invCount (Player.inventory p) item + count]> (Player.inventory p)) p.

(** [removeItem]: on success the entry is decreased and deleted when it
    drops to zero or below. *)
Definition removeItem (item : string) (count : Q) (p : Player.t)
  : bool * Player.t :=
  if JS.geb (invCount (Player.inventory p) item) count then
    let left := default 0 (Player.inventory p !! item) - count in
    let inv := <[item := left]> (Player.inventory p) in
    let inv := if JS.leb left 0 then delete item inv else inv in
    (true, Player.set_inventory inv p)
  else (false, p).

Definition removeItems (items : gmap string Q) (p : Player.t) : Player.t :=
  fold_left
    (fun p kv =>
       let left := invCount (Player.inventory p) kv.1 - kv.2 in
       let inv := <[kv.1 := left]> (Player.inventory p) in
       Player.set_inventory (if JS.leb left 0 then delete kv.1 inv else inv) p)
    (map_to_list items) p.

(** ** The platform and the constants module *)

(** What the source takes from the JavaScript runtime.  [random n] is the
    value of the [n]-th call of [Math.random] during one call of an entry
    point, with the range the language guarantees.  [clockHours],
    [clockMinutes] and [clockSeconds] are the reading of [new Date()], and
    [gameDateString h] is the string
    [`${getFullYear()}-${getMonth() + 1}-${getDate()}`] of that date moved
    back by [h] hours. *)
Record Platform : Type := mkPlatform {
  random : nat -> Q;
  random_range : forall n, 0 <= random n /\ random n < 1;
  dateNow : Q;
  clockHours : Q;
  clockMinutes : Q;
  clockSeconds : Q;
  gameDateString : Q -> string;
  numberToString : Q -> string;
  hypot : Q -> Q -> Q;
  cos : Q -> Q;
  sin : Q -> Q;
  atan2 : Q -> Q -> Q;
  PI : Q
}.

(** An entry of [POKEMON_ABILITIES].  The entries are heterogeneous records
    in the source; a field that the source tests before use is optional
    here. *)
Record Ability : Type := mkAbility {
  ab_type : string;
  rate : option Q;
  passive_income_rate : option Q;
  bonus : Q;
  ab_cooldown : Q;
  item : string;
  huntChance : option Q;
  amount : Q;
  chance : option Q;
  from : string;
  to : string;
  items : list string;
  biteChance : Q
}.

(** An entry of [NIGHT_COUNTERPARTS]. *)
Record NightInfo : Type := mkNightInfo { night : string; sleepHour : Q }.

(** The tables of the constants module that the embedded functions read. *)
Record Constants : Type := mkConstants {
  energy_regenPerSec : Q;
  world_maxTrees : Q;
  world_maxRocks : Q;
  world_maxWildPlants : Q;
  resourceRespawn : string -> option Q;
  POKEMON_IDS : list (string * Q);
  POKEMON_CAPACITY : string -> option Q;
  POKEMON_ABILITIES : string -> option Ability;
  POKEMON_LIFESPANS : string -> option Q;
  POKEMON_EVOLUTIONS : string -> option string;
  NIGHT_COUNTERPARTS : list (string * NightInfo);
  DAY_COUNTERPARTS : list (string * string);
  ITEM_DISPLAY_NAMES : string -> option string
}.

(** Lookup in a table given as an object literal: the first entry of the
    key. *)
Definition tableGet {A} (t : list (string * A)) (key : string) : option A :=
  option_map snd (List.find (fun kv => String.eqb kv.1 key) t).

(** Indexing an array literal with a number: [undefined] unless the number
    is an index of the array. *)
Definition indexNum {A} (l : list A) (i : Q) : option A :=
  if JS.eqb (JS.floor i) i && JS.leb 0 i then l !! Z.to_nat (Qfloor i) else None.

(** ** The effect monad

    A pass of the simulation mutates the game state, draws random numbers
    and may raise a [TypeError] (a property read on [undefined]). *)

Record Run : Type := mkRun { st : GameState.t; cursor : nat }.

Inductive Outcome (A : Type) : Type :=
| Done (a : A) (r : Run)
| TypeError.
Arguments Done {A} a r.
Arguments TypeError {A}.

Definition M (A : Type) : Type := Run -> Outcome A.

Definition ret {A} (a : A) : M A := fun r => Done a r.

Definition bind {A B} (m : M A) (f : A -> M B) : M B :=
  fun r => match m r with Done a r' => f a r' | TypeError => TypeError end.

Definition throw {A} : M A := fun _ => TypeError.

Notation "x <- m ;; k" := (bind m (fun x => k))
  (at level 100, m at next level, right associativity).
Notation "m ;;; k" := (bind m (fun _ => k))
  (at level 100, right associativity).

Definition get : M GameState.t := fun r => Done (st r) r.
Definition modify (f : GameState.t -> GameState.t) : M unit :=
  fun r => Done tt (mkRun (f (st r)) (cursor r)).

Definition when (b : bool) (m : M unit) : M unit := if b then m else ret tt.

(** Reading a property of a value that may be [undefined]. *)
Definition deref {A} (o : option A) : M A :=
  match o with Some a => ret a | None => throw end.

(** [for (const x of l)] and [l.forEach]. *)
Fixpoint forEach {A} (l : list A) (f : A -> M unit) : M unit :=
  match l with
  | [] => ret tt
  | a :: r => f a ;;; forEach r f
  end.

(** A loop that carries local variables. *)
Fixpoint foldM {A B} (f : B -> A -> M B) (l : list A) (b : B) : M B :=
  match l with
  | [] => ret b
  | a :: r => b' <- f b a ;; foldM f r b'
  end.

(** The result [{clear, message}] of the placement query. *)
Module Placement.
Record t : Type := mk { clear : bool; message : string }.
End Placement.

(** ** The simulation *)

Section Simulation.

Variable P : Platform.
Variable K : Constants.

(** [Math.random()]. *)
Definition rand : M Q :=
  fun r => Done (random P (cursor r)) (mkRun (st r) (S (cursor r))).

(** [rint(min, max)]. *)
Definition rint (min max : Q) : M Q :=
  r <- rand ;; ret (JS.floor (r * (max - min + 1)) + min).

Definition natQ (n : nat) : Q := inject_Z (Z.of_nat n).

(** [l[rint(0, l.length - 1)]], read for its properties. *)
Definition pickOne {A} (l : list A) : M A :=
  i <- rint 0 (natQ (length l) - 1) ;; deref (indexNum l i).

(** The identifiers [`${prefix}_${Date.now()}_${Math.random()}`]. *)
Definition freshId (pre : string) (r : Q) : string :=
  pre ++ "_" ++ numberToString P (dateNow P) ++ "_" ++ numberToString P r.

(** [new Pokemon(kind, x, y, isShiny)]. *)
Definition newPokemon (kind : string) (x y : Q) (isShiny : bool) : M Pokemon.t :=
  r <- rand ;;
  g <- (if String.eqb kind "Miltank" then ret female
        else if String.eqb kind "Tauros" then ret male
        else c <- rand ;; ret (if JS.ltb c (1#2) then male else female)) ;;
  ret {| Pokemon.id := freshId "poke" r;
         Pokemon.name := kind;
         Pokemon.kind := kind;
         Pokemon.x := x;
         Pokemon.y := y;
         Pokemon.isShiny := isShiny;
         Pokemon.gender := g;
         Pokemon.age := 0;
         Pokemon.maxAge := JS.orElseO (POKEMON_LIFESPANS K kind) 100;
         Pokemon.homeBuildingId := None;
         Pokemon.cooldown := 0;
         Pokemon.target := None;
         Pokemon.aiState := idle;
         Pokemon.moveSpeed := 30;
         Pokemon.isSleeping := false;
         Pokemon.Poder := None;
         Pokemon.teleportState := None;
         Pokemon.teleportTimer := None;
         Pokemon.actionTimer := None;
         Pokemon.isImmortal := false;
         Pokemon.scheduledDeathHour := None;
         Pokemon.torchicsCured :=
           if JS.includes ["Happiny"; "Chansey"; "Blissey"] kind
           then Some 0 else None;
         Pokemon.applesHarvested :=
           if JS.includes ["Mankey"; "Primeape"; "Aipom"; "Ambipom"] kind
           then Some 0 else None;
         Pokemon.happiness := 50;
         Pokemon.happinessModifiers := ∅;
         Pokemon.isNew := true |}.

(** [new Resource(type, x, y, day)]. *)
Definition newResource (type : string) (x y : Q) (day : option Q) : M Resource.t :=
  r <- rand ;;
  sz <- rand ;;
  shape <- rint 0 2 ;;
  sizeV <- rint 0 2 ;;
  ret {| Resource.id := freshId "res" r;
         Resource.type := type;
         Resource.x := x;
         Resource.y := y;
         Resource.size := sz * (2#10) + (9#10);
         Resource.shapeVariant := shape;
         Resource.sizeVariant := sizeV;
         Resource.spawnDay :=
           if String.eqb type "wild_plant" then day else None;
         Resource.state :=
           if String.eqb type "wild_plant" then Some bush else None |}.

Definition updatePlayer (dt : Q) (player : Player.t) : Player.t :=
  Player.set_energy
    (clamp (Player.energy player + energy_regenPerSec K * dt) 0
           (Player.maxEnergy player)) player.

Definition setPlayer (f : Player.t -> Player.t) : M unit :=
  modify (fun gs => GameState.set_player (f (GameState.player gs)) gs).

(** The first truthy of [ability.rate || ability.passive_income_rate]. *)
Definition incomeRate (ab : Ability) : option Q :=
  match rate ab with
  | Some r => if JS.truthy r then Some r else passive_income_rate ab
  | None => passive_income_rate ab
  end.

Definition passiveIncomeOf (dt managerBonus : Q) (p : Pokemon.t) : M unit :=
  if Pokemon.isSleeping p then ret tt else
  match POKEMON_ABILITIES K (Pokemon.kind p) with
  | None => ret tt
  | Some ab =>
      if String.eqb (ab_type ab) "passive_income"
         || JS.truthy (default 0 (passive_income_rate ab))
      then
        match incomeRate ab with
        | None => ret tt
        | Some r =>
            if negb (JS.truthy r) then ret tt else
            let income := (r * dt) * managerBonus in
            setPlayer (fun pl => Player.set_money (Player.money pl + income) pl) ;;;
            when (JS.gtb income 0)
              (modify (fun gs =>
                 let k := Pokemon.kind p in
                 let di := GameState.dailyIncome gs in
                 let di := if negb (JS.truthy (default 0 (di !! k)))
                           then <[k := 0]> di else di in
                 GameState.set_dailyIncome
                   (<[k := default 0 (di !! k) + income]> di) gs))
        end
      else ret tt
  end.

Definition updatePassiveIncome (dt : Q) : M unit :=
  gs <- get ;;
  let managerBonus :=
    JS.orElseO
      (indexNum [1; 105#100; 110#100; 115#100; 120#100; 125#100]
         (PlayerSkills.gerente (Player.skills (GameState.player gs)))) 1 in
  forEach (GameState.pokemons gs) (passiveIncomeOf dt managerBonus).

(** *** Geometry *)

(** One step of the ray-casting loop: the edge from [pj] to [pi]. *)
Definition edgeCrosses (pt pi pj : Point) : bool :=
  xorb (JS.gtb (py pi) (py pt)) (JS.gtb (py pj) (py pt))
  && JS.ltb (px pt)
       ((px pj - px pi) * (py pt - py pi) / (py pj - py pi) + px pi).

Fixpoint pipLoop (pt : Point) (pts : list Point) (prev : Point) (inside : bool)
  : bool :=
  match pts with
  | [] => inside
  | pi :: rest =>
      pipLoop pt rest pi (if edgeCrosses pt pi prev then negb inside else inside)
  end.

Definition isPointInPolygon (pt : Point) (polygon : list Point) : bool :=
  match List.last (map Some polygon) None with
  | None => false
  | Some pl => pipLoop pt polygon pl false
  end.

(** The bounding box [(minX, minY, maxX, maxY)] of a ring; [None] stands for
    the box of the empty ring, whose bounds are infinite in the source. *)
Definition bbox (pts : list Point) : option (Q * Q * Q * Q) :=
  match pts with
  | [] => None
  | p0 :: rest =>
      Some (fold_left
              (fun b p =>
                 let '(x0, y0, x1, y1) := b in
                 (JS.min x0 (px p), JS.min y0 (py p),
                  JS.max x1 (px p), JS.max y1 (py p)))
              rest (px p0, py p0, px p0, py p0))
  end.

(** A random integer point of a box.  In the box of the empty ring the
    point is not a number; it is only ever tested against the empty ring. *)
Definition randomInBox (b : option (Q * Q * Q * Q)) : M Point :=
  match b with
  | Some (x0, y0, x1, y1) =>
      x <- rint x0 x1 ;; y <- rint y0 y1 ;; ret (mkPoint x y)
  | None => _ <- rand ;; _ <- rand ;; ret (mkPoint 0 0)
  end.

Fixpoint riverSearch (attempts : nat) (b : option (Q * Q * Q * Q))
         (pts : list Point) : M (option Point) :=
  match attempts with
  | O => ret None
  | S n =>
      pt <- randomInBox b ;;
      if isPointInPolygon pt pts then ret (Some pt) else riverSearch n b pts
  end.

Definition getRandomPointInRiver (world : FarmWorld.t) : M (option Point) :=
  match JS.find (fun s => String.eqb (sp_type s) "river") (FarmWorld.specials world) with
  | None => ret None
  | Some river => riverSearch 100 (bbox (sp_points river)) (sp_points river)
  end.

Definition isPositionInvalid (x y : Q) (world : FarmWorld.t) (isFlying : bool)
  : bool :=
  if isFlying then false else
  existsb (fun s =>
             negb (String.eqb (Building.type s) "river_area")
             && JS.gtb x (Building.x s - 20)
             && JS.ltb x (Building.x s + Building.w s + 20)
             && JS.gtb y (Building.y s - 20)
             && JS.ltb y (Building.y s + Building.h s + 20))
          (FarmWorld.structs world)
  || existsb (fun sp => isPointInPolygon (mkPoint x y) (sp_points sp))
             (FarmWorld.specials world).

(** *** Placement validation *)

(** The five probes of a rectangle: its corners and its centre. *)
Definition checkPoints (x1 y1 x2 y2 w h : Q) : list Point :=
  [mkPoint x1 y1; mkPoint x2 y1; mkPoint x1 y2; mkPoint x2 y2;
   mkPoint (x1 + w / 2) (y1 + h / 2)].

Fixpoint probeSpecials (type : option string) (pt : Point) (sps : list Special)
  : option string :=
  match sps with
  | [] => None
  | sp :: rest =>
      if String.eqb (sp_type sp) "quarry" then
        if negb (bool_decide (type = Some "mine"))
           && isPointInPolygon pt (sp_points sp)
        then Some "Você não pode construir na área da pedreira."
        else probeSpecials type pt rest
      else
        if isPointInPolygon pt (sp_points sp)
        then Some "Você não pode construir sobre a água."
        else probeSpecials type pt rest
  end.

Fixpoint probeFertile (pt : Point) (zones : list FertileZone) : option string :=
  match zones with
  | [] => None
  | poly points _ _ :: rest =>
      if isPointInPolygon pt points
      then Some "Você não pode construir sobre solo fértil."
      else probeFertile pt rest
  | circle _ _ _ :: rest => probeFertile pt rest
  end.

Fixpoint probeAll (type : option string) (world : FarmWorld.t) (pts : list Point)
  : option string :=
  match pts with
  | [] => None
  | pt :: rest =>
      match probeSpecials type pt (FarmWorld.specials world) with
      | Some msg => Some msg
      | None =>
          match probeFertile pt (FarmWorld.fertileZones world) with
          | Some msg => Some msg
          | None => probeAll type world rest
          end
      end
  end.

(** The overlap test of the candidate rectangle with an existing
    structure. *)
Definition hitsStruct (x1 y1 x2 y2 : Q) (s : Building.t) : bool :=
  negb (String.eqb (Building.type s) "river_area")
  && JS.ltb x1 (Building.x s + Building.w s)
  && JS.gtb x2 (Building.x s)
  && JS.ltb y1 (Building.y s + Building.h s)
  && JS.gtb y2 (Building.y s).

Definition outOfBounds (x1 y1 x2 y2 : Q) (world : FarmWorld.t) : bool :=
  let boundaryPadding := 20 in
  JS.ltb x1 boundaryPadding
  || JS.gtb x2 (FarmWorld.w world - boundaryPadding)
  || JS.ltb y1 boundaryPadding
  || JS.gtb y2 (FarmWorld.h world - boundaryPadding).

(** The mine rule: [Some msg] when the placement of a mine is refused. *)
Definition mineRule (x1 y1 w h : Q) (world : FarmWorld.t) (type : option string)
  : option string :=
  if bool_decide (type = Some "mine") then
    match JS.find (fun s => String.eqb (sp_type s) "quarry")
                  (FarmWorld.specials world) with
    | None => Some "Erro: Pedreira não encontrada no mapa."
    | Some quarry =>
        if negb (isPointInPolygon (mkPoint (x1 + w / 2) (y1 + h / 2))
                                  (sp_points quarry))
        then Some "A Mina deve ser construída sobre a área da pedreira."
        else None
    end
  else None.

Definition isPlacementAreaClear (x y w h : Q) (world : FarmWorld.t)
           (type : option string) : Placement.t :=
  let x1 := x in
  let y1 := y in
  let x2 := x + w in
  let y2 := y + h in
  match mineRule x1 y1 w h world type with
  | Some msg => Placement.mk false msg
  | None =>
      if outOfBounds x1 y1 x2 y2 world
      then Placement.mk false "Você não pode construir fora da área da fazenda."
      else
        match probeAll type world (checkPoints x1 y1 x2 y2 w h) with
        | Some msg => Placement.mk false msg
        | None =>
            if existsb (hitsStruct x1 y1 x2 y2) (FarmWorld.structs world)
            then Placement.mk false "Você não pode construir aqui, o espaço está ocupado."
            else Placement.mk true ""
        end
  end.

(** *** Resource and respawn manager *)

Definition isTreeType (type : string) : bool := JS.endsWith type "_tree".

Definition calculateShinyChance (player : Player.t) : Q :=
  let baseChance := 3#1000 in
  let luckyBonus :=
    JS.orElseO (indexNum [0; 5#10000; 1#1000]
                  (PlayerSkills.sortudo (Player.skills player))) 0 in
  baseChance + luckyBonus.

Definition setWorld (f : FarmWorld.t -> FarmWorld.t) : M unit :=
  modify (fun gs => GameState.set_world (f (GameState.world gs)) gs).

Definition pushResource (r : Resource.t) : M unit :=
  setWorld (fun w => FarmWorld.set_resources (FarmWorld.resources w ++ [r]) w).

Definition pushPokemon (p : Pokemon.t) : M unit :=
  modify (fun gs => GameState.set_pokemons (GameState.pokemons gs ++ [p]) gs).

Definition pushTicket (t : Ticket) : M unit :=
  modify (fun gs => GameState.set_respawnQueue (GameState.respawnQueue gs ++ [t]) gs).

Definition pushEvent (e : GameEvent) : M unit :=
  modify (fun gs => GameState.set_eventQueue (GameState.eventQueue gs ++ [e]) gs).

(** The rejection sampling [do { ... } while (invalid && attempts < 100)];
    it returns the last candidate and the number of attempts made. *)
Fixpoint spotLoop (fuel attempts : nat) (world : FarmWorld.t) : M (Q * Q * nat) :=
  x <- rint 50 (FarmWorld.w world - 50) ;;
  y <- rint 50 (FarmWorld.h world - 50) ;;
  let attempts := S attempts in
  match fuel with
  | S f =>
      if isPositionInvalid x y world false && (attempts <? 100)%nat
      then spotLoop f attempts world
      else ret (x, y, attempts)
  | O => ret (x, y, attempts)
  end.

(** The fifty candidates tried inside a polygonal fertile zone. *)
Fixpoint fertileLoop (n : nat) (b : option (Q * Q * Q * Q)) (points : list Point)
         (world : FarmWorld.t) : M (option Point) :=
  match n with
  | O => ret None
  | S n' =>
      c <- randomInBox b ;;
      if isPointInPolygon c points
         && negb (isPositionInvalid (px c) (py c) world false)
      then ret (Some c)
      else fertileLoop n' b points world
  end.

(** The spawn of a bee next to a new tree that has two flowers nearby. *)
Definition combeeSpawn (newRes : Resource.t) : M unit :=
  gs <- get ;;
  let combeeFamilyCount :=
    length (List.filter (fun p => JS.includes ["Combee"; "Vespiquen"] (Pokemon.kind p))
                        (GameState.pokemons gs)) in
  if (combeeFamilyCount <? 3)%nat
     && JS.ltb (JS.orElseO (GameState.dailySpawns gs !! "Combee") 0) 1
  then
    let nearbyFlowers :=
      List.filter
        (fun r : Resource.t =>
           String.eqb (Resource.type r) "wild_plant"
           && bool_decide (Resource.state r = Some flower)
           && JS.ltb (hypot P (Resource.x newRes - Resource.x r)
                              (Resource.y newRes - Resource.y r)) 80)
        (FarmWorld.resources (GameState.world gs)) in
    if (2 <=? length nearbyFlowers)%nat then
      r <- rand ;;
      if JS.ltb r (25#100) then
        s <- rand ;;
        let isShiny := JS.ltb s (calculateShinyChance (GameState.player gs)) in
        dx <- rint (-20) 20 ;;
        dy <- rint (-20) 20 ;;
        p <- newPokemon "Combee" (Resource.x newRes + dx) (Resource.y newRes + dy) isShiny ;;
        pushPokemon p ;;;
        modify (fun gs =>
          GameState.set_dailySpawns
            (<["Combee" := JS.orElseO (GameState.dailySpawns gs !! "Combee") 0 + 1]>
               (GameState.dailySpawns gs)) gs)
      else ret tt
    else ret tt
  else ret tt.

(** The body of [if (canSpawn) { ... }] for one expired ticket. *)
Definition spawnFor (item : Ticket) : M unit :=
  gs <- get ;;
  let world := GameState.world gs in
  let isTree := isTreeType (tk_type item) in
  r <- (if isTree then rand else ret 1) ;;
  inZone <-
    (if isTree && JS.ltb r (1#2) && (0 <? length (FarmWorld.fertileZones world))%nat
     then
       zone <- pickOne (FarmWorld.fertileZones world) ;;
       match zone with
       | poly points _ _ => fertileLoop 50 (bbox points) points world
       | circle _ _ _ => ret None
       end
     else ret None) ;;
  spot <-
    match inZone with
    | Some c => ret (Some c)
    | None =>
        xya <- spotLoop 100 0 world ;;
        ret (if (xya.2 <? 100)%nat then Some (mkPoint xya.1.1 xya.1.2) else None)
    end ;;
  match spot with
  | None => ret tt
  | Some c =>
      let upgradable := String.eqb (tk_type item) "oak_tree"
                        || String.eqb (tk_type item) "pine_tree" in
      u <- (if upgradable then rand else ret 1) ;;
      let typeToSpawn :=
        if upgradable && JS.ltb u (1#10) then "apple_tree" else tk_type item in
      if JS.truthyS typeToSpawn then
        newRes <- newResource typeToSpawn (px c) (py c) (Some (GameState.day gs)) ;;
        pushResource newRes ;;;
        when (isTreeType typeToSpawn) (combeeSpawn newRes)
      else ret tt
  end.

(** One expired ticket, with the three running counts of the pass. *)
Definition respawnOne (counts : nat * nat * nat) (item : Ticket)
  : M (nat * nat * nat) :=
  let '(treeCount, rockCount, plantCount) := counts in
  if isTreeType (tk_type item) && JS.ltb (natQ treeCount) (world_maxTrees K) then
    spawnFor item ;;; ret (S treeCount, rockCount, plantCount)
  else if String.eqb (tk_type item) "rock"
          && JS.ltb (natQ rockCount) (world_maxRocks K) then
    spawnFor item ;;; ret (treeCount, S rockCount, plantCount)
  else if String.eqb (tk_type item) "wild_plant"
          && JS.ltb (natQ plantCount) (world_maxWildPlants K) then
    spawnFor item ;;; ret (treeCount, rockCount, S plantCount)
  else
    pushTicket (mkTicket (tk_type item) 10) ;;; ret counts.

Definition countType (f : string -> bool) (rs : list Resource.t) : nat :=
  length (List.filter (fun r => f (Resource.type r)) rs).

Definition updateWorld (dt : Q) : M unit :=
  gs <- get ;;
  let ticked := map (fun t => mkTicket (tk_type t) (timer t - dt))
                    (GameState.respawnQueue gs) in
  let remainingQueue := List.filter (fun t => JS.gtb (timer t) 0) ticked in
  let itemsToRespawn := List.filter (fun t => negb (JS.gtb (timer t) 0)) ticked in
  modify (GameState.set_respawnQueue remainingQueue) ;;;
  if (0 <? length itemsToRespawn)%nat then
    let rs := FarmWorld.resources (GameState.world gs) in
    _ <- foldM respawnOne itemsToRespawn
           (countType isTreeType rs,
            countType (fun t => String.eqb t "rock") rs,
            countType (fun t => String.eqb t "wild_plant") rs) ;;
    ret tt
  else ret tt.

(** *** Day and night *)

Definition hourOf (gameTime : Q) : Q := JS.floor (JS.rem gameTime 86400 / 3600).

Definition setPokemons (f : list Pokemon.t -> list Pokemon.t) : M unit :=
  modify (fun gs => GameState.set_pokemons (f (GameState.pokemons gs)) gs).

(** The night branch for the creature at index [i]: a day creature whose
    bed time has come falls asleep and wakes the first sleeping creature
    of its night counterpart. *)
Definition nightStep (hour : Q) (ps : list Pokemon.t) (i : nat) : list Pokemon.t :=
  match ps !! i with
  | None => ps
  | Some p =>
      match tableGet (NIGHT_COUNTERPARTS K) (Pokemon.kind p) with
      | Some info =>
          if JS.geb hour (sleepHour info) && negb (Pokemon.isSleeping p) then
            let ps := alter (Pokemon.set_isSleeping true) i ps in
            match JS.findIndex
                    (fun q => String.eqb (Pokemon.kind q) (night info)
                              && Pokemon.isSleeping q) ps with
            | Some j => alter (Pokemon.set_isSleeping false) j ps
            | None => ps
            end
          else ps
      | None => ps
      end
  end.

Definition dayStep (p : Pokemon.t) : Pokemon.t :=
  let p := if bool_decide (is_Some (tableGet (NIGHT_COUNTERPARTS K) (Pokemon.kind p)))
              && Pokemon.isSleeping p
           then Pokemon.set_isSleeping false p else p in
  if bool_decide (is_Some (tableGet (DAY_COUNTERPARTS K) (Pokemon.kind p)))
     && negb (Pokemon.isSleeping p)
  then Pokemon.set_isSleeping true p else p.

Definition updatePokemonDayNightCycle : M unit :=
  gs <- get ;;
  let hour := hourOf (GameState.gameTime gs) in
  if JS.geb hour 20 || JS.ltb hour 6 then
    setPokemons (fun ps => fold_left (nightStep hour) (seq 0 (length ps)) ps)
  else if JS.geb hour 6 && JS.ltb hour 20 then
    setPokemons (map dayStep)
  else ret tt.

Definition getSpeciesForCurrentTime (baseDayKind : string) (gameTime : Q) : string :=
  let hour := hourOf gameTime in
  match tableGet (NIGHT_COUNTERPARTS K) baseDayKind with
  | Some info =>
      if JS.geb hour (sleepHour info) || JS.ltb hour 6 then night info
      else baseDayKind
  | None => baseDayKind
  end.

(** *** Creature behaviour engine *)

Definition flyingPokemonKinds : list string :=
  ["Zubat"; "Golbat"; "Crobat"; "Pidgey"; "Pidgeotto"; "Pidgeot"; "Aerodactyl"].
Definition housePatrolKinds : list string :=
  ["Growlithe"; "Arcanine"; "Meowth"; "Persian"].
Definition abraFamily : list string := ["Abra"; "Kadabra"; "Alakazam"].
Definition riverPokemonKinds : list string :=
  ["Magikarp"; "Gyarados"; "Psyduck"; "Lapras"].

(** [findClosest(source, targets)] over candidates tagged with their index
    in the owning array; the running minimum starts at infinity ([None]). *)
Fixpoint closestLoop {A} (sx sy : Q) (pos : A -> Q * Q) (targets : list (nat * A))
         (minDist : option Q) (closest : option nat) : option nat :=
  match targets with
  | [] => closest
  | (i, t) :: rest =>
      let dist := hypot P (sx - (pos t).1) (sy - (pos t).2) in
      if match minDist with Some m => JS.ltb dist m | None => true end
      then closestLoop sx sy pos rest (Some dist) (Some i)
      else closestLoop sx sy pos rest minDist closest
  end.

Definition findClosest {A} (source : Pokemon.t) (pos : A -> Q * Q)
           (targets : list (nat * A)) : option nat :=
  closestLoop (Pokemon.x source) (Pokemon.y source) pos targets None None.

(** The elements of an array that pass a test, with their indices. *)
Definition filterIndexed {A} (f : A -> bool) (l : list A) : list (nat * A) :=
  List.filter (fun ia => f ia.2) (combine (seq 0 (length l)) l).

(** [gs.world.structs.find(s => s.id === p.homeBuildingId)]. *)
Definition findHome (homeBuildingId : option string) (world : FarmWorld.t)
  : option Building.t :=
  match homeBuildingId with
  | Some hid => JS.find (fun s => String.eqb (Building.id s) hid) (FarmWorld.structs world)
  | None => None
  end.

(** Truthiness of [p.homeBuildingId]. *)
Definition hasHomeId (p : Pokemon.t) : bool :=
  match Pokemon.homeBuildingId p with
  | Some hid => JS.truthyS hid
  | None => false
  end.

Definition setModifier (key : string) (m : HappinessModifier) (p : Pokemon.t)
  : Pokemon.t :=
  Pokemon.set_happinessModifiers (<[key := m]> (Pokemon.happinessModifiers p)) p.

(** The mourning of a housemate of a creature that dies. *)
Definition mourn (dead survivor : Pokemon.t) : Pokemon.t :=
  if bool_decide (Pokemon.homeBuildingId survivor = Pokemon.homeBuildingId dead)
     && negb (String.eqb (Pokemon.id survivor) (Pokemon.id dead))
  then
    if String.eqb (Pokemon.kind survivor) (Pokemon.kind dead)
    then setModifier "Luto (Mesma Espécie)" (Decaying (-20) 3) survivor
    else setModifier "Luto (Companheiro)" (Decaying (-10) 3) survivor
  else survivor.

(** The death of a creature: mourning, and perhaps a ghost.  The result is
    the list of ghosts that appear (none or one). *)
Definition die (dead : Pokemon.t) : M (list Pokemon.t) :=
  when (hasHomeId dead) (setPokemons (map (mourn dead))) ;;;
  k <- rand ;;
  let ghostKind := if JS.ltb k (1#2) then "Gastly" else "Litwick" in
  let primeape := String.eqb (Pokemon.kind dead) "Primeape" in
  let ghostChance := if primeape then 5#100 else 15#100 in
  let ghostKind := if primeape then "Annihilape" else ghostKind in
  g <- rand ;;
  if JS.ltb g ghostChance then
    gs <- get ;;
    s <- rand ;;
    let isNewGhostShiny := JS.ltb s (calculateShinyChance (GameState.player gs)) in
    newGhost <- newPokemon ghostKind (Pokemon.x dead) (Pokemon.y dead) isNewGhostShiny ;;
    let immortalityChance := if Pokemon.isShiny dead then 1#2 else 1#1000 in
    let immortalityChance :=
      if Pokemon.isShiny newGhost then 1#2 else immortalityChance in
    m <- rand ;;
    ret [if JS.ltb m immortalityChance
         then Pokemon.set_isImmortal true newGhost else newGhost]
  else ret [].

(** The scheduled-death test of the death check. *)
Definition deathDue (currentHour : Q) (p : Pokemon.t) : bool :=
  match Pokemon.scheduledDeathHour p with
  | Some hd => JS.geb currentHour hd
  | None => false
  end.

(** The animation timer. *)
Definition actionTimerStep (dt : Q) (p : Pokemon.t) : Pokemon.t :=
  match Pokemon.actionTimer p with
  | Some t =>
      if JS.truthy t && JS.gtb t 0 then
        let t' := t - dt in
        if JS.leb t' 0 then
          let p := Pokemon.set_actionTimer (Some 0) p in
          if bool_decide (Pokemon.aiState p = working)
          then Pokemon.set_aiState idle p else p
        else Pokemon.set_actionTimer (Some t') p
      else p
  | None => p
  end.

(** The teleport of the Abra family. *)
Definition teleportStep (dt : Q) (p : Pokemon.t) : M Pokemon.t :=
  if negb (JS.includes abraFamily (Pokemon.kind p)) then ret p else
  p <- match Pokemon.teleportState p with
       | None =>
           t <- rint 30 60 ;;
           ret (Pokemon.set_teleportTimer (Some t)
                  (Pokemon.set_teleportState (Some home) p))
       | Some _ => ret p
       end ;;
  let timer := JS.max 0 (JS.orElseO (Pokemon.teleportTimer p) 0 - dt) in
  let p := Pokemon.set_teleportTimer (Some timer) p in
  if negb (JS.leb timer 0) then ret p else
  gs <- get ;;
  if bool_decide (Pokemon.teleportState p = Some home) then
    t <- rint 60 120 ;;
    let p := Pokemon.set_teleportTimer (Some t)
               (Pokemon.set_teleportState (Some away) p) in
    xya <- spotLoop 100 0 (GameState.world gs) ;;
    if (xya.2 <? 100)%nat then
      ret (Pokemon.set_aiState idle
             (Pokemon.set_target None
                (Pokemon.set_y xya.1.2 (Pokemon.set_x xya.1.1 p))))
    else
      ret (Pokemon.set_teleportTimer (Some 30)
             (Pokemon.set_teleportState (Some home) p))
  else
    t <- rint 180 300 ;;
    let p := Pokemon.set_teleportTimer (Some t)
               (Pokemon.set_teleportState (Some home) p) in
    match findHome (Pokemon.homeBuildingId p) (GameState.world gs) with
    | Some hb =>
        if String.eqb (Building.type hb) "lake" then
          let radius := JS.min (Building.w hb) (Building.h hb) / 2 * (9#10) in
          a <- rand ;;
          let angle := a * PI P * 2 in
          b <- rand ;;
          let r := b * radius in
          ret (Pokemon.set_aiState idle
                 (Pokemon.set_target None
                    (Pokemon.set_y (Building.y hb + Building.h hb / 2 + sin P angle * r)
                       (Pokemon.set_x (Building.x hb + Building.w hb / 2 + cos P angle * r) p))))
        else ret (Pokemon.set_teleportTimer (Some 60) p)
    | None => ret (Pokemon.set_teleportTimer (Some 60) p)
    end.

Definition setCropPlots (f : list CropPlot.t -> list CropPlot.t) : M unit :=
  modify (fun gs => GameState.set_cropPlots (f (GameState.cropPlots gs)) gs).

(** [CropPlot.water]. *)
Definition water (bonusPercentage : Q) (plot : CropPlot.t) : CropPlot.t :=
  if bool_decide (CropPlot.state plot = growing) && negb (CropPlot.isWatered plot)
  then CropPlot.set_isWatered true plot else plot.

Definition plotPos (plot : CropPlot.t) : Q * Q := (CropPlot.x plot, CropPlot.y plot).

Definition removeResourceAt (i : nat) : M unit :=
  setWorld (fun w => FarmWorld.set_resources (JS.splice1 i (FarmWorld.resources w)) w).

Definition findResource (type : string) (gs : GameState.t) : option nat :=
  JS.findIndex (fun r => String.eqb (Resource.type r) type)
               (FarmWorld.resources (GameState.world gs)).

(** The [switch (ability.type)] of the automatic abilities.  The result is
    the creature and [taskCompleted]. *)
Definition runAbility (ab : Ability) (p : Pokemon.t) : M (Pokemon.t * bool) :=
  gs <- get ;;
  let type := ab_type ab in
  if String.eqb type "apple_eater" then
    match findResource "apple_tree" gs with
    | Some i => removeResourceAt i ;;; ret (p, true)
    | None => ret (p, false)
    end
  else if String.eqb type "water_crop" then
    match findClosest p plotPos
            (filterIndexed (fun plot => bool_decide (CropPlot.state plot = growing)
                                        && negb (CropPlot.isWatered plot))
                           (GameState.cropPlots gs)) with
    | Some i => setCropPlots (alter (water (bonus ab)) i) ;;; ret (p, true)
    | None => ret (p, false)
    end
  else if String.eqb type "fertilize_crop" then
    match findClosest p plotPos
            (filterIndexed (fun plot => bool_decide (CropPlot.state plot = growing)
                                        && negb (CropPlot.fertilized plot))
                           (GameState.cropPlots gs)) with
    | Some i => setCropPlots (alter (CropPlot.set_fertilized true) i) ;;; ret (p, true)
    | None => ret (p, false)
    end
  else if String.eqb type "harvest_apple_tree" then
    match findResource "apple_tree" gs with
    | Some i =>
        removeResourceAt i ;;;
        pushTicket (mkTicket "oak_tree"
                      (JS.orElseO (resourceRespawn K "apple_tree") 240)) ;;;
        applesCollected <- rint 1 3 ;;
        setPlayer (addItem "apple" applesCollected) ;;;
        ret (Pokemon.set_applesHarvested
               (Some (JS.orElseO (Pokemon.applesHarvested p) 0 + applesCollected)) p,
             true)
    | None => ret (p, false)
    end
  else if String.eqb type "harvest_plant" then
    match findResource "wild_plant" gs with
    | Some i =>
        plant <- deref (FarmWorld.resources (GameState.world gs) !! i) ;;
        let item := if bool_decide (Resource.state plant = Some bush)
                    then "fiber" else "flower" in
        setPlayer (addItem item 1) ;;;
        removeResourceAt i ;;;
        pushTicket (mkTicket "wild_plant"
                      (JS.orElseO (resourceRespawn K "wild_plant") 150)) ;;;
        ret (p, true)
    | None => ret (p, false)
    end
  else if String.eqb type "cooldown_item" then
    let isRestrictedToHome := String.eqb (Pokemon.kind p) "Onix"
                              || String.eqb (Pokemon.kind p) "Steelix" in
    if negb isRestrictedToHome then
      setPlayer (addItem (item ab) 1) ;;; ret (p, true)
    else if hasHomeId p then
      match findHome (Pokemon.homeBuildingId p) (GameState.world gs) with
      | Some hb =>
          if JS.gtb (Pokemon.x p) (Building.x hb)
             && JS.ltb (Pokemon.x p) (Building.x hb + Building.w hb)
             && JS.gtb (Pokemon.y p) (Building.y hb)
             && JS.ltb (Pokemon.y p) (Building.y hb + Building.h hb)
          then setPlayer (addItem (item ab) 1) ;;; ret (p, true)
          else ret (p, false)
      | None => ret (p, false)
      end
    else ret (p, false)
  else ret (p, false).

(** Cooldown bookkeeping and the automatic ability. *)
Definition abilityStep (dt : Q) (p : Pokemon.t) : M Pokemon.t :=
  let p := Pokemon.set_cooldown (JS.max 0 (Pokemon.cooldown p - dt)) p in
  match POKEMON_ABILITIES K (Pokemon.kind p) with
  | Some ab =>
      if JS.leb (Pokemon.cooldown p) 0
         && negb (bool_decide (Pokemon.aiState p = working))
      then
        pc <- runAbility ab p ;;
        if pc.2 then
          ret (Pokemon.set_actionTimer (Some 1)
                 (Pokemon.set_aiState working
                    (Pokemon.set_cooldown (ab_cooldown ab) pc.1)))
        else ret pc.1
      else ret p
  | None => ret p
  end.

(** Movement towards the target. *)
Definition moveStep (dt : Q) (p : Pokemon.t) : Pokemon.t :=
  match Pokemon.target p with
  | Some t =>
      let dist := hypot P (tx t - Pokemon.x p) (ty t - Pokemon.y p) in
      if JS.gtb dist 10 then
        let dx := tx t - Pokemon.x p in
        let dy := ty t - Pokemon.y p in
        Pokemon.set_y (Pokemon.y p + (dy / dist) * Pokemon.moveSpeed p * dt)
          (Pokemon.set_x (Pokemon.x p + (dx / dist) * Pokemon.moveSpeed p * dt) p)
      else Pokemon.set_aiState idle (Pokemon.set_target None p)
  | None => p
  end.

(** The home that confinement and wandering work with: none for a
    creature without a home id, for a teleporter that is away, and for a
    home id that no building carries. *)
Definition resolveHome (p : Pokemon.t) (world : FarmWorld.t) : option Building.t :=
  let isAbraFamilyAway := JS.includes abraFamily (Pokemon.kind p)
                          && bool_decide (Pokemon.teleportState p = Some away) in
  if hasHomeId p && negb isAbraFamilyAway
  then findHome (Pokemon.homeBuildingId p) world
  else None.

Definition stopAt (x y : Q) (p : Pokemon.t) : Pokemon.t :=
  Pokemon.set_aiState idle
    (Pokemon.set_target None (Pokemon.set_y y (Pokemon.set_x x p))).

(** A river creature outside the river polygon is put back on a random
    point of the river. *)
Definition riverSnap (world : FarmWorld.t) (p : Pokemon.t) : M Pokemon.t :=
  match JS.find (fun s => String.eqb (sp_type s) "river") (FarmWorld.specials world) with
  | Some river =>
      if negb (isPointInPolygon (mkPoint (Pokemon.x p) (Pokemon.y p)) (sp_points river))
      then
        riverTarget <- getRandomPointInRiver world ;;
        match riverTarget with
        | Some t => ret (stopAt (px t) (py t) p)
        | None => ret p
        end
      else ret p
  | None => ret p
  end.

(** Positional confinement. *)
Definition confineStep (world : FarmWorld.t) (hm : option Building.t)
           (p : Pokemon.t) : M Pokemon.t :=
  let isFlying := JS.includes flyingPokemonKinds (Pokemon.kind p) in
  let isRiverPokemon := JS.includes riverPokemonKinds (Pokemon.kind p) in
  match (if isFlying then None else hm) with
  | Some hb =>
      if String.eqb (Building.type hb) "river_area" then riverSnap world p
      else if String.eqb (Building.type hb) "lake"
              || String.eqb (Building.type hb) "laboratory" then
        let centerX := Building.x hb + Building.w hb / 2 in
        let centerY := Building.y hb + Building.h hb / 2 in
        let radius := JS.min (Building.w hb) (Building.h hb) / 2 * (9#10) in
        let distFromCenter :=
          hypot P (Pokemon.x p - centerX) (Pokemon.y p - centerY) in
        if JS.gtb distFromCenter radius then
          let angle := atan2 P (Pokemon.y p - centerY) (Pokemon.x p - centerX) in
          ret (stopAt (centerX + cos P angle * radius)
                      (centerY + sin P angle * radius) p)
        else ret p
      else
        let padding := 10 in
        ret (Pokemon.set_y
               (clamp (Pokemon.y p) (Building.y hb + padding)
                      (Building.y hb + Building.h hb - padding))
               (Pokemon.set_x
                  (clamp (Pokemon.x p) (Building.x hb + padding)
                         (Building.x hb + Building.w hb - padding)) p))
  | None =>
      if isRiverPokemon then riverSnap world p
      else
        let fencePadding := 50 in
        let p := Pokemon.set_x
                   (clamp (Pokemon.x p) fencePadding (FarmWorld.w world - fencePadding)) p in
        let p := Pokemon.set_y
                   (clamp (Pokemon.y p) fencePadding (FarmWorld.h world - fencePadding)) p in
        if negb isFlying && isPositionInvalid (Pokemon.x p) (Pokemon.y p) world false
        then ret (Pokemon.set_aiState idle (Pokemon.set_target None p))
        else ret p
  end.

(** The ten tries of a guard for a patrol point around the house. *)
Fixpoint patrolLoop (n : nat) (house : Building.t) (world : FarmWorld.t)
  : M (option Point) :=
  match n with
  | O => ret None
  | S n' =>
      a <- rand ;;
      let angle := a * PI P * 2 in
      b <- rand ;;
      let radius := 80 + b * 120 in
      let tempX := Building.x house + Building.w house / 2 + cos P angle * radius in
      let tempY := Building.y house + Building.h house / 2 + sin P angle * radius in
      if negb (isPositionInvalid tempX tempY world false)
      then ret (Some (mkPoint tempX tempY))
      else patrolLoop n' house world
  end.

(** The ten tries of a wanderer for a point near its position. *)
Fixpoint roamLoop (n : nat) (p : Pokemon.t) (isFlying : bool) (world : FarmWorld.t)
  : M (option Point) :=
  match n with
  | O => ret None
  | S n' =>
      dx <- rint (-120) 120 ;;
      dy <- rint (-120) 120 ;;
      let clampedX := clamp (Pokemon.x p + dx) 50 (FarmWorld.w world - 50) in
      let clampedY := clamp (Pokemon.y p + dy) 50 (FarmWorld.h world - 50) in
      if negb (isPositionInvalid clampedX clampedY world isFlying)
      then ret (Some (mkPoint clampedX clampedY))
      else roamLoop n' p isFlying world
  end.

(** The choice of a new target by an idle creature. *)
Definition pickTarget (world : FarmWorld.t) (hm : option Building.t)
           (p : Pokemon.t) : M (option Point) :=
  let isFlying := JS.includes flyingPokemonKinds (Pokemon.kind p) in
  let isRiverPokemon := JS.includes riverPokemonKinds (Pokemon.kind p) in
  if JS.includes housePatrolKinds (Pokemon.kind p) then
    match JS.find (fun s => String.eqb (Building.type s) "house")
                  (FarmWorld.structs world) with
    | Some house => patrolLoop 10 house world
    | None => ret None
    end
  else
    match (if isFlying then None else hm) with
    | Some hb =>
        if String.eqb (Building.type hb) "river_area" then getRandomPointInRiver world
        else if String.eqb (Building.type hb) "lake"
                || String.eqb (Building.type hb) "laboratory" then
          let radius := JS.min (Building.w hb) (Building.h hb) / 2 * (9#10) in
          a <- rand ;;
          let angle := a * PI P * 2 in
          b <- rand ;;
          let r := b * radius in
          ret (Some (mkPoint (Building.x hb + Building.w hb / 2 + cos P angle * r)
                             (Building.y hb + Building.h hb / 2 + sin P angle * r)))
        else
          dx <- rint 10 (Building.w hb - 10) ;;
          dy <- rint 10 (Building.h hb - 10) ;;
          ret (Some (mkPoint (Building.x hb + dx) (Building.y hb + dy)))
    | None =>
        if isRiverPokemon then getRandomPointInRiver world
        else roamLoop 10 p isFlying world
    end.

(** Idle wander. *)
Definition wanderStep (world : FarmWorld.t) (hm : option Building.t)
           (p : Pokemon.t) : M Pokemon.t :=
  if bool_decide (Pokemon.aiState p = idle) then
    r <- rand ;;
    if JS.ltb r (1#100) then
      t <- pickTarget world hm p ;;
      match t with
      | Some c =>
          ret (Pokemon.set_aiState moving
                 (Pokemon.set_target (Some (mkTarget (px c) (py c) None)) p))
      | None => ret p
      end
    else ret p
  else ret p.

(** The part of the per-creature callback that follows the death check and
    the sleep guard, for a creature [p] that is awake. *)
Definition behave (dt : Q) (p : Pokemon.t) : M Pokemon.t :=
  let p := actionTimerStep dt p in
  p <- teleportStep dt p ;;
  p <- abilityStep dt p ;;
  let p := moveStep dt p in
  gs <- get ;;
  let world := GameState.world gs in
  let hm := resolveHome p world in
  p <- confineStep world hm p ;;
  wanderStep world hm p.

(** The callback of [gs.pokemons.forEach] for the creature at index [i]
    ([forEach] does not call it for an index that the array does not
    have).  The local variables of the pass are the indices of the
    creatures to keep and the ghosts that appeared. *)
Definition pokemonStep (dt currentHour : Q) (acc : list nat * list Pokemon.t)
           (i : nat) : M (list nat * list Pokemon.t) :=
  gs <- get ;;
  match GameState.pokemons gs !! i with
  | None => ret acc
  | Some p =>
      if deathDue currentHour p then
        ghosts <- die p ;;
        ret (acc.1, (acc.2 ++ ghosts)%list)
      else
        let acc := ((acc.1 ++ [i])%list, acc.2) in
        if Pokemon.isSleeping p then ret acc
        else
          p' <- behave dt p ;;
          setPokemons (fun ps => <[i := p']> ps) ;;;
          ret acc
  end.

Definition updatePokemons (dt : Q) : M unit :=
  gs <- get ;;
  let currentHour := hourOf (GameState.gameTime gs) in
  acc <- foldM (pokemonStep dt currentHour)
           (seq 0 (length (GameState.pokemons gs))) ([], []) ;;
  setPokemons (fun ps => (omap (fun i => ps !! i) acc.1 ++ acc.2)%list).

(** *** Well-being system *)

Definition FIRE_TYPES : list string :=
  ["Charmander"; "Charmeleon"; "Charizard"; "Growlithe"; "Arcanine"; "Torchic";
   "Combusken"; "Blaziken"; "Litwick"; "Lampent"; "Chandelure"].
Definition WATER_TYPES : list string :=
  ["Squirtle"; "Wartortle"; "Blastoise"; "Lotad"; "Lombre"; "Ludicolo"; "Goldeen";
   "Seaking"; "Psyduck"; "Magikarp"; "Gyarados"; "Lapras"; "Omanyte"; "Omastar";
   "Kabuto"; "Kabutops"; "Tirtouga"; "Carracosta"].
Definition ELECTRIC_TYPES : list string :=
  ["Pichu"; "Pikachu"; "Raichu"; "Mareep"; "Flaaffy"; "Ampharos"].
Definition PROTECTOR_TYPES : list string :=
  ["Growlithe"; "Arcanine"; "Meowth"; "Persian"; "Spearow"; "Fearow"].
Definition PEST_TYPES : list string := ["Rattata"; "Raticate"; "Ekans"; "Arbok"].

Definition modValue (m : HappinessModifier) : Q :=
  match m with Flat v => v | Decaying v _ => v end.

(** Phase 4: [50] plus the values of all the entries of the map. *)
Definition totalHappiness (mods : gmap string HappinessModifier) : Q :=
  map_fold (fun _ m acc => acc + modValue m) 50 mods.

(** The farm-wide conditions of phase 0. *)
Record Conditions : Type := mkConditions {
  hasProtector : bool;
  pestCount : nat;
  hasTauros : bool;
  hasBouffalant : bool;
  tratadorBonus : option Q;
  weather : WeatherType
}.

Definition conditionsOf (gs : GameState.t) : Conditions :=
  let ps := GameState.pokemons gs in
  {| hasProtector := existsb (fun p => JS.includes PROTECTOR_TYPES (Pokemon.kind p)) ps;
     pestCount := length (List.filter (fun p => JS.includes PEST_TYPES (Pokemon.kind p)) ps);
     hasTauros := existsb (fun p => String.eqb (Pokemon.kind p) "Tauros") ps;
     hasBouffalant := existsb (fun p => String.eqb (Pokemon.kind p) "Bouffalant") ps;
     tratadorBonus :=
       indexNum [0; 2; 4; 6; 8; 10]
                (PlayerSkills.tratador (Player.skills (GameState.player gs)));
     weather := GameState.weatherToday gs |}.

(** Phase 1 for one new creature: its housemates are cheered. *)
Definition welcome (newPokemon resident : Pokemon.t) : Pokemon.t :=
  if bool_decide (Pokemon.homeBuildingId resident = Pokemon.homeBuildingId newPokemon)
     && negb (String.eqb (Pokemon.id resident) (Pokemon.id newPokemon))
  then
    let resident :=
      if String.eqb (Pokemon.kind resident) (Pokemon.kind newPokemon)
      then setModifier "Novo Companheiro (Mesma Espécie)" (Decaying 20 3) resident
      else resident in
    setModifier "Novo Companheiro" (Decaying 10 3) resident
  else resident.

Definition arrival (ps : list Pokemon.t) (i : nat) : list Pokemon.t :=
  match ps !! i with
  | None => ps
  | Some newPokemon =>
      let ps := if hasHomeId newPokemon then map (welcome newPokemon) ps else ps in
      alter (Pokemon.set_isNew false) i ps
  end.

(** The entries carried over from the previous day. *)
Definition carryOver (key : string) (m : HappinessModifier)
  : option HappinessModifier :=
  match m with
  | Decaying v d => if JS.gtb d 1 then Some (Decaying v (d - 1)) else None
  | Flat v => if String.eqb key "Bônus de Tratador" then Some (Flat v) else None
  end.

Definition setIf (b : bool) (key : string) (v : Q)
           (mods : gmap string HappinessModifier) : gmap string HappinessModifier :=
  if b then <[key := Flat v]> mods else mods.

(** Phases 2 and 3: the modifiers of one creature for the new day. *)
Definition dailyModifiers (c : Conditions) (p : Pokemon.t)
  : gmap string HappinessModifier :=
  let kind := Pokemon.kind p in
  let m := map_imap carryOver (Pokemon.happinessModifiers p) in
  let m := setIf (hasProtector c && negb (JS.includes PROTECTOR_TYPES kind))
                 "Bônus de Proteção" 10 m in
  let m := setIf ((0 <? pestCount c)%nat && negb (JS.includes PEST_TYPES kind))
                 "Estresse de Praga" (-5 * natQ (pestCount c)) m in
  let m := setIf (String.eqb kind "Miltank" && (hasTauros c || hasBouffalant c))
                 "Bônus de Companheirismo" 10 m in
  let m := setIf (String.eqb kind "Tauros" && hasBouffalant c) "Rivalidade" (-10) m in
  let m := setIf (String.eqb kind "Bouffalant" && hasTauros c) "Rivalidade" (-10) m in
  let m := match tratadorBonus c with
           | Some b => setIf (JS.gtb b 0) "Bônus de Tratador" b m
           | None => m
           end in
  match weather c with
  | rain =>
      let m := setIf (JS.includes WATER_TYPES kind) "Bônus de Chuva" 10 m in
      setIf (JS.includes FIRE_TYPES kind) "Mal-estar de Chuva" (-10) m
  | harsh_sunlight =>
      if JS.includes FIRE_TYPES kind then <["Bônus de Sol Forte" := Flat 10]> m
      else <["Desconforto do Sol" := Flat (-5)]> m
  | storm =>
      if JS.includes ELECTRIC_TYPES kind then <["Bônus de Tempestade" := Flat 10]> m
      else <["Estresse de Tempestade" := Flat (-5)]> m
  | clear => m
  end.

(** The body of the daily update loop for one creature. *)
Definition dailyMood (c : Conditions) (p : Pokemon.t) : Pokemon.t :=
  let mods := dailyModifiers c p in
  Pokemon.set_happiness (clamp (totalHappiness mods) 0 100)
    (Pokemon.set_happinessModifiers mods p).

(** The bite of one snake: the first awake chick of the same home gets the
    entry ["Picada de Ekans"]. *)
Definition bite (torchicFamily : list nat) (ekansIdx : nat) : M unit :=
  gs <- get ;;
  match GameState.pokemons gs !! ekansIdx with
  | None => ret tt
  | Some ekans =>
      r <- rand ;;
      ability <- deref (POKEMON_ABILITIES K (Pokemon.kind ekans)) ;;
      if JS.ltb r (biteChance ability) then
        match JS.find
                (fun t => bool_decide
                            ((Pokemon.homeBuildingId <$> (GameState.pokemons gs !! t))
                             = Some (Pokemon.homeBuildingId ekans)))
                torchicFamily with
        | Some t =>
            setPokemons (alter (setModifier "Picada de Ekans" (Decaying (-20) 1)) t)
        | None => ret tt
        end
      else ret tt
  end.

Definition updatePokemonHappiness : M unit :=
  gs <- get ;;
  let c := conditionsOf gs in
  let newPokemons := map fst (filterIndexed Pokemon.isNew (GameState.pokemons gs)) in
  setPokemons (fun ps => fold_left arrival newPokemons ps) ;;;
  setPokemons (map (dailyMood c)) ;;;
  gs <- get ;;
  let ekansFamily :=
    map fst (filterIndexed
               (fun p => (String.eqb (Pokemon.kind p) "Ekans"
                          || String.eqb (Pokemon.kind p) "Arbok")
                         && negb (Pokemon.isSleeping p))
               (GameState.pokemons gs)) in
  let torchicFamily :=
    map fst (filterIndexed
               (fun p => JS.includes ["Torchic"; "Combusken"; "Blaziken"] (Pokemon.kind p)
                         && negb (Pokemon.isSleeping p))
               (GameState.pokemons gs)) in
  forEach ekansFamily (bite torchicFamily).

(** *** Daily production cycle *)

Definition eventId : string := "evt_" ++ numberToString P (dateNow P).

(** One protector of the pest hunt; [st] is the pool of pests that are
    still available and the identifiers of the pests removed so far. *)
Definition hunt (treinadorBonus : Q) (st : list Pokemon.t * list string)
           (protector : Pokemon.t) : M (list Pokemon.t * list string) :=
  match st.1 with
  | [] => ret st
  | pestToRemove :: rest =>
      match POKEMON_ABILITIES K (Pokemon.kind protector) with
      | None => ret st
      | Some ability =>
          if negb (String.eqb (ab_type ability) "farm_protector")
             && negb (String.eqb (ab_type ability) "coop_protector")
             || negb (JS.truthy (default 0 (huntChance ability)))
          then ret st
          else
            let chance := default 0 (huntChance ability) + treinadorBonus in
            r <- rand ;;
            if JS.ltb r chance then
              pushEvent
                (mkEvent (eventId ++ "_" ++ Pokemon.id protector) ability_find
                   (Pokemon.name protector ++ " protegeu a fazenda e espantou um "
                    ++ Pokemon.kind pestToRemove ++ "!")) ;;;
              ret (rest, (st.2 ++ [Pokemon.id pestToRemove])%list)
            else ret st
      end
  end.

Definition pestControl : M unit :=
  gs <- get ;;
  let awake (kinds : list string) :=
    List.filter (fun p => JS.includes kinds (Pokemon.kind p) && negb (Pokemon.isSleeping p))
                (GameState.pokemons gs) in
  let protectors := awake PROTECTOR_TYPES in
  let pests := awake PEST_TYPES in
  removed <-
    (if (0 <? length protectors)%nat && (0 <? length pests)%nat then
       let treinadorBonus :=
         JS.orElseO (indexNum [0; 10#100; 15#100; 20#100]
                       (PlayerSkills.treinador (Player.skills (GameState.player gs)))) 0 in
       res <- foldM (hunt treinadorBonus) protectors (pests, []) ;;
       ret res.2
     else ret []) ;;
  when (0 <? length removed)%nat
    (setPokemons (List.filter (fun p => negb (JS.includes removed (Pokemon.id p))))).

(** The daily ability of one creature. *)
Definition dailyAbility (p : Pokemon.t) : M unit :=
  if Pokemon.isSleeping p then ret tt else
  match POKEMON_ABILITIES K (Pokemon.kind p) with
  | None => ret tt
  | Some ability =>
      let type := ab_type ability in
      if String.eqb type "daily_production" then
        double <-
          match chance ability with
          | Some c => if JS.truthy c then r <- rand ;; ret (JS.ltb r c) else ret false
          | None => ret false
          end ;;
        let amount := if double then amount ability * 2 else amount ability in
        setPlayer (addItem (item ability) amount)
      else if String.eqb type "daily_conversion" then
        setPlayer (fun pl =>
          let res := removeItem (from ability) (amount ability) pl in
          if res.1 then addItem (to ability) (amount ability) res.2 else res.2)
      else if String.eqb type "daily_find" then
        r <- rand ;;
        if match chance ability with Some c => JS.ltb r c | None => false end then
          i <- rint 0 (natQ (length (items ability)) - 1) ;;
          let found := default "undefined" (indexNum (items ability) i) in
          setPlayer (addItem found 1) ;;;
          pushEvent
            (mkEvent eventId ability_find
               (Pokemon.name p ++ " encontrou um(a) "
                ++ (match ITEM_DISPLAY_NAMES K found with
                    | Some d => if JS.truthyS d then d else found
                    | None => found
                    end) ++ "!"))
        else ret tt
      else ret tt
  end.

Definition fossilMap : list (string * string) :=
  [("dome_fossil", "Kabuto"); ("helix_fossil", "Omanyte"); ("old_amber", "Aerodactyl");
   ("jaw_fossil", "Tyrunt"); ("sail_fossil", "Amaura"); ("cover_fossil", "Tirtouga");
   ("plume_fossil", "Archen"); ("skull_fossil", "Cranidos"); ("armor_fossil", "Shieldon");
   ("root_fossil", "Lileep"); ("claw_fossil", "Anorith")].

Definition porygonFamily : list string := ["Porygon"; "Porygon2"; "Porygon-Z"].

Definition setStructs (f : list Building.t -> list Building.t) : M unit :=
  setWorld (fun w => FarmWorld.set_structs (f (FarmWorld.structs w)) w).

(** The fossil revival of the laboratory at index [i]. *)
Definition revive (i : nat) : M unit :=
  gs <- get ;;
  match FarmWorld.structs (GameState.world gs) !! i with
  | None => ret tt
  | Some building =>
  match Building.revivingFossil building with
  | Some fossil =>
      if String.eqb (Building.type building) "laboratory" && JS.truthyS fossil then
        let totalBonus :=
          fold_left
            (fun acc p =>
               if bool_decide (Pokemon.homeBuildingId p = Some (Building.id building))
                  && JS.includes porygonFamily (Pokemon.kind p)
               then match POKEMON_ABILITIES K (Pokemon.kind p) with
                    | Some ability =>
                        if String.eqb (ab_type ability) "fossil_revival_accelerator"
                        then acc + bonus ability else acc
                    | None => acc
                    end
               else acc)
            (GameState.pokemons gs) 0 in
        let baseProgress := 1 / 7 in
        let dailyProgress := baseProgress * (1 + totalBonus) in
        let progress := JS.orElseO (Building.revivalProgress building) 0 + dailyProgress in
        if JS.geb progress 1 then
          match tableGet fossilMap fossil with
          | Some revivedKind =>
              s <- rand ;;
              let isShiny := JS.ltb s (calculateShinyChance (GameState.player gs)) in
              newP <- newPokemon revivedKind
                        (Building.x building + Building.w building / 2)
                        (Building.y building + Building.h building / 2) isShiny ;;
              pushPokemon (Pokemon.set_isImmortal true newP) ;;;
              pushEvent
                (mkEvent eventId fossil_revived
                   ("O fóssil foi ressuscitado! Um " ++ revivedKind
                    ++ " selvagem apareceu!"))
          | None => ret tt
          end ;;;
          setStructs (alter (fun b => Building.set_revivalProgress None
                                        (Building.set_revivingFossil None b)) i)
        else
          setStructs (alter (Building.set_revivalProgress (Some progress)) i)
      else ret tt
  | None => ret tt
  end
  end.

Definition bloom (day : Q) (res : Resource.t) : Resource.t :=
  match Resource.spawnDay res with
  | Some d =>
      if String.eqb (Resource.type res) "wild_plant" && JS.geb (day - d) 1
      then Resource.set_state (Some flower) res else res
  | None => res
  end.

(** The ageing of the creature at index [i]. *)
Definition ageOne (i : nat) : M unit :=
  gs <- get ;;
  match GameState.pokemons gs !! i with
  | None => ret tt
  | Some p =>
      if Pokemon.isImmortal p then ret tt else
      let p := Pokemon.set_age (Pokemon.age p + 1) p in
      p <- (if JS.gtb (Pokemon.age p) (Pokemon.maxAge p) then
              match Pokemon.scheduledDeathHour p with
              | None =>
                  hd <- rint 7 19 ;; ret (Pokemon.set_scheduledDeathHour (Some hd) p)
              | Some _ => ret p
              end
            else ret p) ;;
      setPokemons (fun ps => <[i := p]> ps)
  end.

Definition processDailyProduction : M unit :=
  modify (fun gs => GameState.set_dailyResourceSpawns ∅
                      (GameState.set_dailySpawns ∅ (GameState.set_dailyIncome ∅ gs))) ;;;
  setCropPlots (map (CropPlot.set_isWatered false)) ;;;
  gs <- get ;;
  when (bool_decide (GameState.weatherToday gs = rain)
        || bool_decide (GameState.weatherToday gs = storm))
    (setCropPlots
       (map (fun plot => if bool_decide (CropPlot.state plot = growing)
                         then CropPlot.set_isWatered true plot else plot))) ;;;
  pestControl ;;;
  updatePokemonHappiness ;;;
  gs <- get ;;
  forEach (GameState.pokemons gs) dailyAbility ;;;
  gs <- get ;;
  forEach (seq 0 (length (FarmWorld.structs (GameState.world gs)))) revive ;;;
  gs <- get ;;
  setWorld (fun w => FarmWorld.set_resources
                       (map (bloom (GameState.day gs)) (FarmWorld.resources w)) w) ;;;
  gs <- get ;;
  forEach (seq 0 (length (GameState.pokemons gs))) ageOne ;;;
  modify (GameState.set_dailyPidgeyBonusCount 0).

(** *** Daily spawn rolls *)

Definition structsOfType (type : string) (gs : GameState.t) : list Building.t :=
  List.filter (fun s => String.eqb (Building.type s) type)
              (FarmWorld.structs (GameState.world gs)).

Definition countKinds (kinds : list string) (gs : GameState.t) : nat :=
  length (List.filter (fun p => JS.includes kinds (Pokemon.kind p)) (GameState.pokemons gs)).

(** A new resident [kind] in the middle of [b]. *)
Definition spawnIn (kind : string) (b : Building.t) : M unit :=
  gs <- get ;;
  s <- rand ;;
  let isShiny := JS.ltb s (calculateShinyChance (GameState.player gs)) in
  newP <- newPokemon kind (Building.x b + Building.w b / 2)
                          (Building.y b + Building.h b / 2) isShiny ;;
  pushPokemon (Pokemon.set_homeBuildingId (Some (Building.id b)) newP).

(** The roll of a building category: [count < capacity && Math.random() <
    0.15]; a capacity that is not a number makes the comparison false. *)
Definition roll (count : nat) (capacity : option Q) : M bool :=
  match capacity with
  | Some c => if JS.ltb (natQ count) c
              then r <- rand ;; ret (JS.ltb r (15#100)) else ret false
  | None => ret false
  end.

Definition scale (n : nat) (per : option Q) : option Q :=
  option_map (fun c => natQ n * c) per.

Definition farmPokemonKinds : list string :=
  ["Diglett"; "Pidgey"; "Bulbasaur"] ++ map fst (DAY_COUNTERPARTS K)
    ++ map fst (NIGHT_COUNTERPARTS K).

Definition farmAreaSpawn (area : Building.t) : M unit :=
  gs <- get ;;
  let pokemonInArea :=
    length (List.filter
              (fun p => bool_decide (Pokemon.homeBuildingId p = Some (Building.id area))
                        && JS.includes farmPokemonKinds (Pokemon.kind p))
              (GameState.pokemons gs)) in
  let capacity := JS.orElseO (POKEMON_CAPACITY K "farm_area") 3 in
  ok <- roll pokemonInArea (Some capacity) ;;
  if ok then
    k <- rand ;;
    let kind := if JS.ltb k (1#2) then "Pidgey" else "Diglett" in
    spawnIn (getSpeciesForCurrentTime kind (GameState.gameTime gs)) area
  else ret tt.

Definition laboratorySpawn (lab : Building.t) : M unit :=
  gs <- get ;;
  let porygonCount :=
    length (List.filter
              (fun p => bool_decide (Pokemon.homeBuildingId p = Some (Building.id lab))
                        && JS.includes porygonFamily (Pokemon.kind p))
              (GameState.pokemons gs)) in
  let capacity := JS.orElseO (POKEMON_CAPACITY K "laboratory") 4 in
  ok <- roll porygonCount (Some capacity) ;;
  if ok then
    spawnIn "Porygon" lab ;;;
    pushEvent (mkEvent eventId new_pokemon "Um novo Porygon apareceu no laboratório!")
  else ret tt.

Definition squirtleFamily : list string :=
  ["Squirtle"; "Wartortle"; "Blastoise"; "Lotad"; "Lombre"; "Ludicolo"].

Definition stablesOf (kind : string) (gs : GameState.t) : list Building.t :=
  List.filter (fun s => String.eqb (Building.type s) "stable"
                        && bool_decide (Building.pokemonKind s = Some kind))
              (FarmWorld.structs (GameState.world gs)).

Definition processDailySpawns : M unit :=
  gs <- get ;;
  let coops := structsOfType "coop" gs in
  when (0 <? length coops)%nat
    (ok <- roll (countKinds ["Torchic"; "Combusken"; "Blaziken"] gs)
                (scale (length coops) (POKEMON_CAPACITY K "coop")) ;;
     if ok then coop <- pickOne coops ;; spawnIn "Torchic" coop else ret tt) ;;;
  gs <- get ;;
  let miltankStables := stablesOf "Miltank" gs in
  when (0 <? length miltankStables)%nat
    (ok <- roll (countKinds ["Miltank"] gs)
                (scale (length miltankStables) (POKEMON_CAPACITY K "stable")) ;;
     if ok then stable <- pickOne miltankStables ;; spawnIn "Miltank" stable
     else ret tt) ;;;
  gs <- get ;;
  let mareepStables := stablesOf "Mareep" gs in
  when (0 <? length mareepStables)%nat
    (ok <- roll (countKinds ["Mareep"; "Flaaffy"; "Ampharos"] gs)
                (Some (natQ (length mareepStables) * 3)) ;;
     if ok then stable <- pickOne mareepStables ;; spawnIn "Mareep" stable
     else ret tt) ;;;
  gs <- get ;;
  forEach (structsOfType "farm_area" gs) farmAreaSpawn ;;;
  gs <- get ;;
  let lakes := structsOfType "lake" gs in
  when (0 <? length lakes)%nat
    (ok <- roll (countKinds squirtleFamily gs) (Some (natQ (length lakes))) ;;
     if ok then
       let lakesWithSquirtles :=
         map Pokemon.homeBuildingId
             (List.filter (fun p => JS.includes squirtleFamily (Pokemon.kind p))
                          (GameState.pokemons gs)) in
       match List.filter
               (fun lake => negb (bool_decide (Some (Building.id lake) ∈ lakesWithSquirtles)))
               lakes with
       | lake :: _ =>
           spawnIn (getSpeciesForCurrentTime "Squirtle" (GameState.gameTime gs)) lake
       | [] => ret tt
       end
     else ret tt) ;;;
  gs <- get ;;
  forEach (structsOfType "laboratory" gs) laboratorySpawn.

(** *** Special spawns *)

Definition isTrue (o : option bool) : bool := default false o.

Definition processSpecialSpawns : M unit :=
  gs <- get ;;
  when (countKinds ["Rattata"; "Raticate"] gs <? 3)%nat
    (r <- rand ;;
     if JS.ltb r (20#100) then
       s <- rand ;;
       let isShiny := JS.ltb s (calculateShinyChance (GameState.player gs)) in
       match structsOfType "farm_area" gs with
       | farmArea :: _ =>
           dx <- rint 0 (Building.w farmArea) ;;
           dy <- rint 0 (Building.h farmArea) ;;
           newP <- newPokemon "Rattata" (Building.x farmArea + dx)
                                        (Building.y farmArea + dy) isShiny ;;
           pushPokemon newP ;;;
           pushEvent (mkEvent eventId pest_attack
                        "Um Rattata apareceu e pode causar problemas!")
       | [] => ret tt
       end
     else ret tt) ;;;
  gs <- get ;;
  let coops := structsOfType "coop" gs in
  match coops with
  | coop :: _ =>
      when (negb (isTrue (GameState.hasEncounteredEkans gs)))
        (r <- rand ;;
         if JS.ltb r (10#100) then
           modify (GameState.set_hasEncounteredEkans (Some true)) ;;;
           s <- rand ;;
           let isShiny := JS.ltb s (calculateShinyChance (GameState.player gs)) in
           newP <- newPokemon "Ekans" (Building.x coop) (Building.y coop) isShiny ;;
           pushPokemon (Pokemon.set_homeBuildingId (Some (Building.id coop)) newP) ;;;
           pushEvent (mkEvent eventId pest_attack "Um Ekans apareceu perto da granja!")
         else ret tt) ;;;
      gs <- get ;;
      when (isTrue (GameState.hasEncounteredEkans gs)
            && negb (isTrue (GameState.hasEncounteredSpearow gs)))
        (r <- rand ;;
         if JS.ltb r (15#100) then
           modify (GameState.set_hasEncounteredSpearow (Some true)) ;;;
           s <- rand ;;
           let isShiny := JS.ltb s (calculateShinyChance (GameState.player gs)) in
           newP <- newPokemon "Spearow" (Building.x coop) (Building.y coop) isShiny ;;
           pushPokemon (Pokemon.set_homeBuildingId (Some (Building.id coop)) newP) ;;;
           pushEvent (mkEvent eventId new_pokemon
                        "Um Spearow apareceu para proteger a granja!")
         else ret tt)
  | [] => ret tt
  end.

(** *** The per-frame entry point *)

Definition updateGame (dt : Q) : M bool :=
  modify (GameState.set_gameTime
            (clockHours P * 3600 + clockMinutes P * 60 + clockSeconds P)) ;;;
  setPlayer (updatePlayer dt) ;;;
  updatePassiveIncome dt ;;;
  updatePokemons dt ;;;
  updateWorld dt ;;;
  gs <- get ;;
  let dateString := gameDateString P (GameState.dayChangeHour gs) in
  if negb (String.eqb (GameState.lastProductionDate gs) dateString) then
    modify (fun gs => GameState.set_lastProductionDate dateString
                        (GameState.set_day (GameState.day gs + 1) gs)) ;;;
    processDailyProduction ;;;
    processDailySpawns ;;;
    processSpecialSpawns ;;;
    updatePokemonDayNightCycle ;;;
    ret true
  else ret false.

(** [advance(state, dt)]: one call of the entry point on a state. *)
Definition advance (gs : GameState.t) (dt : Q) : Outcome bool :=
  updateGame dt (mkRun gs 0).

(** *** Save/load bridge *)

Definition spriteUrl (shiny : bool) (id : Q) : string :=
  "https://raw.githubusercontent.com/PokeAPI/sprites/master/sprites/pokemon/"
  ++ (if shiny then "shiny/" else "") ++ numberToString P id ++ ".png".

(** The two cache entries of a species; an entry that exists is kept. *)
Definition preloadOne (name : string) (id : Q) (cache : gmap string string)
  : gmap string string :=
  let regularKey := name ++ "-regular" in
  let cache := match cache !! regularKey with
               | Some _ => cache
               | None => <[regularKey := spriteUrl false id]> cache
               end in
  let shinyKey := name ++ "-shiny" in
  match cache !! shinyKey with
  | Some _ => cache
  | None => <[shinyKey := spriteUrl true id]> cache
  end.

Definition preloadPokemonSprites (gs : GameState.t) : GameState.t :=
  GameState.set_pokemonSpriteCache
    (fold_left (fun cache ni => if JS.truthy ni.2 then preloadOne ni.1 ni.2 cache else cache)
               (POKEMON_IDS K) (GameState.pokemonSpriteCache gs)) gs.

(** [saveGame]: the time stamp is refreshed and the state is written without
    its sprite cache.  The result is the state after the call and the
    snapshot.  [JSON.parse(JSON.stringify(v))] is the identity on the data
    of the model (finite numbers; an absent optional field stays absent), so
    the snapshot is kept as the value that [JSON.parse] gives back. *)
Definition saveGame (gs : GameState.t) : GameState.t * GameState.t :=
  let gs := GameState.set_lastUpdateTimestamp (dateNow P) gs in
  (gs, GameState.set_pokemonSpriteCache ∅ gs).

(** [Object.assign(new Resource(r.type, r.x, r.y), r)]: the constructor
    gives a wild plant the state [bush], which stays when the snapshot has
    no state. *)
Definition rehydrateResource (r : Resource.t) : Resource.t :=
  match Resource.state r with
  | Some _ => r
  | None => if String.eqb (Resource.type r) "wild_plant"
            then Resource.set_state (Some bush) r else r
  end.

(** [Object.assign(new Pokemon(p.kind, p.x, p.y, p.isShiny), p)] followed by
    [pokemon.isNew = false]: the counters that the constructor starts at
    zero stay when the snapshot has none. *)
Definition rehydratePokemon (p : Pokemon.t) : Pokemon.t :=
  let cured := match Pokemon.torchicsCured p with
               | Some v => Some v
               | None => if JS.includes ["Happiny"; "Chansey"; "Blissey"] (Pokemon.kind p)
                         then Some 0 else None
               end in
  let apples := match Pokemon.applesHarvested p with
                | Some v => Some v
                | None => if JS.includes ["Mankey"; "Primeape"; "Aipom"; "Ambipom"]
                                         (Pokemon.kind p)
                          then Some 0 else None
                end in
  Pokemon.mk (Pokemon.id p) (Pokemon.name p) (Pokemon.kind p) (Pokemon.x p)
    (Pokemon.y p) (Pokemon.isShiny p) (Pokemon.gender p) (Pokemon.age p)
    (Pokemon.maxAge p) (Pokemon.homeBuildingId p) (Pokemon.cooldown p)
    (Pokemon.target p) (Pokemon.aiState p) (Pokemon.moveSpeed p)
    (Pokemon.isSleeping p) (Pokemon.Poder p) (Pokemon.teleportState p)
    (Pokemon.teleportTimer p) (Pokemon.actionTimer p) (Pokemon.isImmortal p)
    (Pokemon.scheduledDeathHour p) cured apples (Pokemon.happiness p)
    (Pokemon.happinessModifiers p) false.

(** The offline progress applied to the snapshot. *)
Definition offlineSeconds (parsedData : GameState.t) : Q :=
  let now := dateNow P in
  let lastUpdate := JS.orElse (GameState.lastUpdateTimestamp parsedData) now in
  JS.max 0 ((now - lastUpdate) / 1000).

Definition offlineProgress (parsedData : GameState.t) : GameState.t :=
  let secs := offlineSeconds parsedData in
  if JS.gtb secs 5 then
    let pl := GameState.player parsedData in
    let energyGained := secs * energy_regenPerSec K in
    let newEnergy := JS.orElse (Player.energy pl) 0 + energyGained in
    let pl := Player.set_energy (JS.min (JS.orElse (Player.maxEnergy pl) 100) newEnergy) pl in
    GameState.set_respawnQueue
      (map (fun t => mkTicket (tk_type t) (timer t - secs))
           (GameState.respawnQueue parsedData))
      (GameState.set_player pl parsedData)
  else parsedData.

(** [rehydrateGameState(parsedData)].  [fresh] is the state that the call
    of [initializeNewGame()] returns; [Object.assign(gs, parsedData)]
    overwrites each of its fields that the snapshot has, which leaves only
    the two optional flags when the snapshot lacks them. *)
Definition rehydrateGameState (fresh parsedData : GameState.t) : GameState.t :=
  let parsedData := offlineProgress parsedData in
  let orFresh (f : GameState.t -> option bool) :=
    match f parsedData with Some b => Some b | None => f fresh end in
  let world := GameState.world parsedData in
  let world :=
    FarmWorld.set_resources (map rehydrateResource (FarmWorld.resources world))
      (FarmWorld.set_structs (map (fun s => s) (FarmWorld.structs world)) world) in
  let gs :=
    GameState.set_hasEncounteredSpearow (orFresh GameState.hasEncounteredSpearow)
      (GameState.set_hasEncounteredEkans (orFresh GameState.hasEncounteredEkans)
         parsedData) in
  let gs := GameState.set_world world gs in
  let gs := GameState.set_pokemons (map rehydratePokemon (GameState.pokemons parsedData)) gs in
  let gs := GameState.set_cropPlots (map (fun p => p) (GameState.cropPlots parsedData)) gs in
  let gs := GameState.set_lastUpdateTimestamp (dateNow P) gs in
  preloadPokemonSprites gs.

(** *** Commands *)

(** [CropPlot.plant]. *)
Definition plant (seedType : string) (plot : CropPlot.t) : CropPlot.t :=
  CropPlot.set_isWatered false
    (CropPlot.set_fertilized false
       (CropPlot.set_matureTimeInDays (1#2)
          (CropPlot.set_growthDays 0
             (CropPlot.set_type (Some seedType)
                (CropPlot.set_state growing plot))))).

(** [CropPlot.reset]. *)
Definition reset (plot : CropPlot.t) : CropPlot.t :=
  CropPlot.set_isWatered false
    (CropPlot.set_fertilized false
       (CropPlot.set_growthDays 0
          (CropPlot.set_type None (CropPlot.set_state empty plot)))).

(** The chance of a double yield in [CropPlot.harvest]. *)
Definition doubleChance (plot : CropPlot.t) : Q :=
  if CropPlot.fertilized plot then 15#100 else 5#100.

(** [CropPlot.harvest(player)], with [r] the value that [Math.random()]
    returns.  The result is the plot, the player and the returned value:
    [{type, count}] or [null]. *)
Definition harvest (r : Q) (plot : CropPlot.t) (player : Player.t)
  : CropPlot.t * Player.t * option (string * Q) :=
  match CropPlot.type plot with
  | Some type =>
      if bool_decide (CropPlot.state plot = mature) && JS.truthyS type then
        let yieldCount := if JS.ltb r (doubleChance plot) then 2 else 1 in
        let cropType := JS.toLowerCase (JS.replace type "seed" "") in
        (reset plot, addItem cropType yieldCount player, Some (cropType, yieldCount))
      else (plot, player, None)
  | None => (plot, player, None)
  end.

(** [handleEvolvePokemon(pokemonId)], without the notifications of the user
    interface. *)
Definition evolve (target : string) (p : Pokemon.t) : Pokemon.t :=
  let p := if String.eqb (Pokemon.name p) (Pokemon.kind p)
           then Pokemon.set_name target p else p in
  Pokemon.set_maxAge (JS.orElseO (POKEMON_LIFESPANS K target) 100)
    (Pokemon.set_age 0 (Pokemon.set_kind target p)).

Definition handleEvolvePokemon (pokemonId : string) (gs : GameState.t) : GameState.t :=
  match JS.findIndex (fun p => String.eqb (Pokemon.id p) pokemonId)
                     (GameState.pokemons gs) with
  | None => gs
  | Some i =>
      match GameState.pokemons gs !! i with
      | None => gs
      | Some pokemon =>
          match POKEMON_EVOLUTIONS K (Pokemon.kind pokemon) with
          | None => gs
          | Some evolutionTarget =>
              if negb (JS.truthyS evolutionTarget) then gs else
              let res := removeItem "evolution_stone" 1 (GameState.player gs) in
              if res.1 then
                let gs := GameState.set_player res.2 gs in
                let gs := GameState.set_pokemons
                            (alter (evolve evolutionTarget) i (GameState.pokemons gs)) gs in
                match tableGet (POKEMON_IDS K) evolutionTarget with
                | Some id =>
                    if JS.truthy id then
                      GameState.set_pokemonSpriteCache
                        (preloadOne evolutionTarget id (GameState.pokemonSpriteCache gs)) gs
                    else gs
                | None => gs
                end
              else gs
          end
      end
  end.

End Simulation.

(** ** The commands of the application

    The handlers of the application component ([App.tsx], in the second part
    of [src/services/game.ts]) that act on the game state.  What a handler
    does to the user interface alone (toasts, modals, the redraw) is left
    out; a notification that tells the outcome is returned beside the
    state.  A toast draws one random number for its identifier; that draw is
    left out with the toast, so the position in the random stream counts the
    draws of the game logic only.  The state of the interface that a handler
    reads (the selected building type, the rotation, the active seed) is an
    argument. *)

(** [getBuildSize(type)]: the footprint [(w, h)]. *)
Definition getBuildSize (type : string) : Q * Q :=
  if String.eqb type "farm_area" then (160, 100)
  else if String.eqb type "stable_miltank" || String.eqb type "stable_mareep"
  then (100, 80)
  else if String.eqb type "coop" then (80, 60)
  else if String.eqb type "mine" then (120, 120)
  else if String.eqb type "lake" then (150, 150)
  else if String.eqb type "campfire" then (50, 50)
  else if String.eqb type "pokemon_gym" then (180, 140)
  else if String.eqb type "laboratory" then (120, 120)
  else (100, 100).

(** [getBuildCost(type)]: [{money, resources}]. *)
Record BuildCost : Type := mkBuildCost {
  bc_money : Q;
  bc_resources : gmap string Q
}.

Definition getBuildCost (type : string) : BuildCost :=
  if String.eqb type "farm_area" then mkBuildCost 100 {[ "wood" := 20 ]}
  else if String.eqb type "stable_miltank" || String.eqb type "stable_mareep"
  then mkBuildCost 250 {[ "wood" := 50; "stone" := 10 ]}
  else if String.eqb type "coop" then mkBuildCost 150 {[ "wood" := 30 ]}
  else if String.eqb type "mine" then mkBuildCost 500 {[ "wood" := 100; "stone" := 50 ]}
  else if String.eqb type "lake" then mkBuildCost 300 {[ "stone" := 40 ]}
  else if String.eqb type "campfire" then mkBuildCost 50 {[ "wood" := 10; "stone" := 5 ]}
  else if String.eqb type "pokemon_gym" then mkBuildCost 5000 {[ "wood" := 250 ]}
  else if String.eqb type "laboratory"
  then mkBuildCost 10000 {[ "wood" := 200; "stone" := 200; "metal" := 50 ]}
  else mkBuildCost 100 ∅.

(** An entry of [RECIPES]. *)
Record Recipe : Type := mkRecipe {
  rc_id : string;
  rc_name : string;
  rc_input : gmap string Q;
  rc_output : gmap string Q;
  rc_requiresStructure : option string
}.

(** The tables of the constants module that only the commands read. *)
Record AppConstants : Type := mkAppConstants {
  RECIPES_processing : list Recipe;
  RECIPES_cooking : list Recipe;
  CRAFTING_ENERGY_COST : Q
}.

(** The entries of the task manager; [GameState.tasks] is kept beside the
    state record. *)
Inductive TaskDifficulty : Type := Trivial | Facil | Medio | Dificil.
Inductive TaskFrequencyType : Type :=
| Unica | Diaria | Semanal | Mensal | Personalizada.
Inductive CustomInterval : Type := dias | semanas | meses.

Record TaskFrequency : Type := mkTaskFrequency {
  fq_type : TaskFrequencyType;
  fq_daysOfWeek : option (list Q);
  fq_customInterval : option CustomInterval;
  fq_customAmount : option Q
}.

Record Subtask : Type := mkSubtask {
  sub_id : string;
  sub_text : string;
  sub_completed : bool
}.

Module Task.

Record t : Type := mk {
  id : string;
  title : string;
  subtasks : list Subtask;
  difficulty : TaskDifficulty;
  tags : list string;
  frequency : TaskFrequency;
  dueDate : option string;
  createdAt : Q;
  lastCompletedAt : option Q
}.

Definition set_subtasks (v : list Subtask) (p : t) : t :=
  mk (id p) (title p) v (difficulty p) (tags p) (frequency p) (dueDate p)
  (createdAt p) (lastCompletedAt p).
Definition set_lastCompletedAt (v : option Q) (p : t) : t :=
  mk (id p) (title p) (subtasks p) (difficulty p) (tags p) (frequency p)
  (dueDate p) (createdAt p) v.

End Task.

Inductive TransactionType : Type := buy | sell.

Inductive Skill : Type := sk_gerente | sk_sortudo | sk_tratador | sk_treinador.

Inductive CheatResource : Type :=
| ch_money | ch_wood | ch_stone | ch_energy | ch_metal.

Section Commands.

Variable P : Platform.
Variable K : Constants.
Variable A : AppConstants.

(** [new Building(type, x, y, w, h)] and [new CropPlot(x, y)]. *)
Definition newBuilding (type : string) (x y w h : Q) : M Building.t :=
  r <- rand P ;;
  ret {| Building.id := freshId P "bld" r;
         Building.type := type;
         Building.x := x;
         Building.y := y;
         Building.w := w;
         Building.h := h;
         Building.pokemonKind := None;
         Building.revivingFossil := None;
         Building.revivalProgress := None;
         Building.rotation := 0 |}.

Definition newCropPlot (x y : Q) : M CropPlot.t :=
  r <- rand P ;;
  ret {| CropPlot.id := freshId P "plot" r;
         CropPlot.x := x;
         CropPlot.y := y;
         CropPlot.state := empty;
         CropPlot.type := None;
         CropPlot.growthDays := 0;
         CropPlot.matureTimeInDays := 1#2;
         CropPlot.fertilized := false;
         CropPlot.isWatered := false;
         CropPlot.rotation := 0 |}.

(** *** The market and the workshop *)

(** [handleMarketTransaction(type, item, price, quantity)]. *)
Definition handleMarketTransaction (type : TransactionType) (item : string)
           (price quantity : Q) (gs : GameState.t) : GameState.t :=
  let player := GameState.player gs in
  match type with
  | buy =>
      let totalCost := price * quantity in
      if JS.geb (Player.money player) totalCost then
        GameState.set_player
          (addItem item quantity
             (Player.set_money (Player.money player - totalCost) player)) gs
      else gs
  | sell =>
      let res := removeItem item quantity player in
      if res.1 then
        let earnings := price * quantity in
        let gs :=
          GameState.set_player
            (Player.set_money (Player.money res.2 + earnings) res.2) gs in
        GameState.set_dailyIncome
          (<["Vendas" := JS.orElseO (GameState.dailyIncome gs !! "Vendas") 0
                         + earnings]> (GameState.dailyIncome gs)) gs
      else gs
  end.

(** [for (const k in output) player.addItem(k, output[k])]. *)
Definition addItems (items : gmap string Q) (p : Player.t) : Player.t :=
  fold_left (fun p kv => addItem kv.1 kv.2 p) (map_to_list items) p.

(** [handleCraft(recipeId)]; the notification is returned. *)
Definition handleCraft (recipeId : string) (gs : GameState.t)
  : GameState.t * option string :=
  let player := GameState.player gs in
  if JS.ltb (Player.energy player) (CRAFTING_ENERGY_COST A)
  then (gs, Some "Energia Insuficiente!")
  else
    let allRecipes := (RECIPES_processing A ++ RECIPES_cooking A)%list in
    match JS.find (fun r => String.eqb (rc_id r) recipeId) allRecipes with
    | None => (gs, None)
    | Some recipe =>
        if hasItems (rc_input recipe) player then
          let player := removeItems (rc_input recipe) player in
          let player := addItems (rc_output recipe) player in
          (GameState.set_player
             (Player.set_energy (Player.energy player - CRAFTING_ENERGY_COST A)
                player) gs, None)
        else (gs, Some "Faltam Ingredientes!")
    end.

(** *** Creatures *)

Definition hasId (pokemonId : string) (p : Pokemon.t) : bool :=
  String.eqb (Pokemon.id p) pokemonId.

(** [handleRenamePokemon(pokemonId, newName)]. *)
Definition handleRenamePokemon (pokemonId newName : string) (gs : GameState.t)
  : GameState.t :=
  match JS.findIndex (hasId pokemonId) (GameState.pokemons gs) with
  | Some i =>
      GameState.set_pokemons
        (alter (Pokemon.set_name newName) i (GameState.pokemons gs)) gs
  | None => gs
  end.

(** [handleLocatePokemon(pokemonId)]: the camera jumps to the creature. *)
Definition handleLocatePokemon (pokemonId : string) (gs : GameState.t)
  : GameState.t :=
  match JS.find (hasId pokemonId) (GameState.pokemons gs) with
  | Some pokemon =>
      GameState.set_camera
        (Camera.set_y (Pokemon.y pokemon)
           (Camera.set_x (Pokemon.x pokemon) (GameState.camera gs))) gs
  | None => gs
  end.

(** [handleReleasePokemon(pokemonId)]. *)
Definition handleReleasePokemon (pokemonId : string) (gs : GameState.t)
  : GameState.t :=
  match JS.find (hasId pokemonId) (GameState.pokemons gs) with
  | Some _ =>
      let gs :=
        GameState.set_pokemons
          (List.filter (fun p => negb (String.eqb (Pokemon.id p) pokemonId))
                       (GameState.pokemons gs)) gs in
      GameState.set_player
        (Player.set_team
           (List.filter (fun id => negb (String.eqb id pokemonId))
                        (Player.team (GameState.player gs)))
           (GameState.player gs)) gs
  | None => gs
  end.

(** [handleSaveTeam(newTeamIds)]: the creatures that join the team are
    cheered, the ones that leave it lose the bonus. *)
Definition teamBonus : Q := 10.
Definition bonusKey : string := "Bônus de Time".

Definition joinTeam (p : Pokemon.t) : Pokemon.t :=
  setModifier bonusKey (Flat teamBonus)
    (Pokemon.set_happiness (JS.min 100 (Pokemon.happiness p + teamBonus)) p).

Definition leaveTeam (p : Pokemon.t) : Pokemon.t :=
  Pokemon.set_happinessModifiers
    (delete bonusKey (Pokemon.happinessModifiers p))
    (Pokemon.set_happiness (JS.max 0 (Pokemon.happiness p - teamBonus)) p).

(** One step of either loop: the first creature with the identifier [id] is
    updated unless [id] belongs to [others]. *)
Definition teamStep (others : list string) (f : Pokemon.t -> Pokemon.t)
           (ps : list Pokemon.t) (id : string) : list Pokemon.t :=
  if JS.includes others id then ps else
  match JS.findIndex (hasId id) ps with
  | Some i => alter f i ps
  | None => ps
  end.

Definition handleSaveTeam (newTeamIds : list string) (gs : GameState.t)
  : GameState.t :=
  let oldTeam := Player.team (GameState.player gs) in
  let ps := fold_left (teamStep oldTeam joinTeam) newTeamIds (GameState.pokemons gs) in
  let ps := fold_left (teamStep newTeamIds leaveTeam) oldTeam ps in
  GameState.set_player (Player.set_team newTeamIds (GameState.player gs))
    (GameState.set_pokemons ps gs).

(** *** Buildings *)

(** The capacity of a building as a new home, and the number of its
    residents that count. *)
Definition homeCapacity (house : Building.t) : Q :=
  if String.eqb (Building.type house) "stable"
     && bool_decide (Building.pokemonKind house = Some "Mareep")
  then 3
  else JS.orElseO (POKEMON_CAPACITY K (Building.type house)) 0.

Definition homeOccupancy (ps : list Pokemon.t) (house : Building.t) : nat :=
  let residentsOfHome :=
    List.filter
      (fun p => bool_decide (Pokemon.homeBuildingId p = Some (Building.id house)))
      ps in
  if String.eqb (Building.type house) "lake"
  then length (List.filter
                 (fun p => negb (JS.includes squirtleFamily (Pokemon.kind p)))
                 residentsOfHome)
  else length residentsOfHome.

(** The first building of [homes] that has room. *)
Definition findRoom (homes : list Building.t) (ps : list Pokemon.t)
  : option Building.t :=
  JS.find (fun house => JS.ltb (natQ (homeOccupancy ps house)) (homeCapacity house))
          homes.

(** One resident of the building that is torn down: [acc] holds the
    creatures and the identifiers of the ones that will leave. *)
Definition evict (b : Building.t) (homes : list Building.t)
           (acc : list Pokemon.t * list string) (i : nat)
  : list Pokemon.t * list string :=
  match acc.1 !! i with
  | None => acc
  | Some pokemon =>
      if String.eqb (Building.type b) "lake"
         && JS.includes squirtleFamily (Pokemon.kind pokemon)
      then (acc.1, (acc.2 ++ [Pokemon.id pokemon])%list)
      else
        match findRoom homes acc.1 with
        | Some house =>
            (alter (Pokemon.set_homeBuildingId (Some (Building.id house))) i acc.1,
             acc.2)
        | None => (acc.1, (acc.2 ++ [Pokemon.id pokemon])%list)
        end
  end.

Definition insideBuilding (b : Building.t) (x y : Q) : bool :=
  JS.geb x (Building.x b)
  && JS.leb x (Building.x b + Building.w b)
  && JS.geb y (Building.y b)
  && JS.leb y (Building.y b + Building.h b).

(** [handleDestroyBuilding(buildingId)]. *)
Definition handleDestroyBuilding (buildingId : string) (gs : GameState.t)
  : GameState.t :=
  let structs := FarmWorld.structs (GameState.world gs) in
  match JS.findIndex (fun b => String.eqb (Building.id b) buildingId) structs with
  | None => gs
  | Some buildingIndex =>
      match structs !! buildingIndex with
      | None => gs
      | Some buildingToDestroy =>
          let residentPokemons :=
            map fst (filterIndexed
                       (fun p => bool_decide
                                   (Pokemon.homeBuildingId p = Some buildingId))
                       (GameState.pokemons gs)) in
          let potentialNewHomes :=
            List.filter
              (fun b => negb (String.eqb (Building.id b) buildingId)
                        && String.eqb (Building.type b)
                                      (Building.type buildingToDestroy))
              structs in
          let res := fold_left (evict buildingToDestroy potentialNewHomes)
                               residentPokemons (GameState.pokemons gs, []) in
          let gs :=
            GameState.set_world
              (FarmWorld.set_structs (JS.splice1 buildingIndex structs)
                 (GameState.world gs)) gs in
          let gs :=
            GameState.set_pokemons
              (List.filter (fun p => negb (JS.includes res.2 (Pokemon.id p))) res.1)
              gs in
          if String.eqb (Building.type buildingToDestroy) "farm_area" then
            GameState.set_cropPlots
              (List.filter
                 (fun plot => negb (insideBuilding buildingToDestroy
                                      (CropPlot.x plot) (CropPlot.y plot)))
                 (GameState.cropPlots gs)) gs
          else gs
      end
  end.

(** [handleStartFossilRevival(buildingId, fossilType)]. *)
Definition handleStartFossilRevival (buildingId fossilType : string)
           (gs : GameState.t) : GameState.t :=
  let structs := FarmWorld.structs (GameState.world gs) in
  match JS.findIndex (fun b => String.eqb (Building.id b) buildingId) structs with
  | None => gs
  | Some i =>
      match structs !! i with
      | None => gs
      | Some building =>
          if negb (String.eqb (Building.type building) "laboratory")
             || JS.truthyS (default "" (Building.revivingFossil building))
          then gs
          else
            let res := removeItem fossilType 1 (GameState.player gs) in
            if res.1 then
              GameState.set_world
                (FarmWorld.set_structs
                   (alter (fun b => Building.set_revivalProgress (Some 0)
                                      (Building.set_revivingFossil (Some fossilType) b))
                          i structs)
                   (GameState.world gs))
                (GameState.set_player res.2 gs)
            else gs
      end
  end.

(** *** Crop plots *)

(** [handlePlantActiveSeed(plot)] for the plot at index [i] of
    [gs.cropPlots], with the seed or tool that is active.  The result holds
    the state, the active seed afterwards and the notification. *)
Definition setPlot (i : nat) (f : CropPlot.t -> CropPlot.t) (gs : GameState.t)
  : GameState.t :=
  GameState.set_cropPlots (alter f i (GameState.cropPlots gs)) gs.

Definition FERTILIZER_ENERGY_COST : Q := 5.

Definition handlePlantActiveSeed (i : nat) (activePlantingSeed : option string)
           (gs : GameState.t) : GameState.t * option string * option string :=
  let unchanged := (gs, activePlantingSeed, None) in
  match activePlantingSeed, GameState.cropPlots gs !! i with
  | Some seed, Some plot =>
      if negb (JS.truthyS seed) then unchanged
      else if JS.startsWith seed "seed" then
        if negb (bool_decide (CropPlot.state plot = empty)) then unchanged
        else
          let res := removeItem seed 1 (GameState.player gs) in
          if res.1
          then (setPlot i (plant seed) (GameState.set_player res.2 gs),
                activePlantingSeed, None)
          else (gs, None, None)
      else if String.eqb seed "fertilizer" then
        if negb (bool_decide (CropPlot.state plot = growing))
           || CropPlot.fertilized plot
        then unchanged
        else if JS.ltb (Player.energy (GameState.player gs)) FERTILIZER_ENERGY_COST
        then (gs, activePlantingSeed, Some "Energia Insuficiente!")
        else
          let res := removeItem "fertilizer" 1 (GameState.player gs) in
          if res.1
          then (setPlot i (CropPlot.set_fertilized true)
                  (GameState.set_player
                     (Player.set_energy
                        (Player.energy res.2 - FERTILIZER_ENERGY_COST) res.2) gs),
                activePlantingSeed, None)
          else (gs, None, None)
      else unchanged
  | _, _ => unchanged
  end.

(** *** The player *)

(** [handleCheat(resource)]. *)
Definition handleCheat (resource : CheatResource) (gs : GameState.t)
  : GameState.t :=
  let player := GameState.player gs in
  GameState.set_player
    match resource with
    | ch_money => Player.set_money (Player.money player + 10000) player
    | ch_wood => addItem "wood" 1000 player
    | ch_stone => addItem "stone" 1000 player
    | ch_metal => addItem "metal" 1000 player
    | ch_energy => Player.set_energy (Player.maxEnergy player) player
    end gs.

Definition skillLevel (skill : Skill) (s : PlayerSkills.t) : Q :=
  match skill with
  | sk_gerente => PlayerSkills.gerente s
  | sk_sortudo => PlayerSkills.sortudo s
  | sk_tratador => PlayerSkills.tratador s
  | sk_treinador => PlayerSkills.treinador s
  end.

Definition setSkillLevel (skill : Skill) (v : Q) (s : PlayerSkills.t)
  : PlayerSkills.t :=
  match skill with
  | sk_gerente =>
      PlayerSkills.mk v (PlayerSkills.sortudo s) (PlayerSkills.tratador s)
        (PlayerSkills.treinador s)
  | sk_sortudo =>
      PlayerSkills.mk (PlayerSkills.gerente s) v (PlayerSkills.tratador s)
        (PlayerSkills.treinador s)
  | sk_tratador =>
      PlayerSkills.mk (PlayerSkills.gerente s) (PlayerSkills.sortudo s) v
        (PlayerSkills.treinador s)
  | sk_treinador =>
      PlayerSkills.mk (PlayerSkills.gerente s) (PlayerSkills.sortudo s)
        (PlayerSkills.tratador s) v
  end.

Definition skillMaxLevels (skill : Skill) : Q :=
  match skill with
  | sk_gerente => 5
  | sk_sortudo => 2
  | sk_tratador => 5
  | sk_treinador => 3
  end.

(** [handleUpgradeSkill(skill)]. *)
Definition handleUpgradeSkill (skill : Skill) (gs : GameState.t) : GameState.t :=
  let player := GameState.player gs in
  if JS.leb (Player.skillPoints player) 0 then gs
  else if JS.ltb (skillLevel skill (Player.skills player)) (skillMaxLevels skill)
  then
    GameState.set_player
      (Player.set_skillPoints (Player.skillPoints player - 1)
         (Player.set_skills
            (setSkillLevel skill (skillLevel skill (Player.skills player) + 1)
               (Player.skills player)) player)) gs
  else gs.

(** *** The task manager *)

Definition energyRewards (d : TaskDifficulty) : Q :=
  match d with Trivial => 10 | Facil => 25 | Medio => 50 | Dificil => 100 end.

Definition xpRewards (d : TaskDifficulty) : Q :=
  match d with Trivial => 5 | Facil => 20 | Medio => 50 | Dificil => 100 end.

(** One round of the loop [while (experience >= experienceToNextLevel)]. *)
Definition levelUpOnce (p : Player.t) : Player.t :=
  let p := Player.set_experience
             (Player.experience p - Player.experienceToNextLevel p) p in
  let p := Player.set_level (Player.level p + 1) p in
  let p := Player.set_skillPoints (Player.skillPoints p + 1) p in
  Player.set_experienceToNextLevel (Player.experienceToNextLevel p * 2) p.

(** The loop, with a bound on the number of rounds: [None] when the bound
    is reached while the condition still holds. *)
Fixpoint levelUp (fuel : nat) (p : Player.t) : option Player.t :=
  if JS.geb (Player.experience p) (Player.experienceToNextLevel p) then
    match fuel with
    | O => None
    | S f => levelUp f (levelUpOnce p)
    end
  else Some p.

(** [arr[i] = v] on a copy of the array, for an index of the array. *)
Definition setAt {X} (i : nat) (v : X) (l : list X) : list X := <[i := v]> l.

(** [handleCompleteTask(taskId)]: the state and the task list. *)
Definition handleCompleteTask (fuel : nat) (taskId : string)
           (s : GameState.t * list Task.t)
  : option (GameState.t * list Task.t) :=
  let gs := s.1 in
  let tasks := s.2 in
  match JS.findIndex (fun t => String.eqb (Task.id t) taskId) tasks with
  | None => Some s
  | Some taskIndex =>
      match tasks !! taskIndex with
      | None => Some s
      | Some task =>
          let player := GameState.player gs in
          let reward := energyRewards (Task.difficulty task) in
          let player :=
            Player.set_energy
              (JS.min (Player.maxEnergy player) (Player.energy player + reward))
              player in
          let xpGained := xpRewards (Task.difficulty task) in
          let player :=
            Player.set_experience (Player.experience player + xpGained) player in
          match levelUp fuel player with
          | None => None
          | Some player =>
              Some (GameState.set_player player gs,
                    setAt taskIndex
                      (Task.set_lastCompletedAt (Some (dateNow P)) task) tasks)
          end
      end
  end.

(** [handleSaveTask(task)]: the task replaces the first one with its
    identifier, or is appended. *)
Definition handleSaveTask (task : Task.t) (tasks : list Task.t) : list Task.t :=
  match JS.findIndex (fun t => String.eqb (Task.id t) (Task.id task)) tasks with
  | Some existingIndex => setAt existingIndex task tasks
  | None => (tasks ++ [task])%list
  end.

(** [handleDeleteTask(taskId)]. *)
Definition handleDeleteTask (taskId : string) (tasks : list Task.t) : list Task.t :=
  List.filter (fun t => negb (String.eqb (Task.id t) taskId)) tasks.

(** [handleToggleSubtask(taskId, subtaskId)]. *)
Definition toggleSubtask (subtaskId : string) (s : Subtask) : Subtask :=
  if String.eqb (sub_id s) subtaskId
  then mkSubtask (sub_id s) (sub_text s) (negb (sub_completed s))
  else s.

Definition handleToggleSubtask (taskId subtaskId : string) (tasks : list Task.t)
  : list Task.t :=
  map (fun task =>
         if String.eqb (Task.id task) taskId
         then Task.set_subtasks (map (toggleSubtask subtaskId) (Task.subtasks task)) task
         else task)
      tasks.

(** *** Commands that draw random numbers *)

Definition setEnergy (f : Q -> Q) : M unit :=
  setPlayer (fun pl => Player.set_energy (f (Player.energy pl)) pl).

Definition MEDITATE_ENERGY_COST : Q := 5.

(** [handleMeditate(buildingId)]. *)
Definition handleMeditate (buildingId : string) : M unit :=
  gs <- get ;;
  if JS.ltb (Player.energy (GameState.player gs)) MEDITATE_ENERGY_COST then ret tt
  else
    match JS.find (fun b => String.eqb (Building.id b) buildingId)
                  (FarmWorld.structs (GameState.world gs)) with
    | None => ret tt
    | Some building =>
        if negb (String.eqb (Building.type building) "lake") then ret tt
        else if existsb
                  (fun p => bool_decide (Pokemon.homeBuildingId p = Some buildingId)
                            && JS.includes abraFamily (Pokemon.kind p))
                  (GameState.pokemons gs)
        then ret tt
        else
          setEnergy (fun e => e - MEDITATE_ENERGY_COST) ;;;
          r <- rand P ;;
          if JS.ltb r (10#100) then
            s <- rand P ;;
            gs' <- get ;;
            let isShiny := JS.ltb s (calculateShinyChance (GameState.player gs')) in
            p <- newPokemon P K "Abra"
                   (Building.x building + Building.w building / 2)
                   (Building.y building + Building.h building / 2) isShiny ;;
            pushPokemon (Pokemon.set_homeBuildingId (Some (Building.id building)) p)
          else ret tt
    end.

(** The item and the energy that a resource costs to collect. *)
Definition requiredEnergy (type : string) : Q :=
  let isWoodTree := JS.endsWith type "_tree" && negb (String.eqb type "apple_tree") in
  if String.eqb type "wild_plant" then 5
  else if String.eqb type "apple_tree" then 10
  else if isWoodTree then 8
  else if String.eqb type "rock" then 10
  else -1.

Definition resourceToPokemonMap (type : string) : option string :=
  if String.eqb type "oak_tree" then Some "Timburr"
  else if String.eqb type "pine_tree" then Some "Timburr"
  else if String.eqb type "rock" then Some "Geodude"
  else if String.eqb type "wild_plant" then Some "Bulbasaur"
  else if String.eqb type "apple_tree" then Some "Mankey"
  else None.

Definition giveItem (item : string) (count : Q) : M unit :=
  setPlayer (addItem item count).

(** The loot of a resource. *)
Definition loot (resource : Resource.t) : M unit :=
  let type := Resource.type resource in
  let isWoodTree := JS.endsWith type "_tree" && negb (String.eqb type "apple_tree") in
  if isWoodTree then n <- rint P 1 3 ;; giveItem "wood" n
  else if String.eqb type "rock" then
    n <- rint P 1 3 ;;
    giveItem "stone" n ;;;
    r <- rand P ;;
    when (JS.ltb r (5#100)) (giveItem "metal" 1)
  else if String.eqb type "apple_tree" then n <- rint P 1 3 ;; giveItem "apple" n
  else if String.eqb type "wild_plant" then
    giveItem (if bool_decide (Resource.state resource = Some bush)
              then "fiber" else "flower") 1
  else ret tt.

(** The creature that the collection of a resource may attract. *)
Definition attract (resource : Resource.t) : M unit :=
  match resourceToPokemonMap (Resource.type resource) with
  | None => ret tt
  | Some basePokemonKind =>
      gs <- get ;;
      let pokemonKind :=
        getSpeciesForCurrentTime K basePokemonKind (GameState.gameTime gs) in
      if isTrue (GameState.dailyResourceSpawns gs !! pokemonKind) then ret tt
      else
        r <- rand P ;;
        if JS.ltb r (15#100) then
          modify (fun gs =>
            GameState.set_dailyResourceSpawns
              (<[pokemonKind := true]> (GameState.dailyResourceSpawns gs)) gs) ;;;
          dx <- rint P (-15) 15 ;;
          dy <- rint P (-15) 15 ;;
          s <- rand P ;;
          let isShiny := JS.ltb s (calculateShinyChance (GameState.player gs)) in
          p <- newPokemon P K pokemonKind (Resource.x resource + dx)
                 (Resource.y resource + dy) isShiny ;;
          pushPokemon p
        else ret tt
  end.

(** [handleCollectResource(resourceId)]; the notification is returned. *)
Definition handleCollectResource (resourceId : string) : M (option string) :=
  gs <- get ;;
  let resources := FarmWorld.resources (GameState.world gs) in
  match JS.findIndex (fun r => String.eqb (Resource.id r) resourceId) resources with
  | None => ret None
  | Some resourceIndex =>
      match resources !! resourceIndex with
      | None => ret None
      | Some resource =>
          let required := requiredEnergy (Resource.type resource) in
          if JS.eqb required (-1) then ret None
          else if JS.ltb (Player.energy (GameState.player gs)) required
          then ret (Some "Energia Insuficiente!")
          else
            setEnergy (fun e => e - required) ;;;
            loot resource ;;;
            removeResourceAt resourceIndex ;;;
            pushTicket
              (mkTicket (Resource.type resource)
                 (JS.orElseO (resourceRespawn K (Resource.type resource)) 1800)) ;;;
            attract resource ;;;
            ret None
      end
  end.

(** The creature that appears next to the house: the starter and the test
    spawn. *)
Definition findHouse (gs : GameState.t) : option Building.t :=
  JS.find (fun s => String.eqb (Building.type s) "house")
          (FarmWorld.structs (GameState.world gs)).

(** [handleSelectStarter(kind)]. *)
Definition handleSelectStarter (kind : string) : M unit :=
  gs <- get ;;
  match findHouse gs with
  | None => ret tt
  | Some house =>
      let startX := Building.x house + Building.w house / 2 in
      let startY := Building.y house + Building.h house + 10 in
      s <- rand P ;;
      let isShiny := JS.ltb s (5#1000) in
      p <- newPokemon P K kind startX startY isShiny ;;
      pushPokemon (Pokemon.set_homeBuildingId (Some (Building.id house)) p) ;;;
      modify (GameState.set_hasChosenStarter true)
  end.

(** [handleCheatSpawnPokemon(kind)]. *)
Definition handleCheatSpawnPokemon (kind : string) : M unit :=
  gs <- get ;;
  match findHouse gs with
  | None => ret tt
  | Some house =>
      dx <- rint P (-50) 50 ;;
      let spawnX := Building.x house + Building.w house / 2 + dx in
      dy <- rint P 20 50 ;;
      let spawnY := Building.y house + Building.h house + dy in
      s <- rand P ;;
      let isShiny := JS.ltb s (calculateShinyChance (GameState.player gs)) in
      p <- newPokemon P K kind spawnX spawnY isShiny ;;
      pushPokemon p
  end.

(** [handleAdvanceTime24h()]. *)
Definition handleAdvanceTime24h : M unit :=
  processDailyProduction P K ;;;
  processDailySpawns P K ;;;
  modify (fun gs => GameState.set_day (GameState.day gs + 1) gs) ;;;
  modify (fun gs =>
    GameState.set_lastProductionDate
      (gameDateString P (GameState.dayChangeHour gs)) gs).

(** [handleUpdateDayChangeHour(hour)]. *)
Definition handleUpdateDayChangeHour (hour : Q) (gs : GameState.t) : GameState.t :=
  GameState.set_dayChangeHour hour gs.

(** *** Construction *)

(** [spawnPokemon(kind, assignHome)], the helper of [handlePlaceBuilding]
    for the new building. *)
Definition spawnInBuilding (newB : Building.t) (kind : string) (assignHome : bool)
  : M unit :=
  gs <- get ;;
  s <- rand P ;;
  let isShiny := JS.ltb s (calculateShinyChance (GameState.player gs)) in
  dx <- rint P 20 (Building.w newB - 20) ;;
  dy <- rint P 20 (Building.h newB - 20) ;;
  p <- newPokemon P K kind (Building.x newB + dx) (Building.y newB + dy) isShiny ;;
  let p := if assignHome
           then Pokemon.set_homeBuildingId (Some (Building.id newB)) p else p in
  p <- (if String.eqb kind "Machop"
        then n <- rint P 1 10 ;; ret (Pokemon.set_Poder (Some n) p)
        else ret p) ;;
  pushPokemon p.

(** [newBuilding.storage.pokemonKind = kind] on the building that was pushed
    last. *)
Definition setStorageKind (kind : string) : M unit :=
  setWorld (fun w =>
    FarmWorld.set_structs
      (alter (Building.set_pokemonKind (Some kind))
             (length (FarmWorld.structs w) - 1)%nat (FarmWorld.structs w)) w).

Definition pushCropPlot (plot : CropPlot.t) : M unit :=
  modify (fun gs => GameState.set_cropPlots (GameState.cropPlots gs ++ [plot]) gs).

(** The plot of a new farm area at [row] and [col]. *)
Definition farmPlot (newB : Building.t) (ow oh : Q) (row col : nat) : M unit :=
  let centerX := Building.x newB + ow / 2 in
  let centerY := Building.y newB + oh / 2 in
  let rotation := Building.rotation newB in
  let plotWidth := 24 in
  let plotHeight := 16 in
  let plotSpacing := 28 in
  let numCols := 5 in
  let numRows := 3 in
  let totalPlotsWidth := (numCols - 1) * plotSpacing + plotWidth in
  let totalPlotsHeight := (numRows - 1) * plotSpacing + plotHeight in
  let startOffsetX := (ow - totalPlotsWidth) / 2 in
  let startOffsetY := (oh - totalPlotsHeight) / 2 in
  let localCenterX := startOffsetX + natQ col * plotSpacing + plotWidth / 2 in
  let localCenterY := startOffsetY + natQ row * plotSpacing + plotHeight / 2 in
  let relativeX := localCenterX - ow / 2 in
  let relativeY := localCenterY - oh / 2 in
  let rotatedX := relativeX * cos P rotation - relativeY * sin P rotation in
  let rotatedY := relativeX * sin P rotation + relativeY * cos P rotation in
  let finalX := centerX + rotatedX in
  let finalY := centerY + rotatedY in
  newPlot <- newCropPlot finalX finalY ;;
  pushCropPlot (CropPlot.set_rotation rotation newPlot).

(** A spawn that happens with the chance [0.15]. *)
Definition maybeSpawn (newB : Building.t) (kind : string) (assignHome : bool)
  : M unit :=
  r <- rand P ;;
  when (JS.ltb r (15#100)) (spawnInBuilding newB kind assignHome).

(** The [switch (coreBuildingType)] of [handlePlaceBuilding]. *)
Definition settle (selectedBuildType coreBuildingType : string)
           (newB : Building.t) (ow oh : Q) : M unit :=
  if String.eqb coreBuildingType "stable" then
    let kind := if String.eqb selectedBuildType "stable_miltank"
                then "Miltank" else "Mareep" in
    spawnInBuilding newB kind true ;;;
    setStorageKind kind
  else if String.eqb coreBuildingType "farm_area" then
    forEach (seq 0 3)
      (fun row => forEach (seq 0 5) (fun col => farmPlot newB ow oh row col)) ;;;
    gs <- get ;;
    maybeSpawn newB (getSpeciesForCurrentTime K "Diglett" (GameState.gameTime gs)) true ;;;
    maybeSpawn newB (getSpeciesForCurrentTime K "Pidgey" (GameState.gameTime gs)) true
  else if String.eqb coreBuildingType "mine" then
    spawnInBuilding newB "Onix" true ;;;
    setStorageKind "Onix"
  else if String.eqb coreBuildingType "coop" then
    spawnInBuilding newB "Torchic" true ;;;
    setStorageKind "Torchic"
  else if String.eqb coreBuildingType "lake" then
    spawnInBuilding newB "Goldeen" true ;;;
    gs <- get ;;
    maybeSpawn newB (getSpeciesForCurrentTime K "Squirtle" (GameState.gameTime gs)) true ;;;
    setStorageKind "Goldeen"
  else if String.eqb coreBuildingType "campfire" then
    maybeSpawn newB "Charmander" false
  else if String.eqb coreBuildingType "pokemon_gym" then
    spawnInBuilding newB "Machop" true
  else if String.eqb coreBuildingType "laboratory" then
    spawnInBuilding newB "Porygon" true
  else ret tt.

(** [canAfford] of [handlePlaceBuilding]. *)
Definition canAfford (cost : BuildCost) (player : Player.t) : bool :=
  JS.geb (Player.money player) (bc_money cost)
  && forallb (fun kv => JS.geb (invCount (Player.inventory player) kv.1) kv.2)
             (map_to_list (bc_resources cost)).

(** The footprint of a building of the selected type under a rotation, and
    the corner at which a click at [(x, y)] places it. *)
Definition footprint (selectedBuildType : string) (buildRotation : Q) : Q * Q :=
  let originalSize := getBuildSize selectedBuildType in
  let isRotated := JS.eqb buildRotation (PI P / 2)
                   || JS.eqb buildRotation (3 * PI P / 2) in
  if isRotated then (originalSize.2, originalSize.1) else originalSize.

Definition placeAt (size : Q * Q) (x y : Q) : Q * Q :=
  (JS.floor (x - size.1 / 2), JS.floor (y - size.2 / 2)).

(** [handlePlaceBuilding(x, y)] with the selected type and the rotation of
    the build mode; the notification is returned. *)
Definition handlePlaceBuilding (selectedBuildType : option string)
           (buildRotation x y : Q) : M (option string) :=
  match selectedBuildType with
  | None => ret None
  | Some type =>
      if negb (JS.truthyS type) then ret None else
      gs <- get ;;
      let originalSize := getBuildSize type in
      let size := footprint type buildRotation in
      let place := placeAt size x y in
      let placementCheck :=
        isPlacementAreaClear place.1 place.2 size.1 size.2 (GameState.world gs)
                             (Some type) in
      if negb (Placement.clear placementCheck)
      then ret (Some (Placement.message placementCheck))
      else
        let cost := getBuildCost type in
        if canAfford cost (GameState.player gs) then
          setPlayer (fun pl =>
            removeItems (bc_resources cost)
              (Player.set_money (Player.money pl - bc_money cost) pl)) ;;;
          setWorld (fun w =>
            FarmWorld.set_resources
              (List.filter
                 (fun r => negb (JS.geb (Resource.x r) place.1
                                 && JS.leb (Resource.x r) (place.1 + size.1)
                                 && JS.geb (Resource.y r) place.2
                                 && JS.leb (Resource.y r) (place.2 + size.2)))
                 (FarmWorld.resources w)) w) ;;;
          let coreBuildingType :=
            if JS.startsWith type "stable_" then "stable" else type in
          nb <- newBuilding coreBuildingType place.1 place.2
                  originalSize.1 originalSize.2 ;;
          let nb := Building.set_rotation buildRotation nb in
          setWorld (fun w =>
            FarmWorld.set_structs (FarmWorld.structs w ++ [nb]) w) ;;;
          settle type coreBuildingType nb originalSize.1 originalSize.2 ;;;
          ret None
        else ret (Some "Recursos Insuficientes!")
  end.

End Commands.

(** ** Sample data

    A platform whose random numbers are read from a list, a small constants
    module and a small farm; they serve as concrete inputs. *)

Module Sample.

(** The [n]-th element of [l] when it lies in [[0, 1)], and [0] otherwise
    and past the end of the list. *)
Definition unit01 (q : Q) : Q :=
  if Qle_bool 0 q && negb (Qle_bool 1 q) then q else 0.

Definition oracle (l : list Q) (n : nat) : Q := unit01 (nth n l 0).

Lemma oracle_range (l : list Q) (n : nat) : 0 <= oracle l n /\ oracle l n < 1.
Proof.
  unfold oracle, unit01.
  destruct (Qle_bool 0 (nth n l 0)) eqn:H0; simpl.
  - destruct (Qle_bool 1 (nth n l 0)) eqn:H1; simpl.
    + split; [apply Qle_refl | reflexivity].
    + split; [now apply Qle_bool_iff |].
      apply Qnot_le_lt. intros H. apply Qle_bool_iff in H. congruence.
  - split; [apply Qle_refl | reflexivity].
Qed.

(** A platform: the random numbers [l], the clock at [hh:00:00] of the date
    [date].  The transcendental functions are crude stand-ins: the distance
    of the taxicab metric for [hypot], and constant directions. *)
Definition platform (l : list Q) (hh : Q) (date : string) : Platform :=
  {| random := oracle l;
     random_range := oracle_range l;
     dateNow := 1000;
     clockHours := hh;
     clockMinutes := 0;
     clockSeconds := 0;
     gameDateString := fun _ => date;
     numberToString := fun q => match Qfloor q with
                                | Z0 => "0" | Zpos _ => "n" | Zneg _ => "-n" end;
     hypot := fun a b => Qabs a + Qabs b;
     cos := fun _ => 1;
     sin := fun _ => 0;
     atan2 := fun _ _ => 0;
     PI := 355 # 113 |}.

Definition ability (type : string) : Ability :=
  {| ab_type := type; rate := None; passive_income_rate := None; bonus := 0;
     ab_cooldown := 60; item := "egg"; huntChance := Some (1#2); amount := 1;
     chance := None; from := "milk"; to := "cheese"; items := ["berry"];
     biteChance := 1#2 |}.

Definition abilities (kind : string) : option Ability :=
  if String.eqb kind "Ekans" || String.eqb kind "Arbok" then Some (ability "pest")
  else if String.eqb kind "Torchic" then Some (ability "daily_production")
  else if String.eqb kind "Squirtle" then Some (ability "water_crop")
  else if String.eqb kind "Growlithe" then Some (ability "farm_protector")
  else None.

Definition constants : Constants :=
  {| energy_regenPerSec := 1#10;
     world_maxTrees := 2;
     world_maxRocks := 2;
     world_maxWildPlants := 2;
     resourceRespawn := fun _ => Some 240;
     POKEMON_IDS := [("Torchic", 255); ("Combusken", 256)];
     POKEMON_CAPACITY := fun _ => Some 3;
     POKEMON_ABILITIES := abilities;
     POKEMON_LIFESPANS := fun k => if String.eqb k "Combusken" then Some 40 else Some 30;
     POKEMON_EVOLUTIONS := fun k => if String.eqb k "Torchic" then Some "Combusken" else None;
     NIGHT_COUNTERPARTS := [("Pidgey", mkNightInfo "Hoothoot" 20)];
     DAY_COUNTERPARTS := [("Hoothoot", "Pidgey")];
     ITEM_DISPLAY_NAMES := fun _ => None |}.

Definition player : Player.t :=
  {| Player.name := "Fazendeiro"; Player.profilePictureUrl := None;
     Player.energy := 100; Player.maxEnergy := 100; Player.money := 200;
     Player.inventory := {[ "wood" := 10; "evolution_stone" := 1 ]};
     Player.level := 1; Player.experience := 0; Player.experienceToNextLevel := 250;
     Player.skills := PlayerSkills.mk 0 0 0 0;
     Player.skillPoints := 0; Player.team := [] |}.

Definition creature (id kind : string) (x y : Q) (homeId : option string)
  : Pokemon.t :=
  {| Pokemon.id := id; Pokemon.name := kind; Pokemon.kind := kind;
     Pokemon.x := x; Pokemon.y := y; Pokemon.isShiny := false;
     Pokemon.gender := female; Pokemon.age := 3; Pokemon.maxAge := 30;
     Pokemon.homeBuildingId := homeId; Pokemon.cooldown := 5;
     Pokemon.target := None; Pokemon.aiState := idle; Pokemon.moveSpeed := 30;
     Pokemon.isSleeping := false; Pokemon.Poder := None;
     Pokemon.teleportState := None; Pokemon.teleportTimer := None;
     Pokemon.actionTimer := Some 1; Pokemon.isImmortal := false;
     Pokemon.scheduledDeathHour := None; Pokemon.torchicsCured := None;
     Pokemon.applesHarvested := None; Pokemon.happiness := 50;
     Pokemon.happinessModifiers := ∅; Pokemon.isNew := false |}.

Definition coop : Building.t :=
  Building.mk "bld_coop" "coop" 300 300 80 60 None None None 0.

Definition tree (id : string) (x y : Q) : Resource.t :=
  Resource.mk id "oak_tree" x y 1 0 0 None None.

Definition plot : CropPlot.t :=
  CropPlot.mk "plot_1" 600 600 empty None 0 (1#2) false false 0.

Definition world : FarmWorld.t :=
  {| FarmWorld.w := 2000; FarmWorld.h := 2000;
     FarmWorld.structs := [coop];
     FarmWorld.resources := [tree "res_1" 100 100; tree "res_2" 150 100];
     FarmWorld.specials := [];
     FarmWorld.fertileZones := [];
     FarmWorld.cosmeticElements := [] |}.

Definition state : GameState.t :=
  {| GameState.player := player;
     GameState.world := world;
     GameState.pokemons := [];
     GameState.cropPlots := [plot];
     GameState.camera := Camera.mk 1000 1000 1 (1#2) 2 0 0;
     GameState.gameTime := 0;
     GameState.day := 1;
     GameState.lastProductionDate := "2024-1-1";
     GameState.lastSave := 0;
     GameState.lastUpdateTimestamp := 1000;
     GameState.pokemonSpriteCache := ∅;
     GameState.dailyIncome := ∅;
     GameState.dailySpawns := ∅;
     GameState.dailyResourceSpawns := ∅;
     GameState.respawnQueue := [];
     GameState.dailyPidgeyBonusCount := 0;
     GameState.hasChosenStarter := true;
     GameState.rainStreak := 0;
     GameState.weatherToday := clear;
     GameState.weatherYesterday := clear;
     GameState.rainPeriods := [];
     GameState.hasEncounteredEkans := None;
     GameState.hasEncounteredSpearow := None;
     GameState.dayChangeHour := 0;
     GameState.lastKilledByStorm := None;
     GameState.eventQueue := [] |}.

End Sample.

(** * Properties *)

(** ** Comparisons *)

Lemma ltb_lt (a b : Q) : JS.ltb a b = true <-> a < b.
Proof.
  unfold JS.ltb. rewrite negb_true_iff. split.
  - intros H. apply Qnot_le_lt. intros Hle. apply Qle_bool_iff in Hle. congruence.
  - intros H. destruct (Qle_bool b a) eqn:E; [|reflexivity].
    apply Qle_bool_iff in E. exfalso. exact (Qlt_not_le _ _ H E).
Qed.

Lemma ltb_ge (a b : Q) : JS.ltb a b = false <-> b <= a.
Proof.
  unfold JS.ltb. rewrite negb_false_iff. apply Qle_bool_iff.
Qed.

Lemma leb_le (a b : Q) : JS.leb a b = true <-> a <= b.
Proof. apply Qle_bool_iff. Qed.

Lemma gtb_gt (a b : Q) : JS.gtb a b = true <-> b < a.
Proof. apply ltb_lt. Qed.

Lemma gtb_le (a b : Q) : JS.gtb a b = false <-> a <= b.
Proof. apply ltb_ge. Qed.

Lemma geb_ge (a b : Q) : JS.geb a b = true <-> b <= a.
Proof. apply Qle_bool_iff. Qed.

Lemma truthyS_true (s : string) : JS.truthyS s = true <-> s <> "".
Proof.
  unfold JS.truthyS. rewrite negb_true_iff. split.
  - intros H ->. discriminate.
  - intros H. apply String.eqb_neq. exact H.
Qed.

Lemma clamp_range (v a b : Q) : a <= b -> a <= clamp v a b /\ clamp v a b <= b.
Proof.
  intros Hab. unfold clamp, JS.max, JS.min. split.
  - apply Q.le_max_l.
  - apply Q.max_lub; [exact Hab | apply Q.le_min_l].
Qed.

(** ** Crop plots: harvest *)

Section Harvest.

Variables (plot : CropPlot.t) (player : Player.t) (seed : string).
Hypothesis Hmature : CropPlot.state plot = mature.
Hypothesis Htype : CropPlot.type plot = Some seed.
Hypothesis Hseed : seed <> "".

Let crop : string := JS.toLowerCase (JS.replace seed "seed" "").

Lemma harvest_mature (r : Q) :
  harvest r plot player =
  (reset plot,
   addItem crop (if JS.ltb r (doubleChance plot) then 2 else 1) player,
   Some (crop, if JS.ltb r (doubleChance plot) then 2 else 1)).
Proof.
  unfold harvest. rewrite Htype, Hmature.
  apply truthyS_true in Hseed. rewrite Hseed. reflexivity.
Qed.

Lemma addItem_credit (item : string) (count : Q) :
  Player.inventory (addItem item count player) !! item
  = Some (invCount (Player.inventory player) item + count).
Proof. unfold addItem. simpl. apply lookup_insert_eq. Qed.

End Harvest.

Lemma reset_empty (plot : CropPlot.t) :
  CropPlot.state (reset plot) = empty
  /\ CropPlot.type (reset plot) = None
  /\ CropPlot.growthDays (reset plot) = 0
  /\ CropPlot.fertilized (reset plot) = false
  /\ CropPlot.isWatered (reset plot) = false.
Proof. repeat split. Qed.

(** C3, as stated, fails: with [Math.random()] returning [1/10], which is
    below [0.15], the harvest of a mature plot that is not fertilized yields
    one crop, not two. *)
Lemma C3_harvest_unfertilized_015_counterexample :
  ~ (forall (r : Q) (plot : CropPlot.t) (player : Player.t) (seed : string),
        CropPlot.state plot = mature ->
        CropPlot.type plot = Some seed ->
        seed <> "" ->
        CropPlot.fertilized plot = false ->
        r < 15 # 100 ->
        exists crop, (harvest r plot player).2 = Some (crop, 2)).
Proof.
  intros H.
  assert (Hc : exists crop,
             (harvest (1 # 10)
                (CropPlot.set_type (Some "seedGraoBaga")
                   (CropPlot.set_state mature Sample.plot))
                Sample.player).2 = Some (crop, 2)).
  { apply (H _ _ _ "seedGraoBaga"); [reflexivity | reflexivity | discriminate
                                    | reflexivity | reflexivity]. }
  destruct Hc as [crop Hc]. vm_compute in Hc. discriminate Hc.
Qed.

(** C3, amended: harvesting a mature, planted plot with [fertilized = false]
    yields two crops exactly when [Math.random()] is below [0.05] (probability
    0.05) and one crop otherwise (probability 0.95); the yield is credited to
    the inventory of the player under the crop name, and the plot is reset to
    [empty]. *)
Theorem C3_harvest_unfertilized
        (r : Q) (plot : CropPlot.t) (player : Player.t) (seed : string) :
  CropPlot.state plot = mature ->
  CropPlot.type plot = Some seed ->
  seed <> "" ->
  CropPlot.fertilized plot = false ->
  let crop := JS.toLowerCase (JS.replace seed "seed" "") in
  exists count : Q,
    harvest r plot player = (reset plot, addItem crop count player, Some (crop, count))
    /\ (r < 5 # 100 -> count = 2)
    /\ (5 # 100 <= r -> count = 1)
    /\ Player.inventory (addItem crop count player) !! crop
       = Some (invCount (Player.inventory player) crop + count)
    /\ CropPlot.state (reset plot) = empty.
Proof.
  intros Hm Ht Hs Hf crop.
  exists (if JS.ltb r (doubleChance plot) then 2 else 1).
  split; [apply harvest_mature; assumption|].
  unfold doubleChance. rewrite Hf.
  split; [|split; [|split]].
  - intros Hr. apply ltb_lt in Hr. rewrite Hr. reflexivity.
  - intros Hr. apply ltb_ge in Hr. rewrite Hr. reflexivity.
  - apply addItem_credit.
  - reflexivity.
Qed.

Lemma C3_harvest_unfertilized_witness :
  exists count : Q,
    harvest (1 # 50)
      (CropPlot.set_type (Some "seedGraoBaga") (CropPlot.set_state mature Sample.plot))
      Sample.player
    = (reset (CropPlot.set_type (Some "seedGraoBaga")
                (CropPlot.set_state mature Sample.plot)),
       addItem "graobaga" count Sample.player, Some ("graobaga", count))
    /\ count = 2.
Proof.
  destruct (C3_harvest_unfertilized (1 # 50)
              (CropPlot.set_type (Some "seedGraoBaga")
                 (CropPlot.set_state mature Sample.plot))
              Sample.player "seedGraoBaga")
    as (count & Hh & H2 & _); try reflexivity; try discriminate.
  exists count. split; [exact Hh | apply H2; reflexivity].
Defined.


(** ** Placement validation *)

(** A rectangle and a polygon overlap when a point of the rectangle lies
    inside the polygon. *)
Definition rectOverlapsPolygon (x y w h : Q) (polygon : list Point) : Prop :=
  exists pt : Point,
    x <= px pt /\ px pt <= x + w /\ y <= py pt /\ py pt <= y + h
    /\ isPointInPolygon pt polygon = true.

(** The open rectangles of the candidate and of a structure intersect. *)
Definition rectHitsStruct (x y w h : Q) (s : Building.t) : Prop :=
  x < Building.x s + Building.w s /\ Building.x s < x + w
  /\ y < Building.y s + Building.h s /\ Building.y s < y + h.

(** The mine rule holds: the map has a quarry and the centre of the
    rectangle lies inside the first one. *)
Definition mineInsideQuarry (x y w h : Q) (world : FarmWorld.t) : Prop :=
  exists quarry,
    JS.find (fun s => String.eqb (sp_type s) "quarry") (FarmWorld.specials world)
    = Some quarry
    /\ isPointInPolygon (mkPoint (x + w / 2) (y + h / 2)) (sp_points quarry) = true.

(** The conditions under which the query answers [clear = true]. *)
Record PlacementOk (x y w h : Q) (world : FarmWorld.t) (type : option string)
  : Prop := mkPlacementOk {
  ok_mine : type = Some "mine" -> mineInsideQuarry x y w h world;
  ok_bounds : 20 <= x /\ x + w <= FarmWorld.w world - 20
              /\ 20 <= y /\ y + h <= FarmWorld.h world - 20;
  ok_specials :
    forall pt sp,
      In pt (checkPoints x y (x + w) (y + h) w h) ->
      In sp (FarmWorld.specials world) ->
      isPointInPolygon pt (sp_points sp) = true ->
      sp_type sp = "quarry" /\ type = Some "mine";
  ok_fertile :
    forall pt points center radius,
      In pt (checkPoints x y (x + w) (y + h) w h) ->
      In (poly points center radius) (FarmWorld.fertileZones world) ->
      isPointInPolygon pt points = false;
  ok_structs :
    forall s,
      In s (FarmWorld.structs world) ->
      Building.type s <> "river_area" ->
      ~ rectHitsStruct x y w h s
}.

Lemma mineRule_None (x y w h : Q) (world : FarmWorld.t) (type : option string) :
  mineRule x y w h world type = None
  <-> (type = Some "mine" -> mineInsideQuarry x y w h world).
Proof.
  unfold mineRule, mineInsideQuarry. case_bool_decide as Hm.
  - destruct (JS.find _ _) as [q|] eqn:Hq.
    + destruct (isPointInPolygon _ (sp_points q)) eqn:Hp; simpl; split; try congruence.
      * intros _ _. exists q. split; [reflexivity | exact Hp].
      * intros H. destruct (H Hm) as (q' & Hq' & Hp'). congruence.
    + split; [congruence|]. intros H. destruct (H Hm) as (q' & Hq' & _). congruence.
  - split; [intros _ H; contradiction | reflexivity].
Qed.

Lemma outOfBounds_false (x1 y1 x2 y2 : Q) (world : FarmWorld.t) :
  outOfBounds x1 y1 x2 y2 world = false
  <-> 20 <= x1 /\ x2 <= FarmWorld.w world - 20
      /\ 20 <= y1 /\ y2 <= FarmWorld.h world - 20.
Proof.
  unfold outOfBounds. rewrite !orb_false_iff, !ltb_ge, !gtb_le. tauto.
Qed.

Lemma probeSpecials_None (type : option string) (pt : Point) (sps : list Special) :
  probeSpecials type pt sps = None
  <-> (forall sp, In sp sps -> isPointInPolygon pt (sp_points sp) = true ->
                  sp_type sp = "quarry" /\ type = Some "mine").
Proof.
  induction sps as [|sp sps IH]; simpl.
  - split; [intros _ sp [] | reflexivity].
  - destruct (String.eqb (sp_type sp) "quarry") eqn:Hq.
    + apply String.eqb_eq in Hq.
      case_bool_decide as Hm; simpl.
      * rewrite IH. split.
        -- intros H sp' [<-|Hin] Hp; [split; assumption | apply H; assumption].
        -- intros H sp' Hin. apply H. right. exact Hin.
      * destruct (isPointInPolygon pt (sp_points sp)) eqn:Hp.
        -- split; [discriminate|]. intros H.
           destruct (H sp (or_introl eq_refl) Hp) as [_ Hm']. contradiction.
        -- rewrite IH. split.
           ++ intros H sp' [<-|Hin] Hp'; [congruence | apply H; assumption].
           ++ intros H sp' Hin. apply H. right. exact Hin.
    + apply String.eqb_neq in Hq.
      destruct (isPointInPolygon pt (sp_points sp)) eqn:Hp.
      * split; [discriminate|]. intros H.
        destruct (H sp (or_introl eq_refl) Hp) as [Hq' _]. contradiction.
      * rewrite IH. split.
        -- intros H sp' [<-|Hin] Hp'; [congruence | apply H; assumption].
        -- intros H sp' Hin. apply H. right. exact Hin.
Qed.

Lemma probeFertile_None (pt : Point) (zones : list FertileZone) :
  probeFertile pt zones = None
  <-> (forall points center radius,
          In (poly points center radius) zones -> isPointInPolygon pt points = false).
Proof.
  induction zones as [|z zones IH]; simpl.
  - split; [intros _ ? ? ? [] | reflexivity].
  - destruct z as [cx cy cr | points center radius].
    + rewrite IH. split.
      * intros H ? ? ? [Hz|Hin]; [discriminate | eapply H; eassumption].
      * intros H ? ? ? Hin. eapply H. right. eassumption.
    + destruct (isPointInPolygon pt points) eqn:Hp.
      * split; [discriminate|]. intros H.
        rewrite (H points center radius (or_introl eq_refl)) in Hp. discriminate.
      * rewrite IH. split.
        -- intros H ? ? ? [Hz|Hin]; [congruence | eapply H; eassumption].
        -- intros H ? ? ? Hin. eapply H. right. eassumption.
Qed.

Lemma probeAll_None (type : option string) (world : FarmWorld.t) (pts : list Point) :
  probeAll type world pts = None
  <-> (forall pt, In pt pts ->
         probeSpecials type pt (FarmWorld.specials world) = None
         /\ probeFertile pt (FarmWorld.fertileZones world) = None).
Proof.
  induction pts as [|pt pts IH]; simpl.
  - split; [intros _ ? [] | reflexivity].
  - destruct (probeSpecials type pt _) eqn:Hs.
    + split; [discriminate|]. intros H.
      destruct (H pt (or_introl eq_refl)) as [H' _]. congruence.
    + destruct (probeFertile pt _) eqn:Hf.
      * split; [discriminate|]. intros H.
        destruct (H pt (or_introl eq_refl)) as [_ H']. congruence.
      * rewrite IH. split.
        -- intros H pt' [<-|Hin]; [split; assumption | apply H; assumption].
        -- intros H pt' Hin. apply H. right. exact Hin.
Qed.

Lemma hitsStruct_true (x y w h : Q) (s : Building.t) :
  hitsStruct x y (x + w) (y + h) s = true
  <-> Building.type s <> "river_area" /\ rectHitsStruct x y w h s.
Proof.
  unfold hitsStruct, rectHitsStruct.
  rewrite !andb_true_iff, negb_true_iff, String.eqb_neq, !ltb_lt, !gtb_gt. tauto.
Qed.

(** A farm whose river is a small triangle; its tip reaches into the
    rectangle [100..200] x [100..200] from below, between the two lower
    corners. *)
Definition riverTipWorld : FarmWorld.t :=
  {| FarmWorld.w := 2000; FarmWorld.h := 2000;
     FarmWorld.structs := [];
     FarmWorld.resources := [];
     FarmWorld.specials :=
       [mkSpecial "river" [mkPoint 140 220; mkPoint 160 220; mkPoint 150 190]];
     FarmWorld.fertileZones := [];
     FarmWorld.cosmeticElements := [] |}.

(** C8, as stated, fails: a rectangle that overlaps the river polygon is
    accepted when none of its four corners and not its centre lies in the
    polygon. *)
Lemma C8_overlap_not_detected_counterexample :
  ~ (forall (x y w h : Q) (world : FarmWorld.t) (type : option string) (sp : Special),
        In sp (FarmWorld.specials world) ->
        sp_type sp = "river" ->
        rectOverlapsPolygon x y w h (sp_points sp) ->
        Placement.clear (isPlacementAreaClear x y w h world type) = false).
Proof.
  intros H.
  assert (Hc : Placement.clear
                 (isPlacementAreaClear 100 100 100 100 riverTipWorld (Some "coop"))
               = false).
  { apply (H _ _ _ _ _ _
             (mkSpecial "river" [mkPoint 140 220; mkPoint 160 220; mkPoint 150 190])).
    - left. reflexivity.
    - reflexivity.
    - exists (mkPoint 150 195). repeat split; try discriminate. }
  vm_compute in Hc. discriminate Hc.
Qed.

(** C8, amended: the query is a function of its arguments alone (it returns
    a result and has no effect on the world), and it answers [clear = true]
    exactly when: a mine has its centre inside the quarry; the rectangle keeps
    the padding of 20 to the world boundary; none of its five probe points
    (the four corners and the centre) lies inside a river special, inside a
    quarry special unless a mine is placed, or inside a polygonal fertile
    zone; and the rectangle overlaps no existing structure other than a
    river area.  In all other cases it answers [clear = false]. *)
Theorem C8_placement_clear
        (x y w h : Q) (world : FarmWorld.t) (type : option string) :
  Placement.clear (isPlacementAreaClear x y w h world type) = true
  <-> PlacementOk x y w h world type.
Proof.
  unfold isPlacementAreaClear.
  destruct (mineRule x y w h world type) as [msg|] eqn:Hmine.
  { split; [discriminate|]. intros [Hm _ _ _ _].
    apply mineRule_None in Hm. congruence. }
  destruct (outOfBounds x y (x + w) (y + h) world) eqn:Hb.
  { split; [discriminate|]. intros [_ Hbd _ _ _].
    apply outOfBounds_false in Hbd. congruence. }
  destruct (probeAll type world _) as [msg|] eqn:Hp.
  { split; [discriminate|]. intros [_ _ Hs Hf _].
    assert (Hnone : probeAll type world (checkPoints x y (x + w) (y + h) w h) = None).
    { apply probeAll_None. intros pt Hin. split.
      - apply probeSpecials_None. intros sp Hsp Hpip. exact (Hs pt sp Hin Hsp Hpip).
      - apply probeFertile_None. intros pts c r Hz. exact (Hf pt pts c r Hin Hz). }
    congruence. }
  destruct (existsb _ (FarmWorld.structs world)) eqn:Hst.
  { split; [discriminate|]. intros [_ _ _ _ Hs].
    apply existsb_exists in Hst. destruct Hst as (s & Hin & Hhit).
    apply hitsStruct_true in Hhit. destruct Hhit as [Hty Hhit].
    exfalso. exact (Hs s Hin Hty Hhit). }
  split; [intros _ | reflexivity].
  constructor.
  - apply mineRule_None. exact Hmine.
  - apply outOfBounds_false. exact Hb.
  - intros pt sp Hin Hsp Hpip.
    destruct (proj1 (probeAll_None _ _ _) Hp pt Hin) as [Hs _].
    exact (proj1 (probeSpecials_None _ _ _) Hs sp Hsp Hpip).
  - intros pt pts c r Hin Hz.
    destruct (proj1 (probeAll_None _ _ _) Hp pt Hin) as [_ Hf].
    exact (proj1 (probeFertile_None _ _) Hf pts c r Hz).
  - intros s Hin Hty Hhit.
    assert (Hex : existsb (hitsStruct x y (x + w) (y + h)) (FarmWorld.structs world) = true).
    { apply existsb_exists. exists s. split; [exact Hin|].
      apply hitsStruct_true. split; assumption. }
    congruence.
Qed.


(** ** Reasoning about passes

    [wp m post r]: started in [r], the pass [m] completes without a
    [TypeError], and its result and final state satisfy [post]. *)

Definition wp {A} (m : M A) (post : A -> Run -> Prop) (r : Run) : Prop :=
  match m r with
  | Done a r' => post a r'
  | TypeError => False
  end.

Lemma wp_ret {A} (a : A) (post : A -> Run -> Prop) (r : Run) :
  post a r -> wp (ret a) post r.
Proof. intros H. exact H. Qed.

Lemma wp_bind {A B} (m : M A) (f : A -> M B) (post : B -> Run -> Prop) (r : Run) :
  wp m (fun a r' => wp (f a) post r') r -> wp (bind m f) post r.
Proof. unfold wp, bind. destruct (m r); intros H; exact H. Qed.

Lemma wp_mono {A} (m : M A) (post post' : A -> Run -> Prop) (r : Run) :
  (forall a r', post a r' -> post' a r') -> wp m post r -> wp m post' r.
Proof. unfold wp. intros H. destruct (m r); [apply H | exact (fun x => x)]. Qed.

Lemma wp_done {A} (m : M A) (post : A -> Run -> Prop) (r : Run) :
  wp m post r -> exists a r', m r = Done a r' /\ post a r'.
Proof. unfold wp. destruct (m r) as [a r'|]; [eauto | contradiction]. Qed.

Lemma wp_get (post : GameState.t -> Run -> Prop) (r : Run) :
  post (st r) r -> wp get post r.
Proof. intros H. exact H. Qed.

Lemma wp_modify (f : GameState.t -> GameState.t) (post : unit -> Run -> Prop) (r : Run) :
  post tt (mkRun (f (st r)) (cursor r)) -> wp (modify f) post r.
Proof. intros H. exact H. Qed.

Lemma wp_rand (P : Platform) (post : Q -> Run -> Prop) (r : Run) :
  post (random P (cursor r)) (mkRun (st r) (S (cursor r))) -> wp (rand P) post r.
Proof. intros H. exact H. Qed.

Lemma wp_foldM {A B} (f : B -> A -> M B) (inv : B -> Run -> Prop) (l : list A) :
  (forall b a r, In a l -> inv b r -> wp (f b a) inv r) ->
  forall b r, inv b r -> wp (foldM f l b) inv r.
Proof.
  induction l as [|a l IH]; intros Hf b r Hi; simpl.
  - exact Hi.
  - apply wp_bind. eapply wp_mono; [|apply Hf; [left; reflexivity | exact Hi]].
    intros b' r' Hi'. apply IH; [|exact Hi'].
    intros b0 a0 r0 Hin. apply Hf. right. exact Hin.
Qed.

Lemma wp_forEach {A} (f : A -> M unit) (inv : Run -> Prop) (l : list A) :
  (forall a r, In a l -> inv r -> wp (f a) (fun _ => inv) r) ->
  forall r, inv r -> wp (forEach l f) (fun _ => inv) r.
Proof.
  induction l as [|a l IH]; intros Hf r Hi; simpl.
  - exact Hi.
  - apply wp_bind. eapply wp_mono; [|apply Hf; [left; reflexivity | exact Hi]].
    intros u r' Hi'. apply IH; [|exact Hi'].
    intros a0 r0 Hin. apply Hf. right. exact Hin.
Qed.

(** ** Frames

    [keeps proj m]: the pass [m] completes and leaves the part [proj] of the
    game state as it was. *)

Definition keeps {X A} (proj : GameState.t -> X) (m : M A) : Prop :=
  forall r, wp m (fun _ r' => proj (st r') = proj (st r)) r.

Section KeepsRules.

Context {X : Type} (proj : GameState.t -> X).

Lemma keeps_ret {A} (a : A) : keeps proj (ret a).
Proof. intros r. reflexivity. Qed.

Lemma keeps_bind {A B} (m : M A) (f : A -> M B) :
  keeps proj m -> (forall a, keeps proj (f a)) -> keeps proj (bind m f).
Proof.
  intros Hm Hf r. apply wp_bind. eapply wp_mono; [|apply Hm].
  intros a r' Hr'. simpl in Hr'. eapply wp_mono; [|apply Hf].
  intros b r'' Hr''. simpl in Hr''. congruence.
Qed.

Lemma keeps_get : keeps proj get.
Proof. intros r. reflexivity. Qed.

Lemma keeps_rand (P : Platform) : keeps proj (rand P).
Proof. intros r. reflexivity. Qed.

Lemma keeps_modify (f : GameState.t -> GameState.t) :
  (forall gs, proj (f gs) = proj gs) -> keeps proj (modify f).
Proof. intros H r. apply H. Qed.

Lemma keeps_when (b : bool) (m : M unit) : keeps proj m -> keeps proj (when b m).
Proof. intros H. destruct b; [exact H | apply keeps_ret]. Qed.

Lemma keeps_deref {A} (o : option A) : is_Some o -> keeps proj (deref o).
Proof. intros [a ->]. apply keeps_ret. Qed.

Lemma keeps_forEach {A} (l : list A) (f : A -> M unit) :
  (forall a, In a l -> keeps proj (f a)) -> keeps proj (forEach l f).
Proof.
  intros Hf r0.
  apply (wp_forEach f (fun r => proj (st r) = proj (st r0))); [|reflexivity].
  intros a r Hin Hr. eapply wp_mono; [|apply (Hf a Hin)].
  intros u r' Hr'. simpl in Hr'. congruence.
Qed.

Lemma keeps_foldM {A B} (f : B -> A -> M B) (l : list A) (b : B) :
  (forall b a, In a l -> keeps proj (f b a)) -> keeps proj (foldM f l b).
Proof.
  intros Hf r0.
  apply (wp_foldM f (fun _ r => proj (st r) = proj (st r0))); [|reflexivity].
  intros b' a r Hin Hr. eapply wp_mono; [|apply (Hf b' a Hin)].
  intros u r' Hr'. simpl in Hr'. congruence.
Qed.

End KeepsRules.
Lemma rint_index (rnd : Q) (n : nat) :
  0 <= rnd -> rnd < 1 -> (0 < n)%nat ->
  let i := JS.floor (rnd * (natQ n - 1 - 0 + 1)) + 0 in
  exists k : nat, (k < n)%nat /\ forall A (l : list A), indexNum l i = l !! k.
Proof.
  intros H0 H1 Hn i.
  set (q := rnd * (natQ n - 1 - 0 + 1)) in *.
  assert (Hq : q == rnd * natQ n) by (unfold q; ring).
  assert (Hq0 : 0 <= q).
  { rewrite Hq. apply Qmult_le_0_compat; [exact H0|].
    unfold natQ. change 0 with (inject_Z 0). rewrite <- Zle_Qle. lia. }
  assert (Hqn : q < natQ n).
  { rewrite Hq. apply Qlt_le_trans with (1 * natQ n).
    - apply Qmult_lt_r; [|exact H1].
      unfold natQ. change 0 with (inject_Z 0). rewrite <- Zlt_Qlt. lia.
    - rewrite Qmult_1_l. apply Qle_refl. }
  set (z := Qfloor q).
  assert (Hz0 : (0 <= z)%Z).
  { change 0%Z with (Qfloor 0). apply Qfloor_resp_le. exact Hq0. }
  assert (Hzn : (z < Z.of_nat n)%Z).
  { rewrite Zlt_Qlt. eapply Qle_lt_trans; [apply Qfloor_le|]. exact Hqn. }
  assert (Hi : i == inject_Z z) by (unfold i, JS.floor; fold z; ring).
  assert (Hfl : Qfloor i = z) by (rewrite Hi; apply Qfloor_Z).
  exists (Z.to_nat z). split; [lia|].
  intros A l. unfold indexNum, JS.eqb, JS.leb, JS.floor. rewrite Hfl.
  assert (E1 : Qeq_bool (inject_Z z) i = true).
  { apply Qeq_bool_iff. symmetry. exact Hi. }
  assert (E2 : Qle_bool 0 i = true).
  { apply Qle_bool_iff. rewrite Hi. change 0 with (inject_Z 0). rewrite <- Zle_Qle. exact Hz0. }
  rewrite E1, E2. reflexivity.
Qed.

Lemma wp_pickOne (P : Platform) {A} (l : list A) (post : A -> Run -> Prop) (r : Run) :
  l <> [] ->
  (forall a, In a l -> post a (mkRun (st r) (S (cursor r)))) ->
  wp (pickOne P l) post r.
Proof.
  intros Hl Hpost. unfold pickOne, rint.
  destruct (random_range P (cursor r)) as [H0 H1].
  destruct (rint_index (random P (cursor r)) (length l) H0 H1) as (k & Hk & Hidx).
  { destruct l; [contradiction | simpl; lia]. }
  apply wp_bind, wp_bind, wp_rand, wp_ret. rewrite Hidx.
  destruct (l !! k) as [a|] eqn:Ha.
  - apply wp_ret, Hpost. apply list_elem_of_In. eapply list_elem_of_lookup_2. exact Ha.
  - apply lookup_ge_None in Ha. lia.
Qed.

Create HintDb keeps.

Lemma findIndex_lookup {A} (f : A -> bool) (l : list A) (i : nat) :
  JS.findIndex f l = Some i -> exists a, l !! i = Some a /\ f a = true.
Proof.
  revert i. induction l as [|a l IH]; intros i; simpl; [discriminate|].
  destruct (f a) eqn:Hf.
  - intros [= <-]. exists a. split; [reflexivity | exact Hf].
  - destruct (JS.findIndex f l) as [j|]; simpl; [|discriminate].
    intros [= <-]. destruct (IH j eq_refl) as (b & Hb & Hfb). exists b. split; assumption.
Qed.

Lemma map_alter_same {A B} (g : A -> B) (f : A -> A) (i : nat) (l : list A) :
  (forall a, g (f a) = g a) -> map g (alter f i l) = map g l.
Proof.
  intros H. revert i. induction l as [|a l IH]; intros [|i]; simpl; try reflexivity.
  - rewrite H. reflexivity.
  - f_equal. apply IH.
Qed.

Lemma combine_seq_lookup {A} (l : list A) (s i : nat) (a : A) :
  In (i, a) (combine (seq s (length l)) l) -> (s <= i)%nat /\ l !! (i - s)%nat = Some a.
Proof.
  revert s. induction l as [|b l IH]; intros s; simpl; [intros []|].
  intros [[= <- <-]|Hin].
  - split; [lia|]. replace (s - s)%nat with 0%nat by lia. reflexivity.
  - destruct (IH _ Hin) as [Hle Hl]. split; [lia|].
    replace (i - s)%nat with (S (i - S s)) by lia. exact Hl.
Qed.

Lemma filterIndexed_In {A} (f : A -> bool) (l : list A) (i : nat) :
  In i (map fst (filterIndexed f l)) -> exists a, l !! i = Some a /\ f a = true.
Proof.
  intros Hin. apply in_map_iff in Hin. destruct Hin as ([j a] & Hj & Hin).
  simpl in Hj. subst j. unfold filterIndexed in Hin.
  apply filter_In in Hin. destruct Hin as [Hin Hf].
  apply combine_seq_lookup in Hin. destruct Hin as [_ Hl].
  replace (i - 0)%nat with i in Hl by lia. exists a. split; assumption.
Qed.

(** The table of abilities has an entry for the two snakes, whose
    [biteChance] the well-being pass reads. *)
Definition snakesHaveAbilities (K : Constants) : Prop :=
  is_Some (POKEMON_ABILITIES K "Ekans") /\ is_Some (POKEMON_ABILITIES K "Arbok").

(** The part of a crop plot that no pass of the simulation writes: all its
    fields but [fertilized] and [isWatered]. *)
Definition plotCore (p : CropPlot.t)
  : string * Q * Q * PlotState * option string * Q * Q * Q :=
  (CropPlot.id p, CropPlot.x p, CropPlot.y p, CropPlot.state p, CropPlot.type p,
   CropPlot.growthDays p, CropPlot.matureTimeInDays p, CropPlot.rotation p).

Section KeepsPasses.

Variable P : Platform.
Variable K : Constants.
Context {X : Type} (proj : GameState.t -> X).

Hypothesis H_gameTime : forall v gs, proj (GameState.set_gameTime v gs) = proj gs.
Hypothesis H_player : forall v gs, proj (GameState.set_player v gs) = proj gs.
Hypothesis H_pokemons : forall v gs, proj (GameState.set_pokemons v gs) = proj gs.
Hypothesis H_resources : forall v gs,
  proj (GameState.set_world (FarmWorld.set_resources v (GameState.world gs)) gs) = proj gs.
Hypothesis H_structs : forall v gs,
  proj (GameState.set_world (FarmWorld.set_structs v (GameState.world gs)) gs) = proj gs.
Hypothesis H_queue : forall v gs, proj (GameState.set_respawnQueue v gs) = proj gs.
Hypothesis H_dailyIncome : forall v gs, proj (GameState.set_dailyIncome v gs) = proj gs.
Hypothesis H_dailySpawns : forall v gs, proj (GameState.set_dailySpawns v gs) = proj gs.
Hypothesis H_dailyResourceSpawns : forall v gs,
  proj (GameState.set_dailyResourceSpawns v gs) = proj gs.
Hypothesis H_events : forall v gs, proj (GameState.set_eventQueue v gs) = proj gs.
Hypothesis H_pidgey : forall v gs, proj (GameState.set_dailyPidgeyBonusCount v gs) = proj gs.
Hypothesis H_ekans : forall v gs, proj (GameState.set_hasEncounteredEkans v gs) = proj gs.
Hypothesis H_spearow : forall v gs, proj (GameState.set_hasEncounteredSpearow v gs) = proj gs.
Hypothesis H_crops_map : forall f gs,
  (forall p, plotCore (f p) = plotCore p) ->
  proj (GameState.set_cropPlots (map f (GameState.cropPlots gs)) gs) = proj gs.
Hypothesis H_crops_alter : forall f i gs,
  (forall p, plotCore (f p) = plotCore p) ->
  proj (GameState.set_cropPlots (alter f i (GameState.cropPlots gs)) gs) = proj gs.

Ltac solve_core :=
  intros ?; unfold water;
  repeat match goal with |- context [if ?b then _ else _] => destruct b end;
  reflexivity.

Ltac solve_proj :=
  intros; cbv beta;
  first
    [ apply H_crops_alter; solve_core
    | apply H_crops_map; solve_core
    | repeat first
        [ rewrite H_gameTime | rewrite H_player | rewrite H_pokemons | rewrite H_resources
        | rewrite H_structs | rewrite H_queue | rewrite H_dailyIncome | rewrite H_dailySpawns
        | rewrite H_dailyResourceSpawns | rewrite H_events | rewrite H_pidgey
        | rewrite H_ekans | rewrite H_spearow ];
      reflexivity ].

Ltac frame_step :=
  match goal with
  | |- keeps _ (ret _) => apply keeps_ret
  | |- keeps _ (bind _ _) => apply keeps_bind; [|intros ?]
  | |- keeps _ get => apply keeps_get
  | |- keeps _ (rand _) => apply keeps_rand
  | |- keeps _ (when _ _) => apply keeps_when
  | |- keeps _ (forEach _ _) => apply keeps_forEach; intros ? ?
  | |- keeps _ (foldM _ _ _) => apply keeps_foldM; intros ? ? ?
  | |- keeps _ (modify _) => apply keeps_modify; solve_proj
  | |- keeps _ (if ?b then _ else _) => destruct b
  | |- keeps _ (match ?x with _ => _ end) => destruct x
  | |- keeps _ _ => solve [eauto with keeps]
  end.

Ltac frame := cbv zeta; repeat (frame_step; cbv zeta).

Lemma keeps_rint a b : keeps proj (rint P a b).
Proof. unfold rint. frame. Qed.
Hint Resolve keeps_rint : keeps.

Lemma keeps_pickOne {A} (l : list A) : l <> [] -> keeps proj (pickOne P l).
Proof. intros Hl r. apply wp_pickOne; [exact Hl | reflexivity]. Qed.

Lemma keeps_newPokemon kind x y s : keeps proj (newPokemon P K kind x y s).
Proof. unfold newPokemon. frame. Qed.
Hint Resolve keeps_newPokemon : keeps.

Lemma keeps_newResource type x y d : keeps proj (newResource P type x y d).
Proof. unfold newResource. frame. Qed.
Hint Resolve keeps_newResource : keeps.

Lemma keeps_setPlayer f : keeps proj (setPlayer f).
Proof. unfold setPlayer. frame. Qed.
Hint Resolve keeps_setPlayer : keeps.

Lemma keeps_setPokemons f : keeps proj (setPokemons f).
Proof. unfold setPokemons. frame. Qed.
Hint Resolve keeps_setPokemons : keeps.

Lemma keeps_pushResource r : keeps proj (pushResource r).
Proof. unfold pushResource, setWorld. frame. Qed.
Hint Resolve keeps_pushResource : keeps.

Lemma keeps_removeResourceAt i : keeps proj (removeResourceAt i).
Proof. unfold removeResourceAt, setWorld. frame. Qed.
Hint Resolve keeps_removeResourceAt : keeps.

Lemma keeps_pushPokemon p : keeps proj (pushPokemon p).
Proof. unfold pushPokemon. frame. Qed.
Hint Resolve keeps_pushPokemon : keeps.

Lemma keeps_pushTicket t : keeps proj (pushTicket t).
Proof. unfold pushTicket. frame. Qed.
Hint Resolve keeps_pushTicket : keeps.

Lemma keeps_pushEvent e : keeps proj (pushEvent e).
Proof. unfold pushEvent. frame. Qed.
Hint Resolve keeps_pushEvent : keeps.

Lemma keeps_passiveIncomeOf dt mb p : keeps proj (passiveIncomeOf K dt mb p).
Proof. unfold passiveIncomeOf. frame. Qed.
Hint Resolve keeps_passiveIncomeOf : keeps.

Lemma keeps_updatePassiveIncome dt : keeps proj (updatePassiveIncome K dt).
Proof. unfold updatePassiveIncome. frame. Qed.

Lemma keeps_randomInBox b : keeps proj (randomInBox P b).
Proof. unfold randomInBox. frame. Qed.
Hint Resolve keeps_randomInBox : keeps.

Lemma keeps_riverSearch n b pts : keeps proj (riverSearch P n b pts).
Proof. induction n; simpl; frame. Qed.
Hint Resolve keeps_riverSearch : keeps.

Lemma keeps_getRandomPointInRiver w : keeps proj (getRandomPointInRiver P w).
Proof. unfold getRandomPointInRiver. frame. Qed.
Hint Resolve keeps_getRandomPointInRiver : keeps.

Lemma keeps_spotLoop fuel attempts w : keeps proj (spotLoop P fuel attempts w).
Proof. revert attempts. induction fuel; intros attempts; simpl; frame. Qed.
Hint Resolve keeps_spotLoop : keeps.

Lemma keeps_fertileLoop n b pts w : keeps proj (fertileLoop P n b pts w).
Proof. induction n; simpl; frame. Qed.
Hint Resolve keeps_fertileLoop : keeps.

Lemma keeps_combeeSpawn res : keeps proj (combeeSpawn P K res).
Proof. unfold combeeSpawn. frame. Qed.
Hint Resolve keeps_combeeSpawn : keeps.

Lemma keeps_spawnFor item : keeps proj (spawnFor P K item).
Proof.
  unfold spawnFor. cbv zeta.
  apply keeps_bind; [apply keeps_get | intros gs].
  apply keeps_bind; [frame | intros r].
  apply keeps_bind.
  - destruct (isTreeType (tk_type item) && JS.ltb r (1 # 2)) eqn:E1; simpl; [|frame].
    destruct (FarmWorld.fertileZones (GameState.world gs)) as [|z zs] eqn:Ez; simpl; [frame|].
    apply keeps_bind; [apply keeps_pickOne; discriminate | intros zone]. frame.
  - intros inZone. frame.
Qed.
Hint Resolve keeps_spawnFor : keeps.

Lemma keeps_respawnOne counts item : keeps proj (respawnOne P K counts item).
Proof. unfold respawnOne. frame. Qed.
Hint Resolve keeps_respawnOne : keeps.

Lemma keeps_updateWorld dt : keeps proj (updateWorld P K dt).
Proof. unfold updateWorld. frame. Qed.

Lemma keeps_updatePokemonDayNightCycle : keeps proj (updatePokemonDayNightCycle K).
Proof. unfold updatePokemonDayNightCycle. frame. Qed.

Lemma keeps_die dead : keeps proj (die P K dead).
Proof. unfold die. frame. Qed.
Hint Resolve keeps_die : keeps.

Lemma keeps_teleportStep dt p : keeps proj (teleportStep P dt p).
Proof. unfold teleportStep. frame. Qed.
Hint Resolve keeps_teleportStep : keeps.

Lemma keeps_setCropPlots_alter f i :
  (forall p, plotCore (f p) = plotCore p) -> keeps proj (setCropPlots (alter f i)).
Proof. intros Hf. apply keeps_modify. intros gs. apply H_crops_alter, Hf. Qed.

Lemma keeps_setCropPlots_map f :
  (forall p, plotCore (f p) = plotCore p) -> keeps proj (setCropPlots (map f)).
Proof. intros Hf. apply keeps_modify. intros gs. apply H_crops_map, Hf. Qed.

Lemma keeps_runAbility ab p : keeps proj (runAbility P K ab p).
Proof.
  unfold runAbility. cbv zeta.
  apply keeps_bind; [apply keeps_get | intros gs].
  repeat match goal with
         | |- keeps _ (if String.eqb ?a ?b then _ else _) => destruct (String.eqb a b)
         end.
  - frame.
  - destruct (findClosest _ _ _ _); [|frame].
    apply keeps_bind; [|intros; frame].
    apply keeps_setCropPlots_alter. solve_core.
  - destruct (findClosest _ _ _ _); [|frame].
    apply keeps_bind; [|intros; frame].
    apply keeps_setCropPlots_alter. solve_core.
  - frame.
  - destruct (findResource "wild_plant" gs) as [i|] eqn:Hi; [|frame].
    apply findIndex_lookup in Hi. destruct Hi as (plant & Hplant & _).
    apply keeps_bind; [apply keeps_deref; eauto | intros ?]. frame.
  - frame.
  - frame.
Qed.
Hint Resolve keeps_runAbility : keeps.

Lemma keeps_abilityStep dt p : keeps proj (abilityStep P K dt p).
Proof. unfold abilityStep. frame. Qed.
Hint Resolve keeps_abilityStep : keeps.

Lemma keeps_riverSnap w p : keeps proj (riverSnap P w p).
Proof. unfold riverSnap. frame. Qed.
Hint Resolve keeps_riverSnap : keeps.

Lemma keeps_confineStep w hm p : keeps proj (confineStep P w hm p).
Proof. unfold confineStep. frame. Qed.
Hint Resolve keeps_confineStep : keeps.

Lemma keeps_patrolLoop n house w : keeps proj (patrolLoop P n house w).
Proof. induction n; simpl; frame. Qed.
Hint Resolve keeps_patrolLoop : keeps.

Lemma keeps_roamLoop n p fl w : keeps proj (roamLoop P n p fl w).
Proof. induction n; simpl; frame. Qed.
Hint Resolve keeps_roamLoop : keeps.

Lemma keeps_pickTarget w hm p : keeps proj (pickTarget P w hm p).
Proof. unfold pickTarget. frame. Qed.
Hint Resolve keeps_pickTarget : keeps.

Lemma keeps_wanderStep w hm p : keeps proj (wanderStep P w hm p).
Proof. unfold wanderStep. frame. Qed.
Hint Resolve keeps_wanderStep : keeps.

Lemma keeps_behave dt p : keeps proj (behave P K dt p).
Proof. unfold behave. frame. Qed.
Hint Resolve keeps_behave : keeps.

Lemma keeps_pokemonStep dt hour acc i : keeps proj (pokemonStep P K dt hour acc i).
Proof. unfold pokemonStep. frame. Qed.
Hint Resolve keeps_pokemonStep : keeps.

Lemma keeps_updatePokemons dt : keeps proj (updatePokemons P K dt).
Proof. unfold updatePokemons. frame. Qed.

Lemma keeps_hunt tb st p : keeps proj (hunt P K tb st p).
Proof. unfold hunt. frame. Qed.
Hint Resolve keeps_hunt : keeps.

Lemma keeps_pestControl : keeps proj (pestControl P K).
Proof. unfold pestControl. frame. Qed.

Lemma keeps_dailyAbility p : keeps proj (dailyAbility P K p).
Proof. unfold dailyAbility. frame. Qed.
Hint Resolve keeps_dailyAbility : keeps.

Lemma keeps_setStructs f : keeps proj (setStructs f).
Proof. unfold setStructs, setWorld. frame. Qed.
Hint Resolve keeps_setStructs : keeps.

Lemma keeps_revive i : keeps proj (revive P K i).
Proof. unfold revive. frame. Qed.
Hint Resolve keeps_revive : keeps.

Lemma keeps_ageOne i : keeps proj (ageOne P i).
Proof. unfold ageOne. frame. Qed.
Hint Resolve keeps_ageOne : keeps.

Definition isSnake (p : Pokemon.t) : Prop :=
  Pokemon.kind p = "Ekans" \/ Pokemon.kind p = "Arbok".

(** The species and the happiness of a creature. *)
Definition vitals (p : Pokemon.t) : string * Q := (Pokemon.kind p, Pokemon.happiness p).

Hypothesis HK : snakesHaveAbilities K.

Lemma wp_bite torchicFamily idx r :
  (forall p, GameState.pokemons (st r) !! idx = Some p -> isSnake p) ->
  wp (bite P K torchicFamily idx)
     (fun _ r' => proj (st r') = proj (st r)
                  /\ map vitals (GameState.pokemons (st r'))
                     = map vitals (GameState.pokemons (st r))) r.
Proof.
  intros Hs. unfold bite. apply wp_bind, wp_get.
  destruct (GameState.pokemons (st r) !! idx) as [ekans|] eqn:He;
    [|apply wp_ret; split; reflexivity].
  apply wp_bind, wp_rand.
  assert (Hab : is_Some (POKEMON_ABILITIES K (Pokemon.kind ekans))).
  { destruct HK as [H1 H2]. destruct (Hs ekans eq_refl) as [-> | ->]; assumption. }
  destruct Hab as [ab Hab]. rewrite Hab. simpl.
  apply wp_bind, wp_ret.
  destruct (JS.ltb _ _); [|apply wp_ret; split; reflexivity].
  destruct (JS.find _ _); [|apply wp_ret; split; reflexivity].
  unfold setPokemons. apply wp_modify. simpl. split.
  - apply H_pokemons.
  - apply map_alter_same. reflexivity.
Qed.

(** The bites of the post-pass keep the species and the happiness of every
    creature. *)
Lemma wp_bites torchicFamily ps r :
  map vitals ps = map vitals (GameState.pokemons (st r)) ->
  wp (forEach (map fst (filterIndexed
                          (fun p => (String.eqb (Pokemon.kind p) "Ekans"
                                     || String.eqb (Pokemon.kind p) "Arbok")
                                    && negb (Pokemon.isSleeping p)) ps))
              (bite P K torchicFamily))
     (fun _ r' => proj (st r') = proj (st r)
                  /\ map vitals (GameState.pokemons (st r'))
                     = map vitals (GameState.pokemons (st r))) r.
Proof.
  intros Hps.
  apply (wp_forEach _
           (fun r' => proj (st r') = proj (st r)
                      /\ map vitals (GameState.pokemons (st r'))
                         = map vitals (GameState.pokemons (st r))));
    [|split; reflexivity].
  intros idx r1 Hin [Hp Hk].
  eapply wp_mono; [|apply wp_bite].
  - intros u r' [Hp' Hk']. split; congruence.
  - intros p Hlook.
    apply filterIndexed_In in Hin. destruct Hin as (q & Hq & Hf).
    assert (Hkind : vitals p = vitals q).
    { assert (E : map vitals (GameState.pokemons (st r1)) !! idx = map vitals ps !! idx)
        by (rewrite Hk, Hps; reflexivity).
      change (map vitals) with (fmap (M:=list) vitals) in E.
      rewrite !list_lookup_fmap, Hlook, Hq in E. simpl in E. congruence. }
    injection Hkind as Hkind _.
    apply andb_true_iff in Hf. destruct Hf as [Hf _].
    apply orb_true_iff in Hf. unfold isSnake. rewrite Hkind.
    destruct Hf as [Hf|Hf]; apply String.eqb_eq in Hf; auto.
Qed.

Lemma keeps_updatePokemonHappiness : keeps proj (updatePokemonHappiness P K).
Proof.
  intros r0. unfold updatePokemonHappiness.
  apply wp_bind, wp_get. cbv zeta.
  unfold setPokemons at 1 2.
  apply wp_bind, wp_modify, wp_bind, wp_modify, wp_bind, wp_get.
  match goal with |- wp _ _ ?r => set (r2 := r) end.
  assert (H2 : proj (st r2) = proj (st r0)).
  { unfold r2. simpl. rewrite !H_pokemons. reflexivity. }
  eapply wp_mono; [|apply wp_bites; reflexivity].
  intros u r [Hr _]. congruence.
Qed.

Lemma keeps_processDailyProduction : keeps proj (processDailyProduction P K).
Proof.
  unfold processDailyProduction.
  pose proof keeps_pestControl. pose proof keeps_updatePokemonHappiness.
  unfold setCropPlots, setWorld. frame.
Qed.

Lemma keeps_spawnIn kind b : keeps proj (spawnIn P K kind b).
Proof. unfold spawnIn. frame. Qed.
Hint Resolve keeps_spawnIn : keeps.

Lemma keeps_roll count cap : keeps proj (roll P count cap).
Proof. unfold roll. frame. Qed.
Hint Resolve keeps_roll : keeps.

Lemma keeps_farmAreaSpawn area : keeps proj (farmAreaSpawn P K area).
Proof. unfold farmAreaSpawn. frame. Qed.
Hint Resolve keeps_farmAreaSpawn : keeps.

Lemma keeps_laboratorySpawn lab : keeps proj (laboratorySpawn P K lab).
Proof. unfold laboratorySpawn. frame. Qed.
Hint Resolve keeps_laboratorySpawn : keeps.

(** The guarded draw [if (l.length > 0) { ... l[rint(0, l.length - 1)] ... }]. *)
Lemma keeps_guardedPick {A} (l : list A) (m : M bool) (f : A -> M unit) :
  keeps proj m -> (forall a, keeps proj (f a)) ->
  keeps proj (when (0 <? length l)%nat
                (ok <- m ;; if ok then a <- pickOne P l ;; f a else ret tt)).
Proof.
  intros Hm Hf. destruct l as [|a l]; simpl; [apply keeps_ret|].
  apply keeps_bind; [exact Hm | intros ok]. destruct ok; [|apply keeps_ret].
  apply keeps_bind; [apply keeps_pickOne; discriminate | exact Hf].
Qed.

Lemma keeps_processDailySpawns : keeps proj (processDailySpawns P K).
Proof.
  unfold processDailySpawns.
  repeat first
    [ apply keeps_guardedPick; [frame | intros; frame]
    | apply keeps_bind; [|intros ?]
    | apply keeps_get ];
  frame.
Qed.

Lemma keeps_processSpecialSpawns : keeps proj (processSpecialSpawns P K).
Proof. unfold processSpecialSpawns. frame. Qed.

End KeepsPasses.

(** ** The per-frame entry point *)

(** The calendar of the game: the day counter, the last processed date and
    the hour at which a day starts. *)
Definition calendar (gs : GameState.t) : Q * string * Q :=
  (GameState.day gs, GameState.lastProductionDate gs, GameState.dayChangeHour gs).

(** What the passes called by [updateGame] leave alone: the calendar and the
    core of every crop plot. *)
Definition stable (gs : GameState.t)
  : Q * string * Q * list (string * Q * Q * PlotState * option string * Q * Q * Q) :=
  (calendar gs, map plotCore (GameState.cropPlots gs)).

Lemma stable_crops_map (f : CropPlot.t -> CropPlot.t) (gs : GameState.t) :
  (forall p, plotCore (f p) = plotCore p) ->
  stable (GameState.set_cropPlots (map f (GameState.cropPlots gs)) gs) = stable gs.
Proof.
  intros H. unfold stable, calendar. simpl. f_equal.
  rewrite map_map. apply map_ext. exact H.
Qed.

Lemma stable_crops_alter (f : CropPlot.t -> CropPlot.t) (i : nat) (gs : GameState.t) :
  (forall p, plotCore (f p) = plotCore p) ->
  stable (GameState.set_cropPlots (alter f i (GameState.cropPlots gs)) gs) = stable gs.
Proof.
  intros H. unfold stable, calendar. simpl. f_equal. apply map_alter_same. exact H.
Qed.

Ltac stable_side :=
  first [ exact stable_crops_map | exact stable_crops_alter
        | intros; reflexivity | assumption ].

Lemma keeps_then {X A B} (proj : GameState.t -> X) (m : M A) (k : M B)
      (post : B -> Run -> Prop) (x : X) :
  keeps proj m ->
  (forall r, proj (st r) = x -> wp k post r) ->
  forall r, proj (st r) = x -> wp (m ;;; k) post r.
Proof.
  intros Hm Hk r Hr. apply wp_bind. eapply wp_mono; [|apply Hm].
  intros a r' Hr'. simpl in Hr'. apply Hk. congruence.
Qed.

Section UpdateGame.

Variable P : Platform.
Variable K : Constants.

(** The continuous systems of a frame keep the calendar and the plots. *)
Lemma frame_passes (dt : Q) (B : Type) (k : M B) (post : B -> Run -> Prop)
      (x : _) :
  (forall r, stable (st r) = x -> wp k post r) ->
  forall r, stable (st r) = x ->
    wp (modify (GameState.set_gameTime
                  (clockHours P * 3600 + clockMinutes P * 60 + clockSeconds P)) ;;;
        setPlayer (updatePlayer K dt) ;;;
        updatePassiveIncome K dt ;;;
        updatePokemons P K dt ;;;
        updateWorld P K dt ;;; k) post r.
Proof.
  intros Hk.
  apply keeps_then; [apply keeps_modify; intros; reflexivity|].
  apply keeps_then; [apply keeps_setPlayer; stable_side|].
  apply keeps_then; [apply keeps_updatePassiveIncome; stable_side|].
  apply keeps_then; [apply keeps_updatePokemons; stable_side|].
  apply keeps_then; [apply keeps_updateWorld; stable_side|].
  exact Hk.
Qed.

(** The once-per-day passes keep the calendar and the plots. *)
Lemma daily_passes (B : Type) (k : M B) (post : B -> Run -> Prop) (x : _) :
  snakesHaveAbilities K ->
  (forall r, stable (st r) = x -> wp k post r) ->
  forall r, stable (st r) = x ->
    wp (processDailyProduction P K ;;;
        processDailySpawns P K ;;;
        processSpecialSpawns P K ;;;
        updatePokemonDayNightCycle K ;;; k) post r.
Proof.
  intros HK Hk.
  apply keeps_then; [apply keeps_processDailyProduction; stable_side|].
  apply keeps_then; [apply keeps_processDailySpawns; stable_side|].
  apply keeps_then; [apply keeps_processSpecialSpawns; stable_side|].
  apply keeps_then; [apply keeps_updatePokemonDayNightCycle; stable_side|].
  exact Hk.
Qed.

(** A call at which the date string has not changed: no daily cycle. *)
Lemma advance_same_date (gs : GameState.t) (dt : Q) :
  gameDateString P (GameState.dayChangeHour gs) = GameState.lastProductionDate gs ->
  exists r, advance P K gs dt = Done false r /\ stable (st r) = stable gs.
Proof.
  intros Hdate.
  assert (H : wp (updateGame P K dt)
                 (fun b r => b = false /\ stable (st r) = stable gs) (mkRun gs 0)).
  { unfold updateGame. apply frame_passes with (x := stable gs); [|reflexivity].
    intros r Hr. apply wp_bind, wp_get. cbv zeta.
    assert (Hcal : calendar (st r) = calendar gs) by (unfold stable in Hr; congruence).
    unfold calendar in Hcal. injection Hcal as Hd Hl Hh.
    rewrite Hh, Hl, Hdate, String.eqb_refl. simpl.
    apply wp_ret. split; [reflexivity | exact Hr]. }
  apply wp_done in H. destruct H as (b & r & Hrun & -> & Hst). exists r. split; assumption.
Qed.

(** A call at which the date string has changed: the day counter moves on by
    one, the date is recorded, and the daily cycle runs. *)
Lemma advance_new_date (gs : GameState.t) (dt : Q) :
  snakesHaveAbilities K ->
  gameDateString P (GameState.dayChangeHour gs) <> GameState.lastProductionDate gs ->
  exists r,
    advance P K gs dt = Done true r
    /\ GameState.day (st r) = GameState.day gs + 1
    /\ GameState.lastProductionDate (st r) = gameDateString P (GameState.dayChangeHour gs)
    /\ GameState.dayChangeHour (st r) = GameState.dayChangeHour gs
    /\ map plotCore (GameState.cropPlots (st r)) = map plotCore (GameState.cropPlots gs).
Proof.
  intros HK Hdate.
  set (post := fun (b : bool) (r : Run) =>
                 b = true
                 /\ stable (st r)
                    = (GameState.day gs + 1,
                       gameDateString P (GameState.dayChangeHour gs),
                       GameState.dayChangeHour gs,
                       map plotCore (GameState.cropPlots gs))).
  assert (H : wp (updateGame P K dt) post (mkRun gs 0)).
  { unfold updateGame. apply frame_passes with (x := stable gs); [|reflexivity].
    intros r Hr. apply wp_bind, wp_get. cbv zeta.
    assert (Hcal : calendar (st r) = calendar gs) by (unfold stable in Hr; congruence).
    assert (Hpl : map plotCore (GameState.cropPlots (st r))
                  = map plotCore (GameState.cropPlots gs))
      by (unfold stable in Hr; congruence).
    unfold calendar in Hcal. injection Hcal as Hd Hl Hh.
    rewrite Hh, Hl.
    assert (E : String.eqb (GameState.lastProductionDate gs)
                           (gameDateString P (GameState.dayChangeHour gs)) = false).
    { apply String.eqb_neq. congruence. }
    rewrite E. simpl.
    apply wp_bind, wp_modify.
    eapply daily_passes; [exact HK | | reflexivity].
    intros r' Hr'. apply wp_ret. split; [reflexivity|].
    rewrite Hr'. unfold stable, calendar. simpl. rewrite Hd, Hh, Hpl. reflexivity. }
  apply wp_done in H. destruct H as (b & r & Hrun & -> & Hst).
  exists r. split; [exact Hrun|].
  unfold stable, calendar in Hst. injection Hst as H1 H2 H3 H4. auto.
Qed.

End UpdateGame.

(** The driver: a sequence of calls of the entry point, each with the
    reading of the platform at that call and its [dt].  The result is the
    list of the returned flags and the final state, or [None] when a call
    raised an error. *)
Fixpoint advanceAll (K : Constants) (calls : list (Platform * Q)) (gs : GameState.t)
  : option (list bool * GameState.t) :=
  match calls with
  | [] => Some ([], gs)
  | (P, dt) :: rest =>
      match advance P K gs dt with
      | Done b r =>
          match advanceAll K rest (st r) with
          | Some (bs, gs') => Some (b :: bs, gs')
          | None => None
          end
      | TypeError => None
      end
  end.

(** C1, as stated, fails: a call with [dt = 0] made on a date that is not the
    last processed one runs the daily cycle and moves the day counter. *)
Lemma C1_advance_zero_new_date_counterexample :
  ~ (forall (P : Platform) (K : Constants) (gs : GameState.t),
        exists r, advance P K gs 0 = Done false r
                  /\ GameState.day (st r) = GameState.day gs).
Proof.
  intros H.
  destruct (H (Sample.platform [] 10 "2024-1-2") Sample.constants Sample.state)
    as (r & Hr & _).
  vm_compute in Hr. discriminate Hr.
Qed.

(** C1, amended: for every state, any sequence of [advance(state, 0)] calls
    made while the wall-clock-derived date string equals the last processed
    date of the state leaves [state.day] unchanged and returns
    [dailyRolloverOccurred = false] on every call. *)
Theorem C1_advance_zero_same_date
        (K : Constants) (clocks : list Platform) (gs : GameState.t) :
  (forall P, In P clocks ->
     gameDateString P (GameState.dayChangeHour gs) = GameState.lastProductionDate gs) ->
  exists gs',
    advanceAll K (map (fun P => (P, 0)) clocks) gs
    = Some (repeat false (length clocks), gs')
    /\ GameState.day gs' = GameState.day gs
    /\ GameState.lastProductionDate gs' = GameState.lastProductionDate gs.
Proof.
  revert gs. induction clocks as [|P clocks IH]; intros gs Hdate; simpl.
  - exists gs. repeat split.
  - destruct (advance_same_date P K gs 0) as (r & Hrun & Hst).
    { apply Hdate. left. reflexivity. }
    rewrite Hrun.
    assert (Hcal : calendar (st r) = calendar gs) by (unfold stable in Hst; congruence).
    unfold calendar in Hcal. injection Hcal as Hd Hl Hh.
    destruct (IH (st r)) as (gs' & Hall & Hd' & Hl').
    { intros P' Hin. rewrite Hh, Hl. apply Hdate. right. exact Hin. }
    rewrite Hall. exists gs'. repeat split; congruence.
Qed.

Lemma C1_advance_zero_same_date_witness :
  exists gs',
    advanceAll Sample.constants
      (map (fun P => (P, 0))
           [Sample.platform [] 10 "2024-1-1"; Sample.platform [1 # 2] 11 "2024-1-1"])
      Sample.state
    = Some ([false; false], gs')
    /\ GameState.day gs' = 1.
Proof.
  destruct (C1_advance_zero_same_date Sample.constants
              [Sample.platform [] 10 "2024-1-1"; Sample.platform [1 # 2] 11 "2024-1-1"]
              Sample.state) as (gs' & Hall & Hd & _).
  - intros P [<- | [<- | []]]; reflexivity.
  - exists gs'. split; [exact Hall | exact Hd].
Defined.

(** ** Crop plots: growth *)

(** C2: the claim describes the intended life cycle, which the code misses.
    No pass of the simulation writes [state] or [growthDays] of a plot: over
    any sequence of calls of the entry point, with any [dt], every plot keeps
    its state and its elapsed growth, so a planted plot stays [growing] and
    never becomes [mature]. *)
Theorem C2_growing_plot_never_matures
        (K : Constants) (calls : list (Platform * Q)) (gs : GameState.t) :
  snakesHaveAbilities K ->
  exists flags gs',
    advanceAll K calls gs = Some (flags, gs')
    /\ map plotCore (GameState.cropPlots gs') = map plotCore (GameState.cropPlots gs)
    /\ forall i plot,
         GameState.cropPlots gs !! i = Some plot ->
         CropPlot.state plot = growing ->
         exists plot',
           GameState.cropPlots gs' !! i = Some plot'
           /\ CropPlot.state plot' = growing
           /\ CropPlot.growthDays plot' = CropPlot.growthDays plot.
Proof.
  intros HK.
  assert (Hall : exists flags gs',
             advanceAll K calls gs = Some (flags, gs')
             /\ map plotCore (GameState.cropPlots gs')
                = map plotCore (GameState.cropPlots gs)).
  { revert gs. induction calls as [|[P dt] calls IH]; intros gs; simpl.
    - exists [], gs. split; reflexivity.
    - assert (Hone : exists b r,
                 advance P K gs dt = Done b r
                 /\ map plotCore (GameState.cropPlots (st r))
                    = map plotCore (GameState.cropPlots gs)).
      { destruct (String.eqb_spec (gameDateString P (GameState.dayChangeHour gs))
                                  (GameState.lastProductionDate gs)) as [E|E].
        - destruct (advance_same_date P K gs dt E) as (r & Hr & Hst).
          exists false, r. split; [exact Hr|]. unfold stable in Hst. congruence.
        - destruct (advance_new_date P K gs dt HK E) as (r & Hr & _ & _ & _ & Hpl).
          exists true, r. split; assumption. }
      destruct Hone as (b & r & Hr & Hpl). rewrite Hr.
      destruct (IH (st r)) as (flags & gs' & Hrest & Hpl').
      rewrite Hrest. exists (b :: flags), gs'. split; [reflexivity | congruence]. }
  destruct Hall as (flags & gs' & Hrun & Hpl).
  exists flags, gs'. split; [exact Hrun|]. split; [exact Hpl|].
  intros i plot Hi Hg.
  assert (E : map plotCore (GameState.cropPlots gs') !! i = Some (plotCore plot)).
  { rewrite Hpl. change (map plotCore) with (fmap (M:=list) plotCore).
    rewrite list_lookup_fmap, Hi. reflexivity. }
  change (map plotCore) with (fmap (M:=list) plotCore) in E.
  rewrite list_lookup_fmap in E.
  destruct (GameState.cropPlots gs' !! i) as [plot'|]; [|discriminate].
  simpl in E. injection E as E. unfold plotCore in E.
  exists plot'. split; [reflexivity|]. split; congruence.
Qed.

(** A plot planted at dawn and one call of the entry point that spans half a
    day ([dt = 43200] seconds) on a new date. *)
Lemma C2_growing_plot_never_matures_witness :
  exists flags gs' plot',
    advanceAll Sample.constants [(Sample.platform [] 18 "2024-1-2", 43200)]
      (GameState.set_cropPlots [plant "seedGraoBaga" Sample.plot] Sample.state)
    = Some (flags, gs')
    /\ GameState.cropPlots gs' !! 0%nat = Some plot'
    /\ CropPlot.state plot' = growing
    /\ CropPlot.growthDays plot' = 0.
Proof.
  destruct (C2_growing_plot_never_matures Sample.constants
              [(Sample.platform [] 18 "2024-1-2", 43200)]
              (GameState.set_cropPlots [plant "seedGraoBaga" Sample.plot] Sample.state))
    as (flags & gs' & Hrun & _ & Hplots).
  - split; eexists; reflexivity.
  - destruct (Hplots 0%nat (plant "seedGraoBaga" Sample.plot) eq_refl eq_refl)
      as (plot' & Hl & Hs & Hg).
    exists flags, gs', plot'. repeat split; assumption.
Defined.

(** ** Creature behaviour: sleep *)

(** A sleeping creature at index 0 of a farm, with a running cooldown and a
    running animation timer. *)
Definition sleeper : Pokemon.t :=
  Pokemon.set_isSleeping true (Sample.creature "p1" "Torchic" 310 310 (Some "bld_coop")).

(** C5, as stated, fails: the cooldown of a sleeping creature does not count
    down during its step. *)
Lemma C5_sleeping_cooldown_counterexample :
  ~ (forall (P : Platform) (K : Constants) (dt hour : Q) (acc : list nat * list Pokemon.t)
            (i : nat) (r : Run) (p : Pokemon.t),
        GameState.pokemons (st r) !! i = Some p ->
        Pokemon.isSleeping p = true ->
        deathDue hour p = false ->
        exists acc' r' p',
          pokemonStep P K dt hour acc i r = Done acc' r'
          /\ GameState.pokemons (st r') !! i = Some p'
          /\ Pokemon.cooldown p' == JS.max 0 (Pokemon.cooldown p - dt)).
Proof.
  intros H.
  destruct (H (Sample.platform [] 10 "2024-1-1") Sample.constants 1 10 ([], []) 0%nat
              (mkRun (GameState.set_pokemons [sleeper] Sample.state) 0) sleeper
              eq_refl eq_refl eq_refl)
    as (acc' & r' & p' & Hstep & Hp' & Hcd).
  vm_compute in Hstep. injection Hstep as _ <-.
  vm_compute in Hp'. injection Hp' as <-.
  vm_compute in Hcd. discriminate Hcd.
Qed.

(** C5, amended: for every creature with [isSleeping = true] whose scheduled
    death is not due, the per-tick behaviour step changes nothing at all: the
    creature is kept, and its position, AI state, movement target and
    abilities are suppressed together with its cooldown and action timers,
    which do not count down while it sleeps.  The game state after the step
    is the game state before it, and no random number is drawn. *)
Theorem C5_sleeping_step_changes_nothing
        (P : Platform) (K : Constants) (dt hour : Q) (acc : list nat * list Pokemon.t)
        (i : nat) (r : Run) (p : Pokemon.t) :
  GameState.pokemons (st r) !! i = Some p ->
  Pokemon.isSleeping p = true ->
  deathDue hour p = false ->
  pokemonStep P K dt hour acc i r = Done ((acc.1 ++ [i])%list, acc.2) r.
Proof.
  intros Hp Hs Hd. unfold pokemonStep, bind, get.
  rewrite Hp, Hd, Hs. reflexivity.
Qed.

Lemma C5_sleeping_step_changes_nothing_witness :
  pokemonStep (Sample.platform [] 10 "2024-1-1") Sample.constants 1 10 ([], []) 0%nat
    (mkRun (GameState.set_pokemons [sleeper] Sample.state) 0)
  = Done ([0%nat], []) (mkRun (GameState.set_pokemons [sleeper] Sample.state) 0).
Proof.
  apply (C5_sleeping_step_changes_nothing _ _ _ _ ([], []) 0%nat _ sleeper);
    reflexivity.
Defined.

(** ** Commands: evolution *)

(** The fields of a creature that evolution does not write. *)
Record sameButSpecies (p q : Pokemon.t) : Prop := mkSameButSpecies {
  sbs_id : Pokemon.id q = Pokemon.id p;
  sbs_x : Pokemon.x q = Pokemon.x p;
  sbs_y : Pokemon.y q = Pokemon.y p;
  sbs_isShiny : Pokemon.isShiny q = Pokemon.isShiny p;
  sbs_gender : Pokemon.gender q = Pokemon.gender p;
  sbs_homeBuildingId : Pokemon.homeBuildingId q = Pokemon.homeBuildingId p;
  sbs_cooldown : Pokemon.cooldown q = Pokemon.cooldown p;
  sbs_target : Pokemon.target q = Pokemon.target p;
  sbs_aiState : Pokemon.aiState q = Pokemon.aiState p;
  sbs_moveSpeed : Pokemon.moveSpeed q = Pokemon.moveSpeed p;
  sbs_isSleeping : Pokemon.isSleeping q = Pokemon.isSleeping p;
  sbs_Poder : Pokemon.Poder q = Pokemon.Poder p;
  sbs_teleportState : Pokemon.teleportState q = Pokemon.teleportState p;
  sbs_teleportTimer : Pokemon.teleportTimer q = Pokemon.teleportTimer p;
  sbs_actionTimer : Pokemon.actionTimer q = Pokemon.actionTimer p;
  sbs_isImmortal : Pokemon.isImmortal q = Pokemon.isImmortal p;
  sbs_scheduledDeathHour : Pokemon.scheduledDeathHour q = Pokemon.scheduledDeathHour p;
  sbs_torchicsCured : Pokemon.torchicsCured q = Pokemon.torchicsCured p;
  sbs_applesHarvested : Pokemon.applesHarvested q = Pokemon.applesHarvested p;
  sbs_happiness : Pokemon.happiness q = Pokemon.happiness p;
  sbs_happinessModifiers : Pokemon.happinessModifiers q = Pokemon.happinessModifiers p;
  sbs_isNew : Pokemon.isNew q = Pokemon.isNew p
}.

(** What evolution into [target] writes. *)
Definition evolvedInto (K : Constants) (target : string) (p q : Pokemon.t) : Prop :=
  Pokemon.kind q = target
  /\ Pokemon.age q = 0
  /\ Pokemon.maxAge q = JS.orElseO (POKEMON_LIFESPANS K target) 100
  /\ Pokemon.name q = (if String.eqb (Pokemon.name p) (Pokemon.kind p)
                       then target else Pokemon.name p).

Lemma sameButSpecies_refl (p : Pokemon.t) : sameButSpecies p p.
Proof. constructor; reflexivity. Qed.

Lemma evolve_spec (K : Constants) (target : string) (p : Pokemon.t) :
  sameButSpecies p (evolve K target p) /\ evolvedInto K target p (evolve K target p).
Proof.
  unfold evolve, evolvedInto.
  destruct (String.eqb (Pokemon.name p) (Pokemon.kind p)); simpl;
    (split; [constructor; reflexivity | repeat split]).
Qed.

Lemma handleEvolvePokemon_pokemons (P : Platform) (K : Constants) (pokemonId : string)
      (gs : GameState.t) :
  GameState.pokemons (handleEvolvePokemon P K pokemonId gs) = GameState.pokemons gs
  \/ exists i p target,
       GameState.pokemons gs !! i = Some p
       /\ POKEMON_EVOLUTIONS K (Pokemon.kind p) = Some target
       /\ GameState.pokemons (handleEvolvePokemon P K pokemonId gs)
          = alter (evolve K target) i (GameState.pokemons gs).
Proof.
  unfold handleEvolvePokemon.
  destruct (JS.findIndex _ _) as [i|]; [|left; reflexivity].
  destruct (GameState.pokemons gs !! i) as [p|] eqn:Hp; [|left; reflexivity].
  destruct (POKEMON_EVOLUTIONS K (Pokemon.kind p)) as [target|] eqn:Ht; [|left; reflexivity].
  destruct (JS.truthyS target); simpl; [|left; reflexivity].
  destruct (removeItem "evolution_stone" 1 (GameState.player gs)) as [ok pl].
  destruct ok; simpl; [|left; reflexivity].
  right. exists i, p, target. split; [exact Hp|]. split; [exact Ht|].
  destruct (tableGet (POKEMON_IDS K) target) as [id|]; [|reflexivity].
  destruct (JS.truthy id); reflexivity.
Qed.

(** The step of a creature whose death is due: it is not kept. *)
Lemma pokemonStep_death (P : Platform) (K : Constants) (dt hour : Q)
      (acc : list nat * list Pokemon.t) (i : nat) (r : Run) (p : Pokemon.t) :
  GameState.pokemons (st r) !! i = Some p ->
  deathDue hour p = true ->
  exists ghosts r', pokemonStep P K dt hour acc i r = Done (acc.1, (acc.2 ++ ghosts)%list) r'.
Proof.
  intros Hp Hd. unfold pokemonStep.
  assert (Hdie : wp (die P K p) (fun _ _ => True) r).
  { eapply wp_mono; [|apply (keeps_die P K (fun _ => tt)); intros; reflexivity].
    intros; exact I. }
  apply wp_done in Hdie. destruct Hdie as (ghosts & r' & Hrun & _).
  exists ghosts, r'. unfold bind, get. rewrite Hp, Hd.
  fold (@bind (list Pokemon.t) (list nat * list Pokemon.t)).
  unfold bind. rewrite Hrun. reflexivity.
Qed.

(** C10: evolution writes only the species, the age (reset to 0), the
    maximal age (read from the table of lifespans) and, when it still equals
    the old species, the name; every other field of every creature is
    unchanged, among them a scheduled hour of death.  So the death check
    answers for the evolved creature as it did before, and at an hour at
    which the death is due the creature's step removes it. *)
Theorem C10_evolution_keeps_scheduled_death
        (P : Platform) (K : Constants) (pokemonId : string) (gs : GameState.t)
        (i : nat) (p : Pokemon.t) :
  GameState.pokemons gs !! i = Some p ->
  exists q,
    GameState.pokemons (handleEvolvePokemon P K pokemonId gs) !! i = Some q
    /\ sameButSpecies p q
    /\ (q = p \/ exists target,
                   POKEMON_EVOLUTIONS K (Pokemon.kind p) = Some target
                   /\ evolvedInto K target p q)
    /\ (forall hour, deathDue hour q = deathDue hour p)
    /\ (forall hd hour, Pokemon.scheduledDeathHour p = Some hd -> hd <= hour ->
        forall P' dt acc r,
          GameState.pokemons (st r) !! i = Some q ->
          exists ghosts r',
            pokemonStep P' K dt hour acc i r = Done (acc.1, (acc.2 ++ ghosts)%list) r').
Proof.
  intros Hp.
  assert (Hq : exists q,
             GameState.pokemons (handleEvolvePokemon P K pokemonId gs) !! i = Some q
             /\ sameButSpecies p q
             /\ (q = p \/ exists target,
                            POKEMON_EVOLUTIONS K (Pokemon.kind p) = Some target
                            /\ evolvedInto K target p q)).
  { destruct (handleEvolvePokemon_pokemons P K pokemonId gs)
      as [-> | (j & pj & target & Hj & Ht & ->)].
    - exists p. split; [exact Hp|]. split; [apply sameButSpecies_refl | left; reflexivity].
    - destruct (decide (j = i)) as [->|Hne].
      + assert (pj = p) by congruence. subst pj.
        exists (evolve K target p). split.
        * rewrite list_lookup_alter_eq, Hp. reflexivity.
        * destruct (evolve_spec K target p) as [Hs He].
          split; [exact Hs|]. right. exists target. split; assumption.
      + exists p. split.
        * rewrite list_lookup_alter_ne by exact Hne. exact Hp.
        * split; [apply sameButSpecies_refl | left; reflexivity]. }
  destruct Hq as (q & Hlook & Hsame & Hev).
  exists q. split; [exact Hlook|]. split; [exact Hsame|]. split; [exact Hev|].
  assert (Hdd : forall hour, deathDue hour q = deathDue hour p).
  { intros hour. unfold deathDue. rewrite (sbs_scheduledDeathHour _ _ Hsame). reflexivity. }
  split; [exact Hdd|].
  intros hd hour Hsched Hle P' dt acc r Hr.
  apply (pokemonStep_death P' K dt hour acc i r q Hr).
  rewrite Hdd. unfold deathDue. rewrite Hsched. apply geb_ge. exact Hle.
Qed.

(** A chick whose death is scheduled for noon. *)
Definition doomed : Pokemon.t :=
  Pokemon.set_scheduledDeathHour (Some 12)
    (Sample.creature "p1" "Torchic" 310 310 (Some "bld_coop")).

Lemma C10_evolution_keeps_scheduled_death_witness :
  exists q,
    GameState.pokemons
      (handleEvolvePokemon (Sample.platform [] 10 "2024-1-1") Sample.constants "p1"
         (GameState.set_pokemons [doomed] Sample.state)) !! 0%nat = Some q
    /\ sameButSpecies doomed q
    /\ deathDue 12 q = true.
Proof.
  destruct (C10_evolution_keeps_scheduled_death
              (Sample.platform [] 10 "2024-1-1") Sample.constants "p1"
              (GameState.set_pokemons [doomed] Sample.state) 0%nat doomed eq_refl)
    as (q & Hq & Hsame & _ & Hdd & _).
  exists q. split; [exact Hq|]. split; [exact Hsame|]. rewrite Hdd. reflexivity.
Defined.

(** ** Save/load: round trip *)

(** A resource after a reload: every field as saved, and the growth state of
    a wild plant that had none set to [bush]. *)
Record reloadedResource (r r' : Resource.t) : Prop := mkReloadedResource {
  rr_id : Resource.id r' = Resource.id r;
  rr_type : Resource.type r' = Resource.type r;
  rr_x : Resource.x r' = Resource.x r;
  rr_y : Resource.y r' = Resource.y r;
  rr_size : Resource.size r' = Resource.size r;
  rr_shapeVariant : Resource.shapeVariant r' = Resource.shapeVariant r;
  rr_sizeVariant : Resource.sizeVariant r' = Resource.sizeVariant r;
  rr_spawnDay : Resource.spawnDay r' = Resource.spawnDay r;
  rr_state : forall s, Resource.state r = Some s -> Resource.state r' = Some s;
  rr_state_default :
    Resource.state r = None ->
    Resource.state r' = if String.eqb (Resource.type r) "wild_plant"
                        then Some bush else None
}.

(** A creature after a reload: every field as saved but [isNew], which is
    [false]; a species counter that was absent is the one of the
    constructor. *)
Record reloadedPokemon (p q : Pokemon.t) : Prop := mkReloadedPokemon {
  rp_id : Pokemon.id q = Pokemon.id p;
  rp_name : Pokemon.name q = Pokemon.name p;
  rp_kind : Pokemon.kind q = Pokemon.kind p;
  rp_x : Pokemon.x q = Pokemon.x p;
  rp_y : Pokemon.y q = Pokemon.y p;
  rp_isShiny : Pokemon.isShiny q = Pokemon.isShiny p;
  rp_gender : Pokemon.gender q = Pokemon.gender p;
  rp_age : Pokemon.age q = Pokemon.age p;
  rp_maxAge : Pokemon.maxAge q = Pokemon.maxAge p;
  rp_homeBuildingId : Pokemon.homeBuildingId q = Pokemon.homeBuildingId p;
  rp_cooldown : Pokemon.cooldown q = Pokemon.cooldown p;
  rp_target : Pokemon.target q = Pokemon.target p;
  rp_aiState : Pokemon.aiState q = Pokemon.aiState p;
  rp_moveSpeed : Pokemon.moveSpeed q = Pokemon.moveSpeed p;
  rp_isSleeping : Pokemon.isSleeping q = Pokemon.isSleeping p;
  rp_Poder : Pokemon.Poder q = Pokemon.Poder p;
  rp_teleportState : Pokemon.teleportState q = Pokemon.teleportState p;
  rp_teleportTimer : Pokemon.teleportTimer q = Pokemon.teleportTimer p;
  rp_actionTimer : Pokemon.actionTimer q = Pokemon.actionTimer p;
  rp_isImmortal : Pokemon.isImmortal q = Pokemon.isImmortal p;
  rp_scheduledDeathHour : Pokemon.scheduledDeathHour q = Pokemon.scheduledDeathHour p;
  rp_happiness : Pokemon.happiness q = Pokemon.happiness p;
  rp_happinessModifiers : Pokemon.happinessModifiers q = Pokemon.happinessModifiers p;
  rp_torchicsCured : forall v, Pokemon.torchicsCured p = Some v ->
                               Pokemon.torchicsCured q = Some v;
  rp_torchicsCured_default :
    Pokemon.torchicsCured p = None ->
    Pokemon.torchicsCured q
    = if JS.includes ["Happiny"; "Chansey"; "Blissey"] (Pokemon.kind p)
      then Some 0 else None;
  rp_applesHarvested : forall v, Pokemon.applesHarvested p = Some v ->
                                 Pokemon.applesHarvested q = Some v;
  rp_applesHarvested_default :
    Pokemon.applesHarvested p = None ->
    Pokemon.applesHarvested q
    = if JS.includes ["Mankey"; "Primeape"; "Aipom"; "Ambipom"] (Pokemon.kind p)
      then Some 0 else None;
  rp_isNew : Pokemon.isNew q = false
}.

Lemma rehydrateResource_spec (r : Resource.t) : reloadedResource r (rehydrateResource r).
Proof.
  unfold rehydrateResource.
  destruct (Resource.state r) as [s|] eqn:Hs.
  - constructor; try reflexivity; intros; congruence.
  - destruct (String.eqb (Resource.type r) "wild_plant") eqn:Ht;
      constructor; simpl; try reflexivity; intros; try congruence;
      rewrite Ht; congruence.
Qed.

Lemma rehydratePokemon_spec (p : Pokemon.t) : reloadedPokemon p (rehydratePokemon p).
Proof.
  unfold rehydratePokemon.
  constructor; simpl; try reflexivity.
  - intros v ->. reflexivity.
  - intros ->. reflexivity.
  - intros v ->. reflexivity.
  - intros ->. reflexivity.
Qed.

Lemma Forall2_map_spec {A} (R : A -> A -> Prop) (f : A -> A) (l : list A) :
  (forall a, R a (f a)) -> Forall2 R l (map f l).
Proof. intros H. induction l; simpl; constructor; auto. Qed.

(** With zero elapsed time there is no offline progress. *)
Lemma offlineProgress_zero (Pload : Platform) (K : Constants) (snap : GameState.t) :
  GameState.lastUpdateTimestamp snap = dateNow Pload ->
  offlineProgress Pload K snap = snap.
Proof.
  intros Hts. unfold offlineProgress.
  assert (Hz : JS.gtb (offlineSeconds Pload snap) 5 = false).
  { apply gtb_le. unfold offlineSeconds. rewrite Hts.
    assert (E : JS.orElse (dateNow Pload) (dateNow Pload) = dateNow Pload)
      by (unfold JS.orElse; destruct (JS.truthy _); reflexivity).
    rewrite E. unfold JS.max.
    apply Q.max_lub; [discriminate|].
    setoid_replace ((dateNow Pload - dateNow Pload) / 1000) with 0 using relation Qeq.
    - discriminate.
    - unfold Qdiv. setoid_replace (dateNow Pload - dateNow Pload) with 0
        using relation Qeq by ring. ring. }
  rewrite Hz. reflexivity.
Qed.

(** A chick that has just arrived: its [isNew] flag is still set. *)
Definition newcomer : Pokemon.t :=
  Pokemon.set_isNew true (Sample.creature "p1" "Torchic" 310 310 (Some "bld_coop")).

(** C7, as stated, fails: a creature saved with [isNew = true] comes back
    with [isNew = false]. *)
Lemma C7_round_trip_isNew_counterexample :
  ~ (forall (Psave Pload : Platform) (K : Constants) (fresh gs : GameState.t),
        dateNow Pload = dateNow Psave ->
        GameState.pokemons (rehydrateGameState Pload K fresh (saveGame Psave gs).2)
        = GameState.pokemons gs).
Proof.
  intros H.
  specialize (H (Sample.platform [] 10 "2024-1-1") (Sample.platform [] 10 "2024-1-1")
                Sample.constants Sample.state
                (GameState.set_pokemons [newcomer] Sample.state) eq_refl).
  vm_compute in H. discriminate H.
Qed.

(** C7, amended: serializing the game state and rehydrating it with zero
    elapsed wall-clock time yields a state whose Player, World (dimensions,
    Buildings, special and fertile zones, decorations) and CropPlots equal
    the originals, whose Resources and Creatures are the originals in the same
    order with the same ids and the same values for every field, except that
    the [isNew] flag of every creature is [false], and that a field which was
    absent and which the constructor sets (the state [bush] of a wild plant,
    the counter [0] of the species that count cures or apples) has the value
    of the constructor. *)
Theorem C7_round_trip
        (Psave Pload : Platform) (K : Constants) (fresh gs : GameState.t) :
  dateNow Pload = dateNow Psave ->
  let gs' := rehydrateGameState Pload K fresh (saveGame Psave gs).2 in
  GameState.player gs' = GameState.player gs
  /\ GameState.cropPlots gs' = GameState.cropPlots gs
  /\ FarmWorld.w (GameState.world gs') = FarmWorld.w (GameState.world gs)
  /\ FarmWorld.h (GameState.world gs') = FarmWorld.h (GameState.world gs)
  /\ FarmWorld.structs (GameState.world gs') = FarmWorld.structs (GameState.world gs)
  /\ FarmWorld.specials (GameState.world gs') = FarmWorld.specials (GameState.world gs)
  /\ FarmWorld.fertileZones (GameState.world gs')
     = FarmWorld.fertileZones (GameState.world gs)
  /\ FarmWorld.cosmeticElements (GameState.world gs')
     = FarmWorld.cosmeticElements (GameState.world gs)
  /\ Forall2 reloadedResource (FarmWorld.resources (GameState.world gs))
             (FarmWorld.resources (GameState.world gs'))
  /\ Forall2 reloadedPokemon (GameState.pokemons gs) (GameState.pokemons gs').
Proof.
  intros Hnow gs'. subst gs'. unfold rehydrateGameState, saveGame.
  rewrite offlineProgress_zero by (simpl; congruence).
  cbv zeta. unfold preloadPokemonSprites. simpl.
  rewrite !map_id.
  repeat split.
  - apply Forall2_map_spec, rehydrateResource_spec.
  - apply Forall2_map_spec, rehydratePokemon_spec.
Qed.

Lemma C7_round_trip_witness :
  let gs := GameState.set_pokemons [newcomer] Sample.state in
  let gs' := rehydrateGameState (Sample.platform [1 # 3] 11 "2024-1-1") Sample.constants
               Sample.state (saveGame (Sample.platform [] 10 "2024-1-1") gs).2 in
  GameState.player gs' = GameState.player gs
  /\ Forall2 reloadedPokemon (GameState.pokemons gs) (GameState.pokemons gs').
Proof.
  intros gs gs'.
  destruct (C7_round_trip (Sample.platform [] 10 "2024-1-1")
              (Sample.platform [1 # 3] 11 "2024-1-1") Sample.constants Sample.state gs
              eq_refl)
    as (Hp & _ & _ & _ & _ & _ & _ & _ & _ & Hc).
  split; [exact Hp | exact Hc].
Defined.

(** ** Well-being *)

(** A coop with an awake chick and an awake snake, in clear weather. *)
Definition henhouse : GameState.t :=
  GameState.set_pokemons
    [Sample.creature "p1" "Torchic" 310 310 (Some "bld_coop");
     Sample.creature "p2" "Ekans" 320 320 (Some "bld_coop")] Sample.state.

Definition inRange (p : Pokemon.t) : Prop :=
  0 <= Pokemon.happiness p /\ Pokemon.happiness p <= 100.

Lemma dailyMood_spec (c : Conditions) (p : Pokemon.t) :
  Pokemon.happiness (dailyMood c p)
  = clamp (totalHappiness (Pokemon.happinessModifiers (dailyMood c p))) 0 100
  /\ inRange (dailyMood c p).
Proof.
  unfold dailyMood, inRange. simpl. split; [reflexivity|].
  apply clamp_range. discriminate.
Qed.

Lemma Forall_vitals (l1 l2 : list Pokemon.t) :
  map vitals l1 = map vitals l2 -> Forall inRange l2 -> Forall inRange l1.
Proof.
  revert l2. induction l1 as [|p l1 IH]; intros [|q l2]; simpl; try discriminate.
  - constructor.
  - intros [= Hk Hh Hm] Hall. inversion Hall as [|? ? Hq Hl2]; subst.
    constructor; [|eapply IH; eassumption].
    unfold inRange in *. rewrite Hh. exact Hq.
Qed.

(** The part of C6 that holds: after the daily well-being pass the happiness
    of every creature lies in [[0, 100]]. *)
Lemma happiness_in_range (P : Platform) (K : Constants) (r : Run) :
  snakesHaveAbilities K ->
  wp (updatePokemonHappiness P K)
     (fun _ r' => Forall inRange (GameState.pokemons (st r'))) r.
Proof.
  intros HK. unfold updatePokemonHappiness.
  apply wp_bind, wp_get. cbv zeta.
  unfold setPokemons at 1 2.
  apply wp_bind, wp_modify, wp_bind, wp_modify, wp_bind, wp_get.
  match goal with |- wp _ _ ?r => set (r2 := r) end.
  assert (H2 : Forall inRange (GameState.pokemons (st r2))).
  { unfold r2. simpl. apply Forall_forall. intros p Hin.
    apply list_elem_of_In, in_map_iff in Hin. destruct Hin as (q & <- & _).
    apply dailyMood_spec. }
  eapply wp_mono;
    [|apply (wp_bites P K (fun _ => tt)); [intros; reflexivity | exact HK | reflexivity]].
  intros u r' [_ Hv]. eapply Forall_vitals; eassumption.
Qed.

(** C6: the claim states the intended rule, which the code misses for the
    bite of the post-pass.  With [Math.random()] returning 0 the snake bites
    the chick: after the pass the modifier map of the chick holds the entries
    -5 (pest stress) and -20 (bite), whose sum with 50 is 25, while its
    happiness is 45.  On the next day the bite entry, which has one day left,
    is dropped before the sum is taken, so it never counts. *)
Theorem C6_bite_not_counted :
  exists r chick,
    updatePokemonHappiness (Sample.platform [0] 10 "2024-1-2") Sample.constants
      (mkRun henhouse 0) = Done tt r
    /\ GameState.pokemons (st r) !! 0%nat = Some chick
    /\ Pokemon.happinessModifiers chick
       = {[ "Estresse de Praga" := Flat (-5); "Picada de Ekans" := Decaying (-20) 1 ]}
    /\ clamp (totalHappiness (Pokemon.happinessModifiers chick)) 0 100 = 25
    /\ Pokemon.happiness chick = 45
    /\ exists r' chick',
         updatePokemonHappiness (Sample.platform [9 # 10] 10 "2024-1-3") Sample.constants
           (mkRun (st r) 0) = Done tt r'
         /\ GameState.pokemons (st r') !! 0%nat = Some chick'
         /\ Pokemon.happinessModifiers chick' = {[ "Estresse de Praga" := Flat (-5) ]}
         /\ Pokemon.happiness chick' = 45.
Proof.
  eexists. eexists. split; [vm_compute; reflexivity|].
  split; [reflexivity|]. split; [vm_compute; reflexivity|].
  split; [vm_compute; reflexivity|]. split; [reflexivity|].
  eexists. eexists. split; [vm_compute; reflexivity|].
  split; [reflexivity|]. split; vm_compute; reflexivity.
Qed.

(** ** Respawn cap *)

Definition treeCount (gs : GameState.t) : nat :=
  countType isTreeType (FarmWorld.resources (GameState.world gs)).

Definition isTreeTicket (t : Ticket) : bool := isTreeType (tk_type t).

(** The ticket re-armed with the retry delay. *)
Definition rearmed (t : Ticket) : Ticket := mkTicket (tk_type t) 10.

Lemma tree_not_rock (type : string) :
  isTreeType type = true ->
  String.eqb type "rock" = false /\ String.eqb type "wild_plant" = false
  /\ JS.truthyS type = true.
Proof.
  intros H. repeat split.
  - destruct (String.eqb_spec type "rock") as [->|]; [discriminate H | reflexivity].
  - destruct (String.eqb_spec type "wild_plant") as [->|]; [discriminate H | reflexivity].
  - apply truthyS_true. intros ->. discriminate H.
Qed.

Lemma nontree_not_upgradable (type : string) :
  isTreeType type = false ->
  String.eqb type "oak_tree" || String.eqb type "pine_tree" = false.
Proof.
  intros H. apply orb_false_iff. split.
  - destruct (String.eqb_spec type "oak_tree") as [->|]; [discriminate H | reflexivity].
  - destruct (String.eqb_spec type "pine_tree") as [->|]; [discriminate H | reflexivity].
Qed.

Lemma countType_app (f : string -> bool) (l : list Resource.t) (r : Resource.t) :
  countType f (l ++ [r]) = (countType f l + (if f (Resource.type r) then 1 else 0))%nat.
Proof.
  unfold countType. rewrite List.filter_app, length_app. simpl.
  destruct (f (Resource.type r)); reflexivity.
Qed.

Section RespawnCap.

Variable P : Platform.
Variable K : Constants.

(** A pass that only draws random numbers leaves the game state as it is. *)
Lemma wp_newResource (type : string) (x y : Q) (d : option Q)
      (post : Resource.t -> Run -> Prop) (r : Run) :
  (forall res c, Resource.type res = type -> post res (mkRun (st r) c)) ->
  wp (newResource P type x y d) post r.
Proof.
  intros H. unfold newResource, rint.
  repeat first [apply wp_bind | apply wp_rand | apply wp_ret].
  apply H. reflexivity.
Qed.

Lemma wp_spotLoop (fuel attempts : nat) (w : FarmWorld.t)
      (post : Q * Q * nat -> Run -> Prop) (r : Run) :
  (forall res c, post res (mkRun (st r) c)) ->
  wp (spotLoop P fuel attempts w) post r.
Proof.
  revert attempts r. induction fuel as [|fuel IH]; intros attempts r H;
    cbn [spotLoop]; unfold rint;
    apply wp_bind, wp_bind, wp_rand, wp_ret, wp_bind, wp_bind, wp_rand, wp_ret;
    cbv zeta.
  - apply wp_ret, H.
  - destruct (_ && _); [apply IH; intros; apply H | apply wp_ret, H].
Qed.

(** The spawn for a ticket that is not a tree adds no tree and leaves the
    queue alone. *)
Lemma spawnFor_nontree (item : Ticket) (r : Run) :
  isTreeTicket item = false ->
  wp (spawnFor P K item)
     (fun _ r' => treeCount (st r') = treeCount (st r)
                  /\ GameState.respawnQueue (st r') = GameState.respawnQueue (st r)) r.
Proof.
  intros Hnt. unfold isTreeTicket in Hnt. unfold spawnFor.
  apply wp_bind, wp_get. cbv zeta. rewrite Hnt. cbn [andb].
  apply wp_bind, wp_ret, wp_bind, wp_ret, wp_bind, wp_bind.
  apply wp_spotLoop. intros res c. apply wp_ret.
  destruct (res.2 <? 100)%nat; [|apply wp_ret; split; reflexivity].
  rewrite (nontree_not_upgradable _ Hnt). cbn [andb].
  apply wp_bind, wp_ret.
  destruct (JS.truthyS (tk_type item)); [|apply wp_ret; split; reflexivity].
  apply wp_bind, wp_newResource. intros newRes c' Hty.
  apply wp_bind. unfold pushResource, setWorld. apply wp_modify.
  rewrite Hnt. unfold when. apply wp_ret. cbn [st]. split; [|reflexivity].
  unfold treeCount. cbn [GameState.world GameState.set_world FarmWorld.resources
                         FarmWorld.set_resources].
  rewrite countType_app, Hty, Hnt. lia.
Qed.

(** One expired ticket, when the running tree count has reached the cap. *)
Lemma respawnOne_capped (counts : nat * nat * nat) (item : Ticket) (r : Run) :
  JS.ltb (natQ counts.1.1) (world_maxTrees K) = false ->
  wp (respawnOne P K counts item)
     (fun counts' r' =>
        counts'.1.1 = counts.1.1
        /\ treeCount (st r') = treeCount (st r)
        /\ exists extra,
             GameState.respawnQueue (st r') = (GameState.respawnQueue (st r) ++ extra)%list
             /\ List.filter isTreeTicket extra
                = map rearmed (List.filter isTreeTicket [item])) r.
Proof.
  intros Hcap. destruct counts as [[tc rc] pc]. simpl in Hcap.
  unfold respawnOne. rewrite Hcap, andb_false_r.
  assert (Hpush : wp (pushTicket (mkTicket (tk_type item) 10) ;;; ret (tc, rc, pc))
                     (fun counts' r' =>
                        counts'.1.1 = tc
                        /\ treeCount (st r') = treeCount (st r)
                        /\ exists extra,
                             GameState.respawnQueue (st r')
                             = (GameState.respawnQueue (st r) ++ extra)%list
                             /\ List.filter isTreeTicket extra
                                = map rearmed (List.filter isTreeTicket [item])) r).
  { apply wp_bind. unfold pushTicket. apply wp_modify, wp_ret. simpl.
    split; [reflexivity|]. split; [reflexivity|].
    exists [rearmed item]. split; [reflexivity|].
    unfold isTreeTicket, rearmed. simpl.
    destruct (isTreeType (tk_type item)); reflexivity. }
  destruct (isTreeTicket item) eqn:Htree.
  - unfold isTreeTicket in Htree.
    destruct (tree_not_rock _ Htree) as (-> & -> & _). simpl. exact Hpush.
  - assert (Hspawn : forall counts' : nat * nat * nat,
               counts'.1.1 = tc ->
               wp (spawnFor P K item ;;; ret counts')
                  (fun counts' r' =>
                     counts'.1.1 = tc
                     /\ treeCount (st r') = treeCount (st r)
                     /\ exists extra,
                          GameState.respawnQueue (st r')
                          = (GameState.respawnQueue (st r) ++ extra)%list
                          /\ List.filter isTreeTicket extra
                             = map rearmed (List.filter isTreeTicket [item])) r).
    { intros counts' Hc. apply wp_bind.
      eapply wp_mono; [|apply spawnFor_nontree; exact Htree].
      intros u r' [Ht Hq]. apply wp_ret.
      split; [exact Hc|]. split; [exact Ht|].
      exists []. split; [rewrite Hq, app_nil_r; reflexivity|].
      simpl. rewrite Htree. reflexivity. }
    destruct (_ && _); [apply Hspawn; reflexivity|].
    destruct (_ && _); [apply Hspawn; reflexivity|].
    exact Hpush.
Qed.

Lemma respawn_loop_capped (items : list Ticket) :
  forall (counts : nat * nat * nat) (r : Run),
    JS.ltb (natQ counts.1.1) (world_maxTrees K) = false ->
    wp (foldM (respawnOne P K) items counts)
       (fun _ r' =>
          treeCount (st r') = treeCount (st r)
          /\ exists extra,
               GameState.respawnQueue (st r') = (GameState.respawnQueue (st r) ++ extra)%list
               /\ List.filter isTreeTicket extra
                  = map rearmed (List.filter isTreeTicket items)) r.
Proof.
  induction items as [|item items IH]; intros counts r Hcap; cbn [foldM].
  - apply wp_ret. split; [reflexivity|]. exists []. rewrite app_nil_r. split; reflexivity.
  - apply wp_bind. eapply wp_mono; [|apply respawnOne_capped; exact Hcap].
    intros counts' r1 (Hc & Ht & extra1 & Hq1 & Hf1).
    eapply wp_mono; [|apply IH; rewrite Hc; exact Hcap].
    intros counts'' r2 (Ht2 & extra2 & Hq2 & Hf2).
    split; [congruence|].
    exists (extra1 ++ extra2)%list. split.
    + rewrite Hq2, Hq1, app_assoc. reflexivity.
    + rewrite List.filter_app, Hf1, Hf2. cbn [List.filter].
      destruct (isTreeTicket item); reflexivity.
Qed.

(** The pass at the cap: what becomes of the state. *)
Lemma updateWorld_capped (dt : Q) (r : Run) :
  world_maxTrees K <= natQ (treeCount (st r)) ->
  let ticked := map (fun t => mkTicket (tk_type t) (timer t - dt))
                    (GameState.respawnQueue (st r)) in
  wp (updateWorld P K dt)
     (fun _ r' =>
        treeCount (st r') = treeCount (st r)
        /\ exists extra,
             GameState.respawnQueue (st r')
             = (List.filter (fun t => JS.gtb (timer t) 0) ticked ++ extra)%list
             /\ List.filter isTreeTicket extra
                = map rearmed
                    (List.filter isTreeTicket
                       (List.filter (fun t => negb (JS.gtb (timer t) 0)) ticked))) r.
Proof.
  intros Hcap ticked. unfold updateWorld.
  apply wp_bind, wp_get. cbv zeta. fold ticked.
  apply wp_bind, wp_modify.
  set (items := List.filter (fun t => negb (JS.gtb (timer t) 0)) ticked).
  destruct (0 <? length items)%nat eqn:Hlen.
  - apply wp_bind.
    eapply wp_mono; [|apply respawn_loop_capped; cbn [fst]; apply ltb_ge; exact Hcap].
    intros counts' r' (Ht & extra & Hq & Hf). apply wp_ret.
    split; [exact Ht|]. exists extra. split; [exact Hq | exact Hf].
  - apply wp_ret. split; [reflexivity|]. exists []. split.
    + cbn [st GameState.respawnQueue GameState.set_respawnQueue].
      rewrite app_nil_r. reflexivity.
    + apply Nat.ltb_ge in Hlen. destruct items; [reflexivity | simpl in Hlen; lia].
Qed.

End RespawnCap.

Lemma filter_split_length {A} (f g : A -> bool) (l : list A) :
  (length (List.filter f (List.filter g l))
   + length (List.filter f (List.filter (fun a => negb (g a)) l)))%nat
  = length (List.filter f l).
Proof.
  induction l as [|a l IH]; simpl; [reflexivity|].
  destruct (g a), (f a) eqn:Hf; simpl; rewrite ?Hf; simpl; lia.
Qed.

Lemma tick_tree_count (dt : Q) (l : list Ticket) :
  length (List.filter isTreeTicket
            (map (fun t => mkTicket (tk_type t) (timer t - dt)) l))
  = length (List.filter isTreeTicket l).
Proof.
  induction l as [|t l IH]; simpl; [reflexivity|].
  unfold isTreeTicket in *. cbn [tk_type].
  destruct (isTreeType (tk_type t)); simpl; lia.
Qed.

(** The respawn pass at the cap, with the calendar it leaves alone. *)
Lemma updateWorld_capped_queue (P : Platform) (K : Constants) (dt : Q) (r : Run) :
  world_maxTrees K <= natQ (treeCount (st r)) ->
  exists r',
    updateWorld P K dt r = Done tt r'
    /\ treeCount (st r') = treeCount (st r)
    /\ (forall t, In t (GameState.respawnQueue (st r)) ->
                  isTreeTicket t = true ->
                  timer t - dt <= 0 ->
                  In (mkTicket (tk_type t) 10) (GameState.respawnQueue (st r')))
    /\ calendar (st r') = calendar (st r).
Proof.
  intros Hcap.
  pose proof (updateWorld_capped P K dt r Hcap) as H. cbv zeta in H.
  pose proof (keeps_updateWorld P K calendar) as Hk.
  assert (Hc : wp (updateWorld P K dt)
                  (fun _ r' => calendar (st r') = calendar (st r)) r)
    by (apply Hk; intros; reflexivity).
  unfold wp in H, Hc.
  destruct (updateWorld P K dt r) as [[] r'|]; [|contradiction].
  destruct H as (Ht & extra & Hq & Hf).
  exists r'. split; [reflexivity|]. split; [exact Ht|]. split; [|exact Hc].
  intros t Hin Htree Hexp. rewrite Hq. apply in_or_app. right.
  assert (Hin' : In (rearmed (mkTicket (tk_type t) (timer t - dt)))
                    (List.filter isTreeTicket extra)).
  { rewrite Hf. apply in_map. apply filter_In. split; [|exact Htree].
    apply filter_In. split.
    - apply in_map_iff. exists t. split; [reflexivity | exact Hin].
    - cbn [timer]. apply negb_true_iff, gtb_le. exact Hexp. }
  apply filter_In in Hin'. exact (proj1 Hin').
Qed.

(** The same at the entry point, on a farm without creatures and on an
    unchanged date: the call completes, the number of trees is unchanged and
    the expired tree tickets are back in the queue. *)
Lemma advance_respawn_cap_empty_farm
      (P : Platform) (K : Constants) (gs : GameState.t) (dt : Q) :
  GameState.pokemons gs = [] ->
  gameDateString P (GameState.dayChangeHour gs) = GameState.lastProductionDate gs ->
  world_maxTrees K <= natQ (treeCount gs) ->
  exists r,
    advance P K gs dt = Done false r
    /\ treeCount (st r) = treeCount gs
    /\ forall t, In t (GameState.respawnQueue gs) ->
                 isTreeTicket t = true ->
                 timer t - dt <= 0 ->
                 In (mkTicket (tk_type t) 10) (GameState.respawnQueue (st r)).
Proof.
  intros Hempty Hdate Hcap.
  set (post := fun (b : bool) (r : Run) =>
                 b = false
                 /\ treeCount (st r) = treeCount gs
                 /\ forall t, In t (GameState.respawnQueue gs) ->
                              isTreeTicket t = true ->
                              timer t - dt <= 0 ->
                              In (mkTicket (tk_type t) 10) (GameState.respawnQueue (st r))).
  assert (H : wp (updateGame P K dt) post (mkRun gs 0)).
  { unfold updateGame.
    apply wp_bind, wp_modify. unfold setPlayer at 1. apply wp_bind, wp_modify.
    unfold updatePassiveIncome. apply wp_bind, wp_bind, wp_get. cbv zeta.
    cbn [st GameState.pokemons GameState.set_player GameState.set_gameTime].
    rewrite Hempty. cbn [forEach]. apply wp_ret.
    unfold updatePokemons. apply wp_bind, wp_bind, wp_get. cbv zeta.
    cbn [st GameState.pokemons GameState.set_player GameState.set_gameTime].
    rewrite Hempty. cbn [length seq foldM]. apply wp_bind, wp_ret.
    unfold setPokemons. apply wp_modify.
    match goal with |- wp _ _ ?r => set (r1 := r) end.
    assert (Ht1 : treeCount (st r1) = treeCount gs) by reflexivity.
    assert (Hq1 : GameState.respawnQueue (st r1) = GameState.respawnQueue gs) by reflexivity.
    assert (Hc1 : calendar (st r1) = calendar gs) by reflexivity.
    destruct (updateWorld_capped_queue P K dt r1) as (r2 & Hrun & Ht2 & Hq2 & Hc2).
    { rewrite Ht1. exact Hcap. }
    apply wp_bind. unfold wp at 1. rewrite Hrun.
    apply wp_bind, wp_get. cbv zeta.
    assert (Hcal : calendar (st r2) = calendar gs) by congruence.
    unfold calendar in Hcal. injection Hcal as Hd Hl Hh.
    rewrite Hh, Hl, Hdate, String.eqb_refl. cbn [negb].
    apply wp_ret. split; [reflexivity|]. split; [congruence|].
    intros t Hin Htree Hexp. apply Hq2; [rewrite Hq1; exact Hin | exact Htree | exact Hexp]. }
  apply wp_done in H. destruct H as (b & r & Hrun & -> & Ht & Hq).
  exists r. split; [exact Hrun|]. split; assumption.
Qed.

(** A farm at the cap of two trees, one of them an apple tree, with an
    awake creature whose ability is [apple_eater] and whose cooldown runs
    out within five seconds, and one tree ticket that is about to expire. *)
Definition orchardConstants : Constants :=
  {| energy_regenPerSec := energy_regenPerSec Sample.constants;
     world_maxTrees := world_maxTrees Sample.constants;
     world_maxRocks := world_maxRocks Sample.constants;
     world_maxWildPlants := world_maxWildPlants Sample.constants;
     resourceRespawn := resourceRespawn Sample.constants;
     POKEMON_IDS := POKEMON_IDS Sample.constants;
     POKEMON_CAPACITY := POKEMON_CAPACITY Sample.constants;
     POKEMON_ABILITIES :=
       fun kind => if String.eqb kind "Snorlax"
                   then Some (Sample.ability "apple_eater")
                   else Sample.abilities kind;
     POKEMON_LIFESPANS := POKEMON_LIFESPANS Sample.constants;
     POKEMON_EVOLUTIONS := POKEMON_EVOLUTIONS Sample.constants;
     NIGHT_COUNTERPARTS := NIGHT_COUNTERPARTS Sample.constants;
     DAY_COUNTERPARTS := DAY_COUNTERPARTS Sample.constants;
     ITEM_DISPLAY_NAMES := ITEM_DISPLAY_NAMES Sample.constants |}.

Definition orchard : GameState.t :=
  GameState.set_respawnQueue [mkTicket "oak_tree" 1]
    (GameState.set_pokemons [Sample.creature "p1" "Snorlax" 1000 1000 None]
       (GameState.set_world
          (FarmWorld.set_resources
             [Sample.tree "res_1" 100 100;
              Resource.mk "res_2" "apple_tree" 150 100 1 0 0 None None]
             Sample.world)
          Sample.state)).




(** ** Creature behaviour: a home that does not exist *)

(** The creature without its home id. *)
Definition unhome (p : Pokemon.t) : Pokemon.t := Pokemon.set_homeBuildingId None p.

(** No building of the world carries the id. *)
Definition noBuilding (hid : string) (gs : GameState.t) : Prop :=
  findHome (Some hid) (GameState.world gs) = None.

(** A step of a creature treats a dangling home id as no home: started with
    the creature [p] and with [unhome p] it completes with the same state and
    the same creature up to the home id, which it keeps. *)
Definition homeBlind (hid : string) (f : Pokemon.t -> M Pokemon.t) : Prop :=
  forall p r,
    Pokemon.homeBuildingId p = Some hid ->
    noBuilding hid (st r) ->
    wp (f p)
       (fun q r' => f (unhome p) r = Done (unhome q) r'
                    /\ Pokemon.homeBuildingId q = Some hid
                    /\ noBuilding hid (st r')) r.

Lemma homeBlind_pure (hid : string) (g : Pokemon.t -> Pokemon.t) :
  (forall p, g (unhome p) = unhome (g p)) ->
  (forall p, Pokemon.homeBuildingId (g p) = Pokemon.homeBuildingId p) ->
  homeBlind hid (fun p => ret (g p)).
Proof.
  intros Hc Hh p r Hp Hn. apply wp_ret. rewrite Hc, Hh. auto.
Qed.

Lemma homeBlind_seq (hid : string) (f g : Pokemon.t -> M Pokemon.t) :
  homeBlind hid f -> homeBlind hid g -> homeBlind hid (fun p => q <- f p ;; g q).
Proof.
  intros Hf Hg p r Hp Hn. apply wp_bind.
  eapply wp_mono; [|apply Hf; assumption].
  intros q r1 (E1 & Hq & Hn1).
  eapply wp_mono; [|apply Hg; assumption].
  intros q2 r2 (E2 & Hq2 & Hn2).
  split; [|split; assumption].
  unfold bind. rewrite E1. exact E2.
Qed.

Section Homeless.

Variable P : Platform.
Variable K : Constants.
Variable hid : string.

Lemma spotLoop_done (fuel attempts : nat) (w : FarmWorld.t) (r : Run) :
  exists res c, spotLoop P fuel attempts w r = Done res (mkRun (st r) c).
Proof.
  pose proof (wp_spotLoop P fuel attempts w
                (fun res r' => exists c, r' = mkRun (st r) c) r) as H.
  apply wp_done in H; [|intros; eexists; reflexivity].
  destruct H as (res & r' & Hrun & c & ->). eauto.
Qed.

Ltac norm :=
  cbn [unhome Pokemon.id Pokemon.name Pokemon.kind Pokemon.x Pokemon.y Pokemon.isShiny
       Pokemon.gender Pokemon.age Pokemon.maxAge Pokemon.homeBuildingId Pokemon.cooldown
       Pokemon.target Pokemon.aiState Pokemon.moveSpeed Pokemon.isSleeping Pokemon.Poder
       Pokemon.teleportState Pokemon.teleportTimer Pokemon.actionTimer Pokemon.isImmortal
       Pokemon.scheduledDeathHour Pokemon.torchicsCured Pokemon.applesHarvested
       Pokemon.happiness Pokemon.happinessModifiers Pokemon.isNew
       Pokemon.set_x Pokemon.set_y Pokemon.set_target Pokemon.set_aiState
       Pokemon.set_cooldown Pokemon.set_teleportState Pokemon.set_teleportTimer
       Pokemon.set_actionTimer Pokemon.set_applesHarvested Pokemon.set_homeBuildingId
       st cursor fst snd] in *.

Ltac leaf := norm; repeat split; solve [reflexivity | assumption].

Lemma teleportStep_homeBlind (dt : Q) : homeBlind hid (teleportStep P dt).
Proof.
  intros p r Hp Hn. unfold noBuilding in Hn.
  unfold wp, teleportStep, rint, bind, ret, rand, get. norm.
  destruct (negb (JS.includes abraFamily (Pokemon.kind p))); [leaf|].
  destruct (Pokemon.teleportState p) as [ts|] eqn:Hts; norm.
  - destruct (negb (JS.leb _ 0)); [leaf|].
    rewrite Hts. case_bool_decide; norm.
    + destruct (spotLoop_done 100 0 (GameState.world (st r))
                  (mkRun (st r) (S (cursor r)))) as (res & c & ->).
      destruct (res.2 <? 100)%nat; leaf.
    + rewrite Hp, Hn. leaf.
  - destruct (negb (JS.leb _ 0)); [leaf|].
    case_bool_decide; norm.
    + destruct (spotLoop_done 100 0 (GameState.world (st r))
                  (mkRun (st r) (S (S (cursor r))))) as (res & c & ->).
      destruct (res.2 <? 100)%nat; leaf.
    + rewrite Hp, Hn. leaf.
Qed.

Ltac crunch :=
  repeat (norm;
          match goal with
          | |- context [if ?b then _ else _] => destruct b eqn:?
          | |- context [match ?x with Some _ => _ | None => _ end] => destruct x eqn:?
          end);
  norm; try leaf.

Lemma abilityStep_homeBlind (dt : Q) : homeBlind hid (abilityStep P K dt).
Proof.
  intros p r Hp Hn. unfold noBuilding in Hn.
  unfold wp, abilityStep, runAbility, hasHomeId, findResource, findClosest, removeResourceAt,
    setWorld, setCropPlots, pushTicket, setPlayer, modify, rint, bind, ret, rand, get.
  norm. rewrite Hp.
  destruct (POKEMON_ABILITIES K (Pokemon.kind p)) as [ab|]; [|leaf].
  destruct (JS.leb _ 0 && _); [|leaf].
  destruct (String.eqb (ab_type ab) "apple_eater"); [crunch|].
  destruct (String.eqb (ab_type ab) "water_crop"); [crunch|].
  destruct (String.eqb (ab_type ab) "fertilize_crop"); [crunch|].
  destruct (String.eqb (ab_type ab) "harvest_apple_tree"); [crunch|].
  destruct (String.eqb (ab_type ab) "harvest_plant").
  { destruct (JS.findIndex _ _) as [i|] eqn:Hi; [|crunch].
    apply findIndex_lookup in Hi. destruct Hi as (plant & -> & _).
    unfold deref, ret. crunch. }
  destruct (String.eqb (ab_type ab) "cooldown_item"); [rewrite Hn|]; crunch.
Qed.

(** The searches for a point only draw random numbers. *)
Lemma riverPoint_done (w : FarmWorld.t) (r : Run) :
  exists res c, getRandomPointInRiver P w r = Done res (mkRun (st r) c).
Proof.
  pose proof (keeps_getRandomPointInRiver P (fun gs => gs) w r) as H.
  apply wp_done in H. destruct H as (res & [s c] & Hrun & Hst).
  simpl in Hst. subst s. eauto.
Qed.

Lemma patrolLoop_done (n : nat) (house : Building.t) (w : FarmWorld.t) (r : Run) :
  exists res c, patrolLoop P n house w r = Done res (mkRun (st r) c).
Proof.
  pose proof (keeps_patrolLoop P (fun gs => gs) n house w r) as H.
  apply wp_done in H. destruct H as (res & [s c] & Hrun & Hst).
  simpl in Hst. subst s. eauto.
Qed.

Lemma roamLoop_done (n : nat) (p : Pokemon.t) (fl : bool) (w : FarmWorld.t) (r : Run) :
  exists res c, roamLoop P n p fl w r = Done res (mkRun (st r) c).
Proof.
  pose proof (keeps_roamLoop P (fun gs => gs) n p fl w r) as H.
  apply wp_done in H. destruct H as (res & [s c] & Hrun & Hst).
  simpl in Hst. subst s. eauto.
Qed.

Lemma roamLoop_unhome (n : nat) (p : Pokemon.t) (fl : bool) (w : FarmWorld.t) (r : Run) :
  roamLoop P n (unhome p) fl w r = roamLoop P n p fl w r.
Proof.
  revert r. induction n as [|n IH]; intros r; cbn [roamLoop]; [reflexivity|].
  unfold rint, bind, ret, rand. norm.
  destruct (negb _); [reflexivity | apply IH].
Qed.

Lemma confineStep_homeBlind (w : FarmWorld.t) : homeBlind hid (confineStep P w None).
Proof.
  intros p r Hp Hn. unfold noBuilding in Hn.
  unfold wp, confineStep, riverSnap, stopAt, bind, ret. norm.
  destruct (JS.includes flyingPokemonKinds (Pokemon.kind p));
    destruct (JS.includes riverPokemonKinds (Pokemon.kind p)); norm;
    try (destruct (JS.find _ _) as [river|]; [|leaf];
         destruct (negb _); [|leaf];
         destruct (riverPoint_done w r) as (res & c & ->);
         destruct res; leaf);
    crunch.
Qed.

Lemma wanderStep_homeBlind (w : FarmWorld.t) : homeBlind hid (wanderStep P w None).
Proof.
  intros p r Hp Hn. unfold noBuilding in Hn.
  unfold wp, wanderStep, pickTarget, bind, ret, rand. norm.
  case_bool_decide; [|leaf].
  destruct (JS.ltb _ _); [|leaf].
  destruct (JS.includes housePatrolKinds (Pokemon.kind p)).
  { destruct (JS.find _ _) as [house|]; [|leaf].
    destruct (patrolLoop_done 10 house w (mkRun (st r) (S (cursor r))))
      as (res & c & ->).
    destruct res; leaf. }
  assert (E : (if JS.includes flyingPokemonKinds (Pokemon.kind p)
               then @None Building.t else None) = None)
    by (destruct (JS.includes _ _); reflexivity).
  rewrite E.
  destruct (JS.includes riverPokemonKinds (Pokemon.kind p)).
  - destruct (riverPoint_done w (mkRun (st r) (S (cursor r)))) as (res & c & ->).
    destruct res; leaf.
  - rewrite roamLoop_unhome.
    destruct (roamLoop_done 10 p (JS.includes flyingPokemonKinds (Pokemon.kind p)) w
                (mkRun (st r) (S (cursor r)))) as (res & c & ->).
    destruct res; leaf.
Qed.

Lemma actionTimerStep_unhome (dt : Q) (p : Pokemon.t) :
  actionTimerStep dt (unhome p) = unhome (actionTimerStep dt p)
  /\ Pokemon.homeBuildingId (actionTimerStep dt p) = Pokemon.homeBuildingId p.
Proof. unfold actionTimerStep. crunch. Qed.

Lemma moveStep_unhome (dt : Q) (p : Pokemon.t) :
  moveStep P dt (unhome p) = unhome (moveStep P dt p)
  /\ Pokemon.homeBuildingId (moveStep P dt p) = Pokemon.homeBuildingId p.
Proof. unfold moveStep. crunch. Qed.

(** Confinement and wandering see no home. *)
Lemma resolveHome_dangling (p : Pokemon.t) (gs : GameState.t) :
  Pokemon.homeBuildingId p = Some hid ->
  noBuilding hid gs ->
  resolveHome p (GameState.world gs) = None
  /\ resolveHome (unhome p) (GameState.world gs) = None.
Proof.
  intros Hp Hn. unfold noBuilding in Hn. unfold resolveHome, hasHomeId. norm.
  rewrite Hp, Hn. split; [|reflexivity].
  destruct (JS.truthyS hid && _); reflexivity.
Qed.

Lemma behave_homeBlind (dt : Q) : homeBlind hid (behave P K dt).
Proof.
  intros p r Hp Hn.
  destruct (actionTimerStep_unhome dt p) as [C1 H1]. rewrite Hp in H1.
  destruct (wp_done _ _ _ (teleportStep_homeBlind dt _ r H1 Hn))
    as (p2 & r2 & E2 & E2' & H2 & Hn2).
  destruct (wp_done _ _ _ (abilityStep_homeBlind dt p2 r2 H2 Hn2))
    as (p3 & r3 & E3 & E3' & H3 & Hn3).
  destruct (moveStep_unhome dt p3) as [C4 H4]. rewrite H3 in H4.
  destruct (resolveHome_dangling _ (st r3) H4 Hn3) as [R4 R4'].
  destruct (wp_done _ _ _ (confineStep_homeBlind (GameState.world (st r3)) _ r3 H4 Hn3))
    as (p5 & r5 & E5 & E5' & H5 & Hn5).
  destruct (wp_done _ _ _ (wanderStep_homeBlind (GameState.world (st r3)) p5 r5 H5 Hn5))
    as (p6 & r6 & E6 & E6' & H6 & Hn6).
  unfold wp, behave, bind, get. cbv zeta.
  rewrite E2, E3, R4, E5, E6.
  rewrite C1, E2', E3', C4, R4', E5', E6'. auto.
Qed.

End Homeless.

(** Every step of the creature pass completes. *)
Lemma pokemonStep_total (P : Platform) (K : Constants) (dt hour : Q)
      (acc : list nat * list Pokemon.t) (i : nat) (r : Run) :
  exists acc' r', pokemonStep P K dt hour acc i r = Done acc' r'.
Proof.
  assert (H : wp (pokemonStep P K dt hour acc i) (fun _ _ => True) r).
  { eapply wp_mono; [|apply (keeps_pokemonStep P K (fun _ => tt)); intros; reflexivity].
    intros; exact I. }
  apply wp_done in H. destruct H as (acc' & r' & Hrun & _). eauto.
Qed.

Lemma noBuilding_intro (hid : string) (gs : GameState.t) :
  (forall s, In s (FarmWorld.structs (GameState.world gs)) -> Building.id s <> hid) ->
  noBuilding hid gs.
Proof.
  unfold noBuilding, findHome, JS.find.
  induction (FarmWorld.structs (GameState.world gs)) as [|s l IH]; intros H; simpl;
    [reflexivity|].
  destruct (String.eqb_spec (Building.id s) hid) as [E|E].
  - exfalso. exact (H s (or_introl eq_refl) E).
  - apply IH. intros s' Hin. apply H. right. exact Hin.
Qed.


(** A wanderer whose home has been destroyed. *)
Definition stray : Pokemon.t := Sample.creature "p7" "Diglett" 700 700 (Some "bld_gone").


(** ** The inventory *)

Lemma orElse_zero (v : Q) : JS.orElse v 0 == v.
Proof.
  unfold JS.orElse, JS.truthy.
  destruct (Qeq_bool v 0) eqn:E; simpl; [|reflexivity].
  apply Qeq_bool_iff in E. symmetry. exact E.
Qed.

Lemma invCount_default (inv : gmap string Q) (key : string) :
  invCount inv key == default 0 (inv !! key).
Proof.
  unfold invCount, JS.orElseO. destruct (inv !! key); simpl.
  - apply orElse_zero.
  - reflexivity.
Qed.

Lemma invCount_insert_eq (inv : gmap string Q) (key : string) (v : Q) :
  invCount (<[key := v]> inv) key == v.
Proof. rewrite invCount_default, lookup_insert_eq. reflexivity. Qed.

Lemma invCount_insert_ne (inv : gmap string Q) (key other : string) (v : Q) :
  key <> other -> invCount (<[key := v]> inv) other = invCount inv other.
Proof. intros H. unfold invCount. rewrite lookup_insert_ne by exact H. reflexivity. Qed.

Lemma invCount_delete_eq (inv : gmap string Q) (key : string) :
  invCount (delete key inv) key = 0.
Proof. unfold invCount. rewrite lookup_delete_eq. reflexivity. Qed.

Lemma invCount_delete_ne (inv : gmap string Q) (key other : string) :
  key <> other -> invCount (delete key inv) other = invCount inv other.
Proof. intros H. unfold invCount. rewrite lookup_delete_ne by exact H. reflexivity. Qed.

Lemma addItem_count (item : string) (count : Q) (p : Player.t) :
  invCount (Player.inventory (addItem item count p)) item
  == invCount (Player.inventory p) item + count.
Proof. unfold addItem. simpl. apply invCount_insert_eq. Qed.

Lemma addItem_other (item other : string) (count : Q) (p : Player.t) :
  item <> other ->
  Player.inventory (addItem item count p) !! other = Player.inventory p !! other.
Proof. intros H. unfold addItem. simpl. apply lookup_insert_ne. exact H. Qed.

(** The entry that a removal leaves: the count lowered, or no entry when
    nothing is left. *)
Definition lowered (inv : gmap string Q) (key : string) (left : Q) : gmap string Q :=
  if JS.leb left 0 then delete key (<[key := left]> inv) else <[key := left]> inv.

Lemma lowered_count (inv : gmap string Q) (key : string) (left : Q) :
  invCount (lowered inv key left) key == Qmax 0 left.
Proof.
  unfold lowered. destruct (JS.leb left 0) eqn:E.
  - rewrite invCount_delete_eq. apply leb_le in E.
    symmetry. apply Q.max_l. exact E.
  - rewrite invCount_insert_eq.
    assert (H : 0 <= left).
    { apply Qlt_le_weak. apply Qnot_le_lt. intros H. apply leb_le in H. congruence. }
    symmetry. apply Q.max_r. exact H.
Qed.

Lemma lowered_other (inv : gmap string Q) (key other : string) (left : Q) :
  key <> other -> lowered inv key left !! other = inv !! other.
Proof.
  intros H. unfold lowered. destruct (JS.leb left 0).
  - rewrite lookup_delete_ne, lookup_insert_ne by exact H. reflexivity.
  - rewrite lookup_insert_ne by exact H. reflexivity.
Qed.

Lemma lowered_positive (inv : gmap string Q) (key : string) (left v : Q) :
  lowered inv key left !! key = Some v -> 0 < v.
Proof.
  unfold lowered. destruct (JS.leb left 0) eqn:E.
  - rewrite lookup_delete_eq. discriminate.
  - rewrite lookup_insert_eq. intros [= <-].
    apply Qnot_le_lt. intros H. apply leb_le in H. congruence.
Qed.

Lemma removeItem_spec (item : string) (count : Q) (p : Player.t) :
  removeItem item count p
  = if JS.geb (invCount (Player.inventory p) item) count
    then (true,
          Player.set_inventory
            (lowered (Player.inventory p) item
               (default 0 (Player.inventory p !! item) - count)) p)
    else (false, p).
Proof. unfold removeItem, lowered. destruct (JS.geb _ _); reflexivity. Qed.

Lemma removeItem_count (item : string) (count : Q) (p : Player.t) :
  (removeItem item count p).1 = true ->
  invCount (Player.inventory (removeItem item count p).2) item
  == invCount (Player.inventory p) item - count.
Proof.
  rewrite removeItem_spec.
  destruct (JS.geb (invCount (Player.inventory p) item) count) eqn:E;
    [|discriminate]. intros _. simpl.
  rewrite lowered_count. apply geb_ge in E.
  rewrite <- invCount_default.
  apply Q.max_r. apply (Qplus_le_l _ _ count). ring_simplify. exact E.
Qed.

Lemma removeItem_other (item other : string) (count : Q) (p : Player.t) :
  item <> other ->
  Player.inventory (removeItem item count p).2 !! other
  = Player.inventory p !! other.
Proof.
  intros H. rewrite removeItem_spec.
  destruct (JS.geb _ _); simpl; [|reflexivity].
  apply lowered_other. exact H.
Qed.

Lemma invCount_insert_ne_lowered (inv : gmap string Q) (key other : string) (left : Q) :
  key <> other -> invCount (lowered inv key left) other = invCount inv other.
Proof. intros H. unfold invCount. rewrite lowered_other by exact H. reflexivity. Qed.

(** One step of [removeItems]. *)
Definition removeStep (p : Player.t) (kv : string * Q) : Player.t :=
  Player.set_inventory
    (lowered (Player.inventory p) kv.1 (invCount (Player.inventory p) kv.1 - kv.2)) p.

Lemma removeItems_fold (items : gmap string Q) (p : Player.t) :
  removeItems items p = fold_left removeStep (map_to_list items) p.
Proof. reflexivity. Qed.

Lemma removeSteps_other (l : list (string * Q)) (p : Player.t) (key : string) :
  ~ In key (map fst l) ->
  Player.inventory (fold_left removeStep l p) !! key = Player.inventory p !! key.
Proof.
  revert p. induction l as [|[k v] l IH]; intros p Hk; simpl; [reflexivity|].
  rewrite IH by (intros H; apply Hk; right; exact H).
  unfold removeStep. simpl. apply lowered_other.
  intros ->. apply Hk. left. reflexivity.
Qed.

Lemma removeSteps_key (l : list (string * Q)) (p : Player.t) (key : string) (v : Q) :
  List.NoDup (map fst l) -> In (key, v) l ->
  invCount (Player.inventory (fold_left removeStep l p)) key
  == Qmax 0 (invCount (Player.inventory p) key - v)
  /\ (forall c, Player.inventory (fold_left removeStep l p) !! key = Some c -> 0 < c).
Proof.
  revert p. induction l as [|[k w] l IH]; intros p Hnd Hin; [destruct Hin|].
  simpl in Hnd. inversion Hnd as [|? ? Hk Hnd']; subst.
  destruct Hin as [[= -> ->]|Hin].
  - simpl.
    assert (Hsame : Player.inventory (fold_left removeStep l (removeStep p (key, v))) !! key
                    = Player.inventory (removeStep p (key, v)) !! key)
      by (apply removeSteps_other; exact Hk).
    split.
    + unfold invCount at 1. rewrite Hsame. fold (invCount (Player.inventory (removeStep p (key, v))) key).
      unfold removeStep. simpl. apply lowered_count.
    + intros c. rewrite Hsame. unfold removeStep. simpl. apply lowered_positive.
  - simpl.
    assert (Hne : k <> key).
    { intros ->. apply Hk. apply in_map_iff. exists (key, v). split; [reflexivity | exact Hin]. }
    destruct (IH (removeStep p (k, w)) Hnd' Hin) as [H1 H2]. split; [|exact H2].
    rewrite H1. unfold removeStep at 1. simpl.
    rewrite (invCount_insert_ne_lowered (Player.inventory p) k key _ Hne). reflexivity.
Qed.

Lemma hasItems_covers (items : gmap string Q) (p : Player.t) (key : string) (v : Q) :
  hasItems items p = true -> items !! key = Some v ->
  v <= invCount (Player.inventory p) key.
Proof.
  unfold hasItems. rewrite forallb_forall. intros H Hk.
  assert (Hin : In (key, v) (map_to_list items)).
  { apply list_elem_of_In, elem_of_map_to_list. exact Hk. }
  specialize (H _ Hin). simpl in H. apply geb_ge in H.
  rewrite invCount_default. exact H.
Qed.

(** What [Player.removeItems] does to one key. *)
Lemma removeItems_key_spec (items : gmap string Q) (p : Player.t) (key : string) :
  match items !! key with
  | Some v =>
      invCount (Player.inventory (removeItems items p)) key
      == Qmax 0 (invCount (Player.inventory p) key - v)
      /\ (forall c, Player.inventory (removeItems items p) !! key = Some c -> 0 < c)
  | None =>
      Player.inventory (removeItems items p) !! key = Player.inventory p !! key
  end.
Proof.
  rewrite removeItems_fold.
  destruct (items !! key) as [v|] eqn:Hk.
  - apply removeSteps_key.
    + apply NoDup_ListNoDup, NoDup_fst_map_to_list.
    + apply list_elem_of_In, elem_of_map_to_list. exact Hk.
  - apply removeSteps_other. intros Hin.
    apply in_map_iff in Hin. destruct Hin as ([k v] & Hfst & Hin). simpl in Hfst. subst k.
    apply list_elem_of_In, elem_of_map_to_list in Hin. congruence.
Qed.

Lemma removeItems_exact (items : gmap string Q) (p : Player.t) (key : string) :
  hasItems items p = true ->
  invCount (Player.inventory (removeItems items p)) key
  == invCount (Player.inventory p) key - default 0 (items !! key).
Proof.
  intros Hhas. pose proof (removeItems_key_spec items p key) as H.
  destruct (items !! key) as [v|] eqn:Hk; simpl.
  - destruct H as [H _]. rewrite H.
    pose proof (hasItems_covers items p key v Hhas Hk) as Hc.
    apply Q.max_r. lra.
  - unfold invCount. rewrite H. lra.
Qed.

(** The inventory methods touch nothing but the inventory. *)
Lemma removeItems_only_inventory (items : gmap string Q) (p : Player.t) :
  removeItems items p = Player.set_inventory (Player.inventory (removeItems items p)) p.
Proof.
  rewrite removeItems_fold. generalize (map_to_list items). intros l.
  revert p. induction l as [|kv l IH]; intros p; simpl; [destruct p; reflexivity|].
  rewrite IH. reflexivity.
Qed.

Lemma addItems_only_inventory (items : gmap string Q) (p : Player.t) :
  addItems items p = Player.set_inventory (Player.inventory (addItems items p)) p.
Proof.
  unfold addItems. generalize (map_to_list items). intros l.
  revert p. induction l as [|kv l IH]; intros p; simpl; [destruct p; reflexivity|].
  rewrite IH. reflexivity.
Qed.

(** X1: [Player.removeItems] takes the requested amount of every requested item
    and never leaves an entry that is zero or negative: the count of a
    requested item becomes the larger of zero and what is left, an entry
    that remains is positive, and the other entries are untouched.  Nothing
    but the inventory of the player changes. *)
Theorem removeItems_floors_at_zero (items : gmap string Q) (p : Player.t) (key : string) :
  match items !! key with
  | Some v =>
      invCount (Player.inventory (removeItems items p)) key
      == Qmax 0 (invCount (Player.inventory p) key - v)
      /\ (forall c, Player.inventory (removeItems items p) !! key = Some c -> 0 < c)
  | None =>
      Player.inventory (removeItems items p) !! key = Player.inventory p !! key
  end
  /\ removeItems items p
     = Player.set_inventory (Player.inventory (removeItems items p)) p.
Proof.
  split.
  - exact (removeItems_key_spec items p key).
  - apply removeItems_only_inventory.
Qed.

(** One step of [addItems]. *)
Lemma addSteps_other (l : list (string * Q)) (p : Player.t) (key : string) :
  ~ In key (map fst l) ->
  Player.inventory (fold_left (fun p kv => addItem kv.1 kv.2 p) l p) !! key
  = Player.inventory p !! key.
Proof.
  revert p. induction l as [|[k v] l IH]; intros p Hk; simpl; [reflexivity|].
  rewrite IH by (intros H; apply Hk; right; exact H).
  apply addItem_other. intros ->. apply Hk. left. reflexivity.
Qed.

Lemma addSteps_key (l : list (string * Q)) (p : Player.t) (key : string) (v : Q) :
  List.NoDup (map fst l) -> In (key, v) l ->
  invCount (Player.inventory (fold_left (fun p kv => addItem kv.1 kv.2 p) l p)) key
  == invCount (Player.inventory p) key + v.
Proof.
  revert p. induction l as [|[k w] l IH]; intros p Hnd Hin; [destruct Hin|].
  simpl in Hnd. inversion Hnd as [|? ? Hk Hnd']; subst.
  destruct Hin as [[= -> ->]|Hin]; simpl.
  - unfold invCount at 1. rewrite addSteps_other by exact Hk.
    apply addItem_count.
  - assert (Hne : k <> key).
    { intros ->. apply Hk. apply in_map_iff. exists (key, v). split; [reflexivity | exact Hin]. }
    rewrite (IH _ Hnd' Hin). unfold invCount at 1.
    rewrite addItem_other by exact Hne. reflexivity.
Qed.

Lemma addItems_count (items : gmap string Q) (p : Player.t) (key : string) :
  invCount (Player.inventory (addItems items p)) key
  == invCount (Player.inventory p) key + default 0 (items !! key).
Proof.
  unfold addItems. destruct (items !! key) as [v|] eqn:Hk; simpl.
  - apply addSteps_key.
    + apply NoDup_ListNoDup, NoDup_fst_map_to_list.
    + apply list_elem_of_In, elem_of_map_to_list. exact Hk.
  - unfold invCount at 1. rewrite addSteps_other; [unfold invCount; lra|].
    intros Hin. apply in_map_iff in Hin. destruct Hin as ([k v] & Hfst & Hin).
    simpl in Hfst. subst k.
    apply list_elem_of_In, elem_of_map_to_list in Hin. congruence.
Qed.

(** Fields of the player that the inventory methods leave alone. *)
Definition purse (p : Player.t) : Q * Q * Q :=
  (Player.energy p, Player.maxEnergy p, Player.money p).

Lemma removeItems_purse (items : gmap string Q) (p : Player.t) :
  purse (removeItems items p) = purse p.
Proof.
  rewrite removeItems_fold. generalize (map_to_list items). intros l.
  revert p. induction l as [|kv l IH]; intros p; simpl; [reflexivity|].
  rewrite IH. reflexivity.
Qed.

Lemma addItems_purse (items : gmap string Q) (p : Player.t) :
  purse (addItems items p) = purse p.
Proof.
  unfold addItems. generalize (map_to_list items). intros l.
  revert p. induction l as [|kv l IH]; intros p; simpl; [reflexivity|].
  rewrite IH. reflexivity.
Qed.

(** [addItem] followed by [removeItem] of the same amount. *)
Lemma addItem_then_removeItem (item : string) (count : Q) (p : Player.t) :
  0 < count ->
  0 <= invCount (Player.inventory p) item ->
  let res := removeItem item count (addItem item count p) in
  res.1 = true
  /\ invCount (Player.inventory res.2) item == invCount (Player.inventory p) item
  /\ (forall other, other <> item ->
        Player.inventory res.2 !! other = Player.inventory p !! other)
  /\ purse res.2 = purse p.
Proof.
  intros Hc Hn res.
  assert (Hok : res.1 = true).
  { unfold res. rewrite removeItem_spec.
    assert (Hg : JS.geb (invCount (Player.inventory (addItem item count p)) item) count = true).
    { apply geb_ge. rewrite addItem_count. lra. }
    rewrite Hg. reflexivity. }
  split; [exact Hok|]. split; [|split].
  - unfold res in *. rewrite removeItem_count by exact Hok. rewrite addItem_count. lra.
  - intros other Hne. unfold res.
    rewrite removeItem_other by (intros E; apply Hne; symmetry; exact E).
    apply addItem_other. intros E; apply Hne; symmetry; exact E.
  - unfold res. rewrite removeItem_spec.
    destruct (JS.geb _ _); reflexivity.
Qed.

(** X2: An item that is added and then removed in the same amount leaves the
    count of every item as it was: [addItem] followed by [removeItem]
    succeeds whenever the count was not negative, and nothing but the
    inventory of the player is touched. *)
Theorem addItem_removeItem_round_trip (item : string) (count : Q) (p : Player.t) :
  0 < count ->
  0 <= invCount (Player.inventory p) item ->
  let res := removeItem item count (addItem item count p) in
  res.1 = true
  /\ invCount (Player.inventory res.2) item == invCount (Player.inventory p) item
  /\ (forall other, other <> item ->
        Player.inventory res.2 !! other = Player.inventory p !! other)
  /\ res.2 = Player.set_inventory (Player.inventory res.2) p.
Proof.
  intros Hc Hn res.
  destruct (addItem_then_removeItem item count p Hc Hn) as (H1 & H2 & H3 & _).
  split; [exact H1|]. split; [exact H2|]. split; [exact H3|].
  unfold res. rewrite removeItem_spec. destruct p.
  destruct (JS.geb _ _); reflexivity.
Qed.

Lemma addItem_removeItem_round_trip_witness :
  (removeItem "wood" 3 (addItem "wood" 3 Sample.player)).1 = true
  /\ invCount (Player.inventory (removeItem "wood" 3 (addItem "wood" 3 Sample.player)).2) "wood"
     == invCount (Player.inventory Sample.player) "wood".
Proof.
  destruct (addItem_removeItem_round_trip "wood" 3 Sample.player)
    as (H1 & H2 & _); [reflexivity | vm_compute; discriminate |].
  split; [exact H1 | exact H2].
Defined.

(** ** The market *)

(** [gs'] differs from [gs] at most in the player and in the income of the
    day. *)
Definition onlyPlayerAndIncome (gs gs' : GameState.t) : Prop :=
  gs' = GameState.set_dailyIncome (GameState.dailyIncome gs')
          (GameState.set_player (GameState.player gs') gs).


(** X3: A market transaction conserves the value held at the price of the trade:
    money plus the price times the count of the traded item is the same
    before and after a purchase or a sale, whether it goes through or is
    refused; no other item and nothing outside the player and the income
    ledger changes. *)
Theorem handleMarketTransaction_conserves_value
        (type : TransactionType) (item : string) (price quantity : Q)
        (gs : GameState.t) :
  0 < quantity ->
  let gs' := handleMarketTransaction type item price quantity gs in
  Player.money (GameState.player gs')
  + price * invCount (Player.inventory (GameState.player gs')) item
  == Player.money (GameState.player gs)
     + price * invCount (Player.inventory (GameState.player gs)) item
  /\ (forall other, other <> item ->
        Player.inventory (GameState.player gs') !! other
        = Player.inventory (GameState.player gs) !! other)
  /\ onlyPlayerAndIncome gs gs'.
Proof.
  intros Hq gs'. unfold gs', handleMarketTransaction, onlyPlayerAndIncome. destruct type.
  - destruct (JS.geb _ _); [|repeat split; destruct gs; reflexivity].
    cbn [GameState.player GameState.set_player]. split; [|split].
    + rewrite addItem_count. unfold addItem. simpl. lra.
    + intros other Hne. rewrite addItem_other by (intros E; apply Hne; symmetry; exact E).
      reflexivity.
    + reflexivity.
  - destruct (removeItem item quantity (GameState.player gs)).1 eqn:Hok;
      [|repeat split; destruct gs; reflexivity].
    cbn [GameState.player GameState.set_player GameState.set_dailyIncome
         Player.money Player.set_money Player.inventory].
    split; [|split].
    + rewrite removeItem_count by exact Hok.
      assert (Hm : Player.money (removeItem item quantity (GameState.player gs)).2
                   = Player.money (GameState.player gs)).
      { rewrite removeItem_spec. destruct (JS.geb _ _); reflexivity. }
      rewrite Hm. lra.
    + intros other Hne. apply removeItem_other. intros E; apply Hne; symmetry; exact E.
    + reflexivity.
Qed.

Lemma handleMarketTransaction_conserves_value_witness :
  Player.money (GameState.player (handleMarketTransaction sell "wood" 2 4 Sample.state))
  + 2 * invCount (Player.inventory
                    (GameState.player (handleMarketTransaction sell "wood" 2 4 Sample.state)))
                 "wood"
  == Player.money Sample.player + 2 * invCount (Player.inventory Sample.player) "wood".
Proof.
  destruct (handleMarketTransaction_conserves_value sell "wood" 2 4 Sample.state)
    as (H & _); [reflexivity | exact H].
Defined.

(** X4: A purchase that is paid for, followed by the sale of the same quantity
    at the same price, gives the money and the count of the item back, and
    still books the proceeds of the sale under ["Vendas"] in the income of
    the day. *)
Theorem buy_then_sell_round_trip
        (item : string) (price quantity : Q) (gs : GameState.t) :
  0 < quantity ->
  price * quantity <= Player.money (GameState.player gs) ->
  0 <= invCount (Player.inventory (GameState.player gs)) item ->
  let gs' := handleMarketTransaction sell item price quantity
               (handleMarketTransaction buy item price quantity gs) in
  Player.money (GameState.player gs') == Player.money (GameState.player gs)
  /\ invCount (Player.inventory (GameState.player gs')) item
     == invCount (Player.inventory (GameState.player gs)) item
  /\ GameState.dailyIncome gs' !! "Vendas"
     = Some (JS.orElseO (GameState.dailyIncome gs !! "Vendas") 0 + price * quantity).
Proof.
  intros Hq Hm Hn gs'. unfold gs'.
  set (pl := addItem item quantity
               (Player.set_money (Player.money (GameState.player gs) - price * quantity)
                  (GameState.player gs))).
  assert (Hbuy : handleMarketTransaction buy item price quantity gs
                 = GameState.set_player pl gs).
  { unfold handleMarketTransaction.
    assert (Hb : JS.geb (Player.money (GameState.player gs)) (price * quantity) = true)
      by (apply geb_ge; exact Hm).
    rewrite Hb. reflexivity. }
  rewrite Hbuy. unfold handleMarketTransaction.
  cbn [GameState.player GameState.set_player].
  destruct (addItem_then_removeItem item quantity
              (Player.set_money (Player.money (GameState.player gs) - price * quantity)
                 (GameState.player gs)) Hq Hn) as (Hok & Hcount & _ & Hpurse).
  fold pl in Hok, Hcount, Hpurse. rewrite Hok.
  cbn [GameState.player GameState.set_player GameState.set_dailyIncome
       GameState.dailyIncome Player.money Player.set_money Player.inventory].
  split; [|split].
  - unfold purse in Hpurse. injection Hpurse as _ _ Hmoney. rewrite Hmoney. simpl. lra.
  - exact Hcount.
  - rewrite lookup_insert_eq. reflexivity.
Qed.

Lemma buy_then_sell_round_trip_witness :
  Player.money (GameState.player
                  (handleMarketTransaction sell "egg" 5 2
                     (handleMarketTransaction buy "egg" 5 2 Sample.state)))
  == Player.money Sample.player
  /\ GameState.dailyIncome
       (handleMarketTransaction sell "egg" 5 2
          (handleMarketTransaction buy "egg" 5 2 Sample.state)) !! "Vendas"
     = Some (JS.orElseO (GameState.dailyIncome Sample.state !! "Vendas") 0 + 5 * 2).
Proof.
  destruct (buy_then_sell_round_trip "egg" 5 2 Sample.state)
    as (H1 & _ & H3); [reflexivity | vm_compute; discriminate | vm_compute; discriminate |].
  split; [exact H1 | exact H3].
Defined.

(** ** The workshop *)

(** A workshop with one recipe: five pieces of wood give a plank. *)
Definition workshop : AppConstants :=
  {| RECIPES_processing :=
       [mkRecipe "plank" "Tábua" {[ "wood" := 5 ]} {[ "plank" := 1 ]} None];
     RECIPES_cooking := [];
     CRAFTING_ENERGY_COST := 10 |}.

(** X5: Crafting a known recipe goes through exactly when the player has the
    energy and every ingredient; then the energy drops by the crafting cost,
    the count of every item changes by what the recipe yields minus what it
    takes, and nothing else changes, neither of the player nor of the rest
    of the state.  Otherwise the state is unchanged. *)
Theorem handleCraft_exchanges
        (A : AppConstants) (recipeId : string) (recipe : Recipe) (gs : GameState.t) :
  JS.find (fun r => String.eqb (rc_id r) recipeId)
          (RECIPES_processing A ++ RECIPES_cooking A)%list = Some recipe ->
  let player := GameState.player gs in
  let res := handleCraft A recipeId gs in
  if JS.geb (Player.energy player) (CRAFTING_ENERGY_COST A)
     && hasItems (rc_input recipe) player
  then
    res.2 = None
    /\ res.1 = GameState.set_player (GameState.player res.1) gs
    /\ GameState.player res.1
       = Player.set_energy (Player.energy player - CRAFTING_ENERGY_COST A)
           (Player.set_inventory (Player.inventory (GameState.player res.1)) player)
    /\ (forall key,
          invCount (Player.inventory (GameState.player res.1)) key
          == invCount (Player.inventory player) key
             - default 0 (rc_input recipe !! key)
             + default 0 (rc_output recipe !! key))
  else res.1 = gs.
Proof.
  intros Hfind player res. unfold res, handleCraft. fold player.
  unfold JS.geb, JS.ltb, JS.leb. rewrite Hfind.
  destruct (Qle_bool (CRAFTING_ENERGY_COST A) (Player.energy player)); simpl;
    [|reflexivity].
  destruct (hasItems (rc_input recipe) player) eqn:Hhas; simpl; [|reflexivity].
  split; [reflexivity|]. split; [reflexivity|]. split.
  - cbn [GameState.player GameState.set_player Player.inventory Player.set_energy
         Player.energy].
    pose proof (addItems_only_inventory (rc_output recipe)
                  (removeItems (rc_input recipe) player)) as H2.
    rewrite (removeItems_only_inventory (rc_input recipe) player) in H2 at 3.
    revert H2. generalize (addItems (rc_output recipe) (removeItems (rc_input recipe) player)).
    intros q H2. destruct player, q. cbn in H2 |- *.
    injection H2. intros. subst. reflexivity.
  - intros key. cbn [GameState.player GameState.set_player Player.inventory Player.set_energy].
    rewrite addItems_count, removeItems_exact by exact Hhas. reflexivity.
Qed.

Lemma handleCraft_exchanges_witness :
  (handleCraft workshop "plank" Sample.state).2 = None
  /\ Player.energy (GameState.player (handleCraft workshop "plank" Sample.state).1)
     = Player.energy Sample.player - 10
  /\ invCount (Player.inventory
                 (GameState.player (handleCraft workshop "plank" Sample.state).1)) "wood"
     == 10 - 5 + 0.
Proof.
  pose proof (handleCraft_exchanges workshop "plank"
                (mkRecipe "plank" "Tábua" {[ "wood" := 5 ]} {[ "plank" := 1 ]} None)
                Sample.state eq_refl) as H.
  cbv zeta in H.
  change (JS.geb (Player.energy (GameState.player Sample.state))
                 (CRAFTING_ENERGY_COST workshop)) with true in H.
  assert (Hhas : hasItems {[ "wood" := 5 ]} (GameState.player Sample.state) = true)
    by (vm_compute; reflexivity).
  cbn [rc_input] in H. rewrite Hhas in H. cbn [andb] in H.
  destruct H as (H1 & _ & H3 & H4).
  split; [exact H1|]. split; [rewrite H3; reflexivity|]. exact (H4 "wood").
Defined.

(** ** Creatures *)

Lemma find_hasId_none (pokemonId : string) (ps : list Pokemon.t) :
  JS.find (hasId pokemonId) ps = None <->
  forall p, In p ps -> Pokemon.id p <> pokemonId.
Proof.
  unfold JS.find, hasId. split.
  - intros H p Hin E. pose proof (find_none _ _ H p Hin) as Hf. simpl in Hf.
    apply String.eqb_neq in Hf. contradiction.
  - intros H. destruct (List.find _ ps) as [p|] eqn:E; [|reflexivity].
    apply find_some in E. destruct E as [Hin Hid]. apply String.eqb_eq in Hid.
    exfalso. exact (H p Hin Hid).
Qed.

Lemma filter_all {X} (f : X -> bool) (l : list X) :
  (forall a, In a l -> f a = true) -> List.filter f l = l.
Proof.
  induction l as [|a l IH]; intros H; simpl; [reflexivity|].
  rewrite (H a) by (left; reflexivity). f_equal. apply IH.
  intros b Hb. apply H. right. exact Hb.
Qed.

(** X6: Releasing a creature removes every creature that carries the identifier
    and keeps the others in their order; when a creature was found the
    identifier also leaves the team.  Releasing an identifier that no
    creature carries changes nothing, not even a team that lists it, and
    releasing twice is the same as releasing once. *)
Theorem handleReleasePokemon_removes (pokemonId : string) (gs : GameState.t) :
  let gs' := handleReleasePokemon pokemonId gs in
  GameState.pokemons gs'
  = List.filter (fun p => negb (String.eqb (Pokemon.id p) pokemonId))
                (GameState.pokemons gs)
  /\ (forall p, In p (GameState.pokemons gs') -> Pokemon.id p <> pokemonId)
  /\ ((exists p, In p (GameState.pokemons gs) /\ Pokemon.id p = pokemonId) ->
      ~ In pokemonId (Player.team (GameState.player gs')))
  /\ ((forall p, In p (GameState.pokemons gs) -> Pokemon.id p <> pokemonId) ->
      gs' = gs)
  /\ handleReleasePokemon pokemonId gs' = gs'.
Proof.
  intros gs'.
  assert (Hfilter : forall p,
             In p (List.filter (fun p => negb (String.eqb (Pokemon.id p) pokemonId))
                               (GameState.pokemons gs)) ->
             Pokemon.id p <> pokemonId).
  { intros p Hin. apply filter_In in Hin. destruct Hin as [_ Hne].
    apply negb_true_iff, String.eqb_neq in Hne. exact Hne. }
  assert (Hnone : JS.find (hasId pokemonId) (GameState.pokemons gs) = None ->
                  List.filter (fun p => negb (String.eqb (Pokemon.id p) pokemonId))
                              (GameState.pokemons gs) = GameState.pokemons gs).
  { intros H0. pose proof (proj1 (find_hasId_none _ _) H0) as H.
    apply filter_all. intros p Hp. apply negb_true_iff, String.eqb_neq, H, Hp. }
  unfold gs', handleReleasePokemon.
  destruct (JS.find (hasId pokemonId) (GameState.pokemons gs)) as [q|] eqn:Hfind.
  - cbn [GameState.pokemons GameState.set_pokemons GameState.set_player
         GameState.player Player.team Player.set_team].
    split; [reflexivity|]. split; [exact Hfilter|]. split; [|split].
    + intros _ Hin. apply filter_In in Hin. destruct Hin as [_ Hne].
      rewrite String.eqb_refl in Hne. discriminate.
    + intros Hall. exfalso. apply find_some in Hfind. destruct Hfind as [Hin Hid].
      apply String.eqb_eq in Hid. exact (Hall q Hin Hid).
    + assert (Hgone : JS.find (hasId pokemonId)
                        (List.filter (fun p => negb (String.eqb (Pokemon.id p) pokemonId))
                                     (GameState.pokemons gs)) = None)
        by (apply (proj2 (find_hasId_none _ _)); exact Hfilter).
      rewrite Hgone. reflexivity.
  - split; [symmetry; apply Hnone; reflexivity|]. split; [|split; [|split]].
    + apply (proj1 (find_hasId_none _ _)). exact Hfind.
    + intros (p & Hin & Hid). exfalso.
      exact (proj1 (find_hasId_none _ _) Hfind p Hin Hid).
    + reflexivity.
    + rewrite Hfind. reflexivity.
Qed.

(** ** Tearing a building down *)

Lemma combine_seq_complete {X} (l : list X) (s i : nat) (a : X) :
  l !! i = Some a -> In ((s + i)%nat, a) (combine (seq s (length l)) l).
Proof.
  revert s i. induction l as [|b l IH]; intros s [|i]; simpl; try discriminate.
  - intros [= ->]. left. f_equal. lia.
  - intros H. right. replace (s + S i)%nat with (S s + i)%nat by lia. apply IH. exact H.
Qed.

Lemma filterIndexed_complete {X} (f : X -> bool) (l : list X) (i : nat) (a : X) :
  l !! i = Some a -> f a = true -> In i (map fst (filterIndexed f l)).
Proof.
  intros Hl Hf. apply in_map_iff. exists (i, a). split; [reflexivity|].
  unfold filterIndexed. apply filter_In. split; [|exact Hf].
  apply (combine_seq_complete l 0 i a Hl).
Qed.

Section Destroy.

Variable K : Constants.
Variables (buildingId : string) (b : Building.t) (homes : list Building.t).
Variable ps0 : list Pokemon.t.

Hypothesis Hhomes : forall h, In h homes -> Building.id h <> buildingId.

(** What became of the creature at an index during the eviction: it is as
    it was, or it lived in the building and has moved to one of [homes]. *)
Definition settled (p0 p : Pokemon.t) : Prop :=
  p = p0
  \/ (Pokemon.homeBuildingId p0 = Some buildingId
      /\ exists h, In h homes
                   /\ p = Pokemon.set_homeBuildingId (Some (Building.id h)) p0).

Definition evictInv (pending : list nat) (acc : list Pokemon.t * list string) : Prop :=
  (forall j p, acc.1 !! j = Some p ->
               exists p0, ps0 !! j = Some p0 /\ settled p0 p)
  /\ (forall j p, acc.1 !! j = Some p ->
                  Pokemon.homeBuildingId p = Some buildingId ->
                  In j pending \/ In (Pokemon.id p) acc.2).

Lemma settled_id (p0 p : Pokemon.t) : settled p0 p -> Pokemon.id p = Pokemon.id p0.
Proof. intros [->|(_ & h & _ & ->)]; reflexivity. Qed.

Lemma evict_step (i : nat) (pending : list nat) (acc : list Pokemon.t * list string) :
  (forall p0, ps0 !! i = Some p0 -> Pokemon.homeBuildingId p0 = Some buildingId) ->
  evictInv (i :: pending) acc -> evictInv pending (evict K b homes acc i).
Proof.
  intros Hres [H1 H2]. unfold evict.
  destruct (acc.1 !! i) as [pokemon|] eqn:Hi.
  2:{ split; [exact H1|]. intros j p Hj Hh.
      destruct (H2 j p Hj Hh) as [[<-|Hin]|Hin]; [congruence | left; exact Hin | right; exact Hin]. }
  assert (Hleave : evictInv pending (acc.1, (acc.2 ++ [Pokemon.id pokemon])%list)).
  { split; [exact H1|]. cbn [fst snd]. intros j p Hj Hh.
    destruct (H2 j p Hj Hh) as [[<-|Hin]|Hin].
    - right. apply in_or_app. right. left. congruence.
    - left. exact Hin.
    - right. apply in_or_app. left. exact Hin. }
  destruct (String.eqb (Building.type b) "lake"
            && JS.includes squirtleFamily (Pokemon.kind pokemon)); [exact Hleave|].
  destruct (findRoom K homes acc.1) as [house|] eqn:Hroom; [|exact Hleave].
  assert (Hin : In house homes).
  { unfold findRoom, JS.find in Hroom. apply find_some in Hroom. exact (proj1 Hroom). }
  split; cbn [fst snd].
  - intros j p Hj. destruct (Nat.eq_dec j i) as [->|Hne].
    + rewrite list_lookup_alter_eq, Hi in Hj. simpl in Hj. injection Hj as <-.
      destruct (H1 i pokemon Hi) as (p0 & Hp0 & Hs). exists p0. split; [exact Hp0|].
      right. destruct Hs as [->|(Hh0 & h & Hh & ->)].
      * split; [apply Hres; exact Hp0|]. exists house. split; [exact Hin | reflexivity].
      * split; [exact Hh0|]. exists house. split; [exact Hin|]. reflexivity.
    + rewrite list_lookup_alter_ne in Hj by (intros E; apply Hne; symmetry; exact E).
      exact (H1 j p Hj).
  - intros j p Hj Hh. destruct (Nat.eq_dec j i) as [->|Hne].
    + rewrite list_lookup_alter_eq, Hi in Hj. simpl in Hj. injection Hj as <-.
      simpl in Hh. injection Hh as Hh. exfalso. exact (Hhomes house Hin Hh).
    + rewrite list_lookup_alter_ne in Hj by (intros E; apply Hne; symmetry; exact E).
      destruct (H2 j p Hj Hh) as [[E|Hin']|Hin'];
        [exfalso; apply Hne; symmetry; exact E | left; exact Hin' | right; exact Hin'].
Qed.

Lemma evict_all (pending : list nat) (acc : list Pokemon.t * list string) :
  (forall i p0, In i pending -> ps0 !! i = Some p0 ->
                Pokemon.homeBuildingId p0 = Some buildingId) ->
  evictInv pending acc -> evictInv [] (fold_left (evict K b homes) pending acc).
Proof.
  revert acc. induction pending as [|i pending IH]; intros acc Hres Hinv; simpl; [exact Hinv|].
  apply IH.
  - intros j p0 Hj. apply Hres. right. exact Hj.
  - apply evict_step; [|exact Hinv]. intros p0. apply Hres. left. reflexivity.
Qed.

End Destroy.

(** X7: After a building is torn down no creature of the farm has it as its
    home: each resident has either moved to another building of the same
    type or left the farm.  A creature that stays is as it was, except for
    the new home of a resident that moved; the building is taken out of the
    list of structures, and the player is not charged. *)
Theorem handleDestroyBuilding_leaves_no_resident
        (K : Constants) (buildingId : string) (gs : GameState.t) (i : nat)
        (b : Building.t) :
  JS.findIndex (fun b => String.eqb (Building.id b) buildingId)
               (FarmWorld.structs (GameState.world gs)) = Some i ->
  FarmWorld.structs (GameState.world gs) !! i = Some b ->
  let gs' := handleDestroyBuilding K buildingId gs in
  (forall p, In p (GameState.pokemons gs') ->
             Pokemon.homeBuildingId p <> Some buildingId
             /\ exists p0, In p0 (GameState.pokemons gs)
                  /\ (p = p0
                      \/ (Pokemon.homeBuildingId p0 = Some buildingId
                          /\ exists h, In h (FarmWorld.structs (GameState.world gs))
                                       /\ Building.id h <> buildingId
                                       /\ Building.type h = Building.type b
                                       /\ p = Pokemon.set_homeBuildingId
                                                (Some (Building.id h)) p0)))
  /\ FarmWorld.structs (GameState.world gs')
     = JS.splice1 i (FarmWorld.structs (GameState.world gs))
  /\ GameState.player gs' = GameState.player gs.
Proof.
  intros Hfind Hb gs'. unfold gs', handleDestroyBuilding. rewrite Hfind, Hb.
  set (homes := List.filter
                  (fun h => negb (String.eqb (Building.id h) buildingId)
                            && String.eqb (Building.type h) (Building.type b))
                  (FarmWorld.structs (GameState.world gs))).
  set (pending := map fst (filterIndexed
                          (fun p => bool_decide (Pokemon.homeBuildingId p = Some buildingId))
                          (GameState.pokemons gs))).
  assert (Hhomes : forall h, In h homes ->
                     In h (FarmWorld.structs (GameState.world gs))
                     /\ Building.id h <> buildingId
                     /\ Building.type h = Building.type b).
  { intros h Hh. apply filter_In in Hh. destruct Hh as [Hin Hc].
    apply andb_true_iff in Hc. destruct Hc as [Hc Ht].
    apply negb_true_iff, String.eqb_neq in Hc. apply String.eqb_eq in Ht.
    split; [|split]; assumption. }
  pose proof (evict_all K buildingId b homes (GameState.pokemons gs)
                (fun h Hh => proj1 (proj2 (Hhomes h Hh))) pending
                (GameState.pokemons gs, [])) as Hinv.
  destruct Hinv as [H1 H2].
  { intros j p0 Hj Hp0. apply filterIndexed_In in Hj. destruct Hj as (a & Ha & Hf).
    rewrite Hp0 in Ha. injection Ha as <-. apply bool_decide_eq_true in Hf. exact Hf. }
  { split; cbn [fst snd].
    - intros j p Hj. exists p. split; [exact Hj | left; reflexivity].
    - intros j p Hj Hh. left. apply (filterIndexed_complete _ _ j p Hj).
      apply bool_decide_eq_true. exact Hh. }
  set (res := fold_left (evict K b homes) pending (GameState.pokemons gs, [])) in *.
  assert (Hmain :
    forall p, In p (List.filter (fun p => negb (JS.includes res.2 (Pokemon.id p))) res.1) ->
      Pokemon.homeBuildingId p <> Some buildingId
      /\ exists p0, In p0 (GameState.pokemons gs)
           /\ (p = p0
               \/ (Pokemon.homeBuildingId p0 = Some buildingId
                   /\ exists h, In h (FarmWorld.structs (GameState.world gs))
                                /\ Building.id h <> buildingId
                                /\ Building.type h = Building.type b
                                /\ p = Pokemon.set_homeBuildingId
                                         (Some (Building.id h)) p0))).
  { intros p Hp. apply filter_In in Hp. destruct Hp as [Hp Hkeep].
    apply list_elem_of_In, list_elem_of_lookup in Hp. destruct Hp as [j Hj].
    split.
    - intros Hh. destruct (H2 j p Hj Hh) as [[]|Hin].
      apply negb_true_iff in Hkeep. unfold JS.includes in Hkeep.
      assert (Ht : existsb (String.eqb (Pokemon.id p)) res.2 = true).
      { apply existsb_exists. exists (Pokemon.id p). split; [exact Hin | apply String.eqb_refl]. }
      congruence.
    - destruct (H1 j p Hj) as (p0 & Hp0 & Hs). exists p0. split.
      + apply list_elem_of_In, list_elem_of_lookup. exists j. exact Hp0.
      + destruct Hs as [->|(Hres & h & Hh & ->)]; [left; reflexivity|].
        right. split; [exact Hres|]. exists h. destruct (Hhomes h Hh) as (Hin & Hne & Ht).
        split; [exact Hin|]. split; [exact Hne|]. split; [exact Ht | reflexivity]. }
  destruct (String.eqb (Building.type b) "farm_area");
    cbn [GameState.pokemons GameState.set_pokemons GameState.set_cropPlots
         GameState.set_world GameState.world GameState.player
         FarmWorld.structs FarmWorld.set_structs];
    (split; [exact Hmain|]; split; reflexivity).
Qed.

(** A farm with two coops and a chick that lives in the first one. *)
Definition twoCoops : GameState.t :=
  GameState.set_pokemons [Sample.creature "p1" "Torchic" 310 310 (Some "bld_coop")]
    (GameState.set_world
       (FarmWorld.set_structs
          [Sample.coop; Building.mk "bld_coop2" "coop" 500 300 80 60 None None None 0]
          Sample.world) Sample.state).

Lemma handleDestroyBuilding_leaves_no_resident_witness :
  (forall p, In p (GameState.pokemons (handleDestroyBuilding Sample.constants "bld_coop" twoCoops)) ->
             Pokemon.homeBuildingId p <> Some "bld_coop")
  /\ FarmWorld.structs (GameState.world (handleDestroyBuilding Sample.constants "bld_coop" twoCoops))
     = [Building.mk "bld_coop2" "coop" 500 300 80 60 None None None 0].
Proof.
  destruct (handleDestroyBuilding_leaves_no_resident Sample.constants "bld_coop" twoCoops 0
              Sample.coop) as (H1 & H2 & _); [reflexivity | reflexivity |].
  split; [intros p Hp; exact (proj1 (H1 p Hp)) | exact H2].
Defined.

(** ** Planting and fertilizing *)

Lemma startsWith_truthy (s pre : string) :
  pre <> "" -> JS.startsWith s pre = true -> JS.truthyS s = true.
Proof.
  intros Hpre H. destruct s; [|reflexivity].
  destruct pre; [contradiction | discriminate].
Qed.

(** X8: Planting the active seed on the plot at an index: on an empty plot, with
    the seed in the inventory, one seed is taken and the plot starts to
    grow that seed, the other plots staying as they are; on an empty plot
    without the seed the state is unchanged and the active seed is dropped;
    on a plot that is not empty nothing happens. *)
Theorem handlePlantActiveSeed_plants
        (i : nat) (seed : string) (plot : CropPlot.t) (gs : GameState.t) :
  JS.startsWith seed "seed" = true ->
  GameState.cropPlots gs !! i = Some plot ->
  let res := handlePlantActiveSeed i (Some seed) gs in
  let inv := Player.inventory (GameState.player gs) in
  if bool_decide (CropPlot.state plot = empty) then
    if JS.geb (invCount inv seed) 1 then
      GameState.cropPlots res.1.1 !! i = Some (plant seed plot)
      /\ (forall j, j <> i ->
            GameState.cropPlots res.1.1 !! j = GameState.cropPlots gs !! j)
      /\ invCount (Player.inventory (GameState.player res.1.1)) seed
         == invCount inv seed - 1
      /\ res.1.2 = Some seed
    else res.1.1 = gs /\ res.1.2 = None
  else res.1.1 = gs /\ res.1.2 = Some seed.
Proof.
  intros Hseed Hplot res inv. unfold res, handlePlantActiveSeed.
  rewrite Hplot, Hseed.
  rewrite (startsWith_truthy seed "seed") by (discriminate || exact Hseed).
  cbn [negb]. destruct (bool_decide (CropPlot.state plot = empty)); cbn [negb];
    [|split; reflexivity].
  fold inv.
  pose proof (removeItem_count seed 1 (GameState.player gs)) as Hcount.
  rewrite removeItem_spec in *. fold inv in Hcount |- *.
  destruct (JS.geb (invCount inv seed) 1); cbn [fst snd] in *; [|split; reflexivity].
  unfold setPlot. cbn [GameState.cropPlots GameState.set_cropPlots GameState.set_player
                       GameState.player].
  split; [|split; [|split]].
  - rewrite list_lookup_alter_eq, Hplot. reflexivity.
  - intros j Hj. apply list_lookup_alter_ne. intros E. apply Hj. symmetry. exact E.
  - apply Hcount. reflexivity.
  - reflexivity.
Qed.

Lemma handlePlantActiveSeed_plants_witness :
  GameState.cropPlots (handlePlantActiveSeed 0 (Some "seedGraoBaga")
                         (handleMarketTransaction buy "seedGraoBaga" 1 2 Sample.state)).1.1
    !! 0%nat
  = Some (plant "seedGraoBaga" Sample.plot).
Proof.
  pose proof (handlePlantActiveSeed_plants 0 "seedGraoBaga" Sample.plot
                (handleMarketTransaction buy "seedGraoBaga" 1 2 Sample.state)
                eq_refl eq_refl) as H.
  cbv zeta in H.
  change (bool_decide (CropPlot.state Sample.plot = empty)) with true in H.
  assert (Hg : JS.geb (invCount (Player.inventory
                                   (GameState.player
                                      (handleMarketTransaction buy "seedGraoBaga" 1 2
                                         Sample.state))) "seedGraoBaga") 1 = true)
    by (vm_compute; reflexivity).
  rewrite Hg in H. exact (proj1 H).
Defined.

Lemma fertilizer_spec (i : nat) (gs : GameState.t) :
  handlePlantActiveSeed i (Some "fertilizer") gs
  = match GameState.cropPlots gs !! i with
    | Some plot =>
        if negb (bool_decide (CropPlot.state plot = growing)) || CropPlot.fertilized plot
        then (gs, Some "fertilizer", None)
        else if JS.ltb (Player.energy (GameState.player gs)) 5
        then (gs, Some "fertilizer", Some "Energia Insuficiente!")
        else
          let res := removeItem "fertilizer" 1 (GameState.player gs) in
          if res.1
          then (setPlot i (CropPlot.set_fertilized true)
                  (GameState.set_player
                     (Player.set_energy (Player.energy res.2 - 5) res.2) gs),
                Some "fertilizer", None)
          else (gs, None, None)
    | None => (gs, Some "fertilizer", None)
    end.
Proof.
  unfold handlePlantActiveSeed. destruct (GameState.cropPlots gs !! i); reflexivity.
Qed.

(** X9: A plot is fertilized at most once: applying the fertilizer a second time
    changes nothing.  An application that goes through needs a growing plot
    that is not fertilized yet, costs five units of energy and one
    fertilizer, and marks the plot; otherwise the state is unchanged. *)
Theorem handlePlantActiveSeed_fertilizes_once (i : nat) (gs : GameState.t) :
  let res := handlePlantActiveSeed i (Some "fertilizer") gs in
  (handlePlantActiveSeed i (Some "fertilizer") res.1.1).1.1 = res.1.1
  /\ (res.1.1 = gs
      \/ exists plot,
           GameState.cropPlots gs !! i = Some plot
           /\ CropPlot.state plot = growing
           /\ CropPlot.fertilized plot = false
           /\ GameState.cropPlots res.1.1 !! i
              = Some (CropPlot.set_fertilized true plot)
           /\ Player.energy (GameState.player res.1.1)
              = Player.energy (GameState.player gs) - 5
           /\ invCount (Player.inventory (GameState.player res.1.1)) "fertilizer"
              == invCount (Player.inventory (GameState.player gs)) "fertilizer" - 1).
Proof.
  intros res.
  assert (Hcase :
    res.1.1 = gs
    \/ exists plot,
         GameState.cropPlots gs !! i = Some plot
         /\ CropPlot.state plot = growing
         /\ CropPlot.fertilized plot = false
         /\ GameState.cropPlots res.1.1 !! i = Some (CropPlot.set_fertilized true plot)
         /\ Player.energy (GameState.player res.1.1)
            = Player.energy (GameState.player gs) - 5
         /\ invCount (Player.inventory (GameState.player res.1.1)) "fertilizer"
            == invCount (Player.inventory (GameState.player gs)) "fertilizer" - 1).
  { unfold res. rewrite fertilizer_spec.
    destruct (GameState.cropPlots gs !! i) as [plot|] eqn:Hplot; [|left; reflexivity].
    destruct (bool_decide (CropPlot.state plot = growing)) eqn:Hst; cbn [negb orb];
      [|left; reflexivity].
    destruct (CropPlot.fertilized plot) eqn:Hf; [left; reflexivity|].
    destruct (JS.ltb _ 5); [left; reflexivity|].
    pose proof (removeItem_count "fertilizer" 1 (GameState.player gs)) as Hcount.
    cbv zeta.
    destruct (removeItem "fertilizer" 1 (GameState.player gs)).1 eqn:Hok;
      [|left; reflexivity].
    right. exists plot. apply bool_decide_eq_true in Hst.
    split; [reflexivity|]. split; [exact Hst|]. split; [exact Hf|].
    unfold setPlot.
    cbn [fst GameState.cropPlots GameState.set_cropPlots GameState.set_player
         GameState.player Player.energy Player.set_energy Player.inventory].
    split; [rewrite list_lookup_alter_eq, Hplot; reflexivity|].
    split; [|apply Hcount; reflexivity].
    rewrite removeItem_spec in *. destruct (JS.geb _ _); [reflexivity | discriminate]. }
  split; [|exact Hcase].
  destruct Hcase as [Hsame|(plot & _ & Hst & _ & Hi & _)].
  - rewrite Hsame. exact Hsame.
  - rewrite fertilizer_spec, Hi.
    assert (Hg : bool_decide (CropPlot.state (CropPlot.set_fertilized true plot) = growing)
                 = true) by (apply bool_decide_eq_true; exact Hst).
    rewrite Hg. reflexivity.
Qed.

(** ** Completing a task: experience and levels *)

(** What the level-up loop relates: the experience left is below the next
    threshold, experience plus threshold is conserved, and every level
    gained comes with a skill point. *)
Record LevelledUp (p p' : Player.t) : Prop := mkLevelledUp {
  lu_below : Player.experience p' < Player.experienceToNextLevel p';
  lu_conserved :
    Player.experience p' + Player.experienceToNextLevel p'
    == Player.experience p + Player.experienceToNextLevel p;
  lu_points :
    Player.level p' - Player.level p
    == Player.skillPoints p' - Player.skillPoints p;
  lu_level : Player.level p <= Player.level p';
  lu_threshold : Player.experienceToNextLevel p <= Player.experienceToNextLevel p';
  lu_rest :
    (Player.name p', Player.energy p', Player.maxEnergy p', Player.money p',
     Player.inventory p', Player.skills p', Player.team p')
    = (Player.name p, Player.energy p, Player.maxEnergy p, Player.money p,
       Player.inventory p, Player.skills p, Player.team p)
}.

Lemma levelUp_done (fuel : nat) (p : Player.t) :
  Player.experience p < Player.experienceToNextLevel p -> levelUp fuel p = Some p.
Proof.
  intros H. assert (Hg : JS.geb (Player.experience p) (Player.experienceToNextLevel p) = false).
  { destruct (JS.geb _ _) eqn:E; [|reflexivity]. apply geb_ge in E. lra. }
  destruct fuel; simpl; rewrite Hg; reflexivity.
Qed.

Lemma levelUp_more (fuel : nat) (p : Player.t) :
  JS.geb (Player.experience p) (Player.experienceToNextLevel p) = true ->
  levelUp (S fuel) p = levelUp fuel (levelUpOnce p).
Proof. intros H. simpl. rewrite H. reflexivity. Qed.

Lemma levelUp_terminates (n : nat) (p : Player.t) :
  0 < Player.experienceToNextLevel p ->
  Player.experience p < natQ n * Player.experienceToNextLevel p ->
  exists p', levelUp n p = Some p' /\ LevelledUp p p'.
Proof.
  revert p. induction n as [|n IH]; intros p Hpos Hlt.
  - change (natQ 0) with 0 in Hlt. exists p. split.
    + apply levelUp_done. lra.
    + constructor; try lra; reflexivity.
  - destruct (JS.geb (Player.experience p) (Player.experienceToNextLevel p)) eqn:Hg.
    + rewrite levelUp_more by exact Hg. apply geb_ge in Hg.
      assert (HS : natQ (S n) == natQ n + 1).
      { unfold natQ. rewrite Nat2Z.inj_succ, <- Z.add_1_r, inject_Z_plus. reflexivity. }
      assert (Hn : 0 <= natQ n).
      { unfold natQ. change 0 with (inject_Z 0). rewrite <- Zle_Qle. lia. }
      destruct (IH (levelUpOnce p)) as (p' & Hrun & Hl).
      * simpl. lra.
      * simpl. rewrite HS in Hlt. nra.
      * exists p'. split; [exact Hrun|].
        destruct Hl as [H1 H2 H3 H4 H5 H6]. simpl in *.
        constructor; try lra. exact H6.
    + exists p. assert (Hb : Player.experience p < Player.experienceToNextLevel p).
      { apply Qnot_le_lt. intros H. apply geb_ge in H. congruence. }
      split; [apply levelUp_done; exact Hb|].
      constructor; try lra; reflexivity.
Qed.

Lemma levelUp_fuel (n m : nat) (p p' : Player.t) :
  levelUp n p = Some p' -> (n <= m)%nat -> levelUp m p = Some p'.
Proof.
  revert m p. induction n as [|n IH]; intros m p Hrun Hle.
  - simpl in Hrun. destruct (JS.geb _ _) eqn:Hg; [discriminate|].
    injection Hrun as <-. destruct m; simpl; rewrite Hg; reflexivity.
  - destruct m as [|m]; [lia|]. simpl in *.
    destruct (JS.geb _ _); [|exact Hrun]. apply IH; [exact Hrun | lia].
Qed.

Lemma levelUp_enough (p : Player.t) :
  0 < Player.experienceToNextLevel p ->
  exists n, Player.experience p < natQ n * Player.experienceToNextLevel p.
Proof.
  intros Hpos.
  exists (Z.to_nat (Qfloor (Player.experience p / Player.experienceToNextLevel p) + 1)).
  set (q := Player.experience p / Player.experienceToNextLevel p).
  assert (Hq : Player.experience p == q * Player.experienceToNextLevel p).
  { unfold q. field. lra. }
  pose proof (Qlt_floor q) as Hfl.
  assert (Hn : inject_Z (Qfloor q + 1)
               <= natQ (Z.to_nat (Qfloor q + 1))).
  { unfold natQ. rewrite <- Zle_Qle. lia. }
  rewrite Hq at 1. apply Qmult_lt_r; [exact Hpos|]. lra.
Qed.

(** X10: Completing a task ends whenever the threshold of the next level is
    positive: with a bound that is large enough the handler returns, and a
    larger bound gives the same result.  The energy reward is capped at the
    maximum, the experience left is below the new threshold, experience
    plus threshold grows by exactly the reward (a level-up moves the
    threshold it spends from one to the other), each level gained brings one
    skill point, and the task is stamped with the time of completion. *)
Theorem handleCompleteTask_levels_up
        (P : Platform) (taskId : string) (gs : GameState.t) (tasks : list Task.t)
        (i : nat) (task : Task.t) :
  JS.findIndex (fun t => String.eqb (Task.id t) taskId) tasks = Some i ->
  tasks !! i = Some task ->
  0 < Player.experienceToNextLevel (GameState.player gs) ->
  let pl := GameState.player gs in
  exists fuel gs',
    (forall n, (fuel <= n)%nat ->
       handleCompleteTask P n taskId (gs, tasks)
       = Some (gs', <[i := Task.set_lastCompletedAt (Some (dateNow P)) task]> tasks))
    /\ Player.energy (GameState.player gs')
       = JS.min (Player.maxEnergy pl)
                (Player.energy pl + energyRewards (Task.difficulty task))
    /\ Player.experience (GameState.player gs')
       < Player.experienceToNextLevel (GameState.player gs')
    /\ Player.experience (GameState.player gs')
       + Player.experienceToNextLevel (GameState.player gs')
       == Player.experience pl + xpRewards (Task.difficulty task)
          + Player.experienceToNextLevel pl
    /\ Player.level (GameState.player gs') - Player.level pl
       == Player.skillPoints (GameState.player gs') - Player.skillPoints pl
    /\ Player.level pl <= Player.level (GameState.player gs').
Proof.
  intros Hfind Htask Hpos pl.
  set (p1 := Player.set_experience
               (Player.experience pl + xpRewards (Task.difficulty task))
               (Player.set_energy
                  (JS.min (Player.maxEnergy pl)
                          (Player.energy pl + energyRewards (Task.difficulty task))) pl)).
  destruct (levelUp_enough p1 Hpos) as [fuel Hfuel].
  destruct (levelUp_terminates fuel p1 Hpos Hfuel) as (p' & Hrun & Hl).
  exists fuel, (GameState.set_player p' gs). split.
  - intros n Hn. unfold handleCompleteTask. cbn [fst snd].
    rewrite Hfind, Htask. cbv zeta.
    match goal with |- match levelUp n ?q with _ => _ end = _ => change q with p1 end.
    rewrite (levelUp_fuel fuel n p1 p' Hrun Hn). reflexivity.
  - destruct Hl as [H1 H2 H3 H4 H5 H6]. simpl in *.
    injection H6 as _ He _ _ _ _ _.
    split; [exact He|]. split; [exact H1|]. split; [exact H2|]. split; [exact H3 | exact H4].
Qed.

(** A task list with one easy task, and a player one point short of the
    second level. *)
Definition chores : list Task.t :=
  [Task.mk "t1" "Regar" [mkSubtask "s1" "encher o balde" false] Facil []
     (mkTaskFrequency Diaria None None None) None 0 None].

Lemma handleCompleteTask_levels_up_witness :
  exists fuel gs',
    handleCompleteTask (Sample.platform [] 10 "2024-1-1") fuel "t1" (Sample.state, chores)
    = Some (gs', <[0%nat := Task.set_lastCompletedAt (Some 1000)
                              (Task.mk "t1" "Regar" [mkSubtask "s1" "encher o balde" false]
                                 Facil [] (mkTaskFrequency Diaria None None None) None 0 None)]>
                  chores)
    /\ Player.experience (GameState.player gs')
       < Player.experienceToNextLevel (GameState.player gs').
Proof.
  destruct (handleCompleteTask_levels_up (Sample.platform [] 10 "2024-1-1") "t1"
              Sample.state chores 0
              (Task.mk "t1" "Regar" [mkSubtask "s1" "encher o balde" false] Facil []
                 (mkTaskFrequency Diaria None None None) None 0 None))
    as (fuel & gs' & Hrun & _ & Hlt & _); [reflexivity | reflexivity | reflexivity |].
  exists fuel, gs'. split; [apply Hrun; lia | exact Hlt].
Defined.

(** X11: With a threshold that is zero or negative the level-up loop of the
    handler never ends once it is entered: no bound on the number of rounds
    is enough. *)
Theorem handleCompleteTask_never_ends
        (P : Platform) (taskId : string) (gs : GameState.t) (tasks : list Task.t)
        (i : nat) (task : Task.t) :
  JS.findIndex (fun t => String.eqb (Task.id t) taskId) tasks = Some i ->
  tasks !! i = Some task ->
  Player.experienceToNextLevel (GameState.player gs) <= 0 ->
  Player.experienceToNextLevel (GameState.player gs)
  <= Player.experience (GameState.player gs) + xpRewards (Task.difficulty task) ->
  forall fuel, handleCompleteTask P fuel taskId (gs, tasks) = None.
Proof.
  intros Hfind Htask Hneg Hexp fuel.
  unfold handleCompleteTask. cbn [fst snd]. rewrite Hfind, Htask.
  match goal with |- match levelUp fuel ?p with _ => _ end = _ =>
    assert (Hloop : forall n q,
               Player.experienceToNextLevel q <= 0 ->
               Player.experienceToNextLevel q <= Player.experience q ->
               levelUp n q = None);
    [|rewrite (Hloop fuel p); [reflexivity | exact Hneg | exact Hexp]]
  end.
  induction n as [|n IH]; intros q H1 H2.
  - simpl. assert (Hg : JS.geb (Player.experience q) (Player.experienceToNextLevel q) = true)
      by (apply geb_ge; exact H2).
    rewrite Hg. reflexivity.
  - rewrite levelUp_more by (apply geb_ge; exact H2).
    apply IH; simpl; lra.
Qed.

Lemma handleCompleteTask_never_ends_witness :
  handleCompleteTask (Sample.platform [] 10 "2024-1-1") 1000 "t1"
    (GameState.set_player (Player.set_experienceToNextLevel 0 Sample.player) Sample.state,
     chores) = None.
Proof.
  apply (handleCompleteTask_never_ends (Sample.platform [] 10 "2024-1-1") "t1"
           (GameState.set_player (Player.set_experienceToNextLevel 0 Sample.player)
              Sample.state) chores 0
           (Task.mk "t1" "Regar" [mkSubtask "s1" "encher o balde" false] Facil []
              (mkTaskFrequency Diaria None None None) None 0 None));
    [reflexivity | reflexivity | vm_compute; discriminate | vm_compute; discriminate].
Defined.

(** ** The task list *)

Lemma toggleSubtask_twice (subtaskId : string) (subs : list Subtask) :
  map (toggleSubtask subtaskId) (map (toggleSubtask subtaskId) subs) = subs.
Proof.
  induction subs as [|s subs IH]; simpl; [reflexivity|]. rewrite IH. f_equal.
  unfold toggleSubtask. destruct (String.eqb (sub_id s) subtaskId) eqn:Es; simpl.
  - rewrite Es, negb_involutive. destruct s; reflexivity.
  - rewrite Es. reflexivity.
Qed.

(** X12: Toggling a subtask twice gives the task list back. *)
Theorem handleToggleSubtask_involution (taskId subtaskId : string) (tasks : list Task.t) :
  handleToggleSubtask taskId subtaskId (handleToggleSubtask taskId subtaskId tasks)
  = tasks.
Proof.
  unfold handleToggleSubtask.
  induction tasks as [|task tasks IH]; simpl; [reflexivity|]. rewrite IH. f_equal.
  destruct (String.eqb (Task.id task) taskId) eqn:E; [|rewrite E; reflexivity].
  cbn [Task.id Task.set_subtasks]. rewrite E.
  destruct task as [id title subs d tags fq due created last].
  unfold Task.set_subtasks. cbn [Task.id Task.title Task.subtasks Task.difficulty Task.tags
    Task.frequency Task.dueDate Task.createdAt Task.lastCompletedAt].
  rewrite toggleSubtask_twice. reflexivity.
Qed.

Lemma findIndex_none {X} (f : X -> bool) (l : list X) :
  JS.findIndex f l = None -> forall a, In a l -> f a = false.
Proof.
  induction l as [|b l IH]; simpl; [intros _ a []|].
  destruct (f b) eqn:Hb; [discriminate|].
  destruct (JS.findIndex f l); [discriminate|].
  intros _ a [<-|Hin]; [exact Hb | apply IH; [reflexivity | exact Hin]].
Qed.

Lemma findIndex_first {X} (f : X -> bool) (l : list X) (i : nat) :
  JS.findIndex f l = Some i ->
  (i < length l)%nat /\ forall j a, (j < i)%nat -> l !! j = Some a -> f a = false.
Proof.
  revert i. induction l as [|b l IH]; intros i; simpl; [discriminate|].
  destruct (f b) eqn:Hb.
  - intros [= <-]. split; [lia|]. intros j a Hj. lia.
  - destruct (JS.findIndex f l) as [k|]; simpl; [|discriminate].
    intros [= <-]. destruct (IH k eq_refl) as [Hlen Hbefore]. split; [lia|].
    intros [|j] a Hj; simpl.
    + intros [= <-]. exact Hb.
    + apply Hbefore. lia.
Qed.

Lemma findIndex_intro {X} (f : X -> bool) (l : list X) (i : nat) (a : X) :
  l !! i = Some a -> f a = true ->
  (forall j b, (j < i)%nat -> l !! j = Some b -> f b = false) ->
  JS.findIndex f l = Some i.
Proof.
  revert i. induction l as [|b l IH]; intros [|i]; simpl; try discriminate.
  - intros [= ->] Hf _. rewrite Hf. reflexivity.
  - intros Hl Hf Hbefore.
    rewrite (Hbefore 0%nat b) by (lia || reflexivity).
    rewrite (IH i Hl Hf); [reflexivity|].
    intros j c Hj Hc. apply (Hbefore (S j) c); [lia | exact Hc].
Qed.

(** X13: Saving a task and looking it up: after [handleSaveTask] the first task
    that carries the identifier of the saved task is the saved task; a task
    that was known is replaced in place (the list keeps its length), a new
    one is appended.  The tasks with other identifiers are kept. *)
Theorem handleSaveTask_upsert (task : Task.t) (tasks : list Task.t) :
  let tasks' := handleSaveTask task tasks in
  let sameId := fun t => String.eqb (Task.id t) (Task.id task) in
  JS.find sameId tasks' = Some task
  /\ length tasks' = (if existsb sameId tasks then length tasks else S (length tasks))
  /\ List.filter (fun t => negb (sameId t)) tasks'
     = List.filter (fun t => negb (sameId t)) tasks.
Proof.
  intros tasks' sameId. unfold tasks', handleSaveTask. fold sameId.
  assert (Hself : sameId task = true) by apply String.eqb_refl.
  destruct (JS.findIndex sameId tasks) as [i|] eqn:Hfind.
  - destruct (findIndex_first _ _ _ Hfind) as [Hlen Hbefore].
    destruct (findIndex_lookup _ _ _ Hfind) as (old & Hold & Hfold).
    assert (Hex : existsb sameId tasks = true).
    { apply existsb_exists. exists old. split; [|exact Hfold].
      apply list_elem_of_In, list_elem_of_lookup. exists i. exact Hold. }
    rewrite Hex. unfold setAt. split; [|split].
    + clear Hex Hold Hfold old Hfind. revert i Hlen Hbefore.
      induction tasks as [|t l IH]; intros i Hlen Hbefore; [simpl in Hlen; lia|].
      destruct i as [|i]; simpl.
      * unfold JS.find. simpl. rewrite Hself. reflexivity.
      * unfold JS.find. simpl.
        rewrite (Hbefore 0%nat t) by (lia || reflexivity).
        apply IH; [simpl in Hlen; lia|].
        intros j a Hj Ha. apply (Hbefore (S j) a); [lia | exact Ha].
    + apply length_insert.
    + clear Hex Hfind Hbefore Hlen. revert i old Hold Hfold.
      induction tasks as [|t l IH]; intros [|i] old; simpl; try discriminate.
      * intros [= ->] Hf. rewrite Hf, Hself. reflexivity.
      * intros Hold Hf. destruct (negb (sameId t)); [f_equal|]; eapply IH; eassumption.
  - assert (Hex : existsb sameId tasks = false).
    { destruct (existsb sameId tasks) eqn:E; [|reflexivity].
      apply existsb_exists in E. destruct E as (a & Hin & Ha).
      rewrite (findIndex_none _ _ Hfind a Hin) in Ha. discriminate. }
    rewrite Hex. split; [|split].
    + unfold JS.find. pose proof (findIndex_none _ _ Hfind) as Hall.
      clear Hfind Hex. induction tasks as [|t l IH]; simpl.
      * rewrite Hself. reflexivity.
      * rewrite (Hall t) by (left; reflexivity). apply IH.
        intros a Ha. apply Hall. right. exact Ha.
    + rewrite length_app. simpl. lia.
    + rewrite List.filter_app. simpl. rewrite Hself. simpl. apply app_nil_r.
Qed.

(** ** Skills *)

Definition skillTotal (p : Player.t) : Q :=
  PlayerSkills.gerente (Player.skills p) + PlayerSkills.sortudo (Player.skills p)
  + PlayerSkills.tratador (Player.skills p) + PlayerSkills.treinador (Player.skills p)
  + Player.skillPoints p.

(** X14: Upgrading a skill moves one point from the free skill points to the
    skill, so the sum of the four levels and the free points is conserved;
    nothing is upgraded without a free point or at the maximum level, and a
    skill with a whole-number level never passes its maximum. *)
Theorem handleUpgradeSkill_moves_a_point (skill : Skill) (gs : GameState.t) :
  let pl := GameState.player gs in
  let pl' := GameState.player (handleUpgradeSkill skill gs) in
  skillTotal pl' == skillTotal pl
  /\ (handleUpgradeSkill skill gs = gs
      \/ (0 < Player.skillPoints pl
          /\ skillLevel skill (Player.skills pl) < skillMaxLevels skill
          /\ skillLevel skill (Player.skills pl') = skillLevel skill (Player.skills pl) + 1
          /\ Player.skillPoints pl' = Player.skillPoints pl - 1))
  /\ (forall z : Z,
        skillLevel skill (Player.skills pl) == inject_Z z ->
        skillLevel skill (Player.skills pl) <= skillMaxLevels skill ->
        skillLevel skill (Player.skills pl') <= skillMaxLevels skill).
Proof.
  intros pl pl'. unfold pl', handleUpgradeSkill. fold pl.
  destruct (JS.leb (Player.skillPoints pl) 0) eqn:Hp.
  { split; [reflexivity|]. split; [left; reflexivity|]. intros z _ H. exact H. }
  destruct (JS.ltb (skillLevel skill (Player.skills pl)) (skillMaxLevels skill)) eqn:Hl.
  2:{ split; [reflexivity|]. split; [left; reflexivity|]. intros z _ H. exact H. }
  apply ltb_lt in Hl.
  assert (Hpos : 0 < Player.skillPoints pl).
  { apply Qnot_le_lt. intros H. apply leb_le in H. congruence. }
  cbn [GameState.player GameState.set_player].
  split; [|split].
  - unfold skillTotal. destruct skill; simpl; ring.
  - right. split; [exact Hpos|]. split; [exact Hl|].
    split; [destruct skill; reflexivity | reflexivity].
  - intros z Hz _.
    assert (Hnew : skillLevel skill
                     (Player.skills
                        (Player.set_skillPoints (Player.skillPoints pl - 1)
                           (Player.set_skills
                              (setSkillLevel skill (skillLevel skill (Player.skills pl) + 1)
                                 (Player.skills pl)) pl)))
                   = skillLevel skill (Player.skills pl) + 1)
      by (destruct skill; reflexivity).
    rewrite Hnew, Hz. rewrite Hz in Hl.
    assert (Hm : exists m : Z, skillMaxLevels skill = inject_Z m)
      by (destruct skill; [exists 5%Z | exists 2%Z | exists 5%Z | exists 3%Z]; reflexivity).
    destruct Hm as [m Hm]. rewrite Hm in *.
    rewrite <- Zlt_Qlt in Hl. change 1 with (inject_Z 1).
    rewrite <- inject_Z_plus, <- Zle_Qle. lia.
Qed.

(** ** The team *)

Lemma teamStep_skip (others : list string) (f : Pokemon.t -> Pokemon.t)
      (l : list string) (ps : list Pokemon.t) :
  (forall id, In id l -> JS.includes others id = true) ->
  fold_left (teamStep others f) l ps = ps.
Proof.
  revert ps. induction l as [|id l IH]; intros ps H; simpl; [reflexivity|].
  unfold teamStep at 2. rewrite (H id) by (left; reflexivity).
  apply IH. intros j Hj. apply H. right. exact Hj.
Qed.

Lemma includes_In (l : list string) (s : string) : In s l -> JS.includes l s = true.
Proof.
  intros H. unfold JS.includes. apply existsb_exists. exists s.
  split; [exact H | apply String.eqb_refl].
Qed.

(** X15: Saving the team that is already saved changes nothing: no creature
    gains or loses the team bonus. *)
Theorem handleSaveTeam_same_team (gs : GameState.t) :
  handleSaveTeam (Player.team (GameState.player gs)) gs = gs.
Proof.
  unfold handleSaveTeam.
  rewrite (teamStep_skip _ joinTeam) by (intros id; apply includes_In).
  rewrite (teamStep_skip _ leaveTeam) by (intros id; apply includes_In).
  destruct gs as [pl]. destruct pl. reflexivity.
Qed.

(** A creature with its happiness and its modifiers blanked out: two
    creatures agree on it when they differ in nothing else. *)
Definition besidesMood (p : Pokemon.t) : Pokemon.t :=
  Pokemon.set_happinessModifiers ∅ (Pokemon.set_happiness 0 p).

Lemma teamStep_inv (others : list string) (f : Pokemon.t -> Pokemon.t)
      (l : list string) (ps : list Pokemon.t) :
  (forall p, inRange p -> inRange (f p)) ->
  (forall p, besidesMood (f p) = besidesMood p) ->
  Forall inRange ps ->
  Forall inRange (fold_left (teamStep others f) l ps)
  /\ map besidesMood (fold_left (teamStep others f) l ps) = map besidesMood ps.
Proof.
  intros Hf Hb. revert ps. induction l as [|id l IH]; intros ps Hps; simpl;
    [split; [exact Hps | reflexivity]|].
  assert (Hstep : Forall inRange (teamStep others f ps id)
                  /\ map besidesMood (teamStep others f ps id) = map besidesMood ps).
  { unfold teamStep. destruct (JS.includes others id); [split; [exact Hps | reflexivity]|].
    destruct (JS.findIndex (hasId id) ps) as [i|]; [|split; [exact Hps | reflexivity]].
    split; [|apply map_alter_same; exact Hb].
    apply Forall_forall. intros p Hp.
    apply list_elem_of_lookup in Hp. destruct Hp as [j Hj].
    destruct (Nat.eq_dec j i) as [->|Hne].
    - rewrite list_lookup_alter_eq in Hj.
      destruct (ps !! i) as [q|] eqn:Hq; [|discriminate]. simpl in Hj. injection Hj as <-.
      apply Hf. rewrite Forall_forall in Hps. apply Hps.
      apply list_elem_of_lookup. exists i. exact Hq.
    - rewrite list_lookup_alter_ne in Hj by (intros E; apply Hne; symmetry; exact E).
      rewrite Forall_forall in Hps. apply Hps. apply list_elem_of_lookup. exists j. exact Hj. }
  destruct Hstep as [H1 H2]. destruct (IH _ H1) as [H3 H4].
  split; [exact H3 | rewrite H4; exact H2].
Qed.

Lemma joinTeam_range (p : Pokemon.t) : inRange p -> inRange (joinTeam p).
Proof.
  unfold inRange, joinTeam, teamBonus, JS.min. simpl. intros [H0 H1]. split.
  - apply Q.min_glb; lra.
  - apply Q.le_min_l.
Qed.

Lemma leaveTeam_range (p : Pokemon.t) : inRange p -> inRange (leaveTeam p).
Proof.
  unfold inRange, leaveTeam, teamBonus, JS.max. simpl. intros [H0 H1]. split.
  - apply Q.le_max_l.
  - apply Q.max_lub; lra.
Qed.

(** X16: Saving a team keeps the happiness of every creature within [[0, 100]],
    keeps the creatures and everything about them but their mood, and
    records the new team. *)
Theorem handleSaveTeam_keeps_range (newTeamIds : list string) (gs : GameState.t) :
  Forall inRange (GameState.pokemons gs) ->
  let gs' := handleSaveTeam newTeamIds gs in
  Forall inRange (GameState.pokemons gs')
  /\ map besidesMood (GameState.pokemons gs') = map besidesMood (GameState.pokemons gs)
  /\ Player.team (GameState.player gs') = newTeamIds.
Proof.
  intros Hps gs'. unfold gs', handleSaveTeam.
  cbn [GameState.pokemons GameState.set_pokemons GameState.set_player GameState.player
       Player.team Player.set_team].
  destruct (teamStep_inv (Player.team (GameState.player gs)) joinTeam newTeamIds
              (GameState.pokemons gs) joinTeam_range (fun _ => eq_refl) Hps) as [H1 H2].
  destruct (teamStep_inv newTeamIds leaveTeam (Player.team (GameState.player gs))
              _ leaveTeam_range (fun _ => eq_refl) H1) as [H3 H4].
  split; [exact H3|]. split; [rewrite H4; exact H2 | reflexivity].
Qed.

Lemma handleSaveTeam_keeps_range_witness :
  Forall inRange (GameState.pokemons (handleSaveTeam ["p1"] henhouse))
  /\ Player.team (GameState.player (handleSaveTeam ["p1"] henhouse)) = ["p1"].
Proof.
  destruct (handleSaveTeam_keeps_range ["p1"] henhouse) as (H1 & _ & H3).
  - repeat constructor; vm_compute; discriminate.
  - split; [exact H1 | exact H3].
Defined.

(** X17: The team bonus does not outlast the day: the daily well-being update
    drops the entry of the bonus and computes the happiness anew, so it
    treats a creature that has joined the team exactly as if it had not. *)
Theorem team_bonus_lost_at_daily_update (c : Conditions) (p : Pokemon.t) :
  Pokemon.happinessModifiers p !! bonusKey = None ->
  dailyMood c (joinTeam p) = dailyMood c p.
Proof.
  intros Hnone.
  assert (Hm : dailyModifiers c (joinTeam p) = dailyModifiers c p).
  { unfold dailyModifiers.
    assert (Hcarry : map_imap carryOver (Pokemon.happinessModifiers (joinTeam p))
                     = map_imap carryOver (Pokemon.happinessModifiers p)).
    { unfold joinTeam, setModifier. cbn [Pokemon.happinessModifiers Pokemon.set_happinessModifiers
                                         Pokemon.set_happiness].
      apply map_eq. intros k. rewrite !map_lookup_imap.
      destruct (decide (k = bonusKey)) as [->|Hne].
      - rewrite lookup_insert_eq, Hnone. reflexivity.
      - rewrite lookup_insert_ne by (intros E; apply Hne; symmetry; exact E). reflexivity. }
    rewrite Hcarry. reflexivity. }
  unfold dailyMood. rewrite Hm. reflexivity.
Qed.

Lemma team_bonus_lost_at_daily_update_witness :
  dailyMood (conditionsOf henhouse) (joinTeam (Sample.creature "p1" "Torchic" 310 310 None))
  = dailyMood (conditionsOf henhouse) (Sample.creature "p1" "Torchic" 310 310 None).
Proof.
  apply (team_bonus_lost_at_daily_update (conditionsOf henhouse)
           (Sample.creature "p1" "Torchic" 310 310 None)).
  reflexivity.
Defined.

(** ** Energy and luck *)

(** X18: The regeneration keeps the energy within [[0, maxEnergy]]; energy that
    is within the range never drops while the regeneration rate and the
    elapsed time are not negative, and below the maximum it grows by
    exactly the rate times the time. *)
Theorem updatePlayer_energy_bounds (K : Constants) (dt : Q) (player : Player.t) :
  0 <= Player.maxEnergy player ->
  let e := Player.energy player in
  let e' := Player.energy (updatePlayer K dt player) in
  let gain := energy_regenPerSec K * dt in
  (0 <= e' /\ e' <= Player.maxEnergy player)
  /\ (0 <= gain -> 0 <= e -> e <= Player.maxEnergy player -> e <= e')
  /\ (0 <= e + gain -> e + gain <= Player.maxEnergy player -> e' == e + gain).
Proof.
  intros Hmax e e' gain. unfold e', updatePlayer. cbn [Player.energy Player.set_energy].
  fold e. fold gain. unfold clamp, JS.max, JS.min.
  split; [|split].
  - split; [apply Q.le_max_l|]. apply Q.max_lub; [exact Hmax | apply Q.le_min_l].
  - intros Hg He0 He1.
    apply Q.max_le_iff. right. apply Q.min_glb; lra.
  - intros H0 H1. rewrite Q.max_r.
    + apply Q.min_r. exact H1.
    + apply Q.min_glb; lra.
Qed.

Lemma updatePlayer_energy_bounds_witness :
  0 <= Player.energy (updatePlayer Sample.constants 5 Sample.player)
  /\ Player.energy (updatePlayer Sample.constants 5 Sample.player) <= 100.
Proof.
  destruct (updatePlayer_energy_bounds Sample.constants 5 Sample.player) as (H & _).
  - vm_compute. discriminate.
  - exact H.
Defined.

Lemma indexNum_cases {X} (l : list X) (i : Q) (x : X) :
  indexNum l i = Some x -> In x l.
Proof.
  unfold indexNum. destruct (_ && _); [|discriminate].
  intros H. apply list_elem_of_In. eapply list_elem_of_lookup_2. exact H.
Qed.

(** X19: The chance of a shiny creature lies between 0.3% and 0.4%, whatever
    level of the skill the player record holds. *)
Theorem calculateShinyChance_bounds (player : Player.t) :
  3 # 1000 <= calculateShinyChance player /\ calculateShinyChance player <= 4 # 1000.
Proof.
  unfold calculateShinyChance, JS.orElseO.
  destruct (indexNum _ _) as [b|] eqn:E.
  - apply indexNum_cases in E.
    assert (Hb : 0 <= JS.orElse b 0 /\ JS.orElse b 0 <= 1 # 1000).
    { rewrite orElse_zero.
      destruct E as [<-|[<-|[<-|[]]]]; split; vm_compute; discriminate. }
    lra.
  - split; vm_compute; discriminate.
Qed.

(** ** The point-in-polygon test *)

Lemma pipLoop_same_side (pt : Point) (side : bool) (pts : list Point)
      (prev : Point) (inside : bool) :
  JS.gtb (py prev) (py pt) = side ->
  (forall v, In v pts -> JS.gtb (py v) (py pt) = side) ->
  pipLoop pt pts prev inside = inside.
Proof.
  revert prev inside. induction pts as [|v pts IH]; intros prev inside Hprev Hall;
    simpl; [reflexivity|].
  assert (Hv : JS.gtb (py v) (py pt) = side) by (apply Hall; left; reflexivity).
  assert (Hc : edgeCrosses pt v prev = false).
  { unfold edgeCrosses. rewrite Hv, Hprev. destruct side; reflexivity. }
  rewrite Hc. apply IH; [exact Hv|]. intros u Hu. apply Hall. right. exact Hu.
Qed.

Lemma last_In (polygon : list Point) (pl : Point) :
  List.last (map Some polygon) None = Some pl -> In pl polygon.
Proof.
  induction polygon as [|a l IH]; [discriminate|].
  destruct l as [|b l].
  - simpl. intros [= ->]. left. reflexivity.
  - intros H. right. apply IH. exact H.
Qed.

(** X20: A point that is not below any vertex of a polygon, or that is below all
    of them, is outside: the test can only answer [true] for a point whose
    [y] lies within the vertical span of the ring.  The empty ring contains
    no point. *)
Theorem isPointInPolygon_outside_span (pt : Point) (polygon : list Point) :
  (forall v, In v polygon -> py v <= py pt)
  \/ (forall v, In v polygon -> py pt < py v) ->
  isPointInPolygon pt polygon = false.
Proof.
  intros H. unfold isPointInPolygon.
  destruct (List.last (map Some polygon) None) as [pl|] eqn:Hlast; [|reflexivity].
  apply last_In in Hlast.
  destruct H as [H|H].
  - apply (pipLoop_same_side pt false).
    + apply gtb_le. apply H. exact Hlast.
    + intros v Hv. apply gtb_le. apply H. exact Hv.
  - apply (pipLoop_same_side pt true).
    + apply gtb_gt. apply H. exact Hlast.
    + intros v Hv. apply gtb_gt. apply H. exact Hv.
Qed.

Lemma isPointInPolygon_outside_span_witness :
  isPointInPolygon (mkPoint 5 30)
    [mkPoint 0 0; mkPoint 10 0; mkPoint 10 20; mkPoint 0 20] = false.
Proof.
  apply isPointInPolygon_outside_span. left.
  intros v [<-|[<-|[<-|[<-|[]]]]]; vm_compute; discriminate.
Defined.

(** The ring of an axis-parallel rectangle, counter-clockwise from its
    corner [(a, c)]. *)
Definition rectangleRing (a b c d : Q) : list Point :=
  [mkPoint a c; mkPoint b c; mkPoint b d; mkPoint a d].

Lemma bool_eq_iff (x y : bool) : (x = true <-> y = true) -> x = y.
Proof. destruct x, y; intros [H1 H2]; try reflexivity; [symmetry; auto | auto]. Qed.

(** X21: On the ring of an axis-parallel rectangle the test is exact and
    half-open: a point is inside when [a <= x < b] and [c <= y < d], so the
    left and the bottom edge belong to the rectangle, the right and the top
    edge do not. *)
Theorem isPointInPolygon_rectangle (a b c d x y : Q) :
  a < b -> c < d ->
  isPointInPolygon (mkPoint x y) (rectangleRing a b c d) = true
  <-> (a <= x /\ x < b) /\ (c <= y /\ y < d).
Proof.
  intros Hab Hcd. unfold isPointInPolygon, rectangleRing. cbn [List.last map pipLoop].
  assert (E1 : edgeCrosses (mkPoint x y) (mkPoint a c) (mkPoint a d)
               = (JS.leb c y && JS.ltb y d) && JS.ltb x a).
  { unfold edgeCrosses. cbn [px py]. f_equal.
    - apply bool_eq_iff. rewrite andb_true_iff, leb_le, ltb_lt.
      destruct (JS.gtb c y) eqn:G1, (JS.gtb d y) eqn:G2; simpl;
        try apply gtb_gt in G1; try apply gtb_le in G1;
        try apply gtb_gt in G2; try apply gtb_le in G2;
        split; try discriminate; try lra; intros _; try reflexivity; lra.
    - apply bool_eq_iff. rewrite !ltb_lt.
      assert (Hz : (a - a) * (y - c) / (d - c) + a == a) by (field; lra).
      rewrite Hz. reflexivity. }
  assert (E2 : edgeCrosses (mkPoint x y) (mkPoint b c) (mkPoint a c) = false).
  { unfold edgeCrosses. cbn [px py]. rewrite xorb_nilpotent. reflexivity. }
  assert (E3 : edgeCrosses (mkPoint x y) (mkPoint b d) (mkPoint b c)
               = (JS.leb c y && JS.ltb y d) && JS.ltb x b).
  { unfold edgeCrosses. cbn [px py]. f_equal.
    - apply bool_eq_iff. rewrite andb_true_iff, leb_le, ltb_lt.
      destruct (JS.gtb c y) eqn:G1, (JS.gtb d y) eqn:G2; simpl;
        try apply gtb_gt in G1; try apply gtb_le in G1;
        try apply gtb_gt in G2; try apply gtb_le in G2;
        split; try discriminate; try lra; intros _; try reflexivity; lra.
    - apply bool_eq_iff. rewrite !ltb_lt.
      assert (Hz : (b - b) * (y - d) / (c - d) + b == b) by (field; lra).
      rewrite Hz. reflexivity. }
  assert (E4 : edgeCrosses (mkPoint x y) (mkPoint a d) (mkPoint b d) = false).
  { unfold edgeCrosses. cbn [px py]. rewrite xorb_nilpotent. reflexivity. }
  rewrite E1, E2, E3, E4.
  destruct (JS.leb c y) eqn:Hc, (JS.ltb y d) eqn:Hd, (JS.ltb x a) eqn:Ha,
           (JS.ltb x b) eqn:Hb; simpl;
    try apply leb_le in Hc; try apply ltb_lt in Hd; try apply ltb_lt in Ha;
    try apply ltb_lt in Hb; try apply ltb_ge in Hd; try apply ltb_ge in Ha;
    try apply ltb_ge in Hb;
    try (assert (Hc' : y < c)
           by (apply Qnot_le_lt; intros Hle; apply leb_le in Hle; congruence));
    split; try discriminate; try (intros _; lra); try (intros; reflexivity);
    try (intros [[? ?] [? ?]]; lra).
Qed.

Lemma isPointInPolygon_rectangle_witness :
  isPointInPolygon (mkPoint 0 5) (rectangleRing 0 10 0 20) = true
  /\ isPointInPolygon (mkPoint 10 5) (rectangleRing 0 10 0 20) = false.
Proof.
  split.
  - apply (isPointInPolygon_rectangle 0 10 0 20 0 5); [reflexivity | reflexivity |].
    repeat split; vm_compute; discriminate.
  - destruct (isPointInPolygon (mkPoint 10 5) (rectangleRing 0 10 0 20)) eqn:E;
      [|reflexivity].
    apply (isPointInPolygon_rectangle 0 10 0 20 10 5) in E; [|reflexivity | reflexivity].
    destruct E as [[_ H] _]. vm_compute in H. discriminate H.
Defined.

(** ** Random integers *)

(** The result of [rint(min, max)]. *)
Lemma rint_spec (P : Platform) (lo hi : Q) (r : Run) :
  0 < hi - lo + 1 ->
  exists z : Z,
    rint P lo hi r = Done (inject_Z z + lo) (mkRun (st r) (S (cursor r)))
    /\ (0 <= z)%Z
    /\ inject_Z z < hi - lo + 1
    /\ (forall k : Z, hi - lo == inject_Z k -> inject_Z z + lo <= hi).
Proof.
  intros Hpos. exists (Qfloor (random P (cursor r) * (hi - lo + 1))).
  destruct (random_range P (cursor r)) as [H0 H1].
  set (x := random P (cursor r)) in *.
  assert (Hx0 : 0 <= x * (hi - lo + 1)) by nra.
  assert (Hx1 : x * (hi - lo + 1) < hi - lo + 1) by nra.
  pose proof (Qfloor_le (x * (hi - lo + 1))) as Hfl.
  split; [reflexivity|]. split; [|split].
  - change 0%Z with (Qfloor 0). apply Qfloor_resp_le. exact Hx0.
  - lra.
  - intros k Hk.
    assert (Hz : inject_Z (Qfloor (x * (hi - lo + 1))) < inject_Z (k + 1)).
    { rewrite inject_Z_plus. change (inject_Z 1) with 1. lra. }
    rewrite <- Zlt_Qlt in Hz.
    assert (Hle : inject_Z (Qfloor (x * (hi - lo + 1))) <= inject_Z k)
      by (rewrite <- Zle_Qle; lia).
    lra.
Qed.

(** X22: [rint(min, max)] consumes one random number and leaves the state
    alone; the result is at least [min] and below [max + 1], it differs
    from [min] by a whole number, and it is at most [max] when [max - min]
    is a whole number. *)
Theorem rint_range (P : Platform) (lo hi : Q) (r : Run) :
  0 < hi - lo + 1 ->
  exists v : Q,
    rint P lo hi r = Done v (mkRun (st r) (S (cursor r)))
    /\ lo <= v
    /\ v < hi + 1
    /\ (exists z : Z, v - lo == inject_Z z)
    /\ ((exists k : Z, hi - lo == inject_Z k) -> v <= hi).
Proof.
  intros Hpos. destruct (rint_spec P lo hi r Hpos) as (z & Hrun & Hz0 & Hz1 & Hle).
  exists (inject_Z z + lo). split; [exact Hrun|].
  assert (H0 : 0 <= inject_Z z) by (change 0 with (inject_Z 0); rewrite <- Zle_Qle; exact Hz0).
  split; [lra|]. split; [lra|]. split.
  - exists z. ring.
  - intros [k Hk]. exact (Hle k Hk).
Qed.

Lemma rint_range_witness :
  exists v : Q,
    rint (Sample.platform [1 # 2] 10 "2024-1-1") 1 3 (mkRun Sample.state 0)
    = Done v (mkRun Sample.state 1)
    /\ 1 <= v /\ v <= 3.
Proof.
  destruct (rint_range (Sample.platform [1 # 2] 10 "2024-1-1") 1 3 (mkRun Sample.state 0))
    as (v & Hrun & Hlo & _ & _ & Hle); [reflexivity|].
  exists v. split; [exact Hrun|]. split; [exact Hlo|].
  apply Hle. exists 2%Z. reflexivity.
Defined.

Lemma wp_rint (P : Platform) (lo hi : Q) (post : Q -> Run -> Prop) (r : Run) :
  0 < hi - lo + 1 ->
  (forall z : Z, (0 <= z)%Z -> inject_Z z < hi - lo + 1 ->
                 post (inject_Z z + lo) (mkRun (st r) (S (cursor r)))) ->
  wp (rint P lo hi) post r.
Proof.
  intros Hpos H. destruct (rint_spec P lo hi r Hpos) as (z & Hrun & Hz0 & Hz1 & _).
  unfold wp. rewrite Hrun. apply H; assumption.
Qed.

(** What the constructor of a creature fixes. *)
Record Newborn (kind : string) (x y : Q) (isShiny : bool) (p : Pokemon.t) : Prop :=
mkNewborn {
  nb_kind : Pokemon.kind p = kind;
  nb_name : Pokemon.name p = kind;
  nb_x : Pokemon.x p = x;
  nb_y : Pokemon.y p = y;
  nb_shiny : Pokemon.isShiny p = isShiny;
  nb_home : Pokemon.homeBuildingId p = None;
  nb_age : Pokemon.age p = 0;
  nb_happiness : Pokemon.happiness p = 50;
  nb_new : Pokemon.isNew p = true;
  nb_awake : Pokemon.isSleeping p = false
}.

Lemma wp_newPokemon (P : Platform) (K : Constants) (kind : string) (x y : Q)
      (isShiny : bool) (post : Pokemon.t -> Run -> Prop) (r : Run) :
  (forall p c, Newborn kind x y isShiny p -> post p (mkRun (st r) c)) ->
  wp (newPokemon P K kind x y isShiny) post r.
Proof.
  intros H. unfold newPokemon. apply wp_bind, wp_rand, wp_bind.
  destruct (String.eqb kind "Miltank"); [apply wp_ret, wp_ret, H; constructor; reflexivity|].
  destruct (String.eqb kind "Tauros"); [apply wp_ret, wp_ret, H; constructor; reflexivity|].
  apply wp_bind, wp_rand, wp_ret, wp_ret, H. constructor; reflexivity.
Qed.

Lemma wp_done_unit (m : M unit) (post : Run -> Prop) (r : Run) :
  wp m (fun _ => post) r -> exists r', m r = Done tt r' /\ post r'.
Proof. unfold wp. destruct (m r) as [[] r'|]; [eauto | contradiction]. Qed.

(** ** Meditation at the lake *)

Definition abraAt (buildingId : string) (p : Pokemon.t) : bool :=
  bool_decide (Pokemon.homeBuildingId p = Some buildingId)
  && JS.includes abraFamily (Pokemon.kind p).

Lemma handleMeditate_guard (P : Platform) (K : Constants) (buildingId : string) (r : Run) :
  existsb (abraAt buildingId) (GameState.pokemons (st r)) = true ->
  handleMeditate P K buildingId r = Done tt r.
Proof.
  intros H. unfold handleMeditate, bind, get.
  destruct (JS.ltb _ _); [reflexivity|].
  destruct (JS.find _ _) as [b|]; [|reflexivity].
  destruct (negb _); [reflexivity|].
  unfold abraAt in H. rewrite H. reflexivity.
Qed.

(** X23: Meditation either leaves the state as it is, or it spends exactly five
    units of energy at a lake that hosts no creature of the Abra family and
    attracts at most one creature: an Abra that is homed at the lake and
    stands at its centre.  Once an Abra has arrived, meditating at that lake
    again does nothing, so meditation brings at most one Abra to a lake. *)
Theorem handleMeditate_outcome (P : Platform) (K : Constants) (buildingId : string) (r : Run) :
  exists r',
    handleMeditate P K buildingId r = Done tt r'
    /\ (st r' = st r
        \/ exists lake,
             In lake (FarmWorld.structs (GameState.world (st r)))
             /\ Building.id lake = buildingId
             /\ Building.type lake = "lake"
             /\ 5 <= Player.energy (GameState.player (st r))
             /\ existsb (abraAt buildingId) (GameState.pokemons (st r)) = false
             /\ Player.energy (GameState.player (st r'))
                = Player.energy (GameState.player (st r)) - 5
             /\ Player.money (GameState.player (st r'))
                = Player.money (GameState.player (st r))
             /\ GameState.world (st r') = GameState.world (st r)
             /\ (GameState.pokemons (st r') = GameState.pokemons (st r)
                 \/ exists p,
                      GameState.pokemons (st r') = (GameState.pokemons (st r) ++ [p])%list
                      /\ Pokemon.kind p = "Abra"
                      /\ Pokemon.homeBuildingId p = Some buildingId
                      /\ Pokemon.x p = Building.x lake + Building.w lake / 2
                      /\ Pokemon.y p = Building.y lake + Building.h lake / 2
                      /\ forall c, handleMeditate P K buildingId (mkRun (st r') c)
                                   = Done tt (mkRun (st r') c))).
Proof.
  apply wp_done_unit.
  unfold handleMeditate. apply wp_bind, wp_get.
  destruct (JS.ltb (Player.energy (GameState.player (st r))) MEDITATE_ENERGY_COST) eqn:He;
    [apply wp_ret; left; reflexivity|].
  destruct (JS.find _ _) as [lake|] eqn:Hfind; [|apply wp_ret; left; reflexivity].
  destruct (String.eqb (Building.type lake) "lake") eqn:Hlake; cbn [negb];
    [|apply wp_ret; left; reflexivity].
  destruct (existsb _ (GameState.pokemons (st r))) eqn:Habra;
    [apply wp_ret; left; reflexivity|].
  apply find_some in Hfind. destruct Hfind as [Hin Hid].
  apply String.eqb_eq in Hid, Hlake. apply ltb_ge in He.
  unfold setEnergy, setPlayer. apply wp_bind, wp_modify, wp_bind, wp_rand.
  destruct (JS.ltb _ (10 # 100)).
  - apply wp_bind, wp_rand, wp_bind, wp_get, wp_bind, wp_newPokemon. intros p c Hp.
    unfold pushPokemon. apply wp_modify. right. exists lake.
    cbn [st GameState.player GameState.set_player GameState.pokemons GameState.set_pokemons
         GameState.world Player.energy Player.set_energy Player.money].
    repeat (split; [first [assumption | reflexivity]|]).
    right. exists (Pokemon.set_homeBuildingId (Some (Building.id lake)) p).
    destruct Hp as [Hkind _ Hx Hy _ _ _ _ _ _].
    cbn [Pokemon.kind Pokemon.set_homeBuildingId Pokemon.homeBuildingId
         Pokemon.x Pokemon.y].
    split; [reflexivity|]. split; [assumption|]. split; [rewrite Hid; reflexivity|].
    split; [assumption|]. split; [assumption|].
    intros c'. apply handleMeditate_guard. cbn [st GameState.pokemons GameState.set_pokemons].
    rewrite existsb_app. apply orb_true_iff. right. simpl.
    unfold abraAt. cbn [Pokemon.kind Pokemon.set_homeBuildingId Pokemon.homeBuildingId].
    rewrite Hkind, Hid.
    rewrite bool_decide_eq_true_2 by reflexivity. reflexivity.
  - apply wp_ret. right. exists lake.
    cbn [st GameState.player GameState.set_player GameState.pokemons GameState.set_pokemons
         GameState.world Player.energy Player.set_energy Player.money].
    repeat (split; [first [assumption | reflexivity]|]).
    left. reflexivity.
Qed.

(** ** Collecting a resource *)

(** The item that a resource yields first. *)
Definition lootItem (resource : Resource.t) : string :=
  let type := Resource.type resource in
  if JS.endsWith type "_tree" && negb (String.eqb type "apple_tree") then "wood"
  else if String.eqb type "rock" then "stone"
  else if String.eqb type "apple_tree" then "apple"
  else if bool_decide (Resource.state resource = Some bush) then "fiber" else "flower".

Definition collectible (resource : Resource.t) : Prop :=
  JS.eqb (requiredEnergy (Resource.type resource)) (-1) = false.

Lemma addItem_purse (item : string) (count : Q) (p : Player.t) :
  purse (addItem item count p) = purse p.
Proof. reflexivity. Qed.

Lemma addItem_count_ne (item other : string) (count : Q) (p : Player.t) :
  item <> other ->
  invCount (Player.inventory (addItem item count p)) other
  = invCount (Player.inventory p) other.
Proof. intros H. unfold invCount. rewrite addItem_other by exact H. reflexivity. Qed.

Lemma wp_loot (P : Platform) (resource : Resource.t)
      (post : unit -> Run -> Prop) (r : Run) :
  collectible resource ->
  (forall pl' c n,
      purse pl' = purse (GameState.player (st r)) ->
      Player.skills pl' = Player.skills (GameState.player (st r)) ->
      1 <= n -> n <= 3 ->
      invCount (Player.inventory pl') (lootItem resource)
      == invCount (Player.inventory (GameState.player (st r))) (lootItem resource) + n ->
      post tt (mkRun (GameState.set_player pl' (st r)) c)) ->
  wp (loot P resource) post r.
Proof.
  intros Hcol H. unfold loot, lootItem in *. unfold collectible, requiredEnergy in Hcol.
  set (type := Resource.type resource) in *.
  assert (Hn : forall z : Z, (0 <= z)%Z -> inject_Z z < 3 - 1 + 1 ->
                 1 <= inject_Z z + 1 /\ inject_Z z + 1 <= 3).
  { intros z Hz0 Hz1. split.
    - change 0%Z with (Qnum 0) in Hz0. assert (0 <= inject_Z z)
        by (change 0 with (inject_Z 0); rewrite <- Zle_Qle; exact Hz0). lra.
    - assert (Hz : inject_Z z < inject_Z 3) by (change (inject_Z 3) with 3; lra).
      rewrite <- Zlt_Qlt in Hz.
      assert (inject_Z z <= inject_Z 2) by (rewrite <- Zle_Qle; lia).
      change (inject_Z 2) with 2 in *. lra. }
  destruct (JS.endsWith type "_tree" && negb (String.eqb type "apple_tree")).
  { apply wp_bind, wp_rint; [reflexivity|]. intros z Hz0 Hz1.
    unfold giveItem, setPlayer. apply wp_modify. cbn [st cursor].
    destruct (Hn z Hz0 Hz1) as [Hlo Hhi].
    apply (H _ _ (inject_Z z + 1)); try assumption; try reflexivity. apply addItem_count. }
  destruct (String.eqb type "rock").
  { apply wp_bind, wp_rint; [reflexivity|]. intros z Hz0 Hz1.
    unfold giveItem, setPlayer. apply wp_bind, wp_modify, wp_bind, wp_rand.
    destruct (Hn z Hz0 Hz1) as [Hlo Hhi]. cbn [st cursor].
    destruct (JS.ltb _ (5 # 100)); cbn [when].
    - apply wp_modify.
      cbn [st cursor GameState.player GameState.set_player].
      match goal with |- post tt {| st := ?g; cursor := ?c |} =>
        replace g with (GameState.set_player
                          (addItem "metal" 1
                             (addItem "stone" (inject_Z z + 1) (GameState.player (st r))))
                          (st r)) by reflexivity
      end.
      apply (H _ _ (inject_Z z + 1)); try assumption; try reflexivity.
      rewrite addItem_count_ne by discriminate. apply addItem_count.
    - apply wp_ret. apply (H _ _ (inject_Z z + 1)); try assumption; try reflexivity.
      apply addItem_count. }
  destruct (String.eqb type "apple_tree").
  { apply wp_bind, wp_rint; [reflexivity|]. intros z Hz0 Hz1.
    unfold giveItem, setPlayer. apply wp_modify. cbn [st cursor].
    destruct (Hn z Hz0 Hz1) as [Hlo Hhi].
    apply (H _ _ (inject_Z z + 1)); try assumption; try reflexivity. apply addItem_count. }
  destruct (String.eqb type "wild_plant"); [|discriminate Hcol].
  unfold giveItem, setPlayer. apply wp_modify. cbn [st cursor].
  apply (H _ _ 1); try reflexivity; try (vm_compute; discriminate).
  destruct (bool_decide _); apply addItem_count.
Qed.

Lemma wp_attract (P : Platform) (K : Constants) (resource : Resource.t)
      (post : unit -> Run -> Prop) (r : Run) :
  (forall gs' c,
      (GameState.player gs', GameState.world gs', GameState.respawnQueue gs',
       GameState.cropPlots gs', GameState.day gs')
      = (GameState.player (st r), GameState.world (st r), GameState.respawnQueue (st r),
         GameState.cropPlots (st r), GameState.day (st r)) ->
      (GameState.pokemons gs' = GameState.pokemons (st r)
       \/ exists p, GameState.pokemons gs' = (GameState.pokemons (st r) ++ [p])%list
                    /\ Pokemon.homeBuildingId p = None) ->
      post tt (mkRun gs' c)) ->
  wp (attract P K resource) post r.
Proof.
  intros H. unfold attract.
  destruct (resourceToPokemonMap _) as [base|];
    [|apply wp_ret; destruct r; apply H; [reflexivity | left; reflexivity]].
  apply wp_bind, wp_get.
  destruct (isTrue _); [apply wp_ret; destruct r; apply H; [reflexivity | left; reflexivity]|].
  apply wp_bind, wp_rand.
  destruct (JS.ltb _ (15 # 100)); [|apply wp_ret; apply H; [reflexivity | left; reflexivity]].
  apply wp_bind, wp_modify. unfold rint.
  apply wp_bind, wp_bind, wp_rand, wp_ret, wp_bind, wp_bind, wp_rand, wp_ret,
        wp_bind, wp_rand, wp_bind, wp_newPokemon.
  intros p c Hp. unfold pushPokemon. apply wp_modify. apply H; [reflexivity|].
  right. exists p. split; [reflexivity|]. destruct Hp; assumption.
Qed.

(** X24: Collecting a resource that the player has the energy for takes exactly
    that resource out of the world and queues one respawn ticket of its
    type, with the respawn time of the type (1800 when none is
    configured); it costs the energy of the type, yields between one and
    three units of the item of the resource (one for a wild plant), leaves
    money, buildings and crop plots alone, and attracts at most one
    creature, which has no home. *)
Theorem handleCollectResource_collects
        (P : Platform) (K : Constants) (resourceId : string) (r : Run)
        (i : nat) (resource : Resource.t) :
  let gs := st r in
  let resources := FarmWorld.resources (GameState.world gs) in
  JS.findIndex (fun x => String.eqb (Resource.id x) resourceId) resources = Some i ->
  resources !! i = Some resource ->
  collectible resource ->
  requiredEnergy (Resource.type resource) <= Player.energy (GameState.player gs) ->
  exists r',
    handleCollectResource P K resourceId r = Done None r'
    /\ FarmWorld.resources (GameState.world (st r')) = JS.splice1 i resources
    /\ FarmWorld.structs (GameState.world (st r')) = FarmWorld.structs (GameState.world gs)
    /\ GameState.respawnQueue (st r')
       = (GameState.respawnQueue gs
          ++ [mkTicket (Resource.type resource)
                (JS.orElseO (resourceRespawn K (Resource.type resource)) 1800)])%list
    /\ Player.energy (GameState.player (st r'))
       = Player.energy (GameState.player gs) - requiredEnergy (Resource.type resource)
    /\ Player.money (GameState.player (st r')) = Player.money (GameState.player gs)
    /\ (exists n, 1 <= n /\ n <= 3
          /\ invCount (Player.inventory (GameState.player (st r'))) (lootItem resource)
             == invCount (Player.inventory (GameState.player gs)) (lootItem resource) + n)
    /\ GameState.cropPlots (st r') = GameState.cropPlots gs
    /\ (GameState.pokemons (st r') = GameState.pokemons gs
        \/ exists p, GameState.pokemons (st r') = (GameState.pokemons gs ++ [p])%list
                     /\ Pokemon.homeBuildingId p = None).
Proof.
  intros gs resources Hfind Hres Hcol Hen.
  assert (Hwp : wp (handleCollectResource P K resourceId)
    (fun note r' =>
       note = None
       /\ FarmWorld.resources (GameState.world (st r')) = JS.splice1 i resources
       /\ FarmWorld.structs (GameState.world (st r')) = FarmWorld.structs (GameState.world gs)
       /\ GameState.respawnQueue (st r')
          = (GameState.respawnQueue gs
             ++ [mkTicket (Resource.type resource)
                   (JS.orElseO (resourceRespawn K (Resource.type resource)) 1800)])%list
       /\ Player.energy (GameState.player (st r'))
          = Player.energy (GameState.player gs) - requiredEnergy (Resource.type resource)
       /\ Player.money (GameState.player (st r')) = Player.money (GameState.player gs)
       /\ (exists n, 1 <= n /\ n <= 3
             /\ invCount (Player.inventory (GameState.player (st r'))) (lootItem resource)
                == invCount (Player.inventory (GameState.player gs)) (lootItem resource) + n)
       /\ GameState.cropPlots (st r') = GameState.cropPlots gs
       /\ (GameState.pokemons (st r') = GameState.pokemons gs
           \/ exists p, GameState.pokemons (st r') = (GameState.pokemons gs ++ [p])%list
                        /\ Pokemon.homeBuildingId p = None)) r).
  { unfold handleCollectResource. apply wp_bind, wp_get.
    fold gs. fold resources. rewrite Hfind, Hres.
    unfold collectible in Hcol. rewrite Hcol.
    assert (He : JS.ltb (Player.energy (GameState.player gs))
                        (requiredEnergy (Resource.type resource)) = false)
      by (apply ltb_ge; exact Hen).
    rewrite He. unfold setEnergy, setPlayer.
    apply wp_bind, wp_modify, wp_bind, wp_loot; [exact Hcol|].
    intros pl' c n Hpurse _ Hn1 Hn3 Hcount.
    unfold removeResourceAt, setWorld, pushTicket.
    apply wp_bind, wp_modify, wp_bind, wp_modify, wp_bind, wp_attract.
    intros gs' c' Hsame Hpoke. apply wp_ret.
    cbn [st cursor GameState.player GameState.set_player GameState.world
         GameState.set_world GameState.respawnQueue GameState.set_respawnQueue
         GameState.cropPlots GameState.pokemons GameState.day
         FarmWorld.resources FarmWorld.set_resources FarmWorld.structs
         Player.energy Player.set_energy Player.money Player.inventory] in *.
    injection Hsame as Hp Hw Hq Hc _. unfold purse in Hpurse.
    cbn [Player.energy Player.set_energy Player.money Player.maxEnergy] in Hpurse.
    injection Hpurse as Hpe _ Hpm.
    rewrite Hp, Hw, Hq, Hc.
    split; [reflexivity|]. split; [reflexivity|]. split; [reflexivity|].
    split; [reflexivity|]. split; [exact Hpe|]. split; [exact Hpm|].
    split; [exists n; split; [exact Hn1|]; split; [exact Hn3 | exact Hcount]|].
    split; [reflexivity | exact Hpoke]. }
  apply wp_done in Hwp. destruct Hwp as (note & r' & Hrun & -> & Hrest).
  exists r'. split; [exact Hrun | exact Hrest].
Qed.

Lemma handleCollectResource_collects_witness :
  exists r',
    handleCollectResource (Sample.platform [1 # 2; 9 # 10] 10 "2024-1-1") Sample.constants
      "res_1" (mkRun Sample.state 0) = Done None r'
    /\ FarmWorld.resources (GameState.world (st r')) = [Sample.tree "res_2" 150 100]
    /\ GameState.respawnQueue (st r') = [mkTicket "oak_tree" 240].
Proof.
  destruct (handleCollectResource_collects (Sample.platform [1 # 2; 9 # 10] 10 "2024-1-1")
              Sample.constants "res_1" (mkRun Sample.state 0) 0
              (Sample.tree "res_1" 100 100))
    as (r' & Hrun & Hres & _ & Hq & _);
    [reflexivity | reflexivity | reflexivity | vm_compute; discriminate |].
  exists r'. split; [exact Hrun|]. split; [exact Hres | exact Hq].
Defined.

(** ** Construction *)

Lemma canAfford_covers (cost : BuildCost) (p : Player.t) :
  canAfford cost p = true ->
  bc_money cost <= Player.money p
  /\ forall key v, bc_resources cost !! key = Some v ->
                   v <= invCount (Player.inventory p) key.
Proof.
  unfold canAfford. rewrite andb_true_iff, forallb_forall. intros [Hm Hr]. split.
  - apply geb_ge. exact Hm.
  - intros key v Hk.
    assert (Hin : In (key, v) (map_to_list (bc_resources cost)))
      by (apply list_elem_of_In, elem_of_map_to_list; exact Hk).
    specialize (Hr _ Hin). simpl in Hr. apply geb_ge. exact Hr.
Qed.

Lemma removeItems_covered (items : gmap string Q) (p : Player.t) (key : string) :
  (forall k v, items !! k = Some v -> v <= invCount (Player.inventory p) k) ->
  invCount (Player.inventory (removeItems items p)) key
  == invCount (Player.inventory p) key - default 0 (items !! key).
Proof.
  intros Hcov. pose proof (removeItems_key_spec items p key) as H.
  destruct (items !! key) as [v|] eqn:Hk; simpl.
  - destruct H as [H _]. rewrite H. specialize (Hcov key v Hk).
    apply Q.max_r. lra.
  - unfold invCount. rewrite H. lra.
Qed.

(** The fields of a building that stay as the constructor and the handler
    set them; the storage is filled in afterwards. *)
Definition plan (b : Building.t) :=
  (Building.id b, Building.type b, Building.x b, Building.y b, Building.w b,
   Building.h b, Building.rotation b).

Section Settle.

Variable P : Platform.
Variable K : Constants.
Variable g1 : GameState.t.
Variable structs0 : list Building.t.
Variable nb : Building.t.

(** The states that the settling of the new building [nb] goes through:
    [k] plots have been laid out so far. *)
Record Settling (k : nat) (gs : GameState.t) : Prop := mkSettling {
  sg_player : GameState.player gs = GameState.player g1;
  sg_resources :
    FarmWorld.resources (GameState.world gs) = FarmWorld.resources (GameState.world g1);
  sg_queue : GameState.respawnQueue gs = GameState.respawnQueue g1;
  sg_time : GameState.gameTime gs = GameState.gameTime g1;
  sg_structs :
    exists nb', FarmWorld.structs (GameState.world gs) = (structs0 ++ [nb'])%list
                /\ plan nb' = plan nb;
  sg_plots :
    exists extra, GameState.cropPlots gs = (GameState.cropPlots g1 ++ extra)%list
                  /\ length extra = k
                  /\ Forall (fun plot => CropPlot.state plot = empty
                                         /\ CropPlot.rotation plot = Building.rotation nb)
                            extra;
  sg_pokemons :
    exists extra, GameState.pokemons gs = (GameState.pokemons g1 ++ extra)%list
                  /\ Forall (fun p => Pokemon.homeBuildingId p = None
                                      \/ Pokemon.homeBuildingId p = Some (Building.id nb))
                            extra
}.

Lemma wp_spawnInBuilding (kind : string) (assignHome : bool) (k : nat) (r : Run) :
  Settling k (st r) ->
  wp (spawnInBuilding P K nb kind assignHome) (fun _ r' => Settling k (st r')) r.
Proof.
  intros [H1 H2 H3 H4 H5 H6 (extra & H7 & H8)]. unfold spawnInBuilding, rint.
  apply wp_bind, wp_get, wp_bind, wp_rand, wp_bind, wp_bind, wp_rand, wp_ret,
        wp_bind, wp_bind, wp_rand, wp_ret, wp_bind, wp_newPokemon.
  intros p c Hp. destruct Hp as [_ _ _ _ _ Hhome _ _ _ _].
  set (p1 := if assignHome then Pokemon.set_homeBuildingId (Some (Building.id nb)) p else p).
  assert (Hp1 : Pokemon.homeBuildingId p1 = None
                \/ Pokemon.homeBuildingId p1 = Some (Building.id nb)).
  { unfold p1. destruct assignHome; [right; reflexivity | left; exact Hhome]. }
  assert (Hpush : forall q c', Pokemon.homeBuildingId q = Pokemon.homeBuildingId p1 ->
            wp (pushPokemon q) (fun _ r' => Settling k (st r')) (mkRun (st r) c')).
  { intros q c' Hq. unfold pushPokemon. apply wp_modify. cbn [st].
    constructor; cbn [GameState.player GameState.set_pokemons GameState.world
                      GameState.respawnQueue GameState.gameTime GameState.cropPlots
                      GameState.pokemons]; try assumption.
    exists (extra ++ [q])%list. split; [rewrite H7, <- app_assoc; reflexivity|].
    apply Forall_app. split; [exact H8|]. constructor; [rewrite Hq; exact Hp1 | constructor]. }
  apply wp_bind. destruct (String.eqb kind "Machop").
  - apply wp_bind, wp_bind, wp_rand, wp_ret, wp_ret. apply Hpush. reflexivity.
  - apply wp_ret. apply Hpush. reflexivity.
Qed.

Lemma wp_maybeSpawn (kind : string) (assignHome : bool) (k : nat) (r : Run) :
  Settling k (st r) ->
  wp (maybeSpawn P K nb kind assignHome) (fun _ r' => Settling k (st r')) r.
Proof.
  intros H. unfold maybeSpawn. apply wp_bind, wp_rand.
  destruct (JS.ltb _ _); cbn [when].
  - apply wp_spawnInBuilding. exact H.
  - apply wp_ret. exact H.
Qed.

Lemma wp_setStorageKind (kind : string) (k : nat) (r : Run) :
  Settling k (st r) ->
  wp (setStorageKind kind) (fun _ r' => Settling k (st r')) r.
Proof.
  intros [H1 H2 H3 H4 (nb' & H5 & Hplan) H6 H7]. unfold setStorageKind, setWorld.
  apply wp_modify. cbn [st].
  constructor; cbn [GameState.player GameState.set_world GameState.world
                    GameState.respawnQueue GameState.gameTime GameState.cropPlots
                    GameState.pokemons FarmWorld.resources FarmWorld.set_structs
                    FarmWorld.structs]; try assumption.
  exists (Building.set_pokemonKind (Some kind) nb'). split; [|exact Hplan].
  rewrite H5. rewrite length_app. simpl.
  replace (length structs0 + 1 - 1)%nat with (length structs0 + 0)%nat by lia.
  rewrite (alter_app_r _ structs0 [nb'] 0). reflexivity.
Qed.

Lemma wp_farmPlot (ow oh : Q) (row col k : nat) (r : Run) :
  Settling k (st r) ->
  wp (farmPlot P nb ow oh row col) (fun _ r' => Settling (S k) (st r')) r.
Proof.
  intros [H1 H2 H3 H4 H5 (extra & H6 & Hlen & Hall) H7].
  unfold farmPlot, newCropPlot, pushCropPlot. cbv zeta.
  apply wp_bind, wp_bind, wp_rand, wp_ret, wp_modify. cbn [st].
  constructor; cbn [GameState.player GameState.set_cropPlots GameState.world
                    GameState.respawnQueue GameState.gameTime GameState.cropPlots
                    GameState.pokemons]; try assumption.
  eexists (extra ++ [_])%list. split; [rewrite H6, <- app_assoc; reflexivity|].
  split; [rewrite length_app; simpl; lia|].
  apply Forall_app. split; [exact Hall|]. constructor; [split; reflexivity | constructor].
Qed.

Lemma wp_forEach_counting {X} (f : X -> M unit) (step : nat) (l : list X) :
  (forall a j r, Settling j (st r) -> wp (f a) (fun _ r' => Settling (step + j) (st r')) r) ->
  forall k r, Settling k (st r) ->
              wp (forEach l f) (fun _ r' => Settling (length l * step + k) (st r')) r.
Proof.
  intros Hf. induction l as [|a l IH]; intros k r H; cbn [forEach length].
  - apply wp_ret. exact H.
  - apply wp_bind. eapply wp_mono; [|apply Hf; exact H].
    cbv beta. intros u r' H'. eapply wp_mono; [|apply IH; exact H'].
    cbv beta. intros u' r'' H''.
    replace (S (length l) * step + k)%nat with (length l * step + (step + k))%nat by lia.
    exact H''.
Qed.

Lemma wp_farmPlots (ow oh : Q) (r : Run) :
  Settling 0 (st r) ->
  wp (forEach (seq 0 3)
        (fun row => forEach (seq 0 5) (fun col => farmPlot P nb ow oh row col)))
     (fun _ r' => Settling 15 (st r')) r.
Proof.
  intros H.
  apply (wp_forEach_counting
           (fun row => forEach (seq 0 5) (fun col => farmPlot P nb ow oh row col))
           5 (seq 0 3)); [|exact H].
  intros row j r1 H1.
  eapply wp_mono;
    [|apply (wp_forEach_counting (fun col => farmPlot P nb ow oh row col) 1 (seq 0 5));
      [|exact H1]].
  - cbv beta. intros u r2 H2. exact H2.
  - intros col i r2 H2. apply wp_farmPlot. exact H2.
Qed.

(** The number of plots that the settling lays out. *)
Definition plotsOf (coreBuildingType : string) : nat :=
  if String.eqb coreBuildingType "farm_area" then 15%nat else 0%nat.

Lemma wp_settle (selectedBuildType coreBuildingType : string) (ow oh : Q) (r : Run) :
  Settling 0 (st r) ->
  wp (settle P K selectedBuildType coreBuildingType nb ow oh)
     (fun _ r' => Settling (plotsOf coreBuildingType) (st r')) r.
Proof.
  intros H. unfold settle, plotsOf.
  destruct (String.eqb coreBuildingType "stable") eqn:E1.
  { apply String.eqb_eq in E1. subst coreBuildingType. cbn [String.eqb Ascii.eqb Bool.eqb].
    apply wp_bind. eapply wp_mono; [|apply wp_spawnInBuilding; exact H].
    intros u r' H'. apply wp_setStorageKind. exact H'. }
  destruct (String.eqb coreBuildingType "farm_area") eqn:E2.
  { apply wp_bind. eapply wp_mono; [|apply wp_farmPlots; exact H].
    intros u r1 H1. apply wp_bind, wp_get, wp_bind.
    eapply wp_mono; [|apply wp_maybeSpawn; exact H1].
    intros u2 r2 H2. apply wp_maybeSpawn. exact H2. }
  destruct (String.eqb coreBuildingType "mine").
  { apply wp_bind. eapply wp_mono; [|apply wp_spawnInBuilding; exact H].
    intros u r' H'. apply wp_setStorageKind. exact H'. }
  destruct (String.eqb coreBuildingType "coop").
  { apply wp_bind. eapply wp_mono; [|apply wp_spawnInBuilding; exact H].
    intros u r' H'. apply wp_setStorageKind. exact H'. }
  destruct (String.eqb coreBuildingType "lake").
  { apply wp_bind. eapply wp_mono; [|apply wp_spawnInBuilding; exact H].
    intros u r1 H1. apply wp_bind, wp_get, wp_bind.
    eapply wp_mono; [|apply wp_maybeSpawn; exact H1].
    intros u2 r2 H2. apply wp_setStorageKind. exact H2. }
  destruct (String.eqb coreBuildingType "campfire"); [apply wp_maybeSpawn; exact H|].
  destruct (String.eqb coreBuildingType "pokemon_gym"); [apply wp_spawnInBuilding; exact H|].
  destruct (String.eqb coreBuildingType "laboratory"); [apply wp_spawnInBuilding; exact H|].
  apply wp_ret. exact H.
Qed.

End Settle.

(** X25: A placement that the validation accepts and the player can afford
    builds: the handler returns without a notification, the price is paid
    in money and materials, the resources that stand on the footprint are
    cleared away, and exactly one building is appended, at the corner that
    the click gives, with the size of its type and the rotation of the build
    mode (both stable types give a building of type ["stable"]).  A farm
    area comes with exactly fifteen empty plots, other buildings with none;
    the creatures that move in are appended, each homed in the new
    building or homeless. *)
Theorem handlePlaceBuilding_builds
        (P : Platform) (K : Constants) (type : string) (buildRotation x y : Q) (r : Run) :
  let gs := st r in
  let size := footprint P type buildRotation in
  let place := placeAt size x y in
  let cost := getBuildCost type in
  type <> "" ->
  Placement.clear (isPlacementAreaClear place.1 place.2 size.1 size.2
                     (GameState.world gs) (Some type)) = true ->
  canAfford cost (GameState.player gs) = true ->
  exists r' nb extraPlots extraPokemons,
    handlePlaceBuilding P K (Some type) buildRotation x y r = Done None r'
    /\ FarmWorld.structs (GameState.world (st r'))
       = (FarmWorld.structs (GameState.world gs) ++ [nb])%list
    /\ (Building.type nb, Building.x nb, Building.y nb, Building.w nb, Building.h nb,
        Building.rotation nb)
       = (if JS.startsWith type "stable_" then "stable" else type,
          place.1, place.2, (getBuildSize type).1, (getBuildSize type).2, buildRotation)
    /\ Player.money (GameState.player (st r'))
       = Player.money (GameState.player gs) - bc_money cost
    /\ (forall key,
          invCount (Player.inventory (GameState.player (st r'))) key
          == invCount (Player.inventory (GameState.player gs)) key
             - default 0 (bc_resources cost !! key))
    /\ FarmWorld.resources (GameState.world (st r'))
       = List.filter
           (fun res => negb (JS.geb (Resource.x res) place.1
                             && JS.leb (Resource.x res) (place.1 + size.1)
                             && JS.geb (Resource.y res) place.2
                             && JS.leb (Resource.y res) (place.2 + size.2)))
           (FarmWorld.resources (GameState.world gs))
    /\ GameState.cropPlots (st r') = (GameState.cropPlots gs ++ extraPlots)%list
    /\ length extraPlots = (if String.eqb type "farm_area" then 15 else 0)%nat
    /\ Forall (fun plot => CropPlot.state plot = empty) extraPlots
    /\ GameState.pokemons (st r') = (GameState.pokemons gs ++ extraPokemons)%list
    /\ Forall (fun p => Pokemon.homeBuildingId p = None
                        \/ Pokemon.homeBuildingId p = Some (Building.id nb))
              extraPokemons.
Proof.
  intros gs size place cost Htype Hclear Hafford.
  set (core := if JS.startsWith type "stable_" then "stable" else type).
  assert (Hplots : plotsOf core = (if String.eqb type "farm_area" then 15 else 0)%nat).
  { unfold plotsOf, core. destruct (JS.startsWith type "stable_") eqn:Es; [|reflexivity].
    destruct (String.eqb type "farm_area") eqn:Ef; [|reflexivity].
    apply String.eqb_eq in Ef. subst type. discriminate Es. }
  destruct (canAfford_covers _ _ Hafford) as [_ Hcov].
  assert (Hwp : wp (handlePlaceBuilding P K (Some type) buildRotation x y)
    (fun note r' =>
       note = None
       /\ exists nb,
            plan nb = (freshId P "bld" (random P (cursor r)), core, place.1, place.2,
                       (getBuildSize type).1, (getBuildSize type).2, buildRotation)
            /\ Settling
                 (GameState.set_world
                    (FarmWorld.set_structs
                       (FarmWorld.structs (GameState.world gs) ++ [nb])
                       (FarmWorld.set_resources
                          (List.filter
                             (fun res => negb (JS.geb (Resource.x res) place.1
                                               && JS.leb (Resource.x res) (place.1 + size.1)
                                               && JS.geb (Resource.y res) place.2
                                               && JS.leb (Resource.y res) (place.2 + size.2)))
                             (FarmWorld.resources (GameState.world gs)))
                          (GameState.world gs)))
                    (GameState.set_player
                       (removeItems (bc_resources cost)
                          (Player.set_money
                             (Player.money (GameState.player gs) - bc_money cost)
                             (GameState.player gs))) gs))
                 (FarmWorld.structs (GameState.world gs)) nb (plotsOf core) (st r')) r).
  { unfold handlePlaceBuilding.
    assert (Ht : JS.truthyS type = true) by (apply truthyS_true; exact Htype).
    rewrite Ht. cbn [negb]. apply wp_bind, wp_get. fold gs. cbv zeta.
    fold size. fold place. rewrite Hclear. cbn [negb]. fold cost. rewrite Hafford.
    unfold setPlayer, setWorld, newBuilding.
    apply wp_bind, wp_modify, wp_bind, wp_modify, wp_bind, wp_bind, wp_rand, wp_ret,
          wp_bind, wp_modify, wp_bind. fold core.
    eapply wp_mono; [|apply wp_settle].
    - intros u r' Hs. apply wp_ret. split; [reflexivity|].
      eexists. split; [|exact Hs]. reflexivity.
    - cbn [st cursor]. constructor; try reflexivity.
      + eexists. split; reflexivity.
      + exists []. split; [rewrite app_nil_r; reflexivity|]. split; [reflexivity | constructor].
      + exists []. split; [rewrite app_nil_r; reflexivity | constructor]. }
  apply wp_done in Hwp. destruct Hwp as (note & r' & Hrun & -> & nb & Hplan & Hs).
  destruct Hs as [H1 H2 H3 H4 (nb' & H5 & Hplan') (extraP & H6 & Hlen & HallP)
                  (extra & H7 & Hall)].
  exists r', nb', extraP, extra.
  cbn [GameState.player GameState.set_player GameState.set_world GameState.world
       GameState.cropPlots GameState.pokemons FarmWorld.resources FarmWorld.set_resources
       FarmWorld.set_structs] in H1, H2, H6, H7.
  split; [exact Hrun|]. split; [exact H5|].
  assert (Hnb : plan nb' = (freshId P "bld" (random P (cursor r)), core, place.1, place.2,
                            (getBuildSize type).1, (getBuildSize type).2, buildRotation))
    by (rewrite Hplan'; exact Hplan).
  unfold plan in Hnb, Hplan'. injection Hnb as Hid Hty Hx Hy Hw Hh Hrot.
  injection Hplan' as Hid' _ _ _ _ _ _.
  split; [rewrite Hty, Hx, Hy, Hw, Hh, Hrot; reflexivity|].
  rewrite H1.
  pose proof (removeItems_purse (bc_resources cost)
                (Player.set_money (Player.money (GameState.player gs) - bc_money cost)
                   (GameState.player gs))) as Hpurse.
  unfold purse in Hpurse. injection Hpurse as _ _ Hm.
  split; [exact Hm|].
  split; [intros key;
          exact (removeItems_covered (bc_resources cost)
                   (Player.set_money (Player.money (GameState.player gs) - bc_money cost)
                      (GameState.player gs)) key Hcov)|].
  split; [exact H2|]. split; [exact H6|]. split; [rewrite Hlen; exact Hplots|].
  split; [eapply Forall_impl; [exact HallP | intros plot [Hst _]; exact Hst]|].
  split; [exact H7|].
  rewrite Hid'. exact Hall.
Qed.

Lemma handlePlaceBuilding_builds_witness :
  exists r' extraPlots,
    handlePlaceBuilding (Sample.platform [] 10 "2024-1-1") Sample.constants
      (Some "farm_area") 0 1000 1000 (mkRun (handleCheat ch_wood Sample.state) 0)
    = Done None r'
    /\ GameState.cropPlots (st r') = (Sample.plot :: extraPlots)%list
    /\ length extraPlots = 15%nat.
Proof.
  destruct (handlePlaceBuilding_builds (Sample.platform [] 10 "2024-1-1") Sample.constants
              "farm_area" 0 1000 1000 (mkRun (handleCheat ch_wood Sample.state) 0))
    as (r' & nb & extraPlots & extraPokemons & Hrun & _ & _ & _ & _ & _ & Hplots & Hlen & _);
    [discriminate | vm_compute; reflexivity | vm_compute; reflexivity |].
  exists r', extraPlots. split; [exact Hrun|]. split; [exact Hplots | exact Hlen].
Defined.

(** ** The ledgers of the day *)

(** The three ledgers that the daily production clears. *)
Definition ledgers (gs : GameState.t) : gmap string Q * gmap string Q * gmap string bool :=
  (GameState.dailyIncome gs, GameState.dailySpawns gs, GameState.dailyResourceSpawns gs).

Lemma processDailyProduction_resets (P : Platform) (K : Constants) (r : Run) :
  snakesHaveAbilities K ->
  wp (processDailyProduction P K)
     (fun _ r' => ledgers (st r') = (∅, ∅, ∅)
                  /\ GameState.dailyPidgeyBonusCount (st r') = 0
                  /\ calendar (st r') = calendar (st r)) r.
Proof.
  intros HK. unfold processDailyProduction.
  apply wp_bind, wp_modify.
  set (proj := fun gs => (ledgers gs, calendar gs)).
  set (x := (((∅, ∅, ∅) : gmap string Q * gmap string Q * gmap string bool),
             calendar (st r))).
  assert (Hstart : proj (st (mkRun
            (GameState.set_dailyResourceSpawns ∅
               (GameState.set_dailySpawns ∅ (GameState.set_dailyIncome ∅ (st r))))
            (cursor r))) = x) by reflexivity.
  revert Hstart. generalize (mkRun
            (GameState.set_dailyResourceSpawns ∅
               (GameState.set_dailySpawns ∅ (GameState.set_dailyIncome ∅ (st r))))
            (cursor r)).
  unfold setCropPlots, setWorld.
  assert (Hpl : forall v gs, proj (GameState.set_player v gs) = proj gs) by reflexivity.
  assert (Hps : forall v gs, proj (GameState.set_pokemons v gs) = proj gs) by reflexivity.
  assert (Hw : forall v gs, proj (GameState.set_world v gs) = proj gs) by reflexivity.
  assert (Hev : forall v gs, proj (GameState.set_eventQueue v gs) = proj gs) by reflexivity.
  assert (Hcp : forall v gs, proj (GameState.set_cropPlots v gs) = proj gs) by reflexivity.
  intros r0 H0.
  apply (keeps_then proj _ _ _ x); [apply keeps_modify; intros; apply Hcp| |exact H0].
  intros r1 H1. apply wp_bind, wp_get.
  apply (keeps_then proj _ _ _ x);
    [apply keeps_when, keeps_modify; intros; apply Hcp| |exact H1].
  apply (keeps_then proj); [apply keeps_pestControl; assumption|].
  apply (keeps_then proj); [apply keeps_updatePokemonHappiness; assumption|].
  intros r2 H2. apply wp_bind, wp_get.
  apply (keeps_then proj _ _ _ x);
    [apply keeps_forEach; intros p _; apply keeps_dailyAbility; assumption| |exact H2].
  intros r3 H3. apply wp_bind, wp_get.
  apply (keeps_then proj _ _ _ x);
    [apply keeps_forEach; intros i _; apply keeps_revive; try assumption;
     intros; apply Hw| |exact H3].
  intros r4 H4. apply wp_bind, wp_get.
  apply (keeps_then proj _ _ _ x); [apply keeps_modify; intros; apply Hw| |exact H4].
  intros r5 H5. apply wp_bind, wp_get.
  apply (keeps_then proj _ _ _ x);
    [apply keeps_forEach; intros i _; apply keeps_ageOne; assumption| |exact H5].
  intros r6 H6. apply wp_modify. cbn [st].
  unfold proj, x in H6. apply pair_equal_spec in H6. destruct H6 as [Hl Hc].
  split; [exact Hl|]. split; [reflexivity | exact Hc].
Qed.

Lemma wp_conj {X} (m : M X) (p1 p2 : X -> Run -> Prop) (r : Run) :
  wp m p1 r -> wp m p2 r -> wp m (fun a r' => p1 a r' /\ p2 a r') r.
Proof. unfold wp. destruct (m r); [split; assumption | intros []]. Qed.

(** X26: A call of the entry point on a new date starts the day with empty
    ledgers: it returns [true], the day number is one higher, and the
    income of the day, the spawn counts of the day, the resource-spawn
    flags and the Pidgey bonus count are all reset; what the passive income
    booked in the same call is discarded with the rest. *)
Theorem advance_new_date_clears_ledgers
        (P : Platform) (K : Constants) (gs : GameState.t) (dt : Q) :
  snakesHaveAbilities K ->
  gameDateString P (GameState.dayChangeHour gs) <> GameState.lastProductionDate gs ->
  exists r,
    advance P K gs dt = Done true r
    /\ GameState.day (st r) = GameState.day gs + 1
    /\ GameState.dailyIncome (st r) = ∅
    /\ GameState.dailySpawns (st r) = ∅
    /\ GameState.dailyResourceSpawns (st r) = ∅
    /\ GameState.dailyPidgeyBonusCount (st r) = 0.
Proof.
  intros HK Hdate.
  assert (Hwp : wp (updateGame P K dt)
    (fun b r => b = true
                /\ GameState.day (st r) = GameState.day gs + 1
                /\ ledgers (st r) = (∅, ∅, ∅)
                /\ GameState.dailyPidgeyBonusCount (st r) = 0) (mkRun gs 0)).
  { unfold updateGame. apply (frame_passes P K dt _ _ _ (stable gs)); [|reflexivity].
    intros r Hr. apply wp_bind, wp_get.
    unfold stable in Hr. apply pair_equal_spec in Hr. destruct Hr as [Hcal _].
    unfold calendar in Hcal. injection Hcal as Hd Hl Hh.
    rewrite Hl, Hh.
    assert (Hne : negb (String.eqb (GameState.lastProductionDate gs)
                          (gameDateString P (GameState.dayChangeHour gs))) = true).
    { apply negb_true_iff, String.eqb_neq. intros E. apply Hdate. symmetry. exact E. }
    rewrite Hne. apply wp_bind, wp_modify, wp_bind.
    eapply wp_mono; [|apply processDailyProduction_resets; exact HK].
    cbv beta. intros u r1 (Hled & Hpid & Hcal1). cbn [st] in Hcal1.
    set (proj := fun g => (ledgers g, GameState.dailyPidgeyBonusCount g, GameState.day g)).
    assert (H1 : proj (st r1) = ((∅, ∅, ∅), 0, GameState.day gs + 1)).
    { unfold proj. rewrite Hled, Hpid. unfold calendar in Hcal1.
      injection Hcal1 as Hd1 _ _. rewrite Hd1.
      cbn [GameState.day GameState.set_lastProductionDate GameState.set_day].
      rewrite Hd. reflexivity. }
    revert r1 H1 Hled Hpid Hcal1. intros r1 H1 _ _ _. revert r1 H1.
    apply (keeps_then proj);
      [apply keeps_processDailySpawns; intros; reflexivity|].
    apply (keeps_then proj);
      [apply keeps_processSpecialSpawns; intros; reflexivity|].
    apply (keeps_then proj);
      [apply keeps_updatePokemonDayNightCycle; intros; reflexivity|].
    intros r4 H4. apply wp_ret. unfold proj in H4.
    injection H4 as Hi Hs Hr Hp Hday.
    split; [reflexivity|]. split; [exact Hday|]. split; [|exact Hp].
    unfold ledgers. rewrite Hi, Hs, Hr. reflexivity. }
  apply wp_done in Hwp. destruct Hwp as (b & r & Hrun & -> & Hday & Hled & Hpid).
  exists r. unfold ledgers in Hled. injection Hled as Hi Hs Hr.
  unfold advance. repeat (split; [assumption|]). assumption.
Qed.

Lemma snakes_sample : snakesHaveAbilities Sample.constants.
Proof. split; eexists; reflexivity. Defined.

Lemma advance_new_date_clears_ledgers_witness :
  exists r,
    advance (Sample.platform [] 10 "2024-1-2") Sample.constants Sample.state 1
    = Done true r
    /\ GameState.day (st r) = 1 + 1
    /\ GameState.dailyIncome (st r) = ∅.
Proof.
  destruct (advance_new_date_clears_ledgers (Sample.platform [] 10 "2024-1-2")
              Sample.constants Sample.state 1 snakes_sample)
    as (r & Hrun & Hday & Hinc & _); [discriminate|].
  exists r. split; [exact Hrun|]. split; [exact Hday | exact Hinc].
Defined.

(** ** The test command that advances a day *)

Definition encounters (gs : GameState.t) : option bool * option bool :=
  (GameState.hasEncounteredEkans gs, GameState.hasEncounteredSpearow gs).

(** X27: The command that advances 24 hours completes, raises the day number by
    one and stamps the state with the game date of the moment, so the next
    call of the entry point on that date does not roll the day a second
    time.  Unlike the rollover of the entry point it runs neither the
    special spawns nor the day and night update: the encounter flags stay
    as they are. *)
Theorem handleAdvanceTime24h_then_advance
        (P : Platform) (K : Constants) (r : Run) (dt : Q) :
  snakesHaveAbilities K ->
  exists r',
    handleAdvanceTime24h P K r = Done tt r'
    /\ GameState.day (st r') = GameState.day (st r) + 1
    /\ GameState.lastProductionDate (st r')
       = gameDateString P (GameState.dayChangeHour (st r))
    /\ encounters (st r') = encounters (st r)
    /\ exists r'',
         advance P K (st r') dt = Done false r''
         /\ GameState.day (st r'') = GameState.day (st r) + 1.
Proof.
  intros HK.
  set (proj := fun g => (GameState.day g, GameState.dayChangeHour g, encounters g)).
  assert (Hwp : wp (handleAdvanceTime24h P K)
    (fun _ r' =>
       GameState.day (st r') = GameState.day (st r) + 1
       /\ GameState.lastProductionDate (st r')
          = gameDateString P (GameState.dayChangeHour (st r))
       /\ GameState.dayChangeHour (st r') = GameState.dayChangeHour (st r)
       /\ encounters (st r') = encounters (st r)) r).
  { unfold handleAdvanceTime24h.
    apply (keeps_then proj _ _ _ (proj (st r)));
      [apply keeps_processDailyProduction; try exact HK; intros; reflexivity| |reflexivity].
    apply (keeps_then proj);
      [apply keeps_processDailySpawns; intros; reflexivity|].
    intros r2 H2. apply wp_bind, wp_modify, wp_modify. cbn [st].
    unfold proj in H2. injection H2 as Hd Hh He1 He2.
    cbn [GameState.day GameState.set_day GameState.set_lastProductionDate
         GameState.lastProductionDate GameState.dayChangeHour].
    split; [rewrite Hd; reflexivity|]. split; [rewrite Hh; reflexivity|].
    split; [exact Hh|].
    unfold encounters.
    cbn [GameState.hasEncounteredEkans GameState.hasEncounteredSpearow
         GameState.set_day GameState.set_lastProductionDate].
    rewrite He1, He2. reflexivity. }
  apply wp_done_unit in Hwp. destruct Hwp as (r' & Hrun & Hday & Hdate & Hhour & Henc).
  exists r'. split; [exact Hrun|]. split; [exact Hday|]. split; [exact Hdate|].
  split; [exact Henc|].
  destruct (advance_same_date P K (st r') dt) as (r'' & Hadv & Hst).
  { rewrite Hhour, Hdate. reflexivity. }
  exists r''. split; [exact Hadv|].
  unfold stable in Hst. apply pair_equal_spec in Hst. destruct Hst as [Hcal _].
  unfold calendar in Hcal. injection Hcal as Hd _ _. rewrite Hd. exact Hday.
Qed.

Lemma handleAdvanceTime24h_then_advance_witness :
  exists r',
    handleAdvanceTime24h (Sample.platform [] 10 "2024-1-1") Sample.constants
      (mkRun Sample.state 0) = Done tt r'
    /\ GameState.day (st r') = 1 + 1
    /\ exists r'',
         advance (Sample.platform [] 10 "2024-1-1") Sample.constants (st r') 1
         = Done false r''
         /\ GameState.day (st r'') = 1 + 1.
Proof.
  destruct (handleAdvanceTime24h_then_advance (Sample.platform [] 10 "2024-1-1")
              Sample.constants (mkRun Sample.state 0) 1 snakes_sample)
    as (r' & Hrun & Hday & _ & _ & Hnext).
  exists r'. split; [exact Hrun|]. split; [exact Hday | exact Hnext].
Defined.

(** ** Well-being: the range of the happiness *)

(** X28: The daily well-being pass completes and leaves the happiness of every
    creature within [[0, 100]], whatever it was before; it neither adds nor
    removes a creature, and changes no species. *)
Theorem updatePokemonHappiness_in_range (P : Platform) (K : Constants) (r : Run) :
  snakesHaveAbilities K ->
  exists r',
    updatePokemonHappiness P K r = Done tt r'
    /\ Forall inRange (GameState.pokemons (st r'))
    /\ map Pokemon.kind (GameState.pokemons (st r'))
       = map Pokemon.kind (GameState.pokemons (st r)).
Proof.
  intros HK. apply wp_done_unit.
  apply (wp_conj (updatePokemonHappiness P K)
           (fun _ r' => Forall inRange (GameState.pokemons (st r')))
           (fun _ r' => map Pokemon.kind (GameState.pokemons (st r'))
                        = map Pokemon.kind (GameState.pokemons (st r)))).
  - apply happiness_in_range. exact HK.
  - unfold updatePokemonHappiness. apply wp_bind, wp_get.
    unfold setPokemons at 1 2. apply wp_bind, wp_modify, wp_bind, wp_modify, wp_bind, wp_get.
    cbn [st GameState.pokemons GameState.set_pokemons].
    match goal with |- wp _ _ ?r2 => set (r2' := r2) end.
    assert (Hkinds : map Pokemon.kind (GameState.pokemons (st r2'))
                     = map Pokemon.kind (GameState.pokemons (st r))).
    { unfold r2'. cbn [st GameState.pokemons GameState.set_pokemons].
      rewrite map_map. cbn [dailyMood Pokemon.kind Pokemon.set_happiness
                            Pokemon.set_happinessModifiers].
      generalize (map fst (filterIndexed Pokemon.isNew (GameState.pokemons (st r)))).
      intros l. generalize (GameState.pokemons (st r)).
      induction l as [|i l IH]; intros ps; simpl; [apply map_ext; reflexivity|].
      rewrite IH. unfold arrival. destruct (ps !! i) as [q|]; [|reflexivity].
      rewrite (map_alter_same Pokemon.kind) by reflexivity.
      destruct (hasHomeId q); [|reflexivity].
      rewrite map_map. apply map_ext. intros p. unfold welcome.
      destruct (_ && _); [|reflexivity].
      destruct (String.eqb _ _); reflexivity. }
    eapply wp_mono;
      [|apply (wp_bites P K (fun _ => tt)); [intros; reflexivity | exact HK | reflexivity]].
    cbv beta. intros u r3 [_ Hv]. rewrite <- Hkinds.
    assert (Hk : forall l1 l2 : list Pokemon.t,
               map vitals l1 = map vitals l2 -> map Pokemon.kind l1 = map Pokemon.kind l2).
    { intros l1 l2 H. apply (f_equal (map fst)) in H. rewrite !map_map in H. exact H. }
    apply Hk. exact Hv.
Qed.

Lemma updatePokemonHappiness_in_range_witness :
  exists r',
    updatePokemonHappiness (Sample.platform [0] 10 "2024-1-2") Sample.constants
      (mkRun henhouse 0) = Done tt r'
    /\ Forall inRange (GameState.pokemons (st r')).
Proof.
  destruct (updatePokemonHappiness_in_range (Sample.platform [0] 10 "2024-1-2")
              Sample.constants (mkRun henhouse 0) snakes_sample) as (r' & Hrun & Hall & _).
  exists r'. split; [exact Hrun | exact Hall].
Defined.

(** ** The caps of the respawn pass *)

Definition isRockType (type : string) : bool := String.eqb type "rock".
Definition isPlantType (type : string) : bool := String.eqb type "wild_plant".

Definition resourcesOf (gs : GameState.t) : list Resource.t :=
  FarmWorld.resources (GameState.world gs).

(** The three counts of the pass on a list of resources. *)
Definition census (rs : list Resource.t) : nat * nat * nat :=
  (countType isTreeType rs, countType isRockType rs, countType isPlantType rs).

Lemma keeps_bind_then {X A B} (proj : GameState.t -> X) (m : M A) (f : A -> M B)
      (post : B -> Run -> Prop) (x : X) :
  keeps proj m ->
  (forall a r, proj (st r) = x -> wp (f a) post r) ->
  forall r, proj (st r) = x -> wp (a <- m ;; f a) post r.
Proof.
  intros Hm Hf r Hr. apply wp_bind. eapply wp_mono; [|apply Hm].
  cbv beta. intros a r' Hr'. apply Hf. rewrite Hr'. exact Hr.
Qed.

Section Caps.

Variable P : Platform.
Variable K : Constants.

(** What a spawn adds for a ticket: nothing, or one resource of the type of
    the ticket, which for a tree may have turned into an apple tree. *)
Definition spawned (item : Ticket) (extra : list Resource.t) : Prop :=
  extra = []
  \/ exists res, extra = [res]
                 /\ (Resource.type res = tk_type item
                     \/ (isTreeType (tk_type item) = true
                         /\ Resource.type res = "apple_tree")).

Lemma wp_spawnFor (item : Ticket) (r : Run) :
  JS.truthyS (tk_type item) = true ->
  wp (spawnFor P K item)
     (fun _ r' => exists extra,
                    resourcesOf (st r') = (resourcesOf (st r) ++ extra)%list
                    /\ spawned item extra) r.
Proof.
  intros Htruthy. unfold spawnFor. apply wp_bind, wp_get. cbv zeta.
  set (proj := fun gs : GameState.t => gs).
  assert (Hnothing : exists extra,
             resourcesOf (st r) = (resourcesOf (st r) ++ extra)%list
             /\ spawned item extra).
  { exists []. split; [rewrite app_nil_r; reflexivity | left; reflexivity]. }
  apply (keeps_bind_then proj _ _ _ (st r));
    [destruct (isTreeType _); [apply keeps_rand | apply keeps_ret]| |reflexivity].
  intros rnd r1 H1.
  apply (keeps_bind_then proj _ _ _ (st r)); [| |exact H1].
  { destruct (_ && _) eqn:Hz; [|apply keeps_ret].
    apply keeps_bind.
    - apply keeps_pickOne. intros E. rewrite E in Hz. simpl in Hz.
      rewrite andb_false_r in Hz. discriminate.
    - intros [x y rad|points c rad]; [apply keeps_ret | apply keeps_fertileLoop]. }
  intros inZone r2 H2.
  apply (keeps_bind_then proj _ _ _ (st r)); [| |exact H2].
  { destruct inZone; [apply keeps_ret|].
    apply keeps_bind; [apply keeps_spotLoop | intros; apply keeps_ret]. }
  intros [c|] r3 H3; [|apply wp_ret; unfold proj in H3; rewrite H3; exact Hnothing].
  apply wp_bind.
  eapply wp_mono;
    [|apply (wp_conj _ (fun _ r' => st r' = st r3) (fun _ _ => True));
      [destruct (_ || _); [apply (keeps_rand proj) | apply (keeps_ret proj)]
      |destruct (_ || _); exact I]].
  cbv beta. intros u r4 [H4 _]. unfold proj in H3. rewrite H3 in H4.
  set (typeToSpawn := if (String.eqb (tk_type item) "oak_tree"
                          || String.eqb (tk_type item) "pine_tree")
                         && JS.ltb u (1 # 10)
                      then "apple_tree" else tk_type item).
  assert (Hty : typeToSpawn = tk_type item
                \/ (isTreeType (tk_type item) = true /\ typeToSpawn = "apple_tree")).
  { unfold typeToSpawn.
    destruct (String.eqb (tk_type item) "oak_tree" || String.eqb (tk_type item) "pine_tree")
      eqn:Hup; cbn [andb]; [|left; reflexivity].
    destruct (JS.ltb u (1 # 10)); [|left; reflexivity].
    right. split; [|reflexivity].
    destruct (isTreeType (tk_type item)) eqn:Hn; [reflexivity|].
    rewrite (nontree_not_upgradable _ Hn) in Hup. discriminate. }
  assert (Htr : JS.truthyS typeToSpawn = true).
  { destruct Hty as [->|[_ ->]]; [exact Htruthy | reflexivity]. }
  rewrite Htr. apply wp_bind, wp_newResource. intros newRes c' Hnew.
  unfold pushResource, setWorld. apply wp_bind, wp_modify.
  set (proj2 := fun gs : GameState.t => resourcesOf gs).
  assert (Hafter : wp (when (isTreeType typeToSpawn) (combeeSpawn P K newRes))
                      (fun _ r' => proj2 (st r')
                                   = (resourcesOf (st r) ++ [newRes])%list)
                      {| st := GameState.set_world
                                 (FarmWorld.set_resources
                                    (FarmWorld.resources (GameState.world (st r4)) ++ [newRes])
                                    (GameState.world (st r4))) (st r4);
                         cursor := c' |}).
  { eapply wp_mono;
      [|apply (keeps_when proj2), keeps_combeeSpawn; intros; reflexivity].
    cbv beta. intros u' r5 H5. rewrite H5. unfold proj2, resourcesOf.
    cbn [st GameState.world GameState.set_world FarmWorld.resources FarmWorld.set_resources].
    rewrite H4. reflexivity. }
  eapply wp_mono; [|exact Hafter].
  cbv beta. intros u' r5 H5. exists [newRes]. split; [exact H5|].
  right. exists newRes. split; [reflexivity|]. rewrite Hnew. exact Hty.
Qed.

Variables nt nr np : nat.
Hypothesis HmaxTrees : world_maxTrees K == natQ nt.
Hypothesis HmaxRocks : world_maxRocks K == natQ nr.
Hypothesis HmaxPlants : world_maxWildPlants K == natQ np.

Variable rs0 : list Resource.t.

(** The invariant of the respawn loop: the resources have only grown, each
    count is covered by the running count of the pass, and no running count
    has passed the larger of the count at the start and the cap. *)
Definition capInv (counts : nat * nat * nat) (r : Run) : Prop :=
  (exists extra, resourcesOf (st r) = (rs0 ++ extra)%list)
  /\ (countType isTreeType (resourcesOf (st r)) <= counts.1.1
      /\ counts.1.1 <= Nat.max (census rs0).1.1 nt)%nat
  /\ (countType isRockType (resourcesOf (st r)) <= counts.1.2
      /\ counts.1.2 <= Nat.max (census rs0).1.2 nr)%nat
  /\ (countType isPlantType (resourcesOf (st r)) <= counts.2
      /\ counts.2 <= Nat.max (census rs0).2 np)%nat.

Lemma below_cap (a n : nat) (cap : Q) :
  cap == natQ n -> JS.ltb (natQ a) cap = true -> (S a <= n)%nat.
Proof.
  intros Hcap H. apply ltb_lt in H. rewrite Hcap in H.
  unfold natQ in H. rewrite <- Zlt_Qlt in H. lia.
Qed.

Lemma spawned_counts (item : Ticket) (rs extra : list Resource.t) (f : string -> bool) :
  spawned item extra ->
  (countType f rs <= countType f (rs ++ extra) <= S (countType f rs))%nat
  /\ (f (tk_type item) = false ->
      (isTreeType (tk_type item) = true -> f "apple_tree" = false) ->
      countType f (rs ++ extra) = countType f rs).
Proof.
  intros [->|(res & -> & Hty)].
  - rewrite app_nil_r. split; [lia | reflexivity].
  - rewrite countType_app. split; [destruct (f (Resource.type res)); lia|].
    intros Hf Ha. destruct Hty as [->|[Htree ->]].
    + rewrite Hf. lia.
    + rewrite (Ha Htree). lia.
Qed.

Lemma respawnOne_capInv (counts : nat * nat * nat) (item : Ticket) (r : Run) :
  capInv counts r ->
  wp (respawnOne P K counts item) capInv r.
Proof.
  intros ((extra0 & Hgrow) & [Ht1 Ht2] & [Hr1 Hr2] & [Hp1 Hp2]).
  destruct counts as [[t rk] p]. cbn [fst snd] in *. unfold respawnOne.
  assert (Hspawn : forall counts' : nat * nat * nat,
             JS.truthyS (tk_type item) = true ->
             (forall rs', (exists extra, spawned item extra
                                         /\ rs' = (resourcesOf (st r) ++ extra)%list) ->
                          (countType isTreeType rs' <= counts'.1.1
                           /\ counts'.1.1 <= Nat.max (census rs0).1.1 nt)%nat
                          /\ (countType isRockType rs' <= counts'.1.2
                              /\ counts'.1.2 <= Nat.max (census rs0).1.2 nr)%nat
                          /\ (countType isPlantType rs' <= counts'.2
                              /\ counts'.2 <= Nat.max (census rs0).2 np)%nat) ->
             wp (spawnFor P K item ;;; ret counts') capInv r).
  { intros counts' Htr Hc. apply wp_bind.
    eapply wp_mono; [|apply wp_spawnFor; exact Htr].
    cbv beta. intros u r' (extra & Hres & Hsp). apply wp_ret. split.
    - exists (extra0 ++ extra)%list. rewrite Hres, Hgrow, app_assoc. reflexivity.
    - apply Hc. exists extra. split; [exact Hsp | exact Hres]. }
  destruct (isTreeType (tk_type item)) eqn:Htree; cbn [andb].
  - destruct (tree_not_rock _ Htree) as (Hnr & Hnp & Htr).
    destruct (JS.ltb (natQ t) (world_maxTrees K)) eqn:Hlt.
    + apply Hspawn; [exact Htr|]. intros rs' (extra & Hsp & ->). cbn [fst snd].
      pose proof (below_cap _ _ _ HmaxTrees Hlt) as Hb.
      destruct (spawned_counts item (resourcesOf (st r)) extra isTreeType Hsp) as [Hc _].
      destruct (spawned_counts item (resourcesOf (st r)) extra isRockType Hsp) as [_ Hc2].
      destruct (spawned_counts item (resourcesOf (st r)) extra isPlantType Hsp) as [_ Hc3].
      rewrite Hc2, Hc3 by (first [exact Hnr | exact Hnp | intros; reflexivity]).
      repeat split; lia.
    + rewrite Hnr, Hnp. cbn [andb]. unfold pushTicket. apply wp_bind, wp_modify, wp_ret.
      split; [exists extra0; exact Hgrow|]. cbn [fst snd]. repeat split; assumption.
  - destruct (String.eqb (tk_type item) "rock") eqn:Hrock; cbn [andb].
    + apply String.eqb_eq in Hrock.
      destruct (JS.ltb (natQ rk) (world_maxRocks K)) eqn:Hlt.
      * apply Hspawn; [rewrite Hrock; reflexivity|].
        intros rs' (extra & Hsp & ->). cbn [fst snd].
        pose proof (below_cap _ _ _ HmaxRocks Hlt) as Hb.
        destruct (spawned_counts item (resourcesOf (st r)) extra isRockType Hsp) as [Hc _].
        destruct (spawned_counts item (resourcesOf (st r)) extra isTreeType Hsp) as [_ Hc2].
        destruct (spawned_counts item (resourcesOf (st r)) extra isPlantType Hsp) as [_ Hc3].
        rewrite Hc2, Hc3
          by (first [exact Htree | rewrite Hrock; reflexivity
                    | intros E; rewrite Htree in E; discriminate E | intros; reflexivity]).
        repeat split; lia.
      * rewrite Hrock. cbn [String.eqb Ascii.eqb Bool.eqb andb].
        unfold pushTicket. apply wp_bind, wp_modify, wp_ret.
        split; [exists extra0; exact Hgrow|]. cbn [fst snd]. repeat split; assumption.
    + destruct (String.eqb (tk_type item) "wild_plant") eqn:Hplant; cbn [andb].
      * apply String.eqb_eq in Hplant.
        destruct (JS.ltb (natQ p) (world_maxWildPlants K)) eqn:Hlt.
        -- apply Hspawn; [rewrite Hplant; reflexivity|].
           intros rs' (extra & Hsp & ->). cbn [fst snd].
           pose proof (below_cap _ _ _ HmaxPlants Hlt) as Hb.
           destruct (spawned_counts item (resourcesOf (st r)) extra isPlantType Hsp) as [Hc _].
           destruct (spawned_counts item (resourcesOf (st r)) extra isTreeType Hsp) as [_ Hc2].
           destruct (spawned_counts item (resourcesOf (st r)) extra isRockType Hsp) as [_ Hc3].
           rewrite Hc2, Hc3
             by (first [exact Htree | exact Hrock
                       | intros E; rewrite Htree in E; discriminate E | intros; reflexivity]).
           repeat split; lia.
        -- unfold pushTicket. apply wp_bind, wp_modify, wp_ret.
           split; [exists extra0; exact Hgrow|]. cbn [fst snd]. repeat split; assumption.
      * unfold pushTicket. apply wp_bind, wp_modify, wp_ret.
        split; [exists extra0; exact Hgrow|]. cbn [fst snd]. repeat split; assumption.
Qed.

End Caps.

(** X29: The respawn pass never pushes a kind of resource above its cap: with
    caps that are whole numbers, after the pass the number of trees, of
    rocks and of wild plants is each at most the larger of what it was and
    the cap of the kind.  The pass completes on every state, and it only
    adds resources: those that were there stay, in their order. *)
Theorem updateWorld_respects_caps
        (P : Platform) (K : Constants) (dt : Q) (r : Run) (nt nr np : nat) :
  world_maxTrees K == natQ nt ->
  world_maxRocks K == natQ nr ->
  world_maxWildPlants K == natQ np ->
  let before := census (resourcesOf (st r)) in
  exists r',
    updateWorld P K dt r = Done tt r'
    /\ (exists extra, resourcesOf (st r') = (resourcesOf (st r) ++ extra)%list)
    /\ let after := census (resourcesOf (st r')) in
       (after.1.1 <= Nat.max before.1.1 nt)%nat
       /\ (after.1.2 <= Nat.max before.1.2 nr)%nat
       /\ (after.2 <= Nat.max before.2 np)%nat.
Proof.
  intros Ht Hr Hp before. apply wp_done_unit.
  unfold updateWorld. apply wp_bind, wp_get. cbv zeta. apply wp_bind, wp_modify.
  assert (Hsame : forall c q,
            resourcesOf (st (mkRun (GameState.set_respawnQueue q (st r)) c))
            = resourcesOf (st r)) by reflexivity.
  destruct (0 <? _)%nat.
  - apply wp_bind.
    eapply wp_mono;
      [|apply (wp_foldM (respawnOne P K)
                 (capInv nt nr np (resourcesOf (st r))))].
    + cbv beta. intros counts r' ((extra & Hgrow) & [Ht1 Ht2] & [Hr1 Hr2] & [Hp1 Hp2]).
      apply wp_ret. split; [exists extra; exact Hgrow|].
      unfold census. cbn [fst snd]. unfold before, census in *. cbn [fst snd] in *.
      repeat split; lia.
    + intros counts item r' _ Hinv.
      apply (respawnOne_capInv P K nt nr np Ht Hr Hp); exact Hinv.
    + split; [exists []; rewrite Hsame, app_nil_r; reflexivity|].
      rewrite Hsame. unfold census, isRockType, isPlantType, resourcesOf.
      cbn [fst snd]. repeat split; lia.
  - apply wp_ret. split; [exists []; rewrite Hsame, app_nil_r; reflexivity|].
    rewrite Hsame. unfold before, census. cbn [fst snd]. repeat split; lia.
Qed.

Lemma updateWorld_respects_caps_witness :
  exists r',
    updateWorld (Sample.platform [] 10 "2024-1-1") Sample.constants 5
      (mkRun (GameState.set_respawnQueue [mkTicket "rock" 3; mkTicket "oak_tree" 2]
                Sample.state) 0) = Done tt r'
    /\ ((census (resourcesOf (st r'))).1.1 <= 2)%nat
    /\ ((census (resourcesOf (st r'))).1.2 <= 2)%nat.
Proof.
  destruct (updateWorld_respects_caps (Sample.platform [] 10 "2024-1-1") Sample.constants 5
              (mkRun (GameState.set_respawnQueue [mkTicket "rock" 3; mkTicket "oak_tree" 2]
                        Sample.state) 0) 2 2 2)
    as (r' & Hrun & _ & H1 & H2 & _); [reflexivity | reflexivity | reflexivity |].
  exists r'. split; [exact Hrun|]. split; [exact H1 | exact H2].
Defined.

(** ** Day and night *)

Definition awake (p : Pokemon.t) : Pokemon.t := Pokemon.set_isSleeping false p.

Definition isDaySpecies (K : Constants) (p : Pokemon.t) : bool :=
  bool_decide (is_Some (tableGet (NIGHT_COUNTERPARTS K) (Pokemon.kind p))).

Definition isNightSpecies (K : Constants) (p : Pokemon.t) : bool :=
  bool_decide (is_Some (tableGet (DAY_COUNTERPARTS K) (Pokemon.kind p))).

Lemma nightSteps_only_sleep (K : Constants) (hour : Q) (l : list nat) (ps : list Pokemon.t) :
  map awake (fold_left (nightStep K hour) l ps) = map awake ps.
Proof.
  revert ps. induction l as [|i l IH]; intros ps; simpl; [reflexivity|].
  rewrite IH. unfold nightStep.
  destruct (ps !! i) as [p|]; [|reflexivity].
  destruct (tableGet _ _) as [info|]; [|reflexivity].
  destruct (_ && _); [|reflexivity].
  destruct (JS.findIndex _ _) as [j|].
  - rewrite !(map_alter_same awake) by reflexivity. reflexivity.
  - rewrite (map_alter_same awake) by reflexivity. reflexivity.
Qed.

